(** * Data Weaver: verification of the parse / normalise / merge / metrics core

    A shallow embedding of the four utility modules of the repository
    ([csvParser.js], the date normaliser, [dataMerger.js] and
    [metricsCalculator.js]), of the pipeline that chains them and of the
    helpers of the loader and of the weather export, together with the
    properties the specification states about them and further properties of
    the code.

    Layout: the JavaScript primitives the code relies on (strings, numbers,
    values, objects, [Map], [Date]), then one module per source file, then the
    lemmas and theorems: first those behind the statements of the
    specification, then the further properties, and last the runs of the
    pipeline in two time zones, which build on both.

    The time zone of the process is part of the host: [Date] reads and
    writes local time, so the offset of local time from UTC is a parameter
    of every function that touches a date. *)

From Stdlib Require Import ZArith NArith List String Ascii Bool Lia.
From Stdlib Require Import Floats.SpecFloat.
From Stdlib Require Import Sorting.Sorted Sorting.Permutation.
Import ListNotations.

(* ================================================================== *)
(** * JavaScript primitives *)
(* ================================================================== *)

Module Js.

Local Open Scope N_scope.

(** ** Strings

    A JS string is a sequence of UTF-16 code units; [u] reads a literal. *)

Definition jsstring := list N.

Definition u (s : string) : jsstring :=
  map N_of_ascii (list_ascii_of_string s).

Fixpoint str_eqb (a b : jsstring) : bool :=
  match a, b with
  | [], [] => true
  | x :: a', y :: b' => (x =? y) && str_eqb a' b'
  | _, _ => false
  end.

(** [a < b] on strings: code-unit lexicographic order. *)
Fixpoint str_ltb (a b : jsstring) : bool :=
  match a, b with
  | _, [] => false
  | [], _ :: _ => true
  | x :: a', y :: b' =>
      if x <? y then true else if y <? x then false else str_ltb a' b'
  end.

(** WhiteSpace and LineTerminator code points: what [trim] removes, what
    [\s] matches and what [Number] skips around a literal. *)
Definition isWhiteSpace (c : N) : bool :=
  existsb (N.eqb c)
    [9; 10; 11; 12; 13; 32; 160; 5760; 8232; 8233; 8239; 8287; 12288; 65279]
  || ((8192 <=? c) && (c <=? 8202)).

Definition isDigit (c : N) : bool := (48 <=? c) && (c <=? 57).
Definition isUpper (c : N) : bool := (65 <=? c) && (c <=? 90).
Definition isLower (c : N) : bool := (97 <=? c) && (c <=? 122).
Definition isAlpha (c : N) : bool := isUpper c || isLower c.

Fixpoint span (p : N -> bool) (s : jsstring) : jsstring * jsstring :=
  match s with
  | c :: s' => if p c then let '(a, b) := span p s' in (c :: a, b) else ([], s)
  | [] => ([], [])
  end.

Fixpoint trimStart (s : jsstring) : jsstring :=
  match s with
  | c :: s' => if isWhiteSpace c then trimStart s' else s
  | [] => []
  end.

Definition trimEnd (s : jsstring) : jsstring := rev (trimStart (rev s)).
Definition trim (s : jsstring) : jsstring := trimEnd (trimStart s).

(** [s.split(sep)] for a one-unit separator. *)
Fixpoint split (sep : N) (s : jsstring) : list jsstring :=
  match s with
  | [] => [[]]
  | c :: s' =>
      if c =? sep then [] :: split sep s'
      else match split sep s' with
           | p :: ps => (c :: p) :: ps
           | [] => [[c]]
           end
  end.

(** [parts.join(sep)]. *)
Fixpoint join (sep : jsstring) (parts : list jsstring) : jsstring :=
  match parts with
  | [] => []
  | [p] => p
  | p :: ps => p ++ sep ++ join sep ps
  end.

Definition includes (c : N) (s : jsstring) : bool := existsb (N.eqb c) s.

(** [s.padStart(n, '0')]. *)
Definition padStart0 (n : nat) (s : jsstring) : jsstring :=
  repeat 48 (n - List.length s)%nat ++ s.

(** [toLowerCase] on one ASCII letter. *)
Definition lowerUnit (c : N) : N := if isUpper c then c + 32 else c.

(** [toLowerCase] where the code then keeps ASCII only: exact on every code
    unit whose lower case contains an ASCII unit (A-Z, U+0130, U+212A); the
    other units stay outside ASCII, as their lower cases do. *)
Definition toLowerCase (s : jsstring) : jsstring :=
  flat_map (fun c =>
              if isUpper c then [c + 32]
              else if c =? 304 then [105; 775]
              else if c =? 8490 then [107]
              else [c]) s.

(** Decimal digits of a natural number, most significant first. *)
Fixpoint digitsOfPos (fuel : nat) (n : N) (acc : jsstring) : jsstring :=
  match fuel with
  | O => acc
  | S fuel' =>
      let acc' := (48 + n mod 10) :: acc in
      if n / 10 =? 0 then acc' else digitsOfPos fuel' (n / 10) acc'
  end.

Definition natToString (n : N) : jsstring :=
  digitsOfPos (S (N.to_nat (N.log2 n))) n [].

Definition intToString (z : Z) : jsstring :=
  match z with
  | Z0 => [48]
  | Zpos p => natToString (Npos p)
  | Zneg p => 45 :: natToString (Npos p)
  end.

(** ** Numbers

    A JS number is an IEEE 754 binary64 value; the operations are those of
    the standard library's executable specification of binary floats. *)

Definition num := spec_float.

Definition fadd : num -> num -> num := SFadd 53 1024.
Definition fsub : num -> num -> num := SFsub 53 1024.
Definition fmul : num -> num -> num := SFmul 53 1024.
Definition fdiv : num -> num -> num := SFdiv 53 1024.
Definition fsqrt : num -> num := SFsqrt 53 1024.
Definition fneg : num -> num := SFopp.
Definition feqb : num -> num -> bool := SFeqb.
Definition fltb : num -> num -> bool := SFltb.
Definition fleb : num -> num -> bool := SFleb.

Definition isFiniteNum (x : num) : bool :=
  match x with
  | S754_zero _ | S754_finite _ _ _ => true
  | S754_infinity _ | S754_nan => false
  end.

Definition isNaN (x : num) : bool :=
  match x with S754_nan => true | _ => false end.

(** The value is a binary64 number: its mantissa and exponent are the
    canonical ones, within range. *)
Definition validNum (x : num) : bool := valid_binary 53 1024 x.

Definition ofZ (z : Z) : num := binary_normalize 53 1024 z 0 false.
Definition ofNat (n : nat) : num := ofZ (Z.of_nat n).

(** The number [m * 10^e] (with [0 <= m]) rounded to nearest, ties to even;
    [neg] is the sign. *)
Definition decimalToNum (neg : bool) (m e : Z) : num :=
  match m with
  | Z0 => S754_zero neg
  | _ =>
      if (0 <=? e)%Z then
        binary_normalize 53 1024 (cond_Zopp neg (m * 10 ^ e)%Z) 0 false
      else
        let '(q, e', l) := SFdiv_core_binary 53 1024 m 0 (10 ^ (- e))%Z 0 in
        binary_round_aux 53 1024 neg q e' l
  end.

(** Integer part towards zero of a finite number. *)
Definition truncNum (x : num) : Z :=
  match x with
  | S754_finite s m e =>
      cond_Zopp s
        (match e with
         | Zneg p => Z.shiftr (Zpos m) (Zpos p)
         | _ => Z.shiftl (Zpos m) e
         end)
  | _ => 0%Z
  end.

Definition floorZ (x : num) : Z :=
  match x with
  | S754_finite s m e =>
      match e with
      | Zneg p => Z.div (cond_Zopp s (Zpos m)) (2 ^ Zpos p)
      | _ => cond_Zopp s (Z.shiftl (Zpos m) e)
      end
  | _ => 0%Z
  end.

Definition isIntegral (x : num) : bool :=
  match x with
  | S754_zero _ => true
  | S754_finite _ m (Zneg p) => (Zpos m mod 2 ^ Zpos p =? 0)%Z
  | S754_finite _ _ _ => true
  | _ => false
  end.

(** [Math.floor], [Math.ceil], [Math.round] ([round] is floor(x + 1/2),
    computed exactly). *)
Definition Math_floor (x : num) : num :=
  match x with
  | S754_finite s m (Zneg p) =>
      let z := floorZ x in if (z =? 0)%Z then S754_zero s else ofZ z
  | _ => x
  end.

Definition Math_ceil (x : num) : num :=
  match x with
  | S754_finite s m (Zneg p) =>
      let z := (- ((- cond_Zopp s (Zpos m)) / 2 ^ Zpos p))%Z in
      if (z =? 0)%Z then S754_zero s else ofZ z
  | _ => x
  end.

Definition Math_round (x : num) : num :=
  match x with
  | S754_finite s m (Zneg p) =>
      let z := ((2 * cond_Zopp s (Zpos m) + 2 ^ Zpos p) / 2 ^ (Zpos p + 1))%Z in
      if (z =? 0)%Z then S754_zero s else ofZ z
  | _ => x
  end.

(** ** [Number(string)] (StringToNumber) *)

Definition digitsToZ (ds : jsstring) : Z :=
  fold_left (fun acc c => (acc * 10 + (Z.of_N c - 48))%Z) ds 0%Z.

Definition hexVal (c : N) : option Z :=
  if isDigit c then Some (Z.of_N c - 48)%Z
  else if (97 <=? c) && (c <=? 102) then Some (Z.of_N c - 87)%Z
  else if (65 <=? c) && (c <=? 70) then Some (Z.of_N c - 55)%Z
  else None.

Fixpoint radixDigits (radix : Z) (s : jsstring) (acc : Z) : option Z :=
  match s with
  | [] => Some acc
  | c :: s' =>
      match hexVal c with
      | Some d => if (d <? radix)%Z then radixDigits radix s' (acc * radix + d)%Z else None
      | None => None
      end
  end.

(** [0x..], [0o..], [0b..] (either case, at least one digit, no sign). *)
Definition parseNonDecimal (s : jsstring) : option Z :=
  match s with
  | 48 :: c :: ((_ :: _) as ds) =>
      if (c =? 120) || (c =? 88) then radixDigits 16 ds 0
      else if (c =? 111) || (c =? 79) then radixDigits 8 ds 0
      else if (c =? 98) || (c =? 66) then radixDigits 2 ds 0
      else None
  | _ => None
  end.

(** What may follow the mantissa: nothing, or [e]/[E], an optional sign and
    at least one digit. *)
Definition parseExponent (s : jsstring) : option Z :=
  match s with
  | [] => Some 0%Z
  | c :: r =>
      if (c =? 101) || (c =? 69) then
        let '(sgn, r') :=
          match r with
          | 43 :: r' => (1%Z, r')
          | 45 :: r' => ((-1)%Z, r')
          | _ => (1%Z, r)
          end in
        let '(ds, rest) := span isDigit r' in
        match ds, rest with
        | _ :: _, [] => Some (sgn * digitsToZ ds)%Z
        | _, _ => None
        end
      else None
  end.

(** StrUnsignedDecimalLiteral other than [Infinity]: the pair [(m, e)]
    stands for [m * 10^e]. *)
Definition parseUnsignedDecimal (s : jsstring) : option (Z * Z) :=
  let '(ip, r) := span isDigit s in
  match r with
  | 46 :: r1 =>
      let '(fp, r2) := span isDigit r1 in
      match ip, fp with
      | [], [] => None
      | _, _ =>
          match parseExponent r2 with
          | Some e => Some (digitsToZ (ip ++ fp), (e - Z.of_nat (List.length fp))%Z)
          | None => None
          end
      end
  | _ =>
      match ip with
      | [] => None
      | _ =>
          match parseExponent r with
          | Some e => Some (digitsToZ ip, e)
          | None => None
          end
      end
  end.

Definition StringToNumber (s : jsstring) : num :=
  let t := trim s in
  match t with
  | [] => S754_zero false
  | _ =>
      match parseNonDecimal t with
      | Some z => ofZ z
      | None =>
          let '(neg, body) :=
            match t with
            | 43 :: r => (false, r)
            | 45 :: r => (true, r)
            | _ => (false, t)
            end in
          if str_eqb body (u "Infinity") then S754_infinity neg
          else
            match parseUnsignedDecimal body with
            | Some (m, e) => decimalToNum neg m e
            | None => S754_nan
            end
      end
  end.

(** ** Values

    The primitive values a cell or an option can hold. *)

Inductive jsval :=
| JUndefined
| JNull
| JBool (b : bool)
| JNum (n : num)
| JStr (s : jsstring).

Definition ToNumber (v : jsval) : num :=
  match v with
  | JUndefined => S754_nan
  | JNull => S754_zero false
  | JBool b => if b then ofZ 1 else S754_zero false
  | JNum n => n
  | JStr s => StringToNumber s
  end.

(** [Number.isFinite(v)]: no coercion, only a finite number passes. *)
Definition Number_isFinite (v : jsval) : bool :=
  match v with
  | JNum n => isFiniteNum n
  | _ => false
  end.

Definition truthy (v : jsval) : bool :=
  match v with
  | JUndefined | JNull => false
  | JBool b => b
  | JNum (S754_zero _) | JNum S754_nan => false
  | JNum _ => true
  | JStr [] => false
  | JStr _ => true
  end.

Definition isNullish (v : jsval) : bool :=
  match v with
  | JUndefined | JNull => true
  | _ => false
  end.

(** ** Host functions

    Four builtins are taken from the host: [Number::toString] on numbers that
    are not integers below 2^53 in magnitude (shortest round-trip digits);
    the time value of [new Date(string)], in milliseconds from the epoch (the
    accepted strings beyond the ISO format are the implementation's); the
    offset of local time from UTC, [LocalTZA(t, isUTC)] in milliseconds,
    which depends on the time zone of the process and is less than a day
    either way; and the text [String] gives for a built-in function of a
    given name. *)

Class Host := {
  host_numberToString : num -> jsstring;
  host_dateParse : jsstring -> option Z;
  host_localTZA : Z -> bool -> Z;
  host_localTZA_bound :
    forall t isUTC, (Z.abs (host_localTZA t isUTC) < 86400000)%Z;
  host_functionToString : jsstring -> jsstring
}.

Section WithHost.
Context {H : Host}.

Definition numToString (x : num) : jsstring :=
  match x with
  | S754_nan => u "NaN"
  | S754_infinity s => if s then u "-Infinity" else u "Infinity"
  | S754_zero _ => u "0"
  | S754_finite _ _ _ =>
      if isIntegral x && (Z.abs (truncNum x) <? 2 ^ 53)%Z
      then intToString (truncNum x)
      else host_numberToString x
  end.

(** [String(v)] and template-literal interpolation. *)
Definition ToString (v : jsval) : jsstring :=
  match v with
  | JUndefined => u "undefined"
  | JNull => u "null"
  | JBool b => if b then u "true" else u "false"
  | JNum n => numToString n
  | JStr s => s
  end.
End WithHost.

(** [a < b] and [a > b] on values: two strings compare as strings, anything
    else as numbers (false when either side is NaN). *)
Definition js_lt (a b : jsval) : bool :=
  match a, b with
  | JStr x, JStr y => str_ltb x y
  | _, _ => fltb (ToNumber a) (ToNumber b)
  end.

Definition js_gt (a b : jsval) : bool := js_lt b a.

(** ** Objects and [Map]

    Own properties (entries) in insertion order; writing an existing key
    keeps its position. *)

Section Assoc.
Context {V : Type}.

Fixpoint assoc_get (k : jsstring) (m : list (jsstring * V)) : option V :=
  match m with
  | [] => None
  | (k', v) :: m' => if str_eqb k k' then Some v else assoc_get k m'
  end.

Fixpoint assoc_set (k : jsstring) (v : V) (m : list (jsstring * V))
  : list (jsstring * V) :=
  match m with
  | [] => [(k, v)]
  | (k', v') :: m' =>
      if str_eqb k k' then (k', v) :: m' else (k', v') :: assoc_set k v m'
  end.

Definition assoc_has (k : jsstring) (m : list (jsstring * V)) : bool :=
  match assoc_get k m with Some _ => true | None => false end.
End Assoc.

Definition obj := list (jsstring * jsval).

(** [o[k]] for a name that [Object.prototype] does not define (every name
    the code writes out is one): the own property, or [undefined]. *)
Definition obj_get (o : obj) (k : jsstring) : jsval :=
  match assoc_get k o with Some v => v | None => JUndefined end.

Definition obj_set (o : obj) (k : jsstring) (v : jsval) : obj := assoc_set k v o.

(** A [Set] of strings: insertion order, no duplicates. *)
Definition set_has (x : jsstring) (s : list jsstring) : bool :=
  existsb (str_eqb x) s.

Definition set_add (x : jsstring) (s : list jsstring) : list jsstring :=
  if set_has x s then s else s ++ [x].

(** The names an object literal inherits from [Object.prototype]. *)
Definition inheritedNames : list jsstring :=
  [ u "constructor"; u "hasOwnProperty"; u "isPrototypeOf";
    u "propertyIsEnumerable"; u "toLocaleString"; u "toString"; u "valueOf";
    u "__defineGetter__"; u "__defineSetter__"; u "__lookupGetter__";
    u "__lookupSetter__"; u "__proto__" ].

(** [o[k]] for a name the caller chooses, where the code only compares the
    value with [null] and [undefined] and takes [String] of it: the own
    property if there is one; for an inherited name, a string holding what
    [String] gives for the inherited member (the prototype itself under
    [__proto__], the function [Object] under [constructor], else the built-in
    function of that name); [undefined] otherwise. *)
Definition obj_member {H : Host} (o : obj) (k : jsstring) : jsval :=
  match assoc_get k o with
  | Some v => v
  | None =>
      if str_eqb k (u "__proto__") then JStr (u "[object Object]")
      else if str_eqb k (u "constructor")
      then JStr (host_functionToString (u "Object"))
      else if set_has k inheritedNames then JStr (host_functionToString k)
      else JUndefined
  end.

(** ** [Array.prototype.sort]

    The sort is stable; [before a b] says that the comparator puts [a]
    strictly before [b] (it returns a negative number on [(a, b)]). *)

Section Sort.
Context {A : Type} (before : A -> A -> bool).

Fixpoint insertSorted (x : A) (l : list A) : list A :=
  match l with
  | [] => [x]
  | y :: l' => if before y x then y :: insertSorted x l' else x :: y :: l'
  end.

Fixpoint sortBy (l : list A) : list A :=
  match l with
  | [] => []
  | x :: l' => insertSorted x (sortBy l')
  end.
End Sort.

(** ** [Date]

    A [Date] holds a time value, milliseconds from 1970-01-01T00:00 UTC, or
    NaN ([None]) when it is invalid.  The code builds dates from
    [(year, month, day)] in local time and reads them back in local time:
    both go through the offset of the host's time zone. *)

Local Open Scope Z_scope.

Definition jsdate := option Z.

Definition msPerDay : Z := 86400000.

Definition isLeap (y : Z) : bool :=
  (y mod 4 =? 0) && (negb (y mod 100 =? 0) || (y mod 400 =? 0)).

Definition DayFromYear (y : Z) : Z :=
  365 * (y - 1970) + (y - 1969) / 4 - (y - 1901) / 100 + (y - 1601) / 400.

Definition daysBeforeMonth (leap : bool) (m : Z) : Z :=
  nth (Z.to_nat m)
    (if leap then [0; 31; 60; 91; 121; 152; 182; 213; 244; 274; 305; 335]
     else [0; 31; 59; 90; 120; 151; 181; 212; 243; 273; 304; 334]) 0.

(** MakeDay: months and days outside their range carry over. *)
Definition MakeDay (year month date : Z) : Z :=
  let ym := year + month / 12 in
  let mn := month mod 12 in
  DayFromYear ym + daysBeforeMonth (isLeap ym) mn + date - 1.

Definition MakeDate (day time : Z) : Z := day * msPerDay + time.

Definition Day (t : Z) : Z := t / msPerDay.

Definition TimeWithinDay (t : Z) : Z := t mod msPerDay.

(** Year, month (0-11) and day of the month of a day number. *)
Definition civilFromDays (z : Z) : Z * Z * Z :=
  let z := z + 719468 in
  let era := z / 146097 in
  let doe := z - era * 146097 in
  let yoe := (doe - doe / 1460 + doe / 36524 - doe / 146096) / 365 in
  let doy := doe - (365 * yoe + yoe / 4 - yoe / 100) in
  let mp := (5 * doy + 2) / 153 in
  let d := doy - (153 * mp + 2) / 5 + 1 in
  let m := if mp <? 10 then mp + 3 else mp - 9 in
  let y := yoe + era * 400 + (if m <=? 2 then 1 else 0) in
  (y, m - 1, d).

(** TimeClip: at most 10^8 days either side of the epoch. *)
Definition timeClip (time : Z) : jsdate :=
  if Z.abs time <=? 100000000 * msPerDay then Some time else None.

Section DateWithHost.
Context {H : Host}.

(** Local time of a time value, and the time value of a local time. *)
Definition LocalTime (t : Z) : Z := t + host_localTZA t true.

Definition UTC (t : Z) : Z := t - host_localTZA t false.

(** [new Date(y, m, d)]; years 0 to 99 mean 1900 to 1999. *)
Definition newDate (y m d : num) : jsdate :=
  if isFiniteNum y && isFiniteNum m && isFiniteNum d then
    let yi := truncNum y in
    let yr := if (0 <=? yi) && (yi <=? 99) then 1900 + yi else yi in
    timeClip (UTC (MakeDate (MakeDay yr (truncNum m) (truncNum d)) 0))
  else None.

(** [new Date(string)]. *)
Definition newDateFromString (raw : jsstring) : jsdate :=
  match host_dateParse raw with
  | Some t => timeClip t
  | None => None
  end.

Definition getFullYear (dt : jsdate) : num :=
  match dt with
  | Some t => let '(y, _, _) := civilFromDays (Day (LocalTime t)) in ofZ y
  | None => S754_nan
  end.

Definition getMonth (dt : jsdate) : num :=
  match dt with
  | Some t => let '(_, m, _) := civilFromDays (Day (LocalTime t)) in ofZ m
  | None => S754_nan
  end.

Definition getDate (dt : jsdate) : num :=
  match dt with
  | Some t => let '(_, _, d) := civilFromDays (Day (LocalTime t)) in ofZ d
  | None => S754_nan
  end.

Definition getDay (dt : jsdate) : num :=
  match dt with
  | Some t => ofZ ((Day (LocalTime t) + 4) mod 7)
  | None => S754_nan
  end.

(** [dt.setDate(n)]: the day of the month is replaced in local time, the
    time within the day is kept. *)
Definition setDate (dt : jsdate) (n : num) : jsdate :=
  match dt with
  | Some t =>
      if isFiniteNum n then
        let t := LocalTime t in
        let '(y, m, _) := civilFromDays (Day t) in
        timeClip (UTC (MakeDate (MakeDay y m (truncNum n)) (TimeWithinDay t)))
      else None
  | None => None
  end.

End DateWithHost.

(** Destructuring [[a, b, c] = parts.map(Number)] and then using the
    elements as numbers: a missing element is [undefined], that is NaN. *)
Definition nthNum (i : nat) (parts : list jsstring) : num :=
  match nth_error parts i with
  | Some p => StringToNumber p
  | None => S754_nan
  end.

(** ** Error payloads and stage results

    Every source file builds its errors with the same three-field
    [makeError]; [details] is the optional structured context. *)

Inductive details :=
| NoDetails
| DRowIndex (rowIndex : nat)
| DRowValue (rowIndex : nat) (value : jsstring)
| DFamilies (families : list jsstring)
| DDetectedHeaders (detectedHeaders : list jsstring)
| DRows (rows : nat)
| DField (field : jsstring) (rowIndex : nat) (value : jsstring).

Record error := makeError {
  code : jsstring;
  message : jsstring;
  error_details : details
}.

Inductive result (A : Type) :=
| Ok (a : A)
| Fail (e : error).

Arguments Ok {A} a.
Arguments Fail {A} e.

End Js.

(* ================================================================== *)
(** * Date normaliser ([src/unnamed/part_001]) *)
(* ================================================================== *)

Module DateNormalizer.
Import Js.
Local Open Scope N_scope.

(** What a per-value parser returns: [{ family, date_iso }]; [date_iso] is
    absent for the families ['invalid'] and ['ambiguous']. *)
Record parsed := mkParsed {
  family : jsstring;
  date_iso : jsval
}.

Record options := mkOptions {
  dateKey : option jsstring;
  sourceName : option jsstring;
  onMissingDate : option jsstring
}.

Definition orDefault (o : option jsstring) (d : jsstring) : jsstring :=
  match o with Some s => s | None => d end.

Definition one : num := ofZ 1.

Section WithHost.
Context {H : Host}.

Definition pad2 (n : num) : jsstring := padStart0 2 (numToString n).

Definition toIsoDateFromParts (year month day : num) : jsstring :=
  padStart0 4 (numToString year) ++ u "-" ++ pad2 month ++ u "-" ++ pad2 day.

Definition isValidYmd (year month day : num) : bool :=
  let d := newDate year (fsub month one) day in
  feqb (getFullYear d) year
  && feqb (getMonth d) (fsub month one)
  && feqb (getDate d) day.

(** [/^\d{4}-\d{2}-\d{2}$/] *)
Definition matchIsoDate (raw : jsstring) : bool :=
  match raw with
  | [y1; y2; y3; y4; s1; m1; m2; s2; d1; d2] =>
      forallb isDigit [y1; y2; y3; y4; m1; m2; d1; d2]
      && (s1 =? 45) && (s2 =? 45)
  | _ => false
  end.

Definition parseIsoDate (raw : jsstring) : option parsed :=
  if negb (matchIsoDate raw) then None
  else
    let parts := split 45 raw in
    let y := nthNum 0 parts in
    let mo := nthNum 1 parts in
    let d := nthNum 2 parts in
    if negb (isValidYmd y mo d) then None
    else Some (mkParsed (u "iso") (JStr (toIsoDateFromParts y mo d))).

(** [/^\d{4}-\d{2}-\d{2}T/] *)
Definition looksLikeIsoTs (raw : jsstring) : bool :=
  match raw with
  | y1 :: y2 :: y3 :: y4 :: s1 :: m1 :: m2 :: s2 :: d1 :: d2 :: t :: _ =>
      forallb isDigit [y1; y2; y3; y4; m1; m2; d1; d2]
      && (s1 =? 45) && (s2 =? 45) && (t =? 84)
  | _ => false
  end.

Definition parseIsoTimestamp (raw : jsstring) : option parsed :=
  if negb (looksLikeIsoTs raw) then None
  else
    let dt := newDateFromString raw in
    match dt with
    | None => None
    | Some _ =>
        let year := getFullYear dt in
        let month := fadd (getMonth dt) one in
        let day := getDate dt in
        Some (mkParsed (u "iso") (JStr (toIsoDateFromParts year month day)))
    end.

Definition monthMap : list (jsstring * Z) :=
  [ (u "jan", 1); (u "january", 1); (u "feb", 2); (u "february", 2);
    (u "mar", 3); (u "march", 3); (u "apr", 4); (u "april", 4);
    (u "may", 5); (u "jun", 6); (u "june", 6); (u "jul", 7);
    (u "july", 7); (u "aug", 8); (u "august", 8); (u "sep", 9);
    (u "sept", 9); (u "september", 9); (u "oct", 10); (u "october", 10);
    (u "nov", 11); (u "november", 11); (u "dec", 12); (u "december", 12) ]%Z.

(** [monthMap[monthToken]] for a token of lower-case letters: an own
    entry, or the one inherited name such a token can spell,
    [constructor] (a function: truthy, NaN in arithmetic), or nothing. *)
Definition monthLookup (monthToken : jsstring) : option num :=
  match assoc_get monthToken monthMap with
  | Some n => Some (ofZ n)
  | None =>
      if str_eqb monthToken (u "constructor") then Some S754_nan else None
  end.

(** [/^([A-Za-z]+)\s+(\d{1,2})(?:,)?\s+(\d{4})$/]: the three groups. *)
Definition matchMonthName (candidate : jsstring)
  : option (jsstring * jsstring * jsstring) :=
  let '(letters, r1) := span isAlpha candidate in
  let '(ws1, r2) := span isWhiteSpace r1 in
  let '(ds, r3) := span isDigit r2 in
  let r4 := match r3 with c :: r => if c =? 44 then r else r3 | [] => r3 end in
  let '(ws2, r5) := span isWhiteSpace r4 in
  match letters, ws1, ws2 with
  | _ :: _, _ :: _, _ :: _ =>
      if ((List.length ds =? 1)%nat || (List.length ds =? 2)%nat)
         && (List.length r5 =? 4)%nat && forallb isDigit r5
      then Some (letters, ds, r5)
      else None
  | _, _, _ => None
  end.

Definition parseMonthNameDate (raw : jsstring) : option parsed :=
  let s := trim raw in
  match s with
  | [] => None
  | _ =>
      let afterFirstComma :=
        if includes 44 s then trim (join (u ",") (tl (split 44 s))) else s in
      let candidate :=
        match afterFirstComma with [] => s | _ => afterFirstComma end in
      match matchMonthName candidate with
      | None => None
      | Some (m1, m2, m3) =>
          let monthToken := map lowerUnit m1 in
          match monthLookup monthToken with
          | None => None
          | Some month =>
              let day := StringToNumber m2 in
              let year := StringToNumber m3 in
              if negb (isValidYmd year month day)
              then Some (mkParsed (u "invalid") JUndefined)
              else Some (mkParsed (u "month_name")
                           (JStr (toIsoDateFromParts year month day)))
          end
      end
  end.

(** [/^(\d{2})\/(\d{2})\/(\d{4})$/]: the three groups. *)
Definition matchSlash (raw : jsstring)
  : option (jsstring * jsstring * jsstring) :=
  match raw with
  | [a1; a2; s1; b1; b2; s2; y1; y2; y3; y4] =>
      if forallb isDigit [a1; a2; b1; b2; y1; y2; y3; y4]
         && (s1 =? 47) && (s2 =? 47)
      then Some ([a1; a2], [b1; b2], [y1; y2; y3; y4])
      else None
  | _ => None
  end.

Definition parseSlashDate (raw : jsstring) : option parsed :=
  match matchSlash raw with
  | None => None
  | Some (m1, m2, m3) =>
      let a := StringToNumber m1 in
      let b := StringToNumber m2 in
      let year := StringToNumber m3 in
      if fltb a (ofZ 1) || fltb (ofZ 31) a || fltb b (ofZ 1) || fltb (ofZ 31) b
      then Some (mkParsed (u "invalid") JUndefined)
      else
        let isDmy := fltb (ofZ 12) a && fleb b (ofZ 12) in
        let isMdy := fltb (ofZ 12) b && fleb a (ofZ 12) in
        if negb isDmy && negb isMdy
        then Some (mkParsed (u "ambiguous") JUndefined)
        else
          let day := if isDmy then a else b in
          let month := if isDmy then b else a in
          if negb (isValidYmd year month day)
          then Some (mkParsed (u "invalid") JUndefined)
          else Some (mkParsed (if isDmy then u "dmy" else u "mdy")
                       (JStr (toIsoDateFromParts year month day)))
  end.

Definition addDaysIso (dateIso : jsstring) (deltaDays : num) : jsstring :=
  let parts := split 45 dateIso in
  let y := nthNum 0 parts in
  let m := nthNum 1 parts in
  let d := nthNum 2 parts in
  let dt := newDate y (fsub m one) d in
  let dt := setDate dt (fadd (getDate dt) deltaDays) in
  toIsoDateFromParts (getFullYear dt) (fadd (getMonth dt) one) (getDate dt).

(** [a ?? b] on parser results. *)
Definition orElse (a : option parsed) (b : option parsed) : option parsed :=
  match a with Some _ => a | None => b end.

(** [parseIsoDate(s) ?? parseIsoTimestamp(s) ?? parseMonthNameDate(s) ?? parseSlashDate(s)] *)
Definition parseDateValue (s : jsstring) : option parsed :=
  orElse (parseIsoDate s)
    (orElse (parseIsoTimestamp s)
       (orElse (parseMonthNameDate s) (parseSlashDate s))).

Definition isMissing (raw : jsval) : bool :=
  isNullish raw || (List.length (trim (ToString raw)) =? 0)%nat.

Definition rowNumber (i : nat) : jsstring := intToString (Z.of_nat i + 1).

(** The [for] loop over the rows: the loop state is the set of families,
    the rows normalised so far and the count of dropped rows. *)
Fixpoint normalizeLoop (dateKey sourceName onMissingDate : jsstring)
    (rows : list obj) (i : nat)
    (families : list jsstring) (normalized : list obj) (droppedMissing : nat)
  : result (list jsstring * list obj * nat) :=
  match rows with
  | [] => Ok (families, normalized, droppedMissing)
  | row :: rest =>
      let raw := obj_member row dateKey in
      if isMissing raw then
        if str_eqb onMissingDate (u "drop") then
          normalizeLoop dateKey sourceName onMissingDate rest (S i)
            families normalized (S droppedMissing)
        else
          Fail (makeError (u "DATE_INVALID")
                  (u "Missing date at row " ++ rowNumber i ++ u " in "
                     ++ sourceName ++ u ".")
                  (DRowIndex i))
      else
        let s := trim (ToString raw) in
        match parseDateValue s with
        | None =>
            Fail (makeError (u "DATE_INVALID")
                    (u "Unrecognized date format at row " ++ rowNumber i
                       ++ u " in " ++ sourceName ++ u ".")
                    (DRowValue i s))
        | Some p =>
            if str_eqb (family p) (u "ambiguous") then
              Fail (makeError (u "DATE_AMBIGUOUS")
                      (u "Ambiguous date at row " ++ rowNumber i ++ u " in "
                         ++ sourceName ++ u ".")
                      (DRowValue i s))
            else if str_eqb (family p) (u "invalid") then
              Fail (makeError (u "DATE_INVALID")
                      (u "Invalid date at row " ++ rowNumber i ++ u " in "
                         ++ sourceName ++ u ".")
                      (DRowValue i s))
            else
              normalizeLoop dateKey sourceName onMissingDate rest (S i)
                (set_add (family p) families)
                (normalized
                   ++ [obj_set (obj_set row (u "date_raw") (JStr s))
                         (u "date_iso") (date_iso p)])
                droppedMissing
        end
  end.

(** The [while (cursor < max)] scan for missing calendar days; [None]
    when the fuel runs out before the loop ends. *)
Fixpoint gapLoop (fuel : nat) (cursor max : jsstring)
    (dateSet : list jsstring) (missing : list jsstring)
  : option (list jsstring) :=
  match fuel with
  | O => None
  | S fuel' =>
      if str_ltb cursor max then
        let cursor' := addDaysIso cursor one in
        let missing' :=
          if str_ltb cursor' max && negb (set_has cursor' dateSet)
          then missing ++ [cursor'] else missing in
        gapLoop fuel' cursor' max dateSet missing'
      else Some missing
  end.

Definition rowDateIso (r : obj) : jsstring := ToString (obj_get r (u "date_iso")).

Definition normalizeDatesInRows (fuel : nat) (rows : list obj) (opts : options)
  : option (result (list obj * list jsstring)) :=
  let dateKey := orDefault (dateKey opts) (u "date") in
  let sourceName := orDefault (sourceName opts) (u "unknown") in
  let onMissingDate := orDefault (onMissingDate opts) (u "error") in
  match normalizeLoop dateKey sourceName onMissingDate rows 0 [] [] 0 with
  | Fail e => Some (Fail e)
  | Ok (families, normalized, droppedMissing) =>
      let warnings :=
        if (0 <? droppedMissing)%nat then
          [u "Dropped " ++ intToString (Z.of_nat droppedMissing) ++ u " rows in "
             ++ sourceName ++ u " due to missing dates."]
        else [] in
      let effectiveFamilies :=
        fold_left (fun acc f => set_add (if str_eqb f (u "iso") then u "iso" else f) acc)
          families [] in
      if (1 <? List.length effectiveFamilies)%nat then
        Some (Fail (makeError (u "DATE_MIXED_FORMATS")
                (u "Mixed date formats detected in " ++ sourceName
                   ++ u ". Use a single format per file.")
                (DFamilies effectiveFamilies)))
      else
        let dateSet :=
          fold_left (fun acc r => set_add (rowDateIso r) acc) normalized [] in
        let warnings :=
          if (List.length dateSet <? 7)%nat then
            warnings ++
              [u "Only " ++ intToString (Z.of_nat (List.length dateSet))
                 ++ u " distinct dates found in " ++ sourceName
                 ++ u ". Some metrics may be limited."]
          else warnings in
        let sortedDates := sortBy str_ltb dateSet in
        if (2 <=? List.length sortedDates)%nat then
          let min := hd [] sortedDates in
          let max := last sortedDates [] in
          match gapLoop fuel min max dateSet [] with
          | None => None
          | Some missing =>
              let warnings :=
                match missing with
                | [] => warnings
                | _ =>
                    let preview := join (u ", ") (firstn 5 missing) in
                    warnings ++
                      [u "Detected " ++ intToString (Z.of_nat (List.length missing))
                         ++ u " missing dates between " ++ min ++ u " and " ++ max
                         ++ u ". Example: " ++ preview]
                end in
              Some (Ok (normalized, warnings))
          end
        else Some (Ok (normalized, warnings))
  end.

End WithHost.
End DateNormalizer.

(* ================================================================== *)
(** * Merger ([src/data-weaver/src/utils/dataMerger.js]) *)
(* ================================================================== *)

Module DataMerger.
Import Js.
Local Open Scope Z_scope.

(** Input rows, as the date normaliser hands them over: [date_iso] is a
    string when present; the other fields are whatever the row holds. *)
Record OrderRow := mkOrderRow {
  order_date_iso : option jsstring;
  order_total_orders : jsval
}.

Record WeatherRow := mkWeatherRow {
  weather_date_iso : option jsstring;
  weather_temperature_c : jsval;
  weather_rainfall_mm : jsval;
  weather_humidity_pct : jsval
}.

(** One row of [aggregateOrdersDaily]. *)
Record DailyOrders := mkDailyOrders {
  daily_date_iso : jsstring;
  daily_total_orders : num
}.

(** A value of the map built by [aggregateWeatherDaily]. *)
Record DailyWeather := mkDailyWeather {
  dw_date_iso : jsstring;
  dw_temperature_c : num;
  dw_rainfall_mm : num;
  dw_humidity_pct : jsval
}.

Record Bucket := mkBucket {
  countTemp : nat;
  sumTemp : num;
  sumRain : num;
  countHumidity : nat;
  sumHumidity : num
}.

Record MergedRow := mkMergedRow {
  date_iso : jsstring;
  total_orders : jsval;
  temperature_c : jsval;
  rainfall_mm : jsval;
  humidity_pct : jsval;
  imputed_weather : jsval
}.

Record options := mkOptions {
  maxGapDays : jsval
}.

Definition zero : num := S754_zero false.
Definition one : num := ofZ 1.

(** [!dateIso]: absent or the empty string. *)
Definition noDate (d : option jsstring) : bool :=
  match d with
  | None | Some [] => true
  | Some _ => false
  end.

Definition dateOf (d : option jsstring) : jsstring :=
  match d with Some s => s | None => [] end.

(** The [for] loop of [aggregateOrdersDaily]: the state is the map. *)
Definition ordersStep (byDate : list (jsstring * num)) (r : OrderRow)
  : list (jsstring * num) :=
  if noDate (order_date_iso r) then byDate
  else
    let dateIso := dateOf (order_date_iso r) in
    let orders := ToNumber (order_total_orders r) in
    if negb (isFiniteNum orders) then byDate
    else
      let old := match assoc_get dateIso byDate with Some v => v | None => zero end in
      assoc_set dateIso (fadd old orders) byDate.

Definition ordersByDate (orderRows : list OrderRow) : list (jsstring * num) :=
  fold_left ordersStep orderRows [].

Definition aggregateOrdersDaily (orderRows : list OrderRow) : list DailyOrders :=
  let byDate := ordersByDate orderRows in
  let dates := sortBy str_ltb (map fst byDate) in
  map (fun d =>
         mkDailyOrders d
           (match assoc_get d byDate with Some v => v | None => S754_nan end))
      dates.

Definition emptyBucket : Bucket := mkBucket 0 zero zero 0 zero.

Definition weatherStep (acc : list (jsstring * Bucket)) (r : WeatherRow)
  : list (jsstring * Bucket) :=
  if noDate (weather_date_iso r) then acc
  else
    let dateIso := dateOf (weather_date_iso r) in
    let temperature := weather_temperature_c r in
    let rainfall := weather_rainfall_mm r in
    let humidity := weather_humidity_pct r in
    let bucket :=
      match assoc_get dateIso acc with Some b => b | None => emptyBucket end in
    let bucket :=
      if Number_isFinite temperature
      then mkBucket (S (countTemp bucket)) (fadd (sumTemp bucket) (ToNumber temperature))
             (sumRain bucket) (countHumidity bucket) (sumHumidity bucket)
      else bucket in
    let bucket :=
      if Number_isFinite rainfall
      then mkBucket (countTemp bucket) (sumTemp bucket)
             (fadd (sumRain bucket) (ToNumber rainfall))
             (countHumidity bucket) (sumHumidity bucket)
      else bucket in
    let bucket :=
      if Number_isFinite humidity
      then mkBucket (countTemp bucket) (sumTemp bucket) (sumRain bucket)
             (S (countHumidity bucket)) (fadd (sumHumidity bucket) (ToNumber humidity))
      else bucket in
    assoc_set dateIso bucket acc.

Definition weatherEntry (byDate : list (jsstring * DailyWeather))
    (e : jsstring * Bucket) : list (jsstring * DailyWeather) :=
  let '(dateIso, b) := e in
  if (countTemp b =? 0)%nat then byDate
  else
    assoc_set dateIso
      (mkDailyWeather dateIso
         (fdiv (sumTemp b) (ofNat (countTemp b)))
         (sumRain b)
         (if (countHumidity b =? 0)%nat then JNull
          else JNum (fdiv (sumHumidity b) (ofNat (countHumidity b)))))
      byDate.

Definition aggregateWeatherDaily (weatherRows : list WeatherRow)
  : list (jsstring * DailyWeather) :=
  let acc := fold_left weatherStep weatherRows [] in
  fold_left weatherEntry acc [].

Section WithHost.
Context {H : Host}.

Definition pad2 (n : num) : jsstring := padStart0 2 (numToString n).

Definition toIsoDateFromDate (dt : jsdate) : jsstring :=
  padStart0 4 (numToString (getFullYear dt)) ++ u "-"
    ++ pad2 (fadd (getMonth dt) one) ++ u "-" ++ pad2 (getDate dt).

Definition parseIsoToDate (dateIso : jsstring) : jsdate :=
  let parts := split 45%N dateIso in
  let y := nthNum 0 parts in
  let m := nthNum 1 parts in
  let d := nthNum 2 parts in
  newDate y (fsub m one) d.

Definition addDays (dateIso : jsstring) (deltaDays : num) : jsstring :=
  let dt := parseIsoToDate dateIso in
  let dt := setDate dt (fadd (getDate dt) deltaDays) in
  toIsoDateFromDate dt.

(** [for (let offset = 1; offset <= maxGapDays; offset += 1)] from the
    value [offset] on: [Some (Some (weather, true))] when a day with weather
    is found, [Some None] when the loop ends without one, [None] when the
    fuel runs out before the loop ends.  The counter is a number: from 2^53
    on, [offset += 1] leaves it where it is. *)
Fixpoint searchOutward (fuel : nat) (offset : num) (maxGapDays : num)
    (dateIso : jsstring) (weatherByDate : list (jsstring * DailyWeather))
  : option (option (DailyWeather * bool)) :=
  match fuel with
  | O => None
  | S fuel' =>
      if fleb offset maxGapDays then
        let prev := addDays dateIso (fneg offset) in
        match assoc_get prev weatherByDate with
        | Some w => Some (Some (w, true))
        | None =>
            let next := addDays dateIso offset in
            match assoc_get next weatherByDate with
            | Some w => Some (Some (w, true))
            | None =>
                searchOutward fuel' (fadd offset one) maxGapDays dateIso weatherByDate
            end
        end
      else Some None
  end.

(** [Some (Some (weather, imputed))] stands for [{ ok: true, weather,
    imputed }], [Some None] for [{ ok: false }]; [None] when the fuel runs
    out in the search. *)
Definition findNearestWeather (fuel : nat) (dateIso : jsstring)
    (weatherByDate : list (jsstring * DailyWeather)) (maxGapDays : num)
  : option (option (DailyWeather * bool)) :=
  match assoc_get dateIso weatherByDate with
  | Some w => Some (Some (w, false))
  | None => searchOutward fuel one maxGapDays dateIso weatherByDate
  end.

Definition effectiveMaxGap (opts : options) : num :=
  if Number_isFinite (maxGapDays opts) then ToNumber (maxGapDays opts) else ofZ 3.

(** One turn of [for (const o of dailyOrders)]: the state is the pair of
    the rows merged and the warnings pushed so far. *)
Definition mergeStep (fuel : nat) (weatherByDate : list (jsstring * DailyWeather))
    (maxGapDays : num) (st : list MergedRow * list jsstring) (o : DailyOrders)
  : option (list MergedRow * list jsstring) :=
  let '(merged, warnings) := st in
  let dateIso := daily_date_iso o in
  match findNearestWeather fuel dateIso weatherByDate maxGapDays with
  | None => None
  | Some None =>
      Some (merged,
            warnings ++
              [u "Weather could not be imputed for " ++ dateIso ++ u " within "
                 ++ numToString maxGapDays ++ u " days. Dropping row."])
  | Some (Some (w, imputed)) =>
      Some (merged ++
              [mkMergedRow dateIso (JNum (daily_total_orders o))
                 (JNum (dw_temperature_c w)) (JNum (dw_rainfall_mm w))
                 (dw_humidity_pct w) (JBool imputed)],
            warnings)
  end.

(** The loop over the daily orders; [None] when a search runs out of
    fuel. *)
Fixpoint mergeLoop (fuel : nat) (weatherByDate : list (jsstring * DailyWeather))
    (maxGapDays : num) (dailyOrders : list DailyOrders)
    (st : list MergedRow * list jsstring)
  : option (list MergedRow * list jsstring) :=
  match dailyOrders with
  | [] => Some st
  | o :: rest =>
      match mergeStep fuel weatherByDate maxGapDays st o with
      | Some st' => mergeLoop fuel weatherByDate maxGapDays rest st'
      | None => None
      end
  end.

Definition byDateIso (a b : MergedRow) : bool := str_ltb (date_iso a) (date_iso b).

(** [fuel] bounds the turns of each search for the nearest weather; the
    result is [None] when a search does not end within it. *)
Definition mergeOrdersWithWeather (fuel : nat) (orderRows : list OrderRow)
    (weatherRows : list WeatherRow) (opts : options)
  : option (result (list MergedRow * list jsstring)) :=
  let maxGapDays := effectiveMaxGap opts in
  let dailyOrders := aggregateOrdersDaily orderRows in
  let weatherByDate := aggregateWeatherDaily weatherRows in
  match mergeLoop fuel weatherByDate maxGapDays dailyOrders ([], []) with
  | None => None
  | Some (merged, warnings) =>
      let merged := sortBy byDateIso merged in
      match merged with
      | [] =>
          Some (Fail (makeError (u "MERGE_NO_ROWS")
                  (u "Merge produced no rows. Check date normalization and imputation rules.")
                  NoDetails))
      | _ => Some (Ok (merged, warnings))
      end
  end.

End WithHost.
End DataMerger.

(* ================================================================== *)
(** * Tabular parser ([src/data-weaver/src/utils/csvParser.js]) *)
(* ================================================================== *)

Module CsvParser.
Import Js.
Local Open Scope N_scope.

Record options := mkOptions {
  sourceName : option jsstring
}.

(** The success payload of [parseCsvText]. *)
Record Parsed := mkParsed {
  delimiter : N;
  headers : list jsstring;
  rows : list obj;
  warnings : list jsstring
}.

Definition stripBom (text : jsstring) : jsstring :=
  match text with
  | 65279 :: rest => rest
  | _ => text
  end.

(** [s.replace(/p+/g, '_')]: every maximal run of units satisfying [p]
    becomes one underscore. *)
Fixpoint replaceRuns (p : N -> bool) (inRun : bool) (s : jsstring) : jsstring :=
  match s with
  | [] => []
  | c :: s' =>
      if p c then (if inRun then replaceRuns p true s' else 95 :: replaceRuns p true s')
      else c :: replaceRuns p false s'
  end.

Definition isHeaderUnit (c : N) : bool := isLower c || isDigit c || (c =? 95).

Definition normalizeHeaderToken (token : jsstring) : jsstring :=
  let s := toLowerCase (trim token) in
  let s := replaceRuns isWhiteSpace false s in
  let s := replaceRuns (N.eqb 45) false s in
  let s := filter isHeaderUnit s in
  replaceRuns (N.eqb 95) false s.

(** The character loop of [parseCsvLine]; the state is [(out, current,
    inQuotes)].  A doubled quote inside quotes consumes two characters. *)
Fixpoint parseCsvLineLoop (line : jsstring) (delim : N)
    (out : list jsstring) (current : jsstring) (inQuotes : bool)
  : list jsstring :=
  match line with
  | [] => out ++ [current]
  | ch :: rest =>
      if ch =? 34 then
        match rest with
        | nxt :: rest' =>
            if inQuotes && (nxt =? 34)
            then parseCsvLineLoop rest' delim out (current ++ [34]) inQuotes
            else parseCsvLineLoop rest delim out current (negb inQuotes)
        | [] => parseCsvLineLoop rest delim out current (negb inQuotes)
        end
      else if negb inQuotes && (ch =? delim)
      then parseCsvLineLoop rest delim (out ++ [current]) [] inQuotes
      else parseCsvLineLoop rest delim out (current ++ [ch]) inQuotes
  end.

Definition parseCsvLine (line : jsstring) (delim : N) : list jsstring :=
  parseCsvLineLoop line delim [] [] false.

(** [freq.set(c, (freq.get(c) ?? 0) + 1)] on a [Map] keyed by a count. *)
Fixpoint bump (c : nat) (freq : list (nat * nat)) : list (nat * nat) :=
  match freq with
  | [] => [(c, 1%nat)]
  | (c', f) :: freq' =>
      if (c =? c')%nat then (c', S f) :: freq' else (c', f) :: bump c freq'
  end.

(** The scan for the mode: a later entry wins only with a strictly larger
    frequency. *)
Definition modeStep (st : nat * nat) (e : nat * nat) : nat * nat :=
  let '(modeCount, modeFreq) := st in
  let '(c, f) := e in
  if (modeFreq <? f)%nat then (c, f) else st.

Definition delimiterStep (sample : list jsstring) (best : N * num) (delim : N)
  : N * num :=
  let counts := map (fun l => List.length (parseCsvLine l delim)) sample in
  let nonTrivialCounts := filter (fun c => (1 <? c)%nat) counts in
  match nonTrivialCounts with
  | [] => best
  | _ =>
      let freq := fold_left (fun fr c => bump c fr) nonTrivialCounts [] in
      let '(modeCount, modeFreq) := fold_left modeStep freq (0%nat, 0%nat) in
      let consistency := fdiv (ofNat modeFreq) (ofNat (List.length sample)) in
      let score := fmul (ofNat modeCount) consistency in
      if fltb (snd best) score then (delim, score) else best
  end.

Definition detectDelimiter (lines : list jsstring) : N :=
  let candidates := [44; 59; 9] in
  let sample := firstn 10 lines in
  fst (fold_left (delimiterStep sample) candidates (44, ofZ (-1))).

Definition removeCommas (s : jsstring) : jsstring :=
  filter (fun c => negb (c =? 44)) s.

Definition pickColumn (normalizedHeaders candidates : list jsstring)
  : option jsstring :=
  find (fun c => set_has c normalizedHeaders) candidates.

(** The per-source alias tables of [requiredBySource]. *)
Definition ordersSchema : list (jsstring * list jsstring) :=
  [ (u "date", [u "date"; u "order_placed_at"; u "order_placed_at_1"]);
    (u "total_orders", [u "total_orders"; u "order_count"; u "orders"; u "total"]);
    (u "order_id", [u "order_id"]) ].

Definition weatherSchema : list (jsstring * list jsstring) :=
  [ (u "date", [u "date"]);
    (u "temperature_c", [u "temperature_c"; u "temperature"; u "temp"]);
    (u "rainfall_mm", [u "rainfall_mm"; u "rainfall"; u "precipitation"; u "precip"]);
    (u "humidity_pct", [u "humidity_pct"; u "humidity"]);
    (u "rain_duration_minutes",
      [u "rain_duration_minutes"; u "rain_duration"; u "duration_minutes"; u "duration"]) ].

(** Names every object literal inherits: [requiredBySource[name]] is then a
    truthy value without columns of its own. *)
Definition inheritedNames : list jsstring :=
  [ u "constructor"; u "hasOwnProperty"; u "isPrototypeOf";
    u "propertyIsEnumerable"; u "toLocaleString"; u "toString"; u "valueOf";
    u "__proto__"; u "__defineGetter__"; u "__defineSetter__";
    u "__lookupGetter__"; u "__lookupSetter__" ].

Definition requiredBySource (sourceName : jsstring)
  : option (list (jsstring * list jsstring)) :=
  if str_eqb sourceName (u "orders") then Some ordersSchema
  else if str_eqb sourceName (u "weather") then Some weatherSchema
  else if set_has sourceName inheritedNames then Some []
  else None.

(** [canonicalColumnMap[canonical]], truthy exactly when a column was
    picked. *)
Definition column (canonicalColumnMap : list (jsstring * option jsstring))
    (canonical : jsstring) : option jsstring :=
  match assoc_get canonical canonicalColumnMap with
  | Some c => c
  | None => None
  end.

Definition cell (r : obj) (col : option jsstring) : jsval :=
  match col with
  | Some k => obj_get r k
  | None => JNull
  end.

Definition has (col : option jsstring) : bool :=
  match col with Some _ => true | None => false end.

Section WithHost.
Context {H : Host}.

Definition coerceNumber (value : jsval) (fieldName : jsstring) (rowIndex : nat)
  : result jsval :=
  if isNullish value then Ok JNull
  else
    let s := trim (ToString value) in
    match s with
    | [] => Ok JNull
    | _ =>
        let normalized := removeCommas s in
        let n := StringToNumber normalized in
        if negb (isFiniteNum n) then
          Fail (makeError (u "CSV_INVALID_NUMBER")
                  (u "Invalid number for " ++ fieldName ++ u " at row "
                     ++ intToString (Z.of_nat rowIndex + 1) ++ u ".")
                  (DField fieldName rowIndex s))
        else Ok (JNum n)
    end.

(** [headerFields.forEach]: the state is [(normalizedHeaders, seen)]. *)
Definition headerStep (st : list jsstring * list (jsstring * nat)) (h : jsstring)
  : list jsstring * list (jsstring * nat) :=
  let '(normalizedHeaders, seen) := st in
  let base := normalizeHeaderToken h in
  let next := S (match assoc_get base seen with Some n => n | None => 0%nat end) in
  let name :=
    if (next =? 1)%nat then base
    else base ++ u "_" ++ intToString (Z.of_nat next) in
  (normalizedHeaders ++ [name], assoc_set base next seen).

(** The inner loop building one raw row object. *)
Fixpoint buildRow (normalizedHeaders : list jsstring) (c : nat)
    (fields : list jsstring) (row : obj) : obj :=
  match normalizedHeaders with
  | [] => row
  | key :: rest =>
      let raw := match nth_error fields c with Some f => f | None => [] end in
      let trimmed := trim raw in
      buildRow rest (S c) fields
        (obj_set row key (match trimmed with [] => JNull | _ => JStr trimmed end))
  end.

(** The loop over the data lines, [i] counting from 1. *)
Fixpoint rawRows (dataLines : list jsstring) (i : nat) (delim : N)
    (nHeaderFields : nat) (normalizedHeaders : list jsstring)
    (rows : list obj) (warnings : list jsstring)
  : list obj * list jsstring :=
  match dataLines with
  | [] => (rows, warnings)
  | line :: rest =>
      let fields := parseCsvLine line delim in
      let warnings :=
        if negb (List.length fields =? nHeaderFields)%nat then
          warnings ++
            [u "Row " ++ intToString (Z.of_nat i + 1) ++ u " has "
               ++ intToString (Z.of_nat (List.length fields))
               ++ u " columns; expected "
               ++ intToString (Z.of_nat nHeaderFields) ++ u "."]
        else warnings in
      rawRows rest (S i) delim nHeaderFields normalizedHeaders
        (rows ++ [buildRow normalizedHeaders 0 fields []]) warnings
  end.

(** The loop producing the canonical rows, [i] counting from 0. *)
Fixpoint canonicalLoop (sourceName : jsstring)
    (cmap : list (jsstring * option jsstring))
    (rs : list obj) (i : nat)
    (canonicalRows : list obj) (warnings : list jsstring)
  : result (list obj * list jsstring) :=
  match rs with
  | [] => Ok (canonicalRows, warnings)
  | r :: rest =>
      if str_eqb sourceName (u "orders") then
        let date := cell r (column cmap (u "date")) in
        if has (column cmap (u "total_orders")) then
          let ordersValue := cell r (column cmap (u "total_orders")) in
          match coerceNumber ordersValue (u "total_orders") i with
          | Fail e => Fail e
          | Ok v =>
              canonicalLoop sourceName cmap rest (S i)
                (canonicalRows
                   ++ [obj_set (obj_set r (u "date") date) (u "total_orders") v])
                warnings
          end
        else
          let '(v, warnings) :=
            if has (column cmap (u "order_id")) then
              (JNum (ofZ 1),
               if (i =? 0)%nat then
                 warnings ++
                   [u "No total_orders column found in " ++ sourceName
                      ++ u "; inferring total_orders=1 per row using order_id."]
               else warnings)
            else (JNull, warnings) in
          canonicalLoop sourceName cmap rest (S i)
            (canonicalRows
               ++ [obj_set (obj_set r (u "date") date) (u "total_orders") v])
            warnings
      else if str_eqb sourceName (u "weather") then
        let date := cell r (column cmap (u "date")) in
        let temperatureValue := cell r (column cmap (u "temperature_c")) in
        let rainfallValue := cell r (column cmap (u "rainfall_mm")) in
        let humidityValue := cell r (column cmap (u "humidity_pct")) in
        let durationValue := cell r (column cmap (u "rain_duration_minutes")) in
        match coerceNumber temperatureValue (u "temperature_c") i with
        | Fail e => Fail e
        | Ok temp =>
        match coerceNumber rainfallValue (u "rainfall_mm") i with
        | Fail e => Fail e
        | Ok rain =>
        match coerceNumber humidityValue (u "humidity_pct") i with
        | Fail e => Fail e
        | Ok humidity =>
        match coerceNumber durationValue (u "rain_duration_minutes") i with
        | Fail e => Fail e
        | Ok duration =>
            canonicalLoop sourceName cmap rest (S i)
              (canonicalRows
                 ++ [obj_set
                       (obj_set
                          (obj_set
                             (obj_set (obj_set r (u "date") date)
                                (u "temperature_c") temp)
                             (u "rainfall_mm") rain)
                          (u "humidity_pct") humidity)
                       (u "rain_duration_minutes") duration])
              warnings
        end end end end
      else canonicalLoop sourceName cmap rest (S i) canonicalRows warnings
  end.

(** [.replace(/\r\n/g, '\n')] and then [.replace(/\r/g, '\n')]. *)
Fixpoint replaceCrLf (s : jsstring) : jsstring :=
  match s with
  | [] => []
  | c :: rest =>
      match rest with
      | 10 :: rest' => if c =? 13 then 10 :: replaceCrLf rest' else c :: replaceCrLf rest
      | _ => c :: replaceCrLf rest
      end
  end.

Definition replaceCr (s : jsstring) : jsstring :=
  map (fun c => if c =? 13 then 10 else c) s.

Definition normalizeNewlines (s : jsstring) : jsstring :=
  replaceCr (replaceCrLf s).

Definition parseCsvText (text : jsstring) (opts : options) : result Parsed :=
  let sourceName :=
    match sourceName opts with Some s => s | None => u "unknown" end in
  let cleaned := trim (normalizeNewlines (stripBom text)) in
  match cleaned with
  | [] => Fail (makeError (u "CSV_EMPTY") (u "CSV content is empty.") NoDetails)
  | _ =>
      let rawLines := map trimEnd (split 10 cleaned) in
      let lines := filter (fun l => (0 <? List.length (trim l))%nat) rawLines in
      if (List.length lines <? 2)%nat then
        Fail (makeError (u "CSV_EMPTY")
                (u "CSV must include a header and at least one row.") NoDetails)
      else if (List.length lines - 1 <? 7)%nat then
        Fail (makeError (u "CSV_TOO_FEW_ROWS")
                (u "CSV must have at least 7 data rows.")
                (DRows (List.length lines - 1)))
      else
        let delim := detectDelimiter lines in
        let headerFields := map trim (parseCsvLine (hd [] lines) delim) in
        let normalizedHeaders := fst (fold_left headerStep headerFields ([], [])) in
        let '(rows, warnings) :=
          rawRows (tl lines) 1 delim (List.length headerFields)
            normalizedHeaders [] [] in
        match requiredBySource sourceName with
        | None =>
            Fail (makeError (u "CSV_UNKNOWN_SCHEMA")
                    (u "Unknown CSV schema: " ++ sourceName ++ u ".") NoDetails)
        | Some schema =>
            let cmap :=
              map (fun e => (fst e, pickColumn normalizedHeaders (snd e))) schema in
            let missing :=
              (if has (column cmap (u "date")) then [] else [u "date"])
              ++ (if str_eqb sourceName (u "orders")
                  then
                    if negb (has (column cmap (u "total_orders")))
                       && negb (has (column cmap (u "order_id")))
                    then [u "total_orders (or order_id to infer counts)"]
                    else []
                  else [])
              ++ (if str_eqb sourceName (u "weather")
                  then
                    (if has (column cmap (u "temperature_c")) then []
                     else [u "temperature"])
                    ++ (if has (column cmap (u "rainfall_mm")) then []
                        else [u "rainfall"])
                  else []) in
            match missing with
            | _ :: _ =>
                Fail (makeError (u "MISSING_REQUIRED_COLUMN")
                        (u "Missing required columns for " ++ sourceName ++ u ": "
                           ++ join (u ", ") missing ++ u ".")
                        (DDetectedHeaders normalizedHeaders))
            | [] =>
                match canonicalLoop sourceName cmap rows 0 [] warnings with
                | Fail e => Fail e
                | Ok (canonicalRows, warnings) =>
                    Ok (mkParsed delim normalizedHeaders canonicalRows warnings)
                end
            end
        end
  end.

End WithHost.
End CsvParser.

(* ================================================================== *)
(** * Metrics engine ([src/data-weaver/src/utils/metricsCalculator.js]) *)
(* ================================================================== *)

Module MetricsCalculator.
Import Js.
Import DataMerger (MergedRow, mkMergedRow, date_iso, total_orders,
                   temperature_c, rainfall_mm, humidity_pct, imputed_weather).
Local Open Scope Z_scope.

Record options := mkOptions {
  rainThresholdMm : jsval
}.

(** A row of [enriched]: the merged row spread, plus four fields. *)
Record Enriched := mkEnriched {
  row : MergedRow;
  is_rainy : bool;
  day_of_week : num;
  temp_category : jsval;
  moving_avg_7 : jsval
}.

Record Kpis := mkKpis {
  totalOrders : num;
  avgOrdersPerDay : num;
  rainyDayAvg : jsval;
  nonRainyDayAvg : jsval;
  percentIncrease : jsval;
  rainyDays : nat;
  nonRainyDays : nat;
  imputedWeatherPct : num;
  maxOrdersDay : jsval;
  minOrdersDay : jsval;
  hottestDay : jsval;
  coldestDay : jsval;
  bestWeekday : jsval;
  tempOrderCorr : jsval
}.

Record OrdersPoint := mkOrdersPoint {
  op_date_iso : jsstring;
  op_total_orders : jsval;
  op_is_rainy : bool;
  op_moving_avg_7 : jsval
}.

Record WeatherImpact := mkWeatherImpact {
  rainyAvg : jsval;
  nonRainyAvg : jsval;
  percentDifference : jsval;
  wi_rainyDays : nat;
  wi_nonRainyDays : nat
}.

Record TempPoint := mkTempPoint {
  tp_date_iso : jsstring;
  tp_temperature_c : jsval;
  tp_total_orders : jsval;
  tp_is_rainy : bool
}.

Record DowEntry := mkDowEntry {
  dow : nat;
  label : jsstring;
  count : nat;
  avg_orders : jsval
}.

Record ChartData := mkChartData {
  ordersOverTime : list OrdersPoint;
  weatherImpact : WeatherImpact;
  tempCorrelation : list TempPoint;
  dayOfWeek : list DowEntry;
  cd_tempOrderCorr : jsval;
  tempBuckets : jsval * jsval
}.

(** The success payload [{ kpis, chartData, warnings }]. *)
Record Metrics := mkMetrics {
  kpis : Kpis;
  chartData : ChartData;
  warnings : list jsstring
}.

Definition zero : num := S754_zero false.
Definition one : num := ofZ 1.

(** [arr[i]] for an array of numbers: [undefined] out of range. *)
Definition at_ (l : list num) (i : Z) : jsval :=
  if i <? 0 then JUndefined
  else match nth_error l (Z.to_nat i) with
       | Some v => JNum v
       | None => JUndefined
       end.

Definition percentile (sortedValues : list num) (p : num) : jsval :=
  match sortedValues with
  | [] => JNull
  | _ =>
      if fleb p zero then at_ sortedValues 0
      else if fleb one p then at_ sortedValues (Z.of_nat (List.length sortedValues) - 1)
      else
        let idx := fmul (ofZ (Z.of_nat (List.length sortedValues) - 1)) p in
        let lo := Math_floor idx in
        let hi := Math_ceil idx in
        if feqb lo hi then at_ sortedValues (truncNum lo)
        else
          let w := fsub idx lo in
          JNum (fadd (fmul (ToNumber (at_ sortedValues (truncNum lo))) (fsub one w))
                     (fmul (ToNumber (at_ sortedValues (truncNum hi))) w))
  end.

Definition safeAverage (values : list jsval) : jsval :=
  let finite := filter Number_isFinite values in
  match finite with
  | [] => JNull
  | _ =>
      let sum := fold_left (fun a b => fadd a (ToNumber b)) finite zero in
      JNum (fdiv sum (ofNat (List.length finite)))
  end.

(** The loop of [computeMovingAverage] from index [i] on; [values] is the
    whole series, [rest] what is left of it. *)
Fixpoint movingLoop (values rest : list num) (windowSize i : nat) (sum : num)
  : list jsval :=
  match rest with
  | [] => []
  | v :: rest' =>
      let sum := fadd sum v in
      let sum :=
        if (windowSize <=? i)%nat
        then fsub sum (nth (i - windowSize) values S754_nan)
        else sum in
      (if (windowSize - 1 <=? i)%nat
       then JNum (fdiv sum (ofNat windowSize)) else JNull)
        :: movingLoop values rest' windowSize (S i) sum
  end.

Definition computeMovingAverage (values : list num) (windowSize : nat)
  : list jsval :=
  if (List.length values <? windowSize)%nat then map (fun _ => JNull) values
  else movingLoop values values windowSize 0 zero.

(** The pairs kept by the first loop of [pearsonCorrelation]. *)
Fixpoint finitePairs (xs ys : list jsval) : list (num * num) :=
  match xs, ys with
  | x :: xs', y :: ys' =>
      if Number_isFinite x && Number_isFinite y
      then (ToNumber x, ToNumber y) :: finitePairs xs' ys'
      else finitePairs xs' ys'
  | _, _ => []
  end.

Definition pearsonCorrelation (xs ys : list jsval) : jsval :=
  let pairs := finitePairs xs ys in
  if (List.length pairs <? 3)%nat then JNull
  else
    let n := ofNat (List.length pairs) in
    let meanX := fdiv (fold_left (fun s p => fadd s (fst p)) pairs zero) n in
    let meanY := fdiv (fold_left (fun s p => fadd s (snd p)) pairs zero) n in
    let '(num_, denX, denY) :=
      fold_left
        (fun (acc : num * num * num) (p : num * num) =>
           let '(num_, denX, denY) := acc in
           let dx := fsub (fst p) meanX in
           let dy := fsub (snd p) meanY in
           (fadd num_ (fmul dx dy), fadd denX (fmul dx dx), fadd denY (fmul dy dy)))
        pairs (zero, zero, zero) in
    let denom := fsqrt (fmul denX denY) in
    if negb (isFiniteNum denom) || feqb denom zero then JNull
    else JNum (fdiv num_ denom).

Definition dayOfWeekLabel (dow : nat) : jsstring :=
  nth dow [u "Sun"; u "Mon"; u "Tue"; u "Wed"; u "Thu"; u "Fri"; u "Sat"]
    (intToString (Z.of_nat dow)).

Definition byDateIso (a b : MergedRow) : bool := str_ltb (date_iso a) (date_iso b).

(** The comparator [(a, b) => a - b]. *)
Definition ascending (a b : num) : bool := fltb (fsub a b) zero.

Definition effectiveThreshold (opts : options) : num :=
  if Number_isFinite (rainThresholdMm opts) then ToNumber (rainThresholdMm opts)
  else one.

Definition quarter : num := decimalToNum false 25 (-2).
Definition threeQuarters : num := decimalToNum false 75 (-2).

Definition sortedRows (mergedRows : list MergedRow) : list MergedRow :=
  sortBy byDateIso mergedRows.

Section DatesWithHost.
Context {H : Host}.

Definition parseIsoToDate (dateIso : jsstring) : jsdate :=
  let parts := split 45%N dateIso in
  let y := nthNum 0 parts in
  let m := nthNum 1 parts in
  let d := nthNum 2 parts in
  newDate y (fsub m one) d.

Definition temperaturesOf (rows : list MergedRow) : list num :=
  sortBy ascending
    (map ToNumber (filter Number_isFinite (map temperature_c rows))).

(** The callback of [rows.map((r, idx) => ...)], given the moving average
    at that index. *)
Definition enrichRow (rainThresholdMm : num) (p25 p75 : jsval)
    (r : MergedRow) (movingAvg : jsval) : Enriched :=
  let rainfall := ToNumber (rainfall_mm r) in
  let isRainy := if isFiniteNum rainfall then fltb rainThresholdMm rainfall else false in
  let dt := parseIsoToDate (date_iso r) in
  let dayOfWeek := getDay dt in
  let tempCategory :=
    match p25, p75 with
    | JNull, _ | _, JNull => JNull
    | _, _ =>
        if Number_isFinite (temperature_c r) then
          if js_lt (temperature_c r) p25 then JStr (u "cold")
          else if js_gt (temperature_c r) p75 then JStr (u "hot")
          else JStr (u "moderate")
        else JNull
    end in
  mkEnriched r isRainy dayOfWeek tempCategory movingAvg.

Fixpoint enrichLoop (rainThresholdMm : num) (p25 p75 : jsval)
    (rows : list MergedRow) (movingAvg7 : list jsval) : list Enriched :=
  match rows with
  | [] => []
  | r :: rows' =>
      enrichRow rainThresholdMm p25 p75 r
        (match movingAvg7 with v :: _ => v | [] => JUndefined end)
        :: enrichLoop rainThresholdMm p25 p75 rows' (tl movingAvg7)
  end.

(** [enriched], as the function builds it from its arguments. *)
Definition enrichedRows (mergedRows : list MergedRow) (opts : options)
  : list Enriched :=
  let rows := sortedRows mergedRows in
  let temperatures := temperaturesOf rows in
  let p25 := percentile temperatures quarter in
  let p75 := percentile temperatures threeQuarters in
  let ordersSeries := map (fun r => ToNumber (total_orders r)) rows in
  let movingAvg7 := computeMovingAverage ordersSeries 7 in
  enrichLoop (effectiveThreshold opts) p25 p75 rows movingAvg7.

End DatesWithHost.

(** The reducers picking the extreme rows: the first row is taken as it is,
    a later row replaces it when its field is finite and strictly beyond. *)
Definition pickRow (field : MergedRow -> jsval) (beyond : jsval -> jsval -> bool)
    (best : option Enriched) (r : Enriched) : option Enriched :=
  match best with
  | None => Some r
  | Some b =>
      if Number_isFinite (field (row r)) && beyond (field (row r)) (field (row b))
      then Some r else best
  end.

Definition rainyOrders (enriched : list Enriched) : list jsval :=
  map (fun r => total_orders (row r)) (filter is_rainy enriched).

Definition nonRainyOrders (enriched : list Enriched) : list jsval :=
  map (fun r => total_orders (row r)) (filter (fun r => negb (is_rainy r)) enriched).

(** [percentIncrease]: set only when both averages are numbers and the
    non-rainy one is not 0. *)
Definition percentIncreaseOf (nonRainyDayAvg rainyDayAvg : jsval) : jsval :=
  match nonRainyDayAvg, rainyDayAvg with
  | JNull, _ | _, JNull => JNull
  | _, _ =>
      if feqb (ToNumber nonRainyDayAvg) zero then JNull
      else JNum (fdiv (fsub (ToNumber rainyDayAvg) (ToNumber nonRainyDayAvg))
                      (ToNumber nonRainyDayAvg))
  end.

(** [Math.round(x * k) / d]. *)
Definition roundTo (k d : Z) (x : num) : num :=
  fdiv (Math_round (fmul x (ofZ k))) (ofZ d).

Definition roundedOrNull (k d : Z) (v : jsval) : jsval :=
  match v with
  | JNull => JNull
  | _ => JNum (roundTo k d (ToNumber v))
  end.

(** [dowBuckets[dow]] for a number [dow]: the bucket at an integer index
    0 to 6, nothing otherwise. *)
Definition bucketIndex (dow : num) : option nat :=
  if isFiniteNum dow && isIntegral dow && (0 <=? truncNum dow) && (truncNum dow <=? 6)
  then Some (Z.to_nat (truncNum dow)) else None.

Fixpoint updateAt {A : Type} (i : nat) (f : A -> A) (l : list A) : list A :=
  match l, i with
  | [], _ => []
  | x :: l', O => f x :: l'
  | x :: l', S i' => x :: updateAt i' f l'
  end.

(** The loop filling [dowBuckets]; [None] when [dowBuckets[dow]] is
    [undefined] and reading its [count] throws. *)
Fixpoint dowLoop (enriched : list Enriched) (dowBuckets : list (nat * num))
  : option (list (nat * num)) :=
  match enriched with
  | [] => Some dowBuckets
  | r :: rest =>
      let dow := day_of_week r in
      if fltb dow zero || fltb (ofZ 6) dow then dowLoop rest dowBuckets
      else if negb (Number_isFinite (total_orders (row r))) then dowLoop rest dowBuckets
      else
        match bucketIndex dow with
        | None => None
        | Some i =>
            dowLoop rest
              (updateAt i
                 (fun b => (S (fst b), fadd (snd b) (ToNumber (total_orders (row r)))))
                 dowBuckets)
        end
  end.

Fixpoint dowEntries (buckets : list (nat * num)) (dow : nat) : list DowEntry :=
  match buckets with
  | [] => []
  | b :: rest =>
      mkDowEntry dow (dayOfWeekLabel dow) (fst b)
        (if (fst b =? 0)%nat then JNull else JNum (fdiv (snd b) (ofNat (fst b))))
        :: dowEntries rest (S dow)
  end.

(** The comparator [(a, b) => b.avg_orders - a.avg_orders]. *)
Definition byAvgDescending (a b : DowEntry) : bool :=
  fltb (fsub (ToNumber (avg_orders b)) (ToNumber (avg_orders a))) zero.

Section WithHost.
Context {H : Host}.

Definition dayLabel (r : Enriched) (shown : jsval) : jsstring :=
  date_iso (row r) ++ u " (" ++ ToString shown ++ u ")".

(** [`${date_iso} (${Math.round(t * 10) / 10}°C)`] *)
Definition tempLabel (r : Enriched) : jsstring :=
  date_iso (row r) ++ u " ("
    ++ numToString (roundTo 10 10 (ToNumber (temperature_c (row r))))
    ++ [176%N; 67%N; 41%N].

Definition calculateMetricsAndCharts (mergedRows : list MergedRow) (opts : options)
  : option (result Metrics) :=
  match mergedRows with
  | [] =>
      Some (Fail (makeError (u "MERGE_NO_ROWS")
                    (u "No merged data to calculate metrics.") NoDetails))
  | _ =>
      let rows := sortedRows mergedRows in
      let temperatures := temperaturesOf rows in
      let p25 := percentile temperatures quarter in
      let p75 := percentile temperatures threeQuarters in
      let warnings :=
        if (List.length rows <? 7)%nat
        then [u "Dataset is shorter than 7 days; some metrics may be unstable."]
        else [] in
      let enriched := enrichedRows mergedRows opts in
      let n := ofNat (List.length enriched) in
      let totalOrders :=
        fold_left
          (fun sum r =>
             fadd sum (if Number_isFinite (total_orders (row r))
                       then ToNumber (total_orders (row r)) else zero))
          enriched zero in
      let avgOrdersPerDay := fdiv totalOrders n in
      let imputedCount :=
        fold_left
          (fun c r => fadd c (if truthy (imputed_weather (row r)) then one else zero))
          enriched zero in
      let imputedPct :=
        match enriched with [] => zero | _ => fdiv imputedCount n end in
      let maxOrdersRow := fold_left (pickRow total_orders js_gt) enriched None in
      let minOrdersRow := fold_left (pickRow total_orders js_lt) enriched None in
      let hottestRow := fold_left (pickRow temperature_c js_gt) enriched None in
      let coldestRow := fold_left (pickRow temperature_c js_lt) enriched None in
      let rainyDayAvg := safeAverage (rainyOrders enriched) in
      let nonRainyDayAvg := safeAverage (nonRainyOrders enriched) in
      let rainyDays := List.length (rainyOrders enriched) in
      let nonRainyDays := List.length (nonRainyOrders enriched) in
      let percentIncrease := percentIncreaseOf nonRainyDayAvg rainyDayAvg in
      match dowLoop enriched (repeat (0%nat, zero) 7) with
      | None => None
      | Some dowBuckets =>
          let dayOfWeek := dowEntries dowBuckets 0 in
          let bestDow :=
            hd_error
              (sortBy byAvgDescending
                 (filter (fun d => Number_isFinite (avg_orders d)) dayOfWeek)) in
          let bestWeekday :=
            match bestDow with
            | Some b =>
                JStr (label b ++ u " ("
                        ++ numToString (roundTo 100 100 (ToNumber (avg_orders b)))
                        ++ u ")")
            | None => JNull
            end in
          let tempXs :=
            map (fun r => if Number_isFinite (temperature_c (row r))
                          then JNum (ToNumber (temperature_c (row r))) else JNull)
                enriched in
          let orderYs :=
            map (fun r => if Number_isFinite (total_orders (row r))
                          then JNum (ToNumber (total_orders (row r))) else JNull)
                enriched in
          let tempOrderCorr := pearsonCorrelation tempXs orderYs in
          let tempOrderCorrRounded := roundedOrNull 1000 1000 tempOrderCorr in
          let kpis :=
            mkKpis
              (Math_round totalOrders)
              (roundTo 100 100 avgOrdersPerDay)
              (roundedOrNull 100 100 rainyDayAvg)
              (roundedOrNull 100 100 nonRainyDayAvg)
              (roundedOrNull 10000 100 percentIncrease)
              rainyDays
              nonRainyDays
              (roundTo 10000 100 imputedPct)
              (match maxOrdersRow with
               | Some r => JStr (dayLabel r (total_orders (row r)))
               | None => JNull end)
              (match minOrdersRow with
               | Some r => JStr (dayLabel r (total_orders (row r)))
               | None => JNull end)
              (match hottestRow with
               | Some r =>
                   if Number_isFinite (temperature_c (row r))
                   then JStr (tempLabel r) else JNull
               | None => JNull end)
              (match coldestRow with
               | Some r =>
                   if Number_isFinite (temperature_c (row r))
                   then JStr (tempLabel r) else JNull
               | None => JNull end)
              bestWeekday
              tempOrderCorrRounded in
          let chartData :=
            mkChartData
              (map (fun r => mkOrdersPoint (date_iso (row r)) (total_orders (row r))
                               (is_rainy r) (moving_avg_7 r)) enriched)
              (mkWeatherImpact (roundedOrNull 100 100 rainyDayAvg)
                 (roundedOrNull 100 100 nonRainyDayAvg)
                 (roundedOrNull 10000 100 percentIncrease) rainyDays nonRainyDays)
              (map (fun r => mkTempPoint (date_iso (row r)) (temperature_c (row r))
                               (total_orders (row r)) (is_rainy r)) enriched)
              dayOfWeek
              tempOrderCorrRounded
              (p25, p75) in
          Some (Ok (mkMetrics kpis chartData warnings))
      end
  end.

End WithHost.
End MetricsCalculator.

(* ================================================================== *)
(** * The pipeline ([onLoad] in [components/DataLoader.jsx], with two files) *)
(* ================================================================== *)

Module Pipeline.
Import Js.

(** What [onLoad] stores on success. *)
Record Outputs := mkOutputs {
  mergedData : list DataMerger.MergedRow;
  kpis : MetricsCalculator.Kpis;
  chartData : MetricsCalculator.ChartData;
  warnings : list jsstring
}.

(** How a run ends: the state is set from the results, or from the typed
    error a stage returned, or a stage threw; [OutOfFuel] is the model's
    own, for a gap scan or a search for the nearest weather not finished
    within the fuel. *)
Inductive run :=
| Done (o : Outputs)
| Failed (e : error)
| Threw
| OutOfFuel.

(** The fields the merger reads from a normalised row. *)
Definition dateIsoOf (r : obj) : option jsstring :=
  match obj_get r (u "date_iso") with
  | JStr s => Some s
  | _ => None
  end.

Definition orderRowOf (r : obj) : DataMerger.OrderRow :=
  DataMerger.mkOrderRow (dateIsoOf r) (obj_get r (u "total_orders")).

Definition weatherRowOf (r : obj) : DataMerger.WeatherRow :=
  DataMerger.mkWeatherRow (dateIsoOf r) (obj_get r (u "temperature_c"))
    (obj_get r (u "rainfall_mm")) (obj_get r (u "humidity_pct")).

Section WithHost.
Context {H : Host}.

Definition runPipeline (fuel : nat) (ordersText weatherText : jsstring)
    (mergeOpts : DataMerger.options) (metricsOpts : MetricsCalculator.options)
  : run :=
  match CsvParser.parseCsvText ordersText (CsvParser.mkOptions (Some (u "orders"))) with
  | Fail e => Failed e
  | Ok parsedOrders =>
  match CsvParser.parseCsvText weatherText (CsvParser.mkOptions (Some (u "weather"))) with
  | Fail e => Failed e
  | Ok parsedWeather =>
  match DateNormalizer.normalizeDatesInRows fuel (CsvParser.rows parsedOrders)
          (DateNormalizer.mkOptions (Some (u "date")) (Some (u "orders"))
             (Some (u "drop"))) with
  | None => OutOfFuel
  | Some (Fail e) => Failed e
  | Some (Ok (ordersRows, ordersWarnings)) =>
  match DateNormalizer.normalizeDatesInRows fuel (CsvParser.rows parsedWeather)
          (DateNormalizer.mkOptions (Some (u "date")) (Some (u "weather")) None) with
  | None => OutOfFuel
  | Some (Fail e) => Failed e
  | Some (Ok (weatherRows, weatherWarnings)) =>
  match DataMerger.mergeOrdersWithWeather fuel (map orderRowOf ordersRows)
          (map weatherRowOf weatherRows) mergeOpts with
  | None => OutOfFuel
  | Some (Fail e) => Failed e
  | Some (Ok (merged, mergeWarnings)) =>
  match MetricsCalculator.calculateMetricsAndCharts merged metricsOpts with
  | None => Threw
  | Some (Fail e) => Failed e
  | Some (Ok metrics) =>
      Done (mkOutputs merged
              (MetricsCalculator.kpis metrics)
              (MetricsCalculator.chartData metrics)
              (CsvParser.warnings parsedOrders
                 ++ CsvParser.warnings parsedWeather
                 ++ ordersWarnings ++ weatherWarnings
                 ++ mergeWarnings
                 ++ MetricsCalculator.warnings metrics))
  end end end end end end.

(** [onLoad] calls the merger and the metrics engine without options. *)
Definition onLoad (fuel : nat) (ordersText weatherText : jsstring) : run :=
  runPipeline fuel ordersText weatherText
    (DataMerger.mkOptions JUndefined) (MetricsCalculator.mkOptions JUndefined).
End WithHost.
End Pipeline.

(* ================================================================== *)
(** * The weather export ([src/data-weaver/scripts/fetchWeather.mjs]) *)
(* ================================================================== *)

Module FetchWeather.
Import Js.
Local Open Scope N_scope.

(** The units that make a field need quotes: a double quote, a comma, a
    line feed or a carriage return. *)
Definition needsQuoting (c : N) : bool :=
  (c =? 34) || (c =? 44) || (c =? 10) || (c =? 13).

(** Every double quote of the field is written twice. *)
Definition doubleQuotes (s : jsstring) : jsstring :=
  flat_map (fun c => if c =? 34 then [34; 34] else [c]) s.

Section WithHost.
Context {H : Host}.

(** [csvEscape(value)]: the text of the value, in quotes when it needs them. *)
Definition csvEscape (value : jsval) : jsstring :=
  let s := if isNullish value then [] else ToString value in
  if existsb needsQuoting s then [34] ++ doubleQuotes s ++ [34] else s.

End WithHost.
End FetchWeather.

(* ================================================================== *)
(** * Helpers of the loader ([src/data-weaver/src/components/DataLoader.jsx]) *)
(* ================================================================== *)

Module DataLoader.
Import Js.
Local Open Scope list_scope.
Local Open Scope Z_scope.

Definition defaultLocationFromCity {H : Host} (city : jsval) : jsstring :=
  let s := trim (if isNullish city then [] else ToString city) in
  match s with
  | [] => []
  | _ => if str_eqb (toLowerCase s) (u "delhi ncr") then u "Delhi" else s
  end.

(** [Math.max(a, b)]: NaN if either is, and +0 above -0. *)
Definition Math_max (a b : num) : num :=
  if isNaN a || isNaN b then S754_nan
  else if fltb a b then b
  else if fltb b a then a
  else match a with
       | S754_zero true => b
       | _ => a
       end.

(** ToIntegerOrInfinity. *)
Inductive integerOrInfinity :=
| NegInfinity
| Integer (z : Z)
| PosInfinity.

Definition ToIntegerOrInfinity (x : num) : integerOrInfinity :=
  match x with
  | S754_nan => Integer 0
  | S754_infinity s => if s then NegInfinity else PosInfinity
  | _ => Integer (truncNum x)
  end.

(** A relative index of [slice] as an index from 0 to [len]. *)
Definition relativeIndex (len : Z) (r : integerOrInfinity) : Z :=
  match r with
  | NegInfinity => 0
  | PosInfinity => len
  | Integer z => if z <? 0 then Z.max (len + z) 0 else Z.min z len
  end.

(** [arr.slice(start, end)]. *)
Definition slice {A : Type} (arr : list A) (start end_ : num) : list A :=
  let len := Z.of_nat (List.length arr) in
  let k := relativeIndex len (ToIntegerOrInfinity start) in
  let final := relativeIndex len (ToIntegerOrInfinity end_) in
  firstn (Z.to_nat (final - k)) (skipn (Z.to_nat k) arr).

(** [for (let i = 0; i < arr.length; i += safeSize)] from the value [i] on;
    [None] when the fuel runs out before the loop ends. *)
Fixpoint chunkLoop {A : Type} (fuel : nat) (arr : list A) (safeSize i : num)
    (out : list (list A)) : option (list (list A)) :=
  match fuel with
  | O => None
  | S fuel' =>
      if fltb i (ofNat (List.length arr)) then
        chunkLoop fuel' arr safeSize (fadd i safeSize)
          (out ++ [slice arr i (fadd i safeSize)])
      else Some out
  end.

Definition safeSizeOf (size : num) : num := Math_max (ofZ 1) (Math_floor size).

Definition chunkArray {A : Type} (fuel : nat) (arr : list A) (size : num)
  : option (list (list A)) :=
  let safeSize := safeSizeOf size in
  chunkLoop fuel arr safeSize (S754_zero false) [].

End DataLoader.


(* ================================================================== *)
(** * A reference host

    One host the development evaluates the code on: numbers print with the
    shortest digits that read back as the same number, [new Date(string)]
    accepts the ISO date-time format, the time zone is UTC, and a built-in
    function prints as [function name() { [native code] }]; and the same
    host in a zone at a fixed distance from UTC. *)
(* ================================================================== *)

Module ReferenceHost.
Import Js.
Local Open Scope Z_scope.

(** The least [n] from [lo] on, within [fuel] steps, with [p < q * 10^n]. *)
Fixpoint decimalExponent (fuel : nat) (p q n : Z) : Z :=
  match fuel with
  | O => n
  | S fuel' =>
      let below :=
        if 0 <=? n then p <? q * 10 ^ n else p * 10 ^ (- n) <? q in
      if below then n else decimalExponent fuel' p q (n + 1)
  end.

Definition sameNum (a b : num) : bool :=
  match a, b with
  | S754_finite sa ma ea, S754_finite sb mb eb =>
      Bool.eqb sa sb && (ma =? mb)%positive && (ea =? eb)
  | _, _ => false
  end.

(** [|s * 10^e - p / q|] as a numerator over the denominator
    [q * 10^(max 0 (-e))]. *)
Definition distance (p q s e : Z) : Z :=
  if 0 <=? e then Z.abs (s * 10 ^ e * q - p)
  else Z.abs (s * q - p * 10 ^ (- e)).

(** The digits [s] with [k] digits that read back as [x], if any: the one
    closest to [p / q], the even one on a tie. *)
Definition digitsAt (x : num) (p q n : Z) (k : Z) : option Z :=
  let e := n - k in
  let lo := if 0 <=? e then p / (q * 10 ^ e) else (p * 10 ^ (- e)) / q in
  let hi := lo + 1 in
  let okLo := sameNum (decimalToNum false lo e) x in
  let okHi := sameNum (decimalToNum false hi e) x in
  match okLo, okHi with
  | true, false => Some lo
  | false, true => Some hi
  | true, true =>
      let dl := distance p q lo e in
      let dh := distance p q hi e in
      if dl <? dh then Some lo
      else if dh <? dl then Some hi
      else if Z.even lo then Some lo else Some hi
  | false, false => None
  end.

Fixpoint shortest (fuel : nat) (x : num) (p q n k : Z) : Z * Z :=
  match fuel with
  | O => (0, k)
  | S fuel' =>
      match digitsAt x p q n k with
      | Some s => (s, k)
      | None => shortest fuel' x p q n (k + 1)
      end
  end.

Fixpoint stripZeros (fuel : nat) (s : Z) : Z :=
  match fuel with
  | O => s
  | S fuel' => if (s mod 10 =? 0) && negb (s =? 0) then stripZeros fuel' (s / 10) else s
  end.

Definition zeros (n : Z) : jsstring := repeat 48%N (Z.to_nat n).

Definition formatDigits (ds : jsstring) (n : Z) : jsstring :=
  let k := Z.of_nat (List.length ds) in
  if (k <=? n) && (n <=? 21) then ds ++ zeros (n - k)
  else if (0 <? n) && (n <=? 21) then
    firstn (Z.to_nat n) ds ++ u "." ++ skipn (Z.to_nat n) ds
  else if (-6 <? n) && (n <=? 0) then u "0." ++ zeros (- n) ++ ds
  else
    let e := n - 1 in
    let tail := u "e" ++ (if 0 <=? e then u "+" else u "-") ++ intToString (Z.abs e) in
    match ds with
    | [d] => [d] ++ tail
    | d :: rest => [d] ++ u "." ++ rest ++ tail
    | [] => tail
    end.

Definition numberToString (x : num) : jsstring :=
  match x with
  | S754_nan => u "NaN"
  | S754_infinity s => if s then u "-Infinity" else u "Infinity"
  | S754_zero _ => u "0"
  | S754_finite sgn m e =>
      let p := if 0 <=? e then Zpos m * 2 ^ e else Zpos m in
      let q := if 0 <=? e then 1 else 2 ^ (- e) in
      let n := decimalExponent 800 p q (-400) in
      let '(s, k) := shortest 20 (S754_finite false m e) p q n 1 in
      let ds := intToString s in
      let n := n + (Z.of_nat (List.length ds) - k) in
      let ds := intToString (stripZeros 25 s) in
      (if sgn then u "-" else []) ++ formatDigits ds n
  end.

Definition daysInMonth (y m : Z) : Z :=
  if m =? 2 then (if isLeap y then 29 else 28)
  else if (m =? 4) || (m =? 6) || (m =? 9) || (m =? 11) then 30 else 31.

Definition twoDigits (s : jsstring) : option (Z * jsstring) :=
  match s with
  | a :: b :: rest =>
      if isDigit a && isDigit b then Some (digitsToZ [a; b], rest) else None
  | _ => None
  end.

(** [Z], or [+HH:mm] / [-HH:mm], or nothing (local time, [local] minutes
    east of UTC): the offset in minutes. *)
Definition parseOffset (local : Z) (s : jsstring) : option Z :=
  match s with
  | [] => Some local
  | [c] => if (c =? 90)%N then Some 0 else None
  | c :: rest =>
      if (c =? 43)%N || (c =? 45)%N then
        match twoDigits rest with
        | Some (hh, c2 :: rest2) =>
            if (c2 =? 58)%N then
              match twoDigits rest2 with
              | Some (mm, []) =>
                  if (hh <=? 23) && (mm <=? 59)
                  then Some ((if (c =? 45)%N then -1 else 1) * (hh * 60 + mm))
                  else None
              | _ => None
              end
            else None
        | _ => None
        end
      else None
  end.

(** What may follow [HH:mm]: seconds, a fraction, an offset.  The result
    is in milliseconds; digits of the fraction past the third are dropped. *)
Definition parseSeconds (s : jsstring) : option (Z * jsstring) :=
  match s with
  | c :: rest =>
      if (c =? 58)%N then
        match twoDigits rest with
        | Some (ss, rest2) =>
            match rest2 with
            | c2 :: rest3 =>
                if (c2 =? 46)%N then
                  let '(frac, rest4) := span isDigit rest3 in
                  match frac with
                  | [] => None
                  | _ =>
                      Some (ss * 1000 + digitsToZ (firstn 3 (frac ++ [48; 48]%N)),
                            rest4)
                  end
                else Some (ss * 1000, rest2)
            | [] => Some (ss * 1000, [])
            end
        | None => None
        end
      else Some (0, s)
  | [] => Some (0, [])
  end.

(** [Date.parse] in a zone [local] minutes east of UTC. *)
Definition dateParseAt (local : Z) (raw : jsstring) : option Z :=
  match raw with
  | y1 :: y2 :: y3 :: y4 :: s1 :: m1 :: m2 :: s2 :: d1 :: d2 :: t :: time =>
      if forallb isDigit [y1; y2; y3; y4; m1; m2; d1; d2]
         && (s1 =? 45)%N && (s2 =? 45)%N && (t =? 84)%N then
        let y := digitsToZ [y1; y2; y3; y4] in
        let m := digitsToZ [m1; m2] in
        let d := digitsToZ [d1; d2] in
        match twoDigits time with
        | Some (hh, c :: rest) =>
            if (c =? 58)%N then
              match twoDigits rest with
              | Some (mm, rest2) =>
                  match parseSeconds rest2 with
                  | Some (ms, rest3) =>
                      match parseOffset local rest3 with
                      | Some off =>
                          if (1 <=? m) && (m <=? 12) && (1 <=? d)
                             && (d <=? daysInMonth y m)
                             && ((hh <=? 23) || ((hh =? 24) && (mm =? 0) && (ms =? 0)))
                             && (mm <=? 59) && (ms <=? 59999)
                          then
                            timeClip
                              (MakeDate (MakeDay y (m - 1) d)
                                 ((hh * 60 + mm - off) * 60000 + ms))
                          else None
                      | None => None
                      end
                  | None => None
                  end
              | None => None
              end
            else None
        | _ => None
        end
      else None
  | _ => None
  end.

Definition dateParse (raw : jsstring) : option Z := dateParseAt 0 raw.

Definition functionToString (name : jsstring) : jsstring :=
  u "function " ++ name ++ u "() { [native code] }".

Definition utc_offset_bound (t : Z) (isUTC : bool) : Z.abs 0 < 86400000 :=
  eq_refl.

#[export] Instance host : Host := {|
  host_numberToString := numberToString;
  host_dateParse := dateParse;
  host_localTZA := fun _ _ => 0;
  host_localTZA_bound := utc_offset_bound;
  host_functionToString := functionToString
|}.



End ReferenceHost.

(* ================================================================== *)
(** * Vocabulary of the statements *)
(* ================================================================== *)

Module Statements.
Import Js.

(** The number a two-digit token of a slash date denotes. *)
Definition tokenValue (c1 c2 : N) : Z :=
  (10 * (Z.of_N c1 - 48) + (Z.of_N c2 - 48))%Z.

(** A slash-form value: two digits, slash, two digits, slash, four digits. *)
Definition slashForm (a1 a2 b1 b2 y1 y2 y3 y4 : N) : jsstring :=
  [a1; a2; 47; b1; b2; 47; y1; y2; y3; y4]%N.

(** What the parsers return for the families without a date. *)
Definition invalidDate : DateNormalizer.parsed :=
  DateNormalizer.mkParsed (u "invalid") JUndefined.

Definition ambiguousDate : DateNormalizer.parsed :=
  DateNormalizer.mkParsed (u "ambiguous") JUndefined.

(** The whole numbers 1, 2, ..., [n]. *)
Definition offsetsTo (n : Z) : list Z :=
  map Z.of_nat (seq 1 (Z.to_nat n)).

(** The two days at the offset [k] from [d]: the earlier, then the later. *)
Definition daysAt {H : Host} (d : jsstring) (k : Z) : list jsstring :=
  [DataMerger.addDays d (ofZ (- k)); DataMerger.addDays d (ofZ k)].

(** The days the merger looks at around [d], in the order it looks at them:
    [d-k], then [d+k], for the offsets [k] = 1, 2, ... that are at most
    [maxGapDays]: there are as many as the integer part of [maxGapDays]. *)
Definition candidates {H : Host} (d : jsstring) (maxGapDays : num) : list jsstring :=
  flat_map (daysAt d) (offsetsTo (floorZ maxGapDays)).

(** The weather of the first of the days [cands] that has any. *)
Fixpoint firstWeather (weatherByDate : list (jsstring * DataMerger.DailyWeather))
    (cands : list jsstring) : option DataMerger.DailyWeather :=
  match cands with
  | [] => None
  | c :: rest =>
      match assoc_get c weatherByDate with
      | Some w => Some w
      | None => firstWeather weatherByDate rest
      end
  end.

(** The merged row for the aggregate [o] with the weather [w]. *)
Definition mergedRowOf (o : DataMerger.DailyOrders) (w : DataMerger.DailyWeather)
    (imputed : bool) : DataMerger.MergedRow :=
  DataMerger.mkMergedRow (DataMerger.daily_date_iso o)
    (JNum (DataMerger.daily_total_orders o))
    (JNum (DataMerger.dw_temperature_c w)) (JNum (DataMerger.dw_rainfall_mm w))
    (DataMerger.dw_humidity_pct w) (JBool imputed).

(** Whether the order row [r] adds to the sum of the date [d]: it carries
    that date, the date is not empty, and its [total_orders] reads as a finite
    number. *)
Definition contributes (d : jsstring) (r : DataMerger.OrderRow) : bool :=
  match DataMerger.order_date_iso r with
  | Some d' =>
      str_eqb d d' && negb (DataMerger.noDate (Some d'))
      && isFiniteNum (ToNumber (DataMerger.order_total_orders r))
  | None => false
  end.

(** The sum of the rows of the date [d], added in input order from 0 (or
    from [acc] when given); [None] when no row adds to it. *)
Fixpoint dailySumFrom (acc : option num) (d : jsstring)
    (orderRows : list DataMerger.OrderRow) : option num :=
  match orderRows with
  | [] => acc
  | r :: rest =>
      dailySumFrom
        (if contributes d r
         then Some (fadd (match acc with Some v => v | None => DataMerger.zero end)
                      (ToNumber (DataMerger.order_total_orders r)))
         else acc)
        d rest
  end.

Definition dailySum (d : jsstring) (orderRows : list DataMerger.OrderRow)
  : option num :=
  dailySumFrom None d orderRows.

(** The rows the merge loop pushes for the aggregates [daily], in order. *)
Definition mergedOf {H : Host} (fuel : nat)
    (W : list (jsstring * DataMerger.DailyWeather))
    (maxGapDays : num) (daily : list DataMerger.DailyOrders)
  : list DataMerger.MergedRow :=
  flat_map
    (fun o =>
       match DataMerger.findNearestWeather fuel (DataMerger.daily_date_iso o) W
               maxGapDays with
       | Some (Some (w, imputed)) => [mergedRowOf o w imputed]
       | _ => []
       end)
    daily.

Definition foundWeather {H : Host} (fuel : nat)
    (W : list (jsstring * DataMerger.DailyWeather))
    (maxGapDays : num) (d : jsstring) : bool :=
  match DataMerger.findNearestWeather fuel d W maxGapDays with
  | Some (Some _) => true
  | _ => false
  end.


(** How the metrics engine classifies a row, given the rain threshold. *)
Definition classifiedRainy (rainThresholdMm : num) (r : DataMerger.MergedRow) : bool :=
  let rainfall := ToNumber (DataMerger.rainfall_mm r) in
  if isFiniteNum rainfall then fltb rainThresholdMm rainfall else false.

(** A rainfall that is missing, NaN or infinite. *)
Definition notANumberOrInfinite (v : jsval) : Prop :=
  v = JUndefined \/ exists n, v = JNum n /\ isFiniteNum n = false.

(** The date of the row is a calendar date: its [Date] is valid. *)
Definition hasCalendarDate {H : Host} (r : DataMerger.MergedRow) : Prop :=
  MetricsCalculator.parseIsoToDate (DataMerger.date_iso r) <> None.

(** The host's time zone keeps every local time on its civil day: a local
    time, taken as a time value and read back, falls on the same day.  It
    fails in a zone that skips a civil day, as Pacific/Apia did with
    2011-12-30. *)
Definition keepsCivilDays (H : Host) : Prop :=
  forall t : Z, Day (LocalTime (UTC t)) = Day t.

(** The finite totals of the rows, in date order: the values the engine
    averages when every row is non-rainy. *)
Definition finiteTotals (rows : list DataMerger.MergedRow) : list num :=
  map ToNumber
    (filter Number_isFinite
       (map DataMerger.total_orders (MetricsCalculator.sortedRows rows))).

(** The mean as the engine computes it: the values added up from 0 in
    order, divided by their count. *)
Definition meanOf (values : list num) : num :=
  fdiv (fold_left fadd values MetricsCalculator.zero) (ofNat (List.length values)).

(** Two small files the pipeline is run on. *)
Definition sampleOrdersCsv : jsstring :=
  join [10%N]
    [ u "Order Placed At,Total Orders,City";
      u "2024-01-01,100,Delhi";
      u "2024-01-02," ++ [34%N] ++ u "1,200" ++ [34%N] ++ u ",Delhi";
      u "2024-01-03,90,Delhi"; u "2024-01-04,0,Delhi"; u "2024-01-05,110,Delhi";
      u "2024-01-06,95,Delhi"; u "2024-01-07,105,Delhi"; u "2024-01-01,20,Delhi" ].

Definition sampleWeatherCsv : jsstring :=
  join [10%N]
    [ u "date;temperature;rainfall;humidity";
      u "2024-01-01;20;0;60"; u "2024-01-02;21;2;65"; u "2024-01-03;19;0;";
      u "2024-01-05;22;5;70"; u "2024-01-06;23;0;55"; u "2024-01-07;18;1;50";
      u "2024-01-08;17;0;45" ].

End Statements.

(* ================================================================== *)
(** * Vocabulary of the further properties *)
(* ================================================================== *)

Module Shapes.
Import Js.

Section HeaderTokensTerms.
Import Js.
Local Open Scope N_scope.
Import CsvParser.

(** No two underscores in a row. *)
Fixpoint singleUnderscores (s : jsstring) : bool :=
  match s with
  | a :: rest =>
      negb ((a =? 95) && (hd 0 rest =? 95)) && singleUnderscores rest
  | [] => true
  end.

End HeaderTokensTerms.

Section CsvLinesRoundTripTerms.
Import Js.
Local Open Scope N_scope.

(** What [csvEscape] writes for a value, before quoting. *)
Definition cellText {H : Host} (value : jsval) : jsstring :=
  if isNullish value then [] else ToString value.

End CsvLinesRoundTripTerms.

Section ParsedTablesTerms.
Import Js.
Local Open Scope N_scope.
Import Statements CsvParser.

(** The lines [parseCsvText] keeps: the text without its byte-order mark,
    with its line ends normalised, trimmed, split at line feeds, without the
    blank lines. *)
Definition nonBlankLines (text : jsstring) : list jsstring :=
  filter (fun l => (0 <? List.length (trim l))%nat)
    (map trimEnd (split 10 (trim (normalizeNewlines (stripBom text))))).

(** [null] or a finite number. *)
Definition nullOrFinite (v : jsval) : bool :=
  match v with
  | JNull => true
  | JNum n => isFiniteNum n
  | _ => false
  end.

(** The numeric fields of a canonical row of the given source. *)
Definition numericFields (sourceName : jsstring) : list jsstring :=
  if str_eqb sourceName (u "orders") then [u "total_orders"]
  else [u "temperature_c"; u "rainfall_mm"; u "humidity_pct";
        u "rain_duration_minutes"].

Definition inferredCountWarning : jsstring :=
  u "No total_orders column found in orders; inferring total_orders=1 per row using order_id.".

(** An orders file with a date and an order identifier only. *)
Definition sampleOrderIdsCsv : jsstring :=
  join [10]
    [ u "date,order_id";
      u "2024-01-01,a1"; u "2024-01-01,a2"; u "2024-01-02,b1"; u "2024-01-03,c1";
      u "2024-01-04,d1"; u "2024-01-05,e1"; u "2024-01-06,f1"; u "2024-01-07,g1" ].

End ParsedTablesTerms.

Section SafeIntegersTerms.
Import Js.
Local Open Scope Z_scope.

(** The binary64 number of sign [s] and magnitude the integer [n], for
    [n] below 2^53: the digits of [n] shifted to a 53-bit mantissa. *)
Definition intNum (s : bool) (n : positive) : num :=
  let d := Zpos (digits2_pos n) in
  S754_finite s (Pos.shiftl n (Z.to_N (53 - d))) (d - 53).

(** The integers below 2^53 in magnitude. *)
Definition safeInt (z : Z) : Prop := Z.abs z < 2 ^ 53.

End SafeIntegersTerms.

Section CalendarTerms.
Import Js.
Local Open Scope Z_scope.

(** A calendar date: a month from January (0) to December (11) and a day of
    that month. *)
Definition validDate (y mi d : Z) : Prop :=
  0 <= mi <= 11 /\ 1 <= d <= ReferenceHost.daysInMonth y (mi + 1).

End CalendarTerms.

Section DateTextsTerms.
Import Js.
Local Open Scope Z_scope.
Import DateNormalizer.

(** The text [YYYY-MM-DD] of a year, a month and a day, as
    [toIsoDateFromParts] writes whole numbers. *)
Definition isoText (y m d : Z) : jsstring :=
  padStart0 4 (intToString y) ++ u "-" ++ padStart0 2 (intToString m)
    ++ u "-" ++ padStart0 2 (intToString d).

(** The text of the calendar date of a day number. *)
Definition isoOfDay (z : Z) : jsstring :=
  let '(y, mi, d) := civilFromDays z in isoText y (mi + 1) d.

(** The whole numbers from [z] on, [n] of them. *)
Fixpoint daysFrom (n : nat) (z : Z) : list Z :=
  match n with
  | O => []
  | S n' => z :: daysFrom n' (z + 1)
  end.

Definition paddedRead (width : nat) (y : Z) : bool :=
  let s := padStart0 width (intToString y) in
  (List.length s =? width)%nat && forallb isDigit s && (digitsToZ s =? y).

(** The day numbers whose year has four digits and is not read as a year
    of the twentieth century: 0100-01-01 to 9999-12-31. *)
Definition inIsoRange (z : Z) : Prop := MakeDay 100 0 1 <= z <= MakeDay 9999 11 31.

(** Order of two calendar dates. *)
Definition dateBefore (y mi d y' mi' d' : Z) : bool :=
  (y <? y') || ((y =? y') && ((mi <? mi') || ((mi =? mi') && (d <? d')))).

End DateTextsTerms.

Section MissingDaysTerms.
Import Js.
Local Open Scope Z_scope.
Import DateNormalizer.

(** The texts of the days strictly between two days that are not in the
    set, in calendar order: what the scan for missing days reports. *)
Definition missingBetween (a b : Z) (dateSet : list jsstring) : list jsstring :=
  filter (fun s => negb (set_has s dateSet))
    (map isoOfDay (daysFrom (Z.to_nat (b - a - 1)) (a + 1))).

End MissingDaysTerms.

Section ParsedDateTextsTerms.
Import Js. Import Statements.
Local Open Scope Z_scope.
Import DateNormalizer.

(** The parser wrote the text of a day from year 0100 to year 9999. *)
Definition datedResult (p : parsed) : Prop :=
  exists z, inIsoRange z /\ date_iso p = JStr (isoOfDay z).

(** The parser wrote the text of three whole numbers that passed
    [isValidYmd]. *)
Definition checkedResult {H : Host} (p : parsed) : Prop :=
  exists y m d,
    0 <= y <= 9999 /\ 0 <= m <= 99 /\ 0 <= d <= 99
    /\ isValidYmd (ofZ y) (ofZ m) (ofZ d) = true
    /\ date_iso p = JStr (isoText y m d).

End ParsedDateTextsTerms.

Section MonthNameDatesTerms.
Import Js. Import Statements.
Local Open Scope Z_scope.
Import DateNormalizer.

(** The plain month-name form: a month name, one space, a day of one or
    two digits, one space, a year of four digits. *)
Definition monthNameForm (name ds ys : jsstring) : jsstring :=
  name ++ 32%N :: ds ++ 32%N :: ys.

End MonthNameDatesTerms.

Section NormalizedRowsTerms.
Import Js.
Local Open Scope N_scope.
Import DateNormalizer.

(** The date text of a row and what the chain of parsers makes of it. *)
Definition dateText {H : Host} (dateKey : jsstring) (r : obj) : jsstring :=
  trim (ToString (obj_member r dateKey)).

Definition familyOf {H : Host} (dateKey : jsstring) (r : obj) : option jsstring :=
  option_map family (parseDateValue (dateText dateKey r)).

(** The row as the normaliser returns it: [date_raw] and [date_iso] added. *)
Definition normalizedRow {H : Host} (dateKey : jsstring) (r : obj) : obj :=
  match parseDateValue (dateText dateKey r) with
  | Some p =>
      obj_set (obj_set r (u "date_raw") (JStr (dateText dateKey r)))
        (u "date_iso") (date_iso p)
  | None => r
  end.

(** The rows that hold a date. *)
Definition datedRows {H : Host} (dateKey : jsstring) (rows : list obj) : list obj :=
  filter (fun r => negb (isMissing (obj_member r dateKey))) rows.

(** Three rows of an orders file: two dates and a row without a date. *)
Definition sampleDatedRows : list obj :=
  [ [(u "date", JStr (u "2024-01-01")); (u "total_orders", JNum (ofZ 5))];
    [(u "date", JStr (u " ")); (u "total_orders", JNum (ofZ 7))];
    [(u "date", JStr (u "2024-01-04")); (u "total_orders", JNum (ofZ 9))] ].

End NormalizedRowsTerms.

Section NormalizerEndsTerms.
Import Js. Import Statements.
Local Open Scope Z_scope.
Import DateNormalizer.

(** A text that is the date of a day from year 0100 to year 9999. *)
Definition isoDay (s : jsstring) : Prop := exists z, inIsoRange z /\ s = isoOfDay z.

End NormalizerEndsTerms.

Section DailyWeatherTerms.
Import Js. Import Statements.
Import DataMerger.

(** Whether the weather row [r] counts for the date [d]: it carries that
    date, and the date is not empty. *)
Definition weatherOf (d : jsstring) (r : WeatherRow) : bool :=
  match weather_date_iso r with
  | Some d' => str_eqb d d' && negb (noDate (Some d'))
  | None => false
  end.

(** What one row adds to the bucket of its date: each field only when it
    is a finite number. *)
Definition addToBucket (b : Bucket) (r : WeatherRow) : Bucket :=
  let b :=
    if Number_isFinite (weather_temperature_c r)
    then mkBucket (S (countTemp b)) (fadd (sumTemp b) (ToNumber (weather_temperature_c r)))
           (sumRain b) (countHumidity b) (sumHumidity b)
    else b in
  let b :=
    if Number_isFinite (weather_rainfall_mm r)
    then mkBucket (countTemp b) (sumTemp b)
           (fadd (sumRain b) (ToNumber (weather_rainfall_mm r)))
           (countHumidity b) (sumHumidity b)
    else b in
  if Number_isFinite (weather_humidity_pct r)
  then mkBucket (countTemp b) (sumTemp b) (sumRain b)
         (S (countHumidity b)) (fadd (sumHumidity b) (ToNumber (weather_humidity_pct r)))
  else b.

(** The bucket of the date [d] over the rows, in input order. *)
Fixpoint bucketFrom (b : option Bucket) (d : jsstring) (rows : list WeatherRow)
  : option Bucket :=
  match rows with
  | [] => b
  | r :: rest =>
      bucketFrom
        (if weatherOf d r
         then Some (addToBucket (match b with Some b => b | None => emptyBucket end) r)
         else b)
        d rest
  end.

(** The daily weather a bucket stands for: none without a temperature. *)
Definition dailyOfBucket (d : jsstring) (b : Bucket) : option DailyWeather :=
  if (countTemp b =? 0)%nat then None
  else Some (mkDailyWeather d
               (fdiv (sumTemp b) (ofNat (countTemp b)))
               (sumRain b)
               (if (countHumidity b =? 0)%nat then JNull
                else JNum (fdiv (sumHumidity b) (ofNat (countHumidity b))))).

Definition dailyWeatherOf (d : jsstring) (rows : list WeatherRow)
  : option DailyWeather :=
  match bucketFrom None d rows with
  | Some b => dailyOfBucket d b
  | None => None
  end.

(** The one error of the merger. *)
Definition noRowsError : error :=
  makeError (u "MERGE_NO_ROWS")
    (u "Merge produced no rows. Check date normalization and imputation rules.")
    NoDetails.

End DailyWeatherTerms.

Section MetricsShapesTerms.
Import Js. Import Statements.
Import DataMerger MetricsCalculator.

(** The rows whose [total_orders] is a finite number. *)
Definition finiteOrders (rows : list MergedRow) : list MergedRow :=
  filter (fun r => Number_isFinite (total_orders r)) rows.

(** Three merged days, the second one rainy. *)
Definition sampleMergedRows : list MergedRow :=
  [ mkMergedRow (u "2024-01-02") (JNum (ofZ 120)) (JNum (ofZ 21)) (JNum (ofZ 4))
      JNull (JBool false);
    mkMergedRow (u "2024-01-01") (JNum (ofZ 100)) (JNum (ofZ 20)) (JNum (ofZ 0))
      JNull (JBool false);
    mkMergedRow (u "2024-01-03") (JNum (ofZ 90)) (JNum (ofZ 19)) (JNum (ofZ 0))
      JNull (JBool true) ].

End MetricsShapesTerms.

Section MovingAveragesTerms.
Import Js.
Local Open Scope Z_scope.
Import MetricsCalculator.

(** Sum of whole numbers, and of their absolute values. *)
Definition sumZ (l : list Z) : Z := fold_right Z.add 0 l.

Definition sumAbs (l : list Z) : Z := fold_right (fun z acc => Z.abs z + acc) 0 l.

(** The sum of the entries [lo], ..., [hi - 1]. *)
Definition rangeSum (zs : list Z) (lo hi : nat) : Z :=
  sumZ (firstn (hi - lo) (skipn lo zs)).

(** The sum of the [w] entries that end at index [i]. *)
Definition windowSum (zs : list Z) (w i : nat) : Z := rangeSum zs (i + 1 - w) (i + 1).

End MovingAveragesTerms.

Section WholeNumberKpisTerms.
Import Js. Import Statements.
Local Open Scope Z_scope.
Import DataMerger MetricsCalculator.

(** The text of a day in the KPIs: [`${date_iso} (${total})`] for a whole
    number as the total. *)
Definition dayText (r : MergedRow) (total : Z) : jsstring :=
  date_iso r ++ u " (" ++ intToString total ++ u ")".

(** The row [r] holds the whole number [t r] as its total. *)
Definition wholeTotal (t : MergedRow -> Z) (r : MergedRow) : Prop :=
  total_orders r = JNum (ofZ (t r)).

End WholeNumberKpisTerms.

Section TimeZonesTerms.
Import Js.
Import DateNormalizer.





End TimeZonesTerms.

End Shapes.


(* ================================================================== *)
(** * Properties *)
(* ================================================================== *)

Import Statements.

Import Js.

(** ** Strings and digits *)

Lemma str_eqb_eq (a b : jsstring) : str_eqb a b = true <-> a = b.
Proof.
  revert b; induction a as [|x a IH]; intros [|y b]; simpl; split; intros E;
    try reflexivity; try discriminate.
  - apply andb_true_iff in E as [E1 E2].
    apply N.eqb_eq in E1. apply IH in E2. now subst.
  - injection E as -> ->. rewrite N.eqb_refl. simpl. now apply IH.
Qed.

Lemma str_eqb_refl (a : jsstring) : str_eqb a a = true.
Proof. now apply str_eqb_eq. Qed.

Lemma str_eqb_neq (a b : jsstring) : str_eqb a b = false <-> a <> b.
Proof.
  split.
  - intros E ->. rewrite str_eqb_refl in E. discriminate.
  - intros N. destruct (str_eqb a b) eqn:E; [|reflexivity].
    apply str_eqb_eq in E. contradiction.
Qed.

Lemma isDigit_range (c : N) : isDigit c = true <-> (48 <= c <= 57)%N.
Proof.
  unfold isDigit. rewrite andb_true_iff, !N.leb_le. tauto.
Qed.

Lemma isDigit_cases (c : N) :
  isDigit c = true ->
  In c [48; 49; 50; 51; 52; 53; 54; 55; 56; 57]%N.
Proof.
  intros Hd. apply isDigit_range in Hd. simpl.
  assert (c = 48 \/ c = 49 \/ c = 50 \/ c = 51 \/ c = 52 \/ c = 53 \/ c = 54
          \/ c = 55 \/ c = 56 \/ c = 57)%N as Hc by lia.
  intuition auto.
Qed.

(** Facts about a digit, each checked on the ten digits. *)
Ltac each_digit H :=
  apply isDigit_cases in H; simpl in H;
  repeat (destruct H as [H|H]; [subst; reflexivity|]); contradiction.

Lemma isDigit_not_ws (c : N) : isDigit c = true -> isWhiteSpace c = false.
Proof. intros Hd. each_digit Hd. Qed.

Lemma isDigit_not_alpha (c : N) : isDigit c = true -> isAlpha c = false.
Proof. intros Hd. each_digit Hd. Qed.

Lemma isDigit_not_comma (c : N) : isDigit c = true -> (44 =? c)%N = false.
Proof. intros Hd. each_digit Hd. Qed.

(** ** Two-digit tokens of a slash date *)

Lemma tokenValue_range (c1 c2 : N) :
  isDigit c1 = true -> isDigit c2 = true -> (0 <= tokenValue c1 c2 <= 99)%Z.
Proof.
  intros H1 H2. apply isDigit_range in H1, H2. unfold tokenValue. lia.
Qed.

Lemma token_facts (c1 c2 : N) :
  isDigit c1 = true -> isDigit c2 = true ->
  let a := StringToNumber [c1; c2] in
  let z := tokenValue c1 c2 in
  a = ofZ z
  /\ fltb a (ofZ 1) = (z <? 1)%Z
  /\ fltb (ofZ 31) a = (31 <? z)%Z
  /\ fltb (ofZ 12) a = (12 <? z)%Z
  /\ fleb a (ofZ 12) = (z <=? 12)%Z.
Proof.
  intros H1 H2.
  apply isDigit_cases in H1; apply isDigit_cases in H2; simpl in H1, H2.
  repeat (destruct H1 as [H1|H1]; [subst c1|]); try contradiction;
    repeat (destruct H2 as [H2|H2]; [subst c2|]); try contradiction;
    vm_compute; repeat split.
Qed.

(** ** The date normaliser on slash-form values *)

Section SlashDates.
Context {H : Host}.
Import DateNormalizer.

Variables a1 a2 b1 b2 y1 y2 y3 y4 : N.
Hypothesis Da1 : isDigit a1 = true.
Hypothesis Da2 : isDigit a2 = true.
Hypothesis Db1 : isDigit b1 = true.
Hypothesis Db2 : isDigit b2 = true.
Hypothesis Dy1 : isDigit y1 = true.
Hypothesis Dy2 : isDigit y2 = true.
Hypothesis Dy3 : isDigit y3 = true.
Hypothesis Dy4 : isDigit y4 = true.

Let s := slashForm a1 a2 b1 b2 y1 y2 y3 y4.
Let A := tokenValue a1 a2.
Let B := tokenValue b1 b2.
Let year := StringToNumber [y1; y2; y3; y4].

Lemma slash_not_iso : parseIsoDate s = None.
Proof.
  unfold parseIsoDate, matchIsoDate, s, slashForm.
  cbn [forallb]. rewrite Da1, Da2. reflexivity.
Qed.

Lemma slash_not_timestamp : parseIsoTimestamp s = None.
Proof. reflexivity. Qed.

Lemma slash_trim : trim s = s.
Proof.
  unfold trim, trimEnd, s, slashForm.
  cbn [trimStart]. rewrite (isDigit_not_ws _ Da1).
  cbn [rev app trimStart]. rewrite (isDigit_not_ws _ Dy4).
  reflexivity.
Qed.

Lemma slash_no_comma : includes 44 s = false.
Proof.
  unfold includes, s, slashForm. cbn [existsb].
  rewrite (isDigit_not_comma _ Da1), (isDigit_not_comma _ Da2),
    (isDigit_not_comma _ Db1), (isDigit_not_comma _ Db2),
    (isDigit_not_comma _ Dy1), (isDigit_not_comma _ Dy2),
    (isDigit_not_comma _ Dy3), (isDigit_not_comma _ Dy4).
  reflexivity.
Qed.

Lemma matchMonthName_not_alpha (c : N) (r : jsstring) :
  isAlpha c = false -> matchMonthName (c :: r) = None.
Proof.
  intros Hc. unfold matchMonthName. cbn [span]. rewrite Hc.
  destruct (span isWhiteSpace (c :: r)) as [ws1 r2].
  destruct (span isDigit r2) as [ds r3].
  destruct (span isWhiteSpace _) as [ws2 r5].
  reflexivity.
Qed.

Lemma slash_not_month_name : parseMonthNameDate s = None.
Proof.
  unfold parseMonthNameDate. rewrite slash_trim, slash_no_comma.
  unfold s, slashForm.
  rewrite matchMonthName_not_alpha by (now apply isDigit_not_alpha).
  reflexivity.
Qed.

Lemma slash_parse_by_slash_parser : parseDateValue s = parseSlashDate s.
Proof.
  unfold parseDateValue.
  rewrite slash_not_iso, slash_not_timestamp, slash_not_month_name.
  reflexivity.
Qed.

(** [parseSlashDate] on a slash-form value, with the comparisons read on
    the integer values of the two tokens. *)
Lemma parseSlashDate_tokens :
  parseSlashDate s =
    if ((A <? 1) || (31 <? A) || (B <? 1) || (31 <? B))%Z then Some invalidDate
    else
      let isDmy := ((12 <? A) && (B <=? 12))%Z in
      let isMdy := ((12 <? B) && (A <=? 12))%Z in
      if negb isDmy && negb isMdy then Some ambiguousDate
      else
        let day := if isDmy then ofZ A else ofZ B in
        let month := if isDmy then ofZ B else ofZ A in
        if negb (isValidYmd year month day) then Some invalidDate
        else Some (mkParsed (if isDmy then u "dmy" else u "mdy")
                     (JStr (toIsoDateFromParts year month day))).
Proof.
  unfold parseSlashDate, matchSlash, s, slashForm.
  cbn [forallb]. rewrite Da1, Da2, Db1, Db2, Dy1, Dy2, Dy3, Dy4.
  cbn [andb N.eqb Pos.eqb].
  destruct (token_facts a1 a2 Da1 Da2) as (Ea & Ea1 & Ea31 & Ea12 & Ea12').
  destruct (token_facts b1 b2 Db1 Db2) as (Eb & Eb1 & Eb31 & Eb12 & Eb12').
  cbv zeta in Ea, Ea1, Ea31, Ea12, Ea12', Eb, Eb1, Eb31, Eb12, Eb12'.
  rewrite Ea1, Ea31, Ea12, Ea12', Eb1, Eb31, Eb12, Eb12'.
  fold A B year. rewrite Ea, Eb. fold A B. reflexivity.
Qed.

End SlashDates.

(** ** The row loop of the date normaliser *)

Section NormalizeLoop.
Context {H : Host}.
Import DateNormalizer.

(** A cell that holds a string is an own property. *)
Lemma obj_member_string (row : obj) (k v : jsstring) :
  obj_get row k = JStr v -> obj_member row k = JStr v.
Proof.
  unfold obj_get, obj_member.
  destruct (assoc_get k row); [trivial | discriminate].
Qed.

(** Rows after a prefix that passes are processed from the state the
    prefix leaves, at the index after it. *)
Lemma normalizeLoop_app (dk sn om : jsstring) (pre rest : list obj) :
  forall i fam norm dr,
    normalizeLoop dk sn om (pre ++ rest) i fam norm dr =
      match normalizeLoop dk sn om pre i fam norm dr with
      | Ok (f, n, d) => normalizeLoop dk sn om rest (i + List.length pre) f n d
      | Fail e => Fail e
      end.
Proof.
  induction pre as [|row pre IH]; intros i fam norm dr.
  - cbn [app normalizeLoop List.length]. now rewrite Nat.add_0_r.
  - cbn [app normalizeLoop List.length]. rewrite Nat.add_succ_r.
    destruct (isMissing (obj_member row dk)).
    + destruct (str_eqb om (u "drop")); [apply IH | reflexivity].
    + destruct (parseDateValue _) as [p|]; [|reflexivity].
      destruct (str_eqb (family p) (u "ambiguous")); [reflexivity|].
      destruct (str_eqb (family p) (u "invalid")); [reflexivity|].
      apply IH.
Qed.

Lemma string_cell_not_missing (v : jsstring) :
  trim v <> [] -> isMissing (JStr v) = false.
Proof.
  intros Hv. unfold isMissing. cbn [isNullish ToString orb].
  destruct (trim v); [contradiction | reflexivity].
Qed.

(** A row whose date reads as ambiguous, reached after rows that pass,
    fails the whole batch with [DATE_AMBIGUOUS]. *)
Lemma ambiguous_row_fails_batch (fuel : nat) (opts : options)
    (pre rest : list obj) (row : obj) (v : jsstring) st :
  let dk := orDefault (dateKey opts) (u "date") in
  let sn := orDefault (sourceName opts) (u "unknown") in
  let om := orDefault (onMissingDate opts) (u "error") in
  normalizeLoop dk sn om pre 0 [] [] 0 = Ok st ->
  obj_get row dk = JStr v ->
  trim v <> [] ->
  parseDateValue (trim v) = Some ambiguousDate ->
  normalizeDatesInRows fuel (pre ++ row :: rest) opts =
    Some (Fail (makeError (u "DATE_AMBIGUOUS")
                  (u "Ambiguous date at row " ++ rowNumber (List.length pre)
                     ++ u " in " ++ sn ++ u ".")
                  (DRowValue (List.length pre) (trim v)))).
Proof.
  intros dk sn om Hpre Hcell Hne Hparse.
  unfold normalizeDatesInRows. fold dk sn om.
  rewrite normalizeLoop_app, Hpre. destruct st as [[f n] d].
  cbn [normalizeLoop Nat.add].
  rewrite (obj_member_string _ _ _ Hcell), (string_cell_not_missing _ Hne).
  cbn [ToString]. rewrite Hparse. reflexivity.
Qed.

(** Likewise for a date that reads as invalid, with [DATE_INVALID]. *)
Lemma invalid_row_fails_batch (fuel : nat) (opts : options)
    (pre rest : list obj) (row : obj) (v : jsstring) st :
  let dk := orDefault (dateKey opts) (u "date") in
  let sn := orDefault (sourceName opts) (u "unknown") in
  let om := orDefault (onMissingDate opts) (u "error") in
  normalizeLoop dk sn om pre 0 [] [] 0 = Ok st ->
  obj_get row dk = JStr v ->
  trim v <> [] ->
  parseDateValue (trim v) = Some invalidDate ->
  normalizeDatesInRows fuel (pre ++ row :: rest) opts =
    Some (Fail (makeError (u "DATE_INVALID")
                  (u "Invalid date at row " ++ rowNumber (List.length pre)
                     ++ u " in " ++ sn ++ u ".")
                  (DRowValue (List.length pre) (trim v)))).
Proof.
  intros dk sn om Hpre Hcell Hne Hparse.
  unfold normalizeDatesInRows. fold dk sn om.
  rewrite normalizeLoop_app, Hpre. destruct st as [[f n] d].
  cbn [normalizeLoop Nat.add].
  rewrite (obj_member_string _ _ _ Hcell), (string_cell_not_missing _ Hne).
  cbn [ToString]. rewrite Hparse. reflexivity.
Qed.

End NormalizeLoop.

(** ** C2: disambiguation of slash dates *)

(** C2, as stated, fails: in ["00/05/2024"] both tokens are at most 12, yet
    the batch fails with [DATE_INVALID], by the range guard that precedes the
    ambiguity test. *)
Lemma slash_zero_token_is_invalid_not_ambiguous :
  exists e,
    DateNormalizer.normalizeDatesInRows (H := ReferenceHost.host) 0
      [[(u "date", JStr (u "00/05/2024"))]]
      (DateNormalizer.mkOptions None None None) = Some (Fail e)
    /\ code e = u "DATE_INVALID"
    /\ code e <> u "DATE_AMBIGUOUS".
Proof.
  eexists. split; [vm_compute; reflexivity|].
  split; [reflexivity | discriminate].
Qed.

(** C2 (amended): for a slash-form value whose two tokens are both between 1
    and 12, the value reads as ambiguous and, in a row reached after rows that
    pass, the whole batch fails with [DATE_AMBIGUOUS]; when exactly one token
    exceeds 12 (and is at most 31, the other being at least 1), that token is
    the day and the other the month, day-first or month-first accordingly,
    subject to calendar validation. *)
Theorem slash_date_disambiguation
    (H : Host) (a1 a2 b1 b2 y1 y2 y3 y4 : N)
    (Da1 : isDigit a1 = true) (Da2 : isDigit a2 = true)
    (Db1 : isDigit b1 = true) (Db2 : isDigit b2 = true)
    (Dy1 : isDigit y1 = true) (Dy2 : isDigit y2 = true)
    (Dy3 : isDigit y3 = true) (Dy4 : isDigit y4 = true) :
  let s := slashForm a1 a2 b1 b2 y1 y2 y3 y4 in
  let A := tokenValue a1 a2 in
  let B := tokenValue b1 b2 in
  let year := StringToNumber [y1; y2; y3; y4] in
  ((1 <= A <= 12)%Z -> (1 <= B <= 12)%Z ->
     DateNormalizer.parseDateValue s = Some ambiguousDate
     /\ forall fuel opts pre rest row v st,
          DateNormalizer.normalizeLoop
            (DateNormalizer.orDefault (DateNormalizer.dateKey opts) (u "date"))
            (DateNormalizer.orDefault (DateNormalizer.sourceName opts) (u "unknown"))
            (DateNormalizer.orDefault (DateNormalizer.onMissingDate opts) (u "error"))
            pre 0 [] [] 0 = Ok st ->
          obj_get row (DateNormalizer.orDefault (DateNormalizer.dateKey opts) (u "date"))
            = JStr v ->
          trim v = s ->
          exists e,
            DateNormalizer.normalizeDatesInRows fuel (pre ++ row :: rest) opts
              = Some (Fail e)
            /\ code e = u "DATE_AMBIGUOUS"
            /\ error_details e = DRowValue (List.length pre) s)
  /\ ((12 < A <= 31)%Z -> (1 <= B <= 12)%Z ->
        DateNormalizer.parseDateValue s =
          Some (if DateNormalizer.isValidYmd year (ofZ B) (ofZ A)
                then DateNormalizer.mkParsed (u "dmy")
                       (JStr (DateNormalizer.toIsoDateFromParts year (ofZ B) (ofZ A)))
                else invalidDate))
  /\ ((12 < B <= 31)%Z -> (1 <= A <= 12)%Z ->
        DateNormalizer.parseDateValue s =
          Some (if DateNormalizer.isValidYmd year (ofZ A) (ofZ B)
                then DateNormalizer.mkParsed (u "mdy")
                       (JStr (DateNormalizer.toIsoDateFromParts year (ofZ A) (ofZ B)))
                else invalidDate)).
Proof.
  intros s A B year.
  assert (Hparse : DateNormalizer.parseDateValue s = DateNormalizer.parseSlashDate s)
    by (now apply slash_parse_by_slash_parser).
  pose proof (parseSlashDate_tokens a1 a2 b1 b2 y1 y2 y3 y4
                Da1 Da2 Db1 Db2 Dy1 Dy2 Dy3 Dy4) as Htok.
  fold s A B year in Htok. cbv zeta in Htok.
  repeat split.
  - rewrite Hparse, Htok.
    replace (A <? 1)%Z with false by lia. replace (31 <? A)%Z with false by lia.
    replace (B <? 1)%Z with false by lia. replace (31 <? B)%Z with false by lia.
    replace (12 <? A)%Z with false by lia. replace (12 <? B)%Z with false by lia.
    reflexivity.
  - intros fuel opts pre rest row v st Hpre Hcell Hv.
    eexists. split; [|split].
    + rewrite <- Hv in *.
      eapply ambiguous_row_fails_batch; eauto.
      * rewrite Hv. discriminate.
      * rewrite Hparse, Htok.
        replace (A <? 1)%Z with false by lia. replace (31 <? A)%Z with false by lia.
        replace (B <? 1)%Z with false by lia. replace (31 <? B)%Z with false by lia.
        replace (12 <? A)%Z with false by lia. replace (12 <? B)%Z with false by lia.
        reflexivity.
    + reflexivity.
    + cbn [error_details]. now rewrite Hv.
  - intros HA HB. rewrite Hparse, Htok.
    replace (A <? 1)%Z with false by lia. replace (31 <? A)%Z with false by lia.
    replace (B <? 1)%Z with false by lia. replace (31 <? B)%Z with false by lia.
    replace (12 <? A)%Z with true by lia. replace (B <=? 12)%Z with true by lia.
    cbn [orb andb negb].
    destruct (DateNormalizer.isValidYmd year (ofZ B) (ofZ A)); reflexivity.
  - intros HB HA. rewrite Hparse, Htok.
    replace (A <? 1)%Z with false by lia. replace (31 <? A)%Z with false by lia.
    replace (B <? 1)%Z with false by lia. replace (31 <? B)%Z with false by lia.
    replace (12 <? A)%Z with false by lia. replace (12 <? B)%Z with true by lia.
    replace (A <=? 12)%Z with true by lia.
    cbn [orb andb negb].
    destruct (DateNormalizer.isValidYmd year (ofZ A) (ofZ B)); reflexivity.
Qed.

Lemma slash_date_disambiguation_witness :
  isDigit 49 = true /\ isDigit 51 = true /\ isDigit 48 = true /\ isDigit 49 = true
  /\ isDigit 50 = true /\ isDigit 48 = true /\ isDigit 50 = true /\ isDigit 52 = true
  /\ DateNormalizer.parseDateValue (H := ReferenceHost.host) (u "13/01/2024")
     = Some (DateNormalizer.mkParsed (u "dmy") (JStr (u "2024-01-13"))).
Proof.
  repeat (split; [reflexivity|]).
  pose proof (slash_date_disambiguation ReferenceHost.host 49 51 48 49 50 48 50 52
                eq_refl eq_refl eq_refl eq_refl eq_refl eq_refl eq_refl eq_refl) as W.
  cbv zeta in W. destruct W as (_ & W & _).
  assert (HA : (12 < tokenValue 49 51 <= 31)%Z)
    by (vm_compute; split; [reflexivity | discriminate]).
  assert (HB : (1 <= tokenValue 48 49 <= 12)%Z)
    by (vm_compute; split; discriminate).
  exact (W HA HB).
Defined.

(** ** C3: the textual month-name form *)

(** C3 (the code as it runs): with a time before the first comma the value
    normalises, with or without a comma before the year, for full and for
    abbreviated month names; a value whose only comma is the one before the
    year, ["September 10, 2024"], is cut down to ["2024"], matches no format
    and fails the batch with [DATE_INVALID]. *)
Theorem month_name_comma_before_year_unrecognized :
  DateNormalizer.parseDateValue (H := ReferenceHost.host) (u "11:38 PM, September 10 2024")
    = Some (DateNormalizer.mkParsed (u "month_name") (JStr (u "2024-09-10")))
  /\ DateNormalizer.parseDateValue (H := ReferenceHost.host) (u "11:38 PM, Sep 10, 2024")
    = Some (DateNormalizer.mkParsed (u "month_name") (JStr (u "2024-09-10")))
  /\ DateNormalizer.parseDateValue (H := ReferenceHost.host) (u "September 10 2024")
    = Some (DateNormalizer.mkParsed (u "month_name") (JStr (u "2024-09-10")))
  /\ DateNormalizer.parseDateValue (H := ReferenceHost.host) (u "September 10, 2024") = None
  /\ forall fuel,
       DateNormalizer.normalizeDatesInRows (H := ReferenceHost.host) fuel
         [[(u "date", JStr (u "September 10, 2024"))]]
         (DateNormalizer.mkOptions None None None)
       = Some (Fail (makeError (u "DATE_INVALID")
                       (u "Unrecognized date format at row 1 in unknown.")
                       (DRowValue 0 (u "September 10, 2024")))).
Proof.
  repeat split; try (vm_compute; reflexivity).
Qed.

(** ** C4: slash dates that fail calendar validation *)

(** C4 (the code as it runs): ["13/13/2024"] has no calendar reading, either
    way the month would be 13, yet the batch fails with [DATE_AMBIGUOUS];
    ["31/02/2024"] and ["45/01/2024"] fail with [DATE_INVALID]. *)
Theorem slash_both_tokens_above_12_reported_ambiguous :
  (forall fuel,
     DateNormalizer.normalizeDatesInRows (H := ReferenceHost.host) fuel
       [[(u "date", JStr (u "13/13/2024"))]]
       (DateNormalizer.mkOptions None None None)
     = Some (Fail (makeError (u "DATE_AMBIGUOUS")
                     (u "Ambiguous date at row 1 in unknown.")
                     (DRowValue 0 (u "13/13/2024")))))
  /\ (forall fuel,
        DateNormalizer.normalizeDatesInRows (H := ReferenceHost.host) fuel
          [[(u "date", JStr (u "31/02/2024"))]]
          (DateNormalizer.mkOptions None None None)
        = Some (Fail (makeError (u "DATE_INVALID")
                        (u "Invalid date at row 1 in unknown.")
                        (DRowValue 0 (u "31/02/2024")))))
  /\ (forall fuel,
        DateNormalizer.normalizeDatesInRows (H := ReferenceHost.host) fuel
          [[(u "date", JStr (u "45/01/2024"))]]
          (DateNormalizer.mkOptions None None None)
        = Some (Fail (makeError (u "DATE_INVALID")
                        (u "Invalid date at row 1 in unknown.")
                        (DRowValue 0 (u "45/01/2024"))))).
Proof.
  repeat split; intros fuel; vm_compute; reflexivity.
Qed.


(** ** Integers as binary64 numbers *)

Lemma digits2_pos_size (p : positive) : digits2_pos p = Pos.size p.
Proof. induction p; cbn; congruence. Qed.

Lemma iter_xO_mul (p s : positive) :
  Zpos (Pos.iter xO p s) = (Zpos p * 2 ^ Zpos s)%Z.
Proof.
  revert p. induction s using Pos.peano_ind; intros p.
  - cbn. lia.
  - rewrite Pos.iter_succ, Pos2Z.inj_succ, Z.pow_succ_r by lia.
    change (Zpos (Pos.iter xO p s)~0) with (2 * Zpos (Pos.iter xO p s))%Z.
    rewrite IHs. lia.
Qed.

Lemma iter_xO_digits (p s : positive) :
  Zpos (digits2_pos (Pos.iter xO p s)) = (Zpos (digits2_pos p) + Zpos s)%Z.
Proof.
  revert p. induction s using Pos.peano_ind; intros p.
  - cbn. lia.
  - rewrite Pos.iter_succ. cbn [digits2_pos]. rewrite Pos2Z.inj_succ, IHs. lia.
Qed.

Lemma size_bounds (p : positive) :
  (2 ^ (Zpos (Pos.size p) - 1) <= Zpos p < 2 ^ Zpos (Pos.size p))%Z.
Proof.
  induction p; cbn [Pos.size]; rewrite ?Pos2Z.inj_succ.
  - replace (Z.succ (Zpos (Pos.size p)) - 1)%Z
      with (Z.succ (Zpos (Pos.size p) - 1)) by lia.
    rewrite !Z.pow_succ_r by lia. lia.
  - replace (Z.succ (Zpos (Pos.size p)) - 1)%Z
      with (Z.succ (Zpos (Pos.size p) - 1)) by lia.
    rewrite !Z.pow_succ_r by lia. lia.
  - cbn. lia.
Qed.

(** Rounding leaves a 53-bit mantissa as it is. *)
Lemma round_exact (m : positive) (e : Z) :
  Zpos (digits2_pos m) = 53%Z -> (-1074 <= e <= 971)%Z ->
  binary_round_aux 53 1024 false (Zpos m) e loc_Exact = S754_finite false m e.
Proof.
  intros Hd He. unfold binary_round_aux, shr_fexp.
  cbn [Zdigits2 shr_record_of_loc]. rewrite Hd.
  assert (Hf : (fexp 53 1024 (53 + e) - e = 0)%Z).
  { unfold fexp, emin. lia. }
  rewrite Hf. cbn [shr shr_m loc_of_shr_record round_nearest_even Zdigits2].
  rewrite Hd, Hf. cbn [shr shr_m].
  replace (e <=? 1024 - 53)%Z with true by lia. reflexivity.
Qed.

(** A positive integer below 2^53 is represented exactly, its digits
    shifted to a 53-bit mantissa. *)
Lemma ofZ_small (k : positive) :
  (Zpos k < 2 ^ 53)%Z ->
  let d := Zpos (digits2_pos k) in
  exists m,
    ofZ (Zpos k) = S754_finite false m (d - 53)
    /\ Zpos m = (Zpos k * 2 ^ (53 - d))%Z
    /\ Zpos (digits2_pos m) = 53%Z.
Proof.
  intros Hk d.
  assert (Hd : (1 <= d <= 53)%Z).
  { unfold d. rewrite digits2_pos_size. pose proof (size_bounds k) as [Hlo Hhi].
    split; [lia|].
    destruct (Z_le_gt_dec (Zpos (Pos.size k)) 53); [assumption|].
    exfalso.
    assert (2 ^ 53 <= 2 ^ (Zpos (Pos.size k) - 1))%Z
      by (apply Z.pow_le_mono_r; lia).
    lia. }
  unfold ofZ, binary_normalize, binary_round.
  assert (Hf : fexp 53 1024 (Zpos (digits2_pos k) + 0) = (d - 53)%Z).
  { unfold fexp, emin. fold d. lia. }
  rewrite Hf. unfold shl_align.
  destruct (d - 53 - 0)%Z eqn:Es.
  - exists k. assert (d = 53%Z) as Hd53 by lia.
    replace (d - 53)%Z with 0%Z by lia.
    rewrite round_exact; [|fold d; lia|lia].
    repeat split; [|exact Hd53]. replace (53 - d)%Z with 0%Z by lia. lia.
  - lia.
  - exists (Pos.iter xO k p).
    rewrite round_exact.
    + repeat split.
      * rewrite iter_xO_mul. f_equal. f_equal. lia.
      * rewrite iter_xO_digits. fold d. lia.
    + rewrite iter_xO_digits. fold d. lia.
    + lia.
Qed.

Lemma canonical_digits (m : positive) (e : Z) :
  bounded 53 1024 m e = true ->
  (Zpos (digits2_pos m) <= 53
   /\ (Zpos (digits2_pos m) = 53 \/ e = -1074)
   /\ -1074 <= e <= 971)%Z.
Proof.
  unfold bounded, canonical_mantissa, fexp, emin. intros Hb.
  apply andb_prop in Hb as [Hc He].
  apply Z.eqb_eq in Hc. apply Z.leb_le in He. lia.
Qed.

(** The loop test [offset <= maxGapDays], for an integer offset below 2^53
    and a finite number, is the comparison with its integer part. *)
Lemma loop_test_is_count (k : Z) (g : num) :
  (1 <= k < 2 ^ 53)%Z ->
  validNum g = true ->
  isFiniteNum g = true ->
  fleb (ofZ k) g = (k <=? floorZ g)%Z.
Proof.
  intros Hk Hv Hfin. unfold validNum in Hv.
  destruct k as [|kp|kp]; try lia.
  destruct (ofZ_small kp) as (mk & HK & Hmk & Hdk); [lia|].
  cbv zeta in HK, Hmk. rewrite HK.
  set (dk := Zpos (digits2_pos kp)) in *.
  assert (Hdkb : (2 ^ (dk - 1) <= Zpos kp < 2 ^ dk)%Z).
  { unfold dk. rewrite digits2_pos_size. apply size_bounds. }
  assert (Hdk53 : (1 <= dk <= 53)%Z).
  { split; [unfold dk; lia|].
    destruct (Z_le_gt_dec dk 53); [assumption|].
    assert (2 ^ 53 <= 2 ^ (dk - 1))%Z by (apply Z.pow_le_mono_r; lia). lia. }
  destruct g as [s|s| |s m e]; try discriminate.
  - reflexivity.
  - cbn [valid_binary] in Hv. apply canonical_digits in Hv as (HD & Hnorm & He).
    pose proof (size_bounds m) as Hm. rewrite <- digits2_pos_size in Hm.
    set (D := Zpos (digits2_pos m)) in *.
    unfold fleb, SFleb, SFcompare.
    destruct s.
    + symmetry. apply Z.leb_gt. unfold floorZ. cbn [cond_Zopp].
      destruct e as [|p|p].
      * cbn. lia.
      * rewrite Z.shiftl_mul_pow2 by lia.
        assert (0 < 2 ^ Zpos p)%Z by (apply Z.pow_pos_nonneg; lia). nia.
      * assert (0 < 2 ^ Zpos p)%Z by (apply Z.pow_pos_nonneg; lia).
        assert (Z.neg m / 2 ^ Zpos p < 0)%Z; [|lia].
        apply Z.div_lt_upper_bound; lia.
    + destruct (Z.compare_spec (dk - 53) e) as [Heq|Hlt|Hgt].
      * rewrite Pos.compare_cont_spec. cbn [Pos.switch_Eq].
        change (Pos.compare mk m) with (Z.compare (Zpos mk) (Zpos m)).
        unfold floorZ. cbn [cond_Zopp].
        destruct e as [|p|p]; try lia.
        -- assert (dk = 53%Z) by lia.
           rewrite Z.shiftl_0_r.
           replace (Zpos mk) with (Zpos kp)
             by (rewrite Hmk; replace (53 - dk)%Z with 0%Z by lia; lia).
           destruct (Z.compare_spec (Zpos kp) (Zpos m)); symmetry;
             [apply Z.leb_le | apply Z.leb_le | apply Z.leb_gt]; lia.
        -- assert (Hp : (53 - dk)%Z = Zpos p) by lia. rewrite Hp in Hmk.
           assert (0 < 2 ^ Zpos p)%Z by (apply Z.pow_pos_nonneg; lia).
           destruct (Z.compare_spec (Zpos mk) (Zpos m)); symmetry.
           ++ apply Z.leb_le. apply Z.div_le_lower_bound; lia.
           ++ apply Z.leb_le. apply Z.div_le_lower_bound; lia.
           ++ apply Z.leb_gt. apply Z.div_lt_upper_bound; lia.
      * symmetry. apply Z.leb_le.
        assert (HD53 : D = 53%Z) by lia.
        assert (Hm52 : (2 ^ 52 <= Zpos m)%Z) by (rewrite HD53 in Hm; apply Hm).
        assert (Hkb : (Zpos kp < 2 ^ (e + 52))%Z).
        { eapply Z.lt_le_trans; [apply Hdkb|]. apply Z.pow_le_mono_r; lia. }
        unfold floorZ. cbn [cond_Zopp].
        destruct e as [|p|p].
        -- rewrite Z.shiftl_0_r. cbn in Hkb. lia.
        -- rewrite Z.shiftl_mul_pow2 by lia.
           rewrite Z.add_comm, Z.pow_add_r in Hkb by lia.
           assert (0 < 2 ^ Zpos p)%Z by (apply Z.pow_pos_nonneg; lia). nia.
        -- assert (0 < 2 ^ Zpos p)%Z by (apply Z.pow_pos_nonneg; lia).
           apply Z.div_le_lower_bound; [lia|].
           assert (Hs : (2 ^ 52 = 2 ^ (Z.neg p + 52) * 2 ^ Zpos p)%Z).
           { rewrite <- Z.pow_add_r by lia. f_equal. lia. }
           nia.
      * symmetry. apply Z.leb_gt.
        assert (Hkb : (2 ^ (e + 53) <= Zpos kp)%Z).
        { eapply Z.le_trans; [|apply Hdkb]. apply Z.pow_le_mono_r; lia. }
        assert (Hm53 : (Zpos m < 2 ^ 53)%Z).
        { eapply Z.lt_le_trans; [apply Hm|]. apply Z.pow_le_mono_r; lia. }
        unfold floorZ. cbn [cond_Zopp].
        destruct e as [|p|p]; try lia.
        assert (0 < 2 ^ Zpos p)%Z by (apply Z.pow_pos_nonneg; lia).
        apply Z.div_lt_upper_bound; [lia|].
        destruct (Z_le_gt_dec 0 (Z.neg p + 53)).
        -- assert (Hs : (2 ^ 53 = 2 ^ (Z.neg p + 53) * 2 ^ Zpos p)%Z).
           { rewrite <- Z.pow_add_r by lia. f_equal. lia. }
           nia.
        -- assert (2 ^ 53 <= 2 ^ Zpos p)%Z by (apply Z.pow_le_mono_r; lia). nia.
Qed.

(** ** Strings without outer white space *)

Section TrimFacts.
Import Js.
Local Open Scope N_scope.

Lemma trimStart_id (s : jsstring) :
  isWhiteSpace (hd 0 s) = false \/ s = [] -> trimStart s = s.
Proof.
  destruct s as [|c s]; [reflexivity|]. cbn. intros [->|?]; [reflexivity|discriminate].
Qed.

Lemma trim_id (s : jsstring) :
  Forall (fun c => isWhiteSpace c = false) s -> trim s = s.
Proof.
  intros Hs. unfold trim, trimEnd.
  rewrite (trimStart_id s).
  2:{ destruct Hs; [now right|now left]. }
  rewrite (trimStart_id (rev s)); [apply rev_involutive|].
  apply Forall_rev in Hs. destruct Hs; [now right|now left].
Qed.

End TrimFacts.

(** ** Arithmetic on integers below 2^53 *)

Section SafeIntegers.
Import Js. Import Shapes.
Local Open Scope Z_scope.

Lemma digits_bounds (p : positive) :
  2 ^ (Zpos (digits2_pos p) - 1) <= Zpos p < 2 ^ Zpos (digits2_pos p).
Proof. rewrite digits2_pos_size. apply size_bounds. Qed.

Lemma digits_unique (p : positive) (d : Z) :
  2 ^ (d - 1) <= Zpos p < 2 ^ d -> Zpos (digits2_pos p) = d.
Proof.
  intros [Hlo Hhi]. pose proof (digits_bounds p) as [Hlo' Hhi'].
  assert (Hd : 0 < d).
  { destruct (Z_lt_le_dec 0 d); [assumption|].
    assert (2 ^ d <= 2 ^ 0) by (apply Z.pow_le_mono_r; lia). lia. }
  destruct (Z.lt_trichotomy (Zpos (digits2_pos p)) d) as [Hlt|[Heq|Hgt]];
    [|assumption|].
  - assert (2 ^ Zpos (digits2_pos p) <= 2 ^ (d - 1))
      by (apply Z.pow_le_mono_r; lia). lia.
  - assert (2 ^ d <= 2 ^ (Zpos (digits2_pos p) - 1))
      by (apply Z.pow_le_mono_r; lia). lia.
Qed.

Lemma digits_shift (p : positive) (k : Z) (q : positive) :
  0 <= k -> Zpos q = Zpos p * 2 ^ k ->
  Zpos (digits2_pos q) = Zpos (digits2_pos p) + k.
Proof.
  intros Hk Hq. apply digits_unique. rewrite Hq.
  pose proof (digits_bounds p) as [Hlo Hhi].
  assert (Hpos : 0 < 2 ^ k) by (apply Z.pow_pos_nonneg; lia).
  replace (Zpos (digits2_pos p) + k - 1) with ((Zpos (digits2_pos p) - 1) + k) by lia.
  rewrite !Z.pow_add_r by lia. nia.
Qed.

Lemma digits_le_53 (n : positive) :
  Zpos n < 2 ^ 53 -> 1 <= Zpos (digits2_pos n) <= 53.
Proof.
  intros Hn. pose proof (digits_bounds n) as [Hlo _]. split; [lia|].
  destruct (Z_le_gt_dec (Zpos (digits2_pos n)) 53); [assumption|].
  assert (2 ^ 53 <= 2 ^ (Zpos (digits2_pos n) - 1))
    by (apply Z.pow_le_mono_r; lia). lia.
Qed.

Lemma shiftl_value (n : positive) (k : Z) :
  0 <= k -> Zpos (Pos.shiftl n (Z.to_N k)) = Zpos n * 2 ^ k.
Proof.
  intros Hk. destruct k as [|p|p]; [cbn; lia| |lia].
  cbn [Z.to_N Pos.shiftl]. apply iter_xO_mul.
Qed.

Lemma intNum_mantissa (s : bool) (n : positive) :
  Zpos n < 2 ^ 53 ->
  let d := Zpos (digits2_pos n) in
  exists m,
    intNum s n = S754_finite s m (d - 53)
    /\ Zpos m = Zpos n * 2 ^ (53 - d)
    /\ Zpos (digits2_pos m) = 53.
Proof.
  intros Hn d. pose proof (digits_le_53 n Hn) as Hd. fold d in Hd.
  exists (Pos.shiftl n (Z.to_N (53 - d))).
  assert (Hm : Zpos (Pos.shiftl n (Z.to_N (53 - d))) = Zpos n * 2 ^ (53 - d))
    by (apply shiftl_value; lia).
  split; [reflexivity|]. split; [exact Hm|].
  rewrite (digits_shift n (53 - d) _) by (lia || exact Hm). fold d. lia.
Qed.

(** Rounding leaves a 53-bit mantissa as it is, whatever the sign. *)
Lemma round_exact_signed (s : bool) (m : positive) (e : Z) :
  Zpos (digits2_pos m) = 53 -> -1074 <= e <= 971 ->
  binary_round_aux 53 1024 s (Zpos m) e loc_Exact = S754_finite s m e.
Proof.
  intros Hd He. unfold binary_round_aux, shr_fexp.
  cbn [Zdigits2 shr_record_of_loc]. rewrite Hd.
  assert (Hf : fexp 53 1024 (53 + e) - e = 0).
  { unfold fexp, emin. lia. }
  rewrite Hf. cbn [shr shr_m loc_of_shr_record round_nearest_even Zdigits2].
  rewrite Hd, Hf. cbn [shr shr_m].
  replace (e <=? 1024 - 53) with true by lia. reflexivity.
Qed.

Lemma iter_pos_nat {A : Type} (f : A -> A) (p : positive) (x : A) :
  iter_pos f p x = Nat.iter (Pos.to_nat p) f x.
Proof.
  revert x. induction p as [p IH|p IH|]; intros x; cbn [iter_pos].
  - rewrite !IH, <- Nat.iter_add, <- Nat.iter_succ_r. f_equal.
    rewrite Pos2Nat.inj_xI. lia.
  - rewrite !IH, <- Nat.iter_add. f_equal. rewrite Pos2Nat.inj_xO. lia.
  - reflexivity.
Qed.

Lemma shr_1_even (z : Z) :
  0 < z ->
  shr_1 (Build_shr_record (2 * z) false false) = Build_shr_record z false false.
Proof. destruct z as [|p|p]; try lia. reflexivity. Qed.

(** Shifting out [k] bits that are all zero is exact. *)
Lemma shr_exact (m : positive) (k : nat) :
  Nat.iter k shr_1 (Build_shr_record (Zpos m * 2 ^ Z.of_nat k) false false)
  = Build_shr_record (Zpos m) false false.
Proof.
  induction k as [|k IH].
  - cbn [Nat.iter Z.of_nat]. now rewrite Z.pow_0_r, Z.mul_1_r.
  - rewrite Nat.iter_succ_r.
    replace (Zpos m * 2 ^ Z.of_nat (S k)) with (2 * (Zpos m * 2 ^ Z.of_nat k)).
    + rewrite shr_1_even; [exact IH|].
      assert (0 < 2 ^ Z.of_nat k) by (apply Z.pow_pos_nonneg; lia). lia.
    + rewrite Nat2Z.inj_succ, Z.pow_succ_r by lia. lia.
Qed.

(** Rounding a mantissa that is a 53-bit one followed by [k] zero bits. *)
Lemma round_shifted (s : bool) (m : positive) (k e : Z) :
  Zpos (digits2_pos m) = 53 -> 0 <= k -> -1074 <= e + k <= 971 ->
  binary_round_aux 53 1024 s (Zpos m * 2 ^ k) e loc_Exact
  = S754_finite s m (e + k).
Proof.
  intros Hd Hk He.
  destruct k as [|p|p]; [|clear Hk|lia].
  { rewrite Z.mul_1_r, Z.add_0_r in *. now apply round_exact_signed. }
  assert (Hpos : 0 < 2 ^ Zpos p) by (apply Z.pow_pos_nonneg; lia).
  destruct (Zpos m * 2 ^ Zpos p) as [|q|q] eqn:Eq; try lia.
  assert (Hq : Zpos (digits2_pos q) = 53 + Zpos p).
  { rewrite (digits_shift m (Zpos p) q) by lia. lia. }
  unfold binary_round_aux, shr_fexp.
  cbn [Zdigits2 shr_record_of_loc]. rewrite Hq.
  assert (Hf : fexp 53 1024 (53 + Zpos p + e) - e = Zpos p).
  { unfold fexp, emin. lia. }
  rewrite Hf. cbn [shr]. rewrite iter_pos_nat, <- Eq.
  assert (Hshr : Nat.iter (Pos.to_nat p) shr_1
                   (Build_shr_record (Zpos m * 2 ^ Zpos p) false false)
                 = Build_shr_record (Zpos m) false false)
    by (rewrite <- (positive_nat_Z p); apply shr_exact).
  rewrite !Hshr.
  cbn [shr_m loc_of_shr_record round_nearest_even Zdigits2]. rewrite Hd.
  assert (Hf' : fexp 53 1024 (53 + (e + Zpos p)) - (e + Zpos p) = 0).
  { unfold fexp, emin. lia. }
  rewrite Hf'. cbn [shr shr_m].
  replace (e + Zpos p <=? 1024 - 53) with true by lia. reflexivity.
Qed.

(** Rounding the integer [n], given as [M * 2^E], gives [n] as it is. *)
Lemma binary_round_int (s : bool) (M n : positive) (E : Z) :
  E <= 0 -> -1074 <= E ->
  Zpos M = Zpos n * 2 ^ (- E) ->
  Zpos n < 2 ^ 53 ->
  binary_round 53 1024 s M E = intNum s n.
Proof.
  intros HE HE' HM Hn.
  destruct (intNum_mantissa s n Hn) as (m & -> & Hm & Hdm).
  pose proof (digits_le_53 n Hn) as Hd.
  set (d := Zpos (digits2_pos n)) in *.
  assert (HdM : Zpos (digits2_pos M) = d - E).
  { rewrite (digits_shift n (- E) M) by lia. fold d. lia. }
  unfold binary_round. rewrite HdM.
  assert (Hf : fexp 53 1024 (d - E + E) = d - 53).
  { unfold fexp, emin. lia. }
  rewrite Hf. unfold shl_align.
  destruct (d - 53 - E) as [|k|k] eqn:Ek.
  - assert (E = d - 53) by lia. subst E.
    replace (Zpos M) with (Zpos m * 2 ^ 0).
    + rewrite round_shifted by lia. f_equal. lia.
    + rewrite HM, Hm. replace (- (d - 53)) with (53 - d) by lia. lia.
  - (* the mantissa ends in k zero bits *)
    replace (Zpos M) with (Zpos m * 2 ^ Zpos k).
    + rewrite round_shifted by lia. f_equal. lia.
    + rewrite HM, Hm. rewrite <- Z.mul_assoc, <- Z.pow_add_r by lia.
      f_equal. f_equal. lia.
  - (* the mantissa is shifted left by k bits *)
    assert (HMk : Zpos (Pos.iter xO M k) = Zpos m).
    { rewrite iter_xO_mul, HM, Hm. rewrite <- Z.mul_assoc, <- Z.pow_add_r by lia.
      f_equal. f_equal. lia. }
    injection HMk as ->. now apply round_exact_signed; [|lia].
Qed.

Lemma ofZ_pos (n : positive) : Zpos n < 2 ^ 53 -> ofZ (Zpos n) = intNum false n.
Proof.
  intros Hn. unfold ofZ, binary_normalize.
  apply binary_round_int; [lia|lia| |exact Hn]. cbn. lia.
Qed.

Lemma ofZ_neg (n : positive) : Zpos n < 2 ^ 53 -> ofZ (Zneg n) = intNum true n.
Proof.
  intros Hn. unfold ofZ, binary_normalize.
  apply binary_round_int; [lia|lia| |exact Hn]. cbn. lia.
Qed.

Lemma ofZ_cases (z : Z) :
  safeInt z ->
  (z = 0 /\ ofZ z = S754_zero false)
  \/ exists s n m,
       z = cond_Zopp s (Zpos n) /\ Zpos n < 2 ^ 53
       /\ ofZ z = S754_finite s m (Zpos (digits2_pos n) - 53)
       /\ Zpos m = Zpos n * 2 ^ (53 - Zpos (digits2_pos n))
       /\ Zpos (digits2_pos m) = 53.
Proof.
  unfold safeInt. intros Hz. destruct z as [|n|n].
  - now left.
  - right. destruct (intNum_mantissa false n) as (m & Hi & Hm & Hd); [lia|].
    exists false, n, m. rewrite ofZ_pos by lia. repeat split; try assumption; lia.
  - right. destruct (intNum_mantissa true n) as (m & Hi & Hm & Hd); [lia|].
    exists true, n, m. rewrite ofZ_neg by lia. repeat split; try assumption; lia.
Qed.

Lemma ofZ_integer (z : Z) :
  safeInt z ->
  isFiniteNum (ofZ z) = true /\ validNum (ofZ z) = true
  /\ isIntegral (ofZ z) = true /\ truncNum (ofZ z) = z /\ floorZ (ofZ z) = z.
Proof.
  intros Hz.
  destruct (ofZ_cases z Hz) as [[-> ->]|(s & n & m & -> & Hn & -> & Hm & Hdm)].
  { repeat split. }
  pose proof (digits_le_53 n Hn) as Hd.
  set (d := Zpos (digits2_pos n)) in *.
  assert (Hpos : 0 < 2 ^ (53 - d)) by (apply Z.pow_pos_nonneg; lia).
  split; [reflexivity|]. split.
  { unfold validNum, valid_binary, bounded, canonical_mantissa, fexp, emin.
    rewrite Hdm. apply andb_true_iff. split; [apply Z.eqb_eq|apply Z.leb_le]; lia. }
  unfold isIntegral, truncNum, floorZ.
  destruct (d - 53) as [|p|p] eqn:Ep; try lia.
  - replace (53 - d) with 0 in * by lia. rewrite Z.shiftl_0_r.
    repeat split; f_equal; lia.
  - replace (53 - d) with (Zpos p) in * by lia. rewrite Hm.
    split; [apply Z.eqb_eq, Z_mod_mult|].
    rewrite Z.shiftr_div_pow2 by lia. rewrite Z_div_mult by lia.
    split; [reflexivity|].
    destruct s; cbn [cond_Zopp]; [|now apply Z_div_mult; lia].
    replace (- (Zpos n * 2 ^ Zpos p)) with ((- Zpos n) * 2 ^ Zpos p) by lia.
    apply Z_div_mult. lia.
Qed.

Lemma compare_cont_Eq (a b : positive) :
  Pos.compare_cont Eq a b = (Zpos a ?= Zpos b).
Proof. cbn [Z.compare]. unfold Pos.compare. reflexivity. Qed.

Lemma SFcompare_ofZ (a b : Z) :
  safeInt a -> safeInt b -> SFcompare (ofZ a) (ofZ b) = Some (a ?= b).
Proof.
  intros Ha Hb.
  destruct (ofZ_cases a Ha) as [[-> ->]|(sa & na & ma & -> & Hna & -> & Hma & Hda)];
  destruct (ofZ_cases b Hb) as [[-> ->]|(sb & nb & mb & -> & Hnb & -> & Hmb & Hdb)].
  - reflexivity.
  - destruct sb; reflexivity.
  - destruct sa; reflexivity.
  - pose proof (digits_bounds na) as Hba. pose proof (digits_bounds nb) as Hbb.
    pose proof (digits_le_53 na Hna) as Hla. pose proof (digits_le_53 nb Hnb) as Hlb.
    set (da := Zpos (digits2_pos na)) in *.
    set (db := Zpos (digits2_pos nb)) in *.
    assert (Hcmp : match da - 53 ?= db - 53 with
                   | Eq => Pos.compare_cont Eq ma mb
                   | Lt => Lt
                   | Gt => Gt
                   end = (Zpos na ?= Zpos nb)).
    { destruct (Z.compare_spec (da - 53) (db - 53)) as [He|He|He].
      - rewrite compare_cont_Eq, Hma, Hmb.
        replace db with da by lia.
        assert (0 < 2 ^ (53 - da)) by (apply Z.pow_pos_nonneg; lia).
        destruct (Z.compare_spec (Zpos na) (Zpos nb)) as [E|E|E].
        * apply Z.compare_eq_iff. now rewrite E.
        * apply Z.compare_lt_iff. now apply Z.mul_lt_mono_pos_r.
        * apply Z.compare_gt_iff. now apply Z.mul_lt_mono_pos_r.
      - symmetry. apply Z.compare_lt_iff.
        assert (2 ^ da <= 2 ^ (db - 1)) by (apply Z.pow_le_mono_r; lia). lia.
      - symmetry. apply Z.compare_gt_iff.
        assert (2 ^ db <= 2 ^ (da - 1)) by (apply Z.pow_le_mono_r; lia). lia. }
    unfold SFcompare. destruct sa, sb; cbn [cond_Zopp].
    + f_equal.
      transitivity (CompOpp (Zpos na ?= Zpos nb)); [|reflexivity].
      rewrite <- Hcmp. now destruct (da - 53 ?= db - 53).
    + reflexivity.
    + reflexivity.
    + now rewrite Hcmp.
Qed.

Lemma compare_ofZ (a b : Z) :
  safeInt a -> safeInt b ->
  feqb (ofZ a) (ofZ b) = (a =? b)
  /\ fltb (ofZ a) (ofZ b) = (a <? b)
  /\ fleb (ofZ a) (ofZ b) = (a <=? b).
Proof.
  intros Ha Hb. unfold feqb, fltb, fleb, SFeqb, SFltb, SFleb.
  rewrite (SFcompare_ofZ a b Ha Hb).
  unfold Z.ltb, Z.leb.
  destruct (Z.compare_spec a b) as [E|E|E]; repeat split;
    solve [reflexivity | symmetry; apply Z.eqb_eq; lia
          | symmetry; apply Z.eqb_neq; lia].
Qed.

(** Normalising the integer [t], given as [t * 2^(-E)] with exponent [E]. *)
Lemma normalize_int (t E : Z) :
  safeInt t -> -1074 <= E <= 0 ->
  binary_normalize 53 1024 (t * 2 ^ (- E)) E false = ofZ t.
Proof.
  unfold safeInt. intros Ht HE.
  assert (Hpos : 0 < 2 ^ (- E)) by (apply Z.pow_pos_nonneg; lia).
  destruct t as [|n|n].
  - reflexivity.
  - rewrite ofZ_pos by lia.
    destruct (Zpos n * 2 ^ (- E)) as [|M|M] eqn:EM; try lia.
    cbn [binary_normalize]. apply binary_round_int; lia.
  - rewrite ofZ_neg by lia.
    destruct (Zneg n * 2 ^ (- E)) as [|M|M] eqn:EM; try lia.
    cbn [binary_normalize]. apply binary_round_int; lia.
Qed.

Lemma shl_align_value (m : positive) (e ez : Z) :
  ez <= e -> Zpos (fst (shl_align m e ez)) = Zpos m * 2 ^ (e - ez).
Proof.
  intros He. unfold shl_align.
  destruct (ez - e) as [|p|p] eqn:Ep; try lia.
  - replace (e - ez) with 0 by lia. cbn [fst]. lia.
  - cbn [fst]. rewrite iter_xO_mul. f_equal. f_equal. lia.
Qed.

(** The aligned mantissa of an integer: the integer scaled by the common
    exponent. *)
Lemma aligned_int (s : bool) (n m : positive) (ez : Z) :
  Zpos n < 2 ^ 53 ->
  Zpos m = Zpos n * 2 ^ (53 - Zpos (digits2_pos n)) ->
  ez <= Zpos (digits2_pos n) - 53 ->
  cond_Zopp s (Zpos (fst (shl_align m (Zpos (digits2_pos n) - 53) ez)))
  = cond_Zopp s (Zpos n) * 2 ^ (- ez).
Proof.
  intros Hn Hm Hez. pose proof (digits_le_53 n Hn) as Hd.
  rewrite shl_align_value by exact Hez. rewrite Hm.
  rewrite <- Z.mul_assoc, <- Z.pow_add_r by lia.
  replace (53 - Zpos (digits2_pos n) + (Zpos (digits2_pos n) - 53 - ez))
    with (- ez) by lia.
  destruct s; cbn [cond_Zopp]; lia.
Qed.

(** Sums and differences of integers are exact as long as they stay below
    2^53 in magnitude. *)
Lemma fadd_ofZ (a b : Z) :
  safeInt a -> safeInt b -> safeInt (a + b) ->
  fadd (ofZ a) (ofZ b) = ofZ (a + b).
Proof.
  intros Ha Hb Hab.
  destruct (ofZ_cases a Ha) as [[-> Ea]|(sa & na & ma & Eza & Hna & Ea & Hma & Hda)];
  destruct (ofZ_cases b Hb) as [[-> Eb]|(sb & nb & mb & Ezb & Hnb & Eb & Hmb & Hdb)].
  - reflexivity.
  - rewrite Ea. cbn [Z.add]. rewrite Eb. reflexivity.
  - rewrite Eb, Z.add_0_r, Ea. reflexivity.
  - rewrite Ea, Eb. unfold fadd, SFadd.
    pose proof (digits_le_53 na Hna). pose proof (digits_le_53 nb Hnb).
    set (ez := Z.min _ _).
    rewrite (aligned_int sa na ma ez), (aligned_int sb nb mb ez)
      by (assumption || (subst ez; lia)).
    rewrite <- Eza, <- Ezb, <- Z.mul_add_distr_r.
    apply normalize_int; [assumption|subst ez; lia].
Qed.

Lemma ofZ_opp (b : Z) (s : bool) (m : positive) (e : Z) :
  safeInt b -> ofZ b = S754_finite s m e -> ofZ (- b) = S754_finite (negb s) m e.
Proof.
  unfold safeInt. intros Hb E. destruct b as [|n|n].
  - discriminate.
  - cbn [Z.opp]. rewrite ofZ_pos in E by lia. rewrite ofZ_neg by lia.
    unfold intNum in *. now injection E as <- <- <-.
  - cbn [Z.opp]. rewrite ofZ_neg in E by lia. rewrite ofZ_pos by lia.
    unfold intNum in *. now injection E as <- <- <-.
Qed.

Lemma fsub_ofZ (a b : Z) :
  safeInt a -> safeInt b -> safeInt (a - b) ->
  fsub (ofZ a) (ofZ b) = ofZ (a - b).
Proof.
  intros Ha Hb Hab.
  destruct (ofZ_cases a Ha) as [[-> Ea]|(sa & na & ma & Eza & Hna & Ea & Hma & Hda)];
  destruct (ofZ_cases b Hb) as [[-> Eb]|(sb & nb & mb & Ezb & Hnb & Eb & Hmb & Hdb)].
  - reflexivity.
  - rewrite Ea, Eb. cbn [Z.sub Z.add]. unfold fsub, SFsub.
    symmetry. now apply ofZ_opp.
  - rewrite Eb, Z.sub_0_r, Ea. reflexivity.
  - rewrite Ea, Eb. unfold fsub, SFsub.
    pose proof (digits_le_53 na Hna). pose proof (digits_le_53 nb Hnb).
    set (ez := Z.min _ _).
    rewrite (aligned_int sa na ma ez), (aligned_int sb nb mb ez)
      by (assumption || (subst ez; lia)).
    rewrite <- Eza, <- Ezb, <- Z.mul_sub_distr_r.
    apply normalize_int; [assumption|subst ez; lia].
Qed.

Local Open Scope N_scope.
Local Close Scope N_scope.
(** An integer below 2^53 prints as its decimal digits, on every host. *)
Lemma numToString_ofZ (H : Host) (z : Z) :
  safeInt z -> numToString (ofZ z) = intToString z.
Proof.
  intros Hz. destruct (ofZ_integer z Hz) as (_ & _ & Hi & Ht & _).
  destruct (ofZ_cases z Hz) as [[-> ->]|(s & n & m & Ez & Hn & E & _)].
  - reflexivity.
  - unfold numToString. rewrite E in *. rewrite Hi, Ht.
    replace (Z.abs z <? 2 ^ 53) with true by (symmetry; apply Z.ltb_lt; exact Hz).
    reflexivity.
Qed.

Lemma span_digits (ds : jsstring) :
  forallb isDigit ds = true -> span isDigit ds = (ds, []).
Proof.
  induction ds as [|c ds IH]; [reflexivity|].
  cbn [forallb span]. intros Hd. apply andb_true_iff in Hd as [Hc Hd].
  now rewrite Hc, IH.
Qed.

Lemma digitsToZ_nonneg (ds : jsstring) (acc : Z) :
  forallb isDigit ds = true -> 0 <= acc ->
  0 <= fold_left (fun acc c => acc * 10 + (Z.of_N c - 48)) ds acc.
Proof.
  revert acc. induction ds as [|c ds IH]; intros acc Hd Hacc; [exact Hacc|].
  cbn [forallb] in Hd. apply andb_true_iff in Hd as [Hc Hd].
  cbn [fold_left]. apply IH; [exact Hd|]. apply isDigit_range in Hc. lia.
Qed.

(** A string of digits reads as the number its digits spell. *)
Lemma StringToNumber_digits (ds : jsstring) :
  ds <> [] -> forallb isDigit ds = true ->
  StringToNumber ds = ofZ (digitsToZ ds).
Proof.
  intros Hne Hd. unfold StringToNumber.
  assert (Htrim : trim ds = ds).
  { apply trim_id. apply Forall_forall. intros c Hc.
    apply isDigit_not_ws. rewrite forallb_forall in Hd. now apply Hd. }
  rewrite Htrim.
  destruct ds as [|c r]; [contradiction|].
  cbn [forallb] in Hd. apply andb_true_iff in Hd as [Hc Hr].
  assert (Hnd : parseNonDecimal (c :: r) = None).
  { unfold parseNonDecimal. destruct c as [|p]; [reflexivity|].
    do 6 (destruct p as [p|p|]; try reflexivity).
    destruct r as [|c2 [|c3 r3]]; try reflexivity.
    cbn [forallb] in Hr. apply andb_true_iff in Hr as [Hc2 _].
    apply isDigit_range in Hc2.
    replace (c2 =? 120)%N with false by (symmetry; apply N.eqb_neq; lia).
    replace (c2 =? 88)%N with false by (symmetry; apply N.eqb_neq; lia).
    replace (c2 =? 111)%N with false by (symmetry; apply N.eqb_neq; lia).
    replace (c2 =? 79)%N with false by (symmetry; apply N.eqb_neq; lia).
    replace (c2 =? 98)%N with false by (symmetry; apply N.eqb_neq; lia).
    replace (c2 =? 66)%N with false by (symmetry; apply N.eqb_neq; lia).
    reflexivity. }
  rewrite Hnd.
  assert (Hall : forallb isDigit (c :: r) = true)
    by (cbn [forallb]; now rewrite Hc, Hr).
  assert (Hrest : (let '(neg, body) := (false, c :: r) in
                   if str_eqb body (u "Infinity") then S754_infinity neg
                   else match parseUnsignedDecimal body with
                        | Some (m, e) => decimalToNum neg m e
                        | None => S754_nan
                        end) = ofZ (digitsToZ (c :: r))).
  { cbv beta iota zeta.
    assert (Hinf : str_eqb (c :: r) (u "Infinity") = false).
    { apply isDigit_range in Hc. cbn.
      replace (c =? 73)%N with false by (symmetry; apply N.eqb_neq; lia).
      reflexivity. }
    rewrite Hinf. unfold parseUnsignedDecimal.
    rewrite span_digits by exact Hall.
    cbn [parseExponent]. unfold decimalToNum.
    pose proof (digitsToZ_nonneg (c :: r) 0 Hall (Z.le_refl 0)) as Hnn.
    fold (digitsToZ (c :: r)) in Hnn.
    destruct (digitsToZ (c :: r)) as [|p|p] eqn:E; [reflexivity| |lia].
    cbn [Z.leb Z.compare cond_Zopp]. unfold ofZ. f_equal. lia. }
  rewrite <- Hrest.
  apply isDigit_cases in Hc. cbn [In] in Hc.
  repeat (destruct Hc as [Hc|Hc]; [subst c; reflexivity|]). contradiction.
Qed.

End SafeIntegers.

(** ** C5: the outward search for the nearest weather *)

Section NearestWeather.
Context {H : Host}.
Import DataMerger. Import Shapes.

Lemma fneg_ofZ (k : Z) : safeInt k -> k <> 0%Z -> fneg (ofZ k) = ofZ (- k).
Proof.
  intros Hk Hne.
  destruct (ofZ_cases k Hk) as [[-> _]|(s & n & m & Ek & Hn & E & _)];
    [contradiction|].
  rewrite E. cbn [fneg SFopp]. symmetry. now apply ofZ_opp.
Qed.

(** The loop from the offset [k] on, for a bound below 2^53: it ends within
    as many turns as there are offsets left, with the weather of the first
    day that has any. *)
Lemma searchOutward_first_candidate (d : jsstring) (g : num)
    (W : list (jsstring * DailyWeather)) :
  validNum g = true -> isFiniteNum g = true ->
  (floorZ g < 2 ^ 53 - 1)%Z ->
  forall (fuel k : nat),
    (1 <= k)%nat ->
    (Z.of_nat k <= Z.max 0 (floorZ g) + 1)%Z ->
    (Z.max 0 (floorZ g) + 1 - Z.of_nat k < Z.of_nat fuel)%Z ->
    searchOutward fuel (ofZ (Z.of_nat k)) g d W =
      Some (option_map (fun w => (w, true))
              (firstWeather W
                 (flat_map (daysAt d)
                    (map Z.of_nat
                       (seq k (Z.to_nat (floorZ g + 1 - Z.of_nat k))))))).
Proof.
  intros Hv Hfin Hbig.
  induction fuel as [|fuel IH]; intros k Hk Hle Hfuel; [lia|].
  cbn [searchOutward].
  rewrite loop_test_is_count by (try assumption; lia).
  destruct (Z.leb_spec (Z.of_nat k) (floorZ g)) as [Hin|Hout].
  - replace (Z.to_nat (floorZ g + 1 - Z.of_nat k))
      with (S (Z.to_nat (floorZ g + 1 - Z.of_nat (S k)))) by lia.
    cbn [seq map flat_map daysAt app firstWeather].
    rewrite fneg_ofZ by (unfold safeInt; lia).
    destruct (assoc_get (addDays d (ofZ (- Z.of_nat k))) W); [reflexivity|].
    destruct (assoc_get (addDays d (ofZ (Z.of_nat k))) W); [reflexivity|].
    unfold one. rewrite fadd_ofZ by (unfold safeInt; lia).
    replace (Z.of_nat k + 1)%Z with (Z.of_nat (S k)) by lia.
    apply IH; lia.
  - replace (Z.to_nat (floorZ g + 1 - Z.of_nat k)) with O by lia.
    reflexivity.
Qed.



(** The counter at 2^53: the loop test still passes for a bound that large,
    and adding 1 leaves the counter where it is. *)
Lemma counter_stuck_test (g : num) :
  validNum g = true -> isFiniteNum g = true -> (2 ^ 53 <= floorZ g)%Z ->
  fleb (ofZ (2 ^ 53)) g = true.
Proof.
  intros Hv Hfin Hbig. unfold validNum in Hv.
  destruct g as [s|s| |s m e]; try discriminate.
  - cbn in Hbig. lia.
  - cbn [valid_binary] in Hv. apply canonical_digits in Hv as (HD & Hnorm & He).
    pose proof (size_bounds m) as Hm. rewrite <- digits2_pos_size in Hm.
    assert (Hm53 : (Zpos m < 2 ^ 53)%Z).
    { eapply Z.lt_le_trans; [apply Hm|]. apply Z.pow_le_mono_r; lia. }
    unfold floorZ in Hbig.
    destruct e as [|p|p].
    + destruct s; cbn [cond_Zopp] in Hbig; rewrite Z.shiftl_0_r in Hbig; lia.
    + destruct s; cbn [cond_Zopp] in Hbig.
      * rewrite Z.shiftl_mul_pow2 in Hbig by lia.
        assert (0 < 2 ^ Zpos p)%Z by (apply Z.pow_pos_nonneg; lia). nia.
      * assert (HD53 : Zpos (digits2_pos m) = 53%Z) by lia.
        rewrite HD53 in Hm.
        change (ofZ (2 ^ 53)) with (S754_finite false 4503599627370496 1).
        unfold fleb, SFleb, SFcompare.
        destruct (Z.compare_spec 1 (Zpos p)) as [E|E|E]; [|reflexivity|lia].
        rewrite Pos.compare_cont_spec. cbn [Pos.switch_Eq].
        change (Pos.compare 4503599627370496 m)
          with (Z.compare 4503599627370496 (Zpos m)).
        change (2 ^ (53 - 1))%Z with 4503599627370496%Z in Hm.
        destruct (Z.compare_spec 4503599627370496 (Zpos m)); [reflexivity..|lia].
    + assert (0 < 2 ^ Zpos p)%Z by (apply Z.pow_pos_nonneg; lia).
      assert (cond_Zopp s (Zpos m) / 2 ^ Zpos p < 2 ^ 53)%Z; [|lia].
      apply Z.div_lt_upper_bound; [lia|]. destruct s; cbn [cond_Zopp]; nia.
Qed.

(** For a bound from 2^53 on and no weather on any day the search looks
    at, the search never ends: it runs out of any fuel. *)
Lemma searchOutward_without_end (d : jsstring) (g : num)
    (W : list (jsstring * DailyWeather)) :
  validNum g = true -> isFiniteNum g = true -> (2 ^ 53 <= floorZ g)%Z ->
  (forall x, assoc_get (addDays d x) W = None) ->
  forall (fuel : nat) (k : Z),
    (1 <= k <= 2 ^ 53)%Z -> searchOutward fuel (ofZ k) g d W = None.
Proof.
  intros Hv Hfin Hbig Hnone.
  induction fuel as [|fuel IH]; intros k Hk; [reflexivity|].
  cbn [searchOutward].
  assert (Htest : fleb (ofZ k) g = true).
  { destruct (Z.eq_dec k (2 ^ 53)) as [->|Hne].
    - now apply counter_stuck_test.
    - rewrite loop_test_is_count by (try assumption; lia).
      apply Z.leb_le. lia. }
  rewrite Htest, !Hnone.
  destruct (Z.eq_dec k (2 ^ 53)) as [->|Hne].
  - replace (fadd (ofZ (2 ^ 53)) one) with (ofZ (2 ^ 53))
      by (vm_compute; reflexivity).
    apply IH. lia.
  - destruct (Z.eq_dec k (2 ^ 53 - 1)) as [->|Hne'].
    + replace (fadd (ofZ (2 ^ 53 - 1)) one) with (ofZ (2 ^ 53))
        by (vm_compute; reflexivity).
      apply IH. lia.
    + unfold one. rewrite fadd_ofZ by (unfold safeInt; lia).
      apply IH. lia.
Qed.

End NearestWeather.



(** ** Order on strings *)

Lemma str_ltb_irrefl (a : jsstring) : str_ltb a a = false.
Proof.
  induction a as [|x a IH]; [reflexivity|].
  cbn [str_ltb]. now rewrite N.ltb_irrefl.
Qed.

Lemma str_ltb_trans (a b c : jsstring) :
  str_ltb a b = true -> str_ltb b c = true -> str_ltb a c = true.
Proof.
  revert b c; induction a as [|x a IH]; intros [|y b] [|z c]; cbn [str_ltb];
    try discriminate; try reflexivity.
  destruct (N.ltb_spec x y), (N.ltb_spec y x), (N.ltb_spec y z), (N.ltb_spec z y),
    (N.ltb_spec x z), (N.ltb_spec z x);
    try discriminate; try reflexivity; try lia.
  apply IH.
Qed.

Lemma str_ltb_asym (a b : jsstring) : str_ltb a b = true -> str_ltb b a = false.
Proof.
  intros Hab. destruct (str_ltb b a) eqn:Hba; [|reflexivity].
  pose proof (str_ltb_trans _ _ _ Hab Hba) as Haa.
  rewrite str_ltb_irrefl in Haa. discriminate.
Qed.

Lemma str_ltb_total (a b : jsstring) :
  str_ltb a b = false -> str_ltb b a = false -> a = b.
Proof.
  revert b; induction a as [|x a IH]; intros [|y b]; cbn [str_ltb];
    try discriminate; try reflexivity.
  destruct (N.ltb_spec x y), (N.ltb_spec y x); try discriminate; try lia.
  intros Hab Hba. assert (x = y) by lia. subst. f_equal. now apply IH.
Qed.

(** [a <= b], as the sort sees it: [b] is not before [a]. *)
Lemma str_leb_trans (a b c : jsstring) :
  str_ltb b a = false -> str_ltb c b = false -> str_ltb c a = false.
Proof.
  intros Hab Hbc. destruct (str_ltb c a) eqn:Hca; [|reflexivity].
  destruct (str_ltb a b) eqn:Hlt.
  - rewrite (str_ltb_trans _ _ _ Hca Hlt) in Hbc. discriminate.
  - assert (a = b) by (now apply str_ltb_total). subst.
    rewrite Hca in Hbc. discriminate.
Qed.

(** ** The stable sort *)

Section SortFacts.
Context {A : Type} (before : A -> A -> bool).

Lemma insertSorted_perm (x : A) (l : list A) :
  Permutation (insertSorted before x l) (x :: l).
Proof.
  induction l as [|y l IH]; cbn [insertSorted]; [reflexivity|].
  destruct (before y x); [|reflexivity].
  rewrite IH. apply perm_swap.
Qed.

Lemma sortBy_perm (l : list A) : Permutation (sortBy before l) l.
Proof.
  induction l as [|x l IH]; cbn [sortBy]; [reflexivity|].
  rewrite insertSorted_perm. now constructor.
Qed.

Lemma sortBy_In (l : list A) (x : A) : In x (sortBy before l) <-> In x l.
Proof.
  split; apply Permutation_in; [|symmetry]; apply sortBy_perm.
Qed.

Lemma sortBy_length (l : list A) : List.length (sortBy before l) = List.length l.
Proof. apply Permutation_length, sortBy_perm. Qed.

(** On an input already in order the sort changes nothing. *)
Lemma sortBy_sorted_id (l : list A) :
  StronglySorted (fun a b => before b a = false) l -> sortBy before l = l.
Proof.
  induction 1 as [|x l Hs IH Hall]; [reflexivity|].
  cbn [sortBy]. rewrite IH.
  destruct l as [|y l]; [reflexivity|].
  cbn [insertSorted]. inversion Hall as [|? ? Hy _]; subst. now rewrite Hy.
Qed.

Hypothesis before_asym : forall a b, before a b = true -> before b a = false.
Hypothesis notafter_trans :
  forall a b c, before b a = false -> before c b = false -> before c a = false.

Lemma insertSorted_sorted (x : A) (l : list A) :
  StronglySorted (fun a b => before b a = false) l ->
  StronglySorted (fun a b => before b a = false) (insertSorted before x l).
Proof.
  induction 1 as [|y l Hs IH Hall]; cbn [insertSorted].
  - repeat constructor.
  - destruct (before y x) eqn:Hyx.
    + constructor; [exact IH|].
      apply (Permutation_Forall (x := x :: l));
        [symmetry; apply insertSorted_perm|].
      constructor; [now apply before_asym | exact Hall].
    + constructor; [now constructor|].
      constructor; [exact Hyx|].
      eapply Forall_impl; [|exact Hall].
      intros z Hz. cbv beta in Hz. now apply (notafter_trans x y z).
Qed.

Lemma sortBy_sorted (l : list A) :
  StronglySorted (fun a b => before b a = false) (sortBy before l).
Proof.
  induction l as [|x l IH]; cbn [sortBy]; [constructor|].
  now apply insertSorted_sorted.
Qed.

End SortFacts.

Lemma StronglySorted_filter {A : Type} (R : A -> A -> Prop) (f : A -> bool)
    (l : list A) :
  StronglySorted R l -> StronglySorted R (filter f l).
Proof.
  induction 1 as [|x l Hs IH Hall]; cbn [filter]; [constructor|].
  destruct (f x); [|exact IH].
  constructor; [exact IH|].
  apply Forall_forall. intros y Hy. apply filter_In in Hy as [Hy _].
  revert y Hy. now apply Forall_forall.
Qed.

Lemma StronglySorted_map {A B : Type} (R : B -> B -> Prop) (f : A -> B)
    (l : list A) :
  StronglySorted R (map f l) <-> StronglySorted (fun a b => R (f a) (f b)) l.
Proof.
  induction l as [|x l IH]; cbn [map]; split; intros Hs; try constructor.
  - inversion Hs; subst. now apply IH.
  - inversion Hs; subst. now apply Forall_map.
  - inversion Hs; subst. now apply IH.
  - inversion Hs; subst. now apply Forall_map.
Qed.

(** Sorted dates without repetition ascend strictly. *)
Lemma sorted_nodup_strict (l : list jsstring) :
  StronglySorted (fun a b => str_ltb b a = false) l ->
  NoDup l ->
  StronglySorted (fun a b => str_ltb a b = true) l.
Proof.
  induction 1 as [|x l Hs IH Hall]; intros Hnd; [constructor|].
  inversion Hnd as [|? ? Hnotin Hnd']; subst.
  constructor; [now apply IH|].
  apply Forall_forall. intros y Hy.
  pose proof (proj1 (Forall_forall _ _) Hall y Hy) as Hle. cbv beta in Hle.
  destruct (str_ltb x y) eqn:Hlt; [reflexivity|].
  assert (x = y) by (now apply str_ltb_total). subst. contradiction.
Qed.


(** ** Maps as association lists *)

Section AssocFacts.
Context {V : Type}.
Implicit Types (m : list (jsstring * V)) (k : jsstring) (v : V).

Lemma assoc_get_set_same k v m : assoc_get k (assoc_set k v m) = Some v.
Proof.
  induction m as [|[k' v'] m IH]; cbn [assoc_set assoc_get].
  - now rewrite str_eqb_refl.
  - destruct (str_eqb k k') eqn:E; cbn [assoc_get]; rewrite E; [reflexivity|exact IH].
Qed.

Lemma assoc_get_set_other k k' v m :
  k' <> k -> assoc_get k' (assoc_set k v m) = assoc_get k' m.
Proof.
  intros Hne. induction m as [|[k0 v0] m IH]; cbn [assoc_set assoc_get].
  - now rewrite (proj2 (str_eqb_neq k' k) Hne).
  - destruct (str_eqb k k0) eqn:E; cbn [assoc_get].
    + apply str_eqb_eq in E. subst k0.
      now rewrite (proj2 (str_eqb_neq k' k) Hne).
    + now rewrite IH.
Qed.

Lemma assoc_set_keys k v m k' :
  In k' (map fst (assoc_set k v m)) <-> k' = k \/ In k' (map fst m).
Proof.
  induction m as [|[k0 v0] m IH]; cbn [assoc_set map fst In].
  - intuition auto.
  - destruct (str_eqb k k0) eqn:E; cbn [map fst In].
    + apply str_eqb_eq in E. subst. intuition auto.
    + rewrite IH. intuition auto.
Qed.

Lemma assoc_set_NoDup k v m :
  NoDup (map fst m) -> NoDup (map fst (assoc_set k v m)).
Proof.
  induction m as [|[k0 v0] m IH]; cbn [assoc_set map fst]; intros Hnd.
  - repeat constructor. intros [].
  - inversion Hnd as [|? ? Hnotin Hnd']; subst.
    destruct (str_eqb k k0) eqn:E; cbn [map fst].
    + now constructor.
    + constructor; [|now apply IH].
      rewrite assoc_set_keys. intros [->|Hin]; [|contradiction].
      rewrite str_eqb_refl in E. discriminate.
Qed.

Lemma assoc_get_key k m : In k (map fst m) <-> assoc_get k m <> None.
Proof.
  induction m as [|[k0 v0] m IH]; cbn [assoc_get map fst In].
  - intuition auto.
  - destruct (str_eqb k k0) eqn:E.
    + apply str_eqb_eq in E. subst. split; [discriminate | auto].
    + apply str_eqb_neq in E. rewrite <- IH. split; [|auto].
      intros [Heq|Hin]; [now subst | exact Hin].
Qed.

End AssocFacts.

(** ** C1: the anchor invariant of the merge *)

Section MergeFacts.
Context {H : Host}.
Import DataMerger.

(** The map of [aggregateOrdersDaily] holds, at each date, the sum of that
    date's rows. *)
Lemma ordersStep_get (byDate : list (jsstring * num)) (r : OrderRow) (d : jsstring) :
  assoc_get d (ordersStep byDate r) =
    if contributes d r
    then Some (fadd (match assoc_get d byDate with Some v => v | None => zero end)
                 (ToNumber (order_total_orders r)))
    else assoc_get d byDate.
Proof.
  unfold ordersStep, contributes.
  destruct (order_date_iso r) as [d'|]; cbn [noDate dateOf]; [|reflexivity].
  destruct d' as [|c d'].
  - rewrite andb_false_r. reflexivity.
  - cbn [negb]. rewrite andb_true_r.
    destruct (isFiniteNum (ToNumber (order_total_orders r))); cbn [negb].
    + destruct (str_eqb d (c :: d')) eqn:E; cbn [andb].
      * apply str_eqb_eq in E. subst. apply assoc_get_set_same.
      * apply str_eqb_neq in E. now apply assoc_get_set_other.
    + now rewrite andb_false_r.
Qed.

Lemma ordersByDate_get (orderRows : list OrderRow) :
  forall byDate d,
    assoc_get d (fold_left ordersStep orderRows byDate) =
      dailySumFrom (assoc_get d byDate) d orderRows.
Proof.
  induction orderRows as [|r rows IH]; intros byDate d; [reflexivity|].
  cbn [fold_left dailySumFrom]. rewrite IH, ordersStep_get. reflexivity.
Qed.

Lemma ordersStep_NoDup (byDate : list (jsstring * num)) (r : OrderRow) :
  NoDup (map fst byDate) -> NoDup (map fst (ordersStep byDate r)).
Proof.
  intros Hnd. unfold ordersStep.
  destruct (noDate _); [exact Hnd|].
  destruct (negb _); [exact Hnd|].
  now apply assoc_set_NoDup.
Qed.

Lemma ordersByDate_NoDup (orderRows : list OrderRow) :
  forall byDate,
    NoDup (map fst byDate) ->
    NoDup (map fst (fold_left ordersStep orderRows byDate)).
Proof.
  induction orderRows as [|r rows IH]; intros byDate Hnd; [exact Hnd|].
  cbn [fold_left]. now apply IH, ordersStep_NoDup.
Qed.

Lemma aggregate_dates (orderRows : list OrderRow) :
  map daily_date_iso (aggregateOrdersDaily orderRows)
    = sortBy str_ltb (map fst (ordersByDate orderRows)).
Proof.
  unfold aggregateOrdersDaily. rewrite map_map. cbn [daily_date_iso].
  apply map_id.
Qed.

(** The aggregate has one row per date with a sum, in ascending order. *)
Lemma aggregate_dates_strict (orderRows : list OrderRow) :
  StronglySorted (fun a b => str_ltb a b = true)
    (map daily_date_iso (aggregateOrdersDaily orderRows)).
Proof.
  rewrite aggregate_dates. apply sorted_nodup_strict.
  - apply sortBy_sorted; [apply str_ltb_asym | apply str_leb_trans].
  - apply (Permutation_NoDup (l := map fst (ordersByDate orderRows)));
      [symmetry; apply sortBy_perm|].
    apply ordersByDate_NoDup. constructor.
Qed.

Lemma aggregate_has_date (orderRows : list OrderRow) (d : jsstring) :
  In d (map daily_date_iso (aggregateOrdersDaily orderRows))
  <-> dailySum d orderRows <> None.
Proof.
  rewrite aggregate_dates, sortBy_In, assoc_get_key.
  unfold ordersByDate. rewrite ordersByDate_get. reflexivity.
Qed.

Lemma aggregate_row_total (orderRows : list OrderRow) (o : DailyOrders) :
  In o (aggregateOrdersDaily orderRows) ->
  dailySum (daily_date_iso o) orderRows = Some (daily_total_orders o).
Proof.
  unfold aggregateOrdersDaily. intros Hin.
  apply in_map_iff in Hin as (d & <- & Hd). cbn [daily_date_iso daily_total_orders].
  apply sortBy_In, assoc_get_key in Hd.
  unfold ordersByDate in *. rewrite ordersByDate_get in *.
  cbn [assoc_get] in *. unfold dailySum.
  destruct (dailySumFrom None d orderRows); [reflexivity | contradiction].
Qed.

(** The merge loop appends, for each aggregate in turn, its merged row if
    weather was found. *)
Lemma merge_loop_rows (fuel : nat) (W : list (jsstring * DailyWeather)) (g : num)
    (daily : list DailyOrders) :
  forall merged warnings st,
    mergeLoop fuel W g daily (merged, warnings) = Some st ->
    fst st = merged ++ mergedOf fuel W g daily.
Proof.
  induction daily as [|o daily IH]; intros merged warnings st Hst.
  - cbn in Hst. injection Hst as <-. cbn. now rewrite app_nil_r.
  - cbn [mergeLoop] in Hst. unfold mergedOf. cbn [flat_map].
    fold (mergedOf fuel W g daily). unfold mergeStep in Hst.
    destruct (findNearestWeather fuel (daily_date_iso o) W g)
      as [[[w imputed]|]|]; [| |discriminate].
    + rewrite (IH _ _ _ Hst). unfold mergedRowOf. now rewrite <- app_assoc.
    + rewrite (IH _ _ _ Hst). reflexivity.
Qed.

Lemma mergedOf_dates (fuel : nat) (W : list (jsstring * DailyWeather)) (g : num)
    (daily : list DailyOrders) :
  map date_iso (mergedOf fuel W g daily)
    = filter (foundWeather fuel W g) (map daily_date_iso daily).
Proof.
  induction daily as [|o daily IH]; [reflexivity|].
  unfold mergedOf. cbn [flat_map map filter]. fold (mergedOf fuel W g daily).
  unfold foundWeather at 1.
  destruct (findNearestWeather fuel (daily_date_iso o) W g)
    as [[[w imputed]|]|].
  - cbn [app map]. now rewrite IH.
  - cbn [app]. exact IH.
  - cbn [app]. exact IH.
Qed.

Lemma mergedOf_row (fuel : nat) (W : list (jsstring * DailyWeather)) (g : num)
    (daily : list DailyOrders) (r : MergedRow) :
  In r (mergedOf fuel W g daily) ->
  exists o w imputed,
    In o daily
    /\ findNearestWeather fuel (daily_date_iso o) W g = Some (Some (w, imputed))
    /\ r = mergedRowOf o w imputed.
Proof.
  unfold mergedOf. intros Hin. apply in_flat_map in Hin as (o & Ho & Hr).
  destruct (findNearestWeather fuel (daily_date_iso o) W g)
    as [[[w imputed]|]|] eqn:E; [|contradiction..].
  destruct Hr as [<-|[]]. now exists o, w, imputed.
Qed.

End MergeFacts.

Lemma StronglySorted_impl {A : Type} (R S : A -> A -> Prop) (l : list A) :
  (forall a b, R a b -> S a b) -> StronglySorted R l -> StronglySorted S l.
Proof.
  intros HRS. induction 1 as [|x l Hs IH Hall]; constructor; [exact IH|].
  eapply Forall_impl; [|exact Hall]. intros b. apply HRS.
Qed.

(** C1, as stated, fails: a date whose orders sum to zero is an aggregate
    like any other and is merged; its sum is not positive. *)
Lemma merge_keeps_zero_sum_date :
  let orderRows :=
    [DataMerger.mkOrderRow (Some (u "2024-01-05")) (JNum (ofZ 0))] in
  let weatherRows :=
    [DataMerger.mkWeatherRow (Some (u "2024-01-05")) (JNum (ofZ 20)) (JNum (ofZ 0)) JNull] in
  exists rows warnings r,
    DataMerger.mergeOrdersWithWeather (H := ReferenceHost.host) 4 orderRows weatherRows
      (DataMerger.mkOptions JUndefined) = Some (Ok (rows, warnings))
    /\ In r rows
    /\ DataMerger.date_iso r = u "2024-01-05"
    /\ ~ (exists o,
            In o (DataMerger.aggregateOrdersDaily orderRows)
            /\ DataMerger.daily_date_iso o = DataMerger.date_iso r
            /\ fltb (ofZ 0) (DataMerger.daily_total_orders o) = true).
Proof.
  intros orderRows weatherRows.
  eexists. eexists. eexists.
  split; [vm_compute; reflexivity|].
  split; [left; reflexivity|].
  split; [reflexivity|].
  intros (o & Hin & _ & Hpos).
  vm_compute in Hin. destruct Hin as [<-|[]].
  vm_compute in Hpos. discriminate.
Qed.

(** C1 (amended): for every output of the merge, the dates of the rows are
    strictly ascending (so each date has exactly one row); a date has a row
    exactly when it is a date of the order aggregate for which weather was
    found (its own or a neighbour's within the gap), so no row exists for a
    date absent from the aggregated orders; and each row carries the sum of
    the finite [total_orders] of the order rows of its date, whatever its
    sign, zero included. *)
Theorem merge_anchor_invariant
    (H : Host) (fuel : nat) (orderRows : list DataMerger.OrderRow)
    (weatherRows : list DataMerger.WeatherRow) (opts : DataMerger.options)
    (rows : list DataMerger.MergedRow) (warnings : list jsstring) :
  DataMerger.mergeOrdersWithWeather fuel orderRows weatherRows opts
    = Some (Ok (rows, warnings)) ->
  let W := DataMerger.aggregateWeatherDaily weatherRows in
  let g := DataMerger.effectiveMaxGap opts in
  let daily := DataMerger.aggregateOrdersDaily orderRows in
  StronglySorted (fun a b => str_ltb a b = true) (map DataMerger.date_iso rows)
  /\ (forall d,
        In d (map DataMerger.date_iso rows)
        <-> In d (map DataMerger.daily_date_iso daily)
            /\ foundWeather fuel W g d = true)
  /\ (forall d,
        In d (map DataMerger.daily_date_iso daily) <-> dailySum d orderRows <> None)
  /\ (forall r,
        In r rows ->
        exists total,
          dailySum (DataMerger.date_iso r) orderRows = Some total
          /\ DataMerger.total_orders r = JNum total
          /\ In (DataMerger.mkDailyOrders (DataMerger.date_iso r) total) daily).
Proof.
  intros Hmerge W g daily.
  unfold DataMerger.mergeOrdersWithWeather in Hmerge. fold W g daily in Hmerge.
  pose proof (merge_loop_rows fuel W g daily [] []) as Hloop.
  destruct (DataMerger.mergeLoop fuel W g daily ([], [])) as [[merged ws]|];
    [|discriminate].
  specialize (Hloop _ eq_refl). cbn [fst app] in Hloop. subst merged.
  assert (Hstrict :
            StronglySorted (fun a b => str_ltb a b = true)
              (map DataMerger.date_iso (mergedOf fuel W g daily))).
  { rewrite mergedOf_dates. apply StronglySorted_filter, aggregate_dates_strict. }
  assert (Hid : sortBy DataMerger.byDateIso (mergedOf fuel W g daily)
                = mergedOf fuel W g daily).
  { apply sortBy_sorted_id. apply StronglySorted_map in Hstrict.
    eapply StronglySorted_impl; [|exact Hstrict].
    intros a b Hab. unfold DataMerger.byDateIso. now apply str_ltb_asym. }
  rewrite Hid in Hmerge.
  assert (rows = mergedOf fuel W g daily) as ->.
  { destruct (mergedOf fuel W g daily); [discriminate | now injection Hmerge]. }
  split; [exact Hstrict|]. split; [|split].
  - intros d. rewrite mergedOf_dates, filter_In. reflexivity.
  - intros d. apply aggregate_has_date.
  - intros r Hr.
    apply mergedOf_row in Hr as (o & w & imputed & Ho & _ & ->).
    exists (DataMerger.daily_total_orders o). unfold mergedRowOf.
    cbn [DataMerger.date_iso DataMerger.total_orders].
    split; [now apply aggregate_row_total|]. split; [reflexivity|].
    now destruct o.
Qed.

Lemma merge_anchor_invariant_witness :
  let orderRows :=
    [ DataMerger.mkOrderRow (Some (u "2024-01-06")) (JNum (ofZ 100));
      DataMerger.mkOrderRow (Some (u "2024-01-05")) (JNum (ofZ 0));
      DataMerger.mkOrderRow (Some (u "2024-01-06")) (JNum (ofZ 1));
      DataMerger.mkOrderRow (Some (u "2024-01-20")) (JNum (ofZ 7)) ] in
  let weatherRows :=
    [ DataMerger.mkWeatherRow (Some (u "2024-01-04")) (JNum (ofZ 10)) (JNum (ofZ 0)) JNull;
      DataMerger.mkWeatherRow (Some (u "2024-01-06")) (JNum (ofZ 20)) (JNum (ofZ 2)) JNull;
      DataMerger.mkWeatherRow (Some (u "2024-03-01")) (JNum (ofZ 5)) (JNum (ofZ 2)) JNull ] in
  exists rows warnings,
    DataMerger.mergeOrdersWithWeather (H := ReferenceHost.host) 4 orderRows weatherRows
      (DataMerger.mkOptions JUndefined) = Some (Ok (rows, warnings))
    /\ map DataMerger.date_iso rows = [u "2024-01-05"; u "2024-01-06"]
    /\ StronglySorted (fun a b => str_ltb a b = true) (map DataMerger.date_iso rows).
Proof.
  intros orderRows weatherRows.
  eexists. eexists.
  split; [vm_compute; reflexivity|].
  split; [reflexivity|].
  refine (proj1 (merge_anchor_invariant ReferenceHost.host 4 orderRows weatherRows
                   (DataMerger.mkOptions JUndefined) _ _ _)).
  vm_compute; reflexivity.
Defined.

(** ** Trimming *)

Lemma trimStart_head (s : jsstring) (c : N) (r : jsstring) :
  trimStart s = c :: r -> isWhiteSpace c = false.
Proof.
  induction s as [|x s IH]; cbn [trimStart]; [discriminate|].
  destruct (isWhiteSpace x) eqn:E; [exact IH|].
  intros Heq. injection Heq as -> _. exact E.
Qed.

Lemma trimStart_suffix (s : jsstring) : exists pre, s = pre ++ trimStart s.
Proof.
  induction s as [|x s [pre IH]]; cbn [trimStart]; [now exists []|].
  destruct (isWhiteSpace x).
  - exists (x :: pre). cbn [app]. now f_equal.
  - now exists [].
Qed.

Lemma trimEnd_prefix (s : jsstring) : exists post, s = trimEnd s ++ post.
Proof.
  unfold trimEnd. destruct (trimStart_suffix (rev s)) as [pre Hpre].
  exists (rev pre). rewrite <- rev_app_distr, <- Hpre. now rewrite rev_involutive.
Qed.

(** A trimmed string neither starts nor ends with white space. *)
Lemma trim_no_outer_space (s : jsstring) (c : N) (r : jsstring) :
  trim s = c :: r ->
  isWhiteSpace c = false /\ isWhiteSpace (last (c :: r) c) = false.
Proof.
  unfold trim. intros Heq. split.
  - destruct (trimEnd_prefix (trimStart s)) as [post Hpost].
    rewrite Heq in Hpost. cbn [app] in Hpost.
    now apply trimStart_head in Hpost.
  - unfold trimEnd in Heq.
    assert (Hrev : trimStart (rev (trimStart s)) = rev (c :: r))
      by (now rewrite <- Heq, rev_involutive).
    destruct (rev (c :: r)) as [|x t] eqn:Ex.
    + apply (f_equal (@List.length N)) in Ex.
      rewrite length_rev in Ex. discriminate.
    + apply trimStart_head in Hrev.
      assert (Hlast : c :: r = rev t ++ [x]).
      { rewrite <- (rev_involutive (c :: r)), Ex. reflexivity. }
      rewrite Hlast, last_last. exact Hrev.
Qed.

(** ** C7 and C9: numeric coercion *)

Section Coercion.
Context {H : Host}.
Import CsvParser.

Lemma removeCommas_app (a b : jsstring) :
  removeCommas (a ++ b) = removeCommas a ++ removeCommas b.
Proof. apply filter_app. Qed.

Lemma removeCommas_In (s : jsstring) (c : N) :
  In c (removeCommas s) <-> In c s /\ c <> 44%N.
Proof.
  unfold removeCommas. rewrite filter_In, negb_true_iff, N.eqb_neq. reflexivity.
Qed.

Lemma removeCommas_none (s : jsstring) : ~ In 44%N s -> removeCommas s = s.
Proof.
  induction s as [|c s IH]; intros Hn; [reflexivity|].
  cbn [removeCommas filter]. destruct (N.eqb_spec c 44) as [->|Hc].
  - exfalso. apply Hn. now left.
  - cbn [negb]. f_equal. apply IH. intros Hin. apply Hn. now right.
Qed.


Lemma coerceNumber_present (value : jsval) (fieldName : jsstring) (rowIndex : nat) :
  isNullish value = false -> trim (ToString value) <> [] ->
  let s := trim (ToString value) in
  let n := StringToNumber (removeCommas s) in
  coerceNumber value fieldName rowIndex =
    if isFiniteNum n then Ok (JNum n)
    else Fail (makeError (u "CSV_INVALID_NUMBER")
                 (u "Invalid number for " ++ fieldName ++ u " at row "
                    ++ intToString (Z.of_nat rowIndex + 1) ++ u ".")
                 (DField fieldName rowIndex s)).
Proof.
  intros Hn Hs s n. unfold coerceNumber. rewrite Hn. fold s.
  destruct s as [|c r] eqn:Es; [contradiction|].
  fold n. destruct (isFiniteNum n); reflexivity.
Qed.



End Coercion.

(** A cell made of commas only is not empty; once the commas are removed
    nothing is left, which reads as 0. *)
Lemma comma_only_cell_reads_as_zero (H : Host) (fieldName : jsstring)
    (rowIndex : nat) :
  CsvParser.coerceNumber (JStr (u ",")) fieldName rowIndex
    = Ok (JNum (S754_zero false)).
Proof. reflexivity. Qed.




(** C9: numeric coercion removes every comma wherever it stands: the string
    read as a number has no comma left and is otherwise the trimmed value, so
    ["1,2,3"] is accepted and coerced to 123. *)
Theorem commas_removed_anywhere (H : Host) :
  (forall a b,
     CsvParser.removeCommas (a ++ [44%N] ++ b)
       = CsvParser.removeCommas a ++ CsvParser.removeCommas b)
  /\ (forall s, ~ In 44%N (CsvParser.removeCommas s))
  /\ (forall s, ~ In 44%N s -> CsvParser.removeCommas s = s)
  /\ (forall value fieldName rowIndex,
        isNullish value = false -> trim (ToString value) <> [] ->
        CsvParser.coerceNumber value fieldName rowIndex =
          let s := trim (ToString value) in
          let n := StringToNumber (CsvParser.removeCommas s) in
          if isFiniteNum n then Ok (JNum n)
          else Fail (makeError (u "CSV_INVALID_NUMBER")
                       (u "Invalid number for " ++ fieldName ++ u " at row "
                          ++ intToString (Z.of_nat rowIndex + 1) ++ u ".")
                       (DField fieldName rowIndex s)))
  /\ (forall fieldName rowIndex,
        CsvParser.coerceNumber (JStr (u "1,2,3")) fieldName rowIndex
          = Ok (JNum (ofZ 123))).
Proof.
  split; [|split; [|split; [|split]]].
  - intros a b. now rewrite !removeCommas_app.
  - intros s Hin. apply removeCommas_In in Hin as [_ Hne]. now apply Hne.
  - apply removeCommas_none.
  - intros value fieldName rowIndex Hn Hs. now apply coerceNumber_present.
  - intros fieldName rowIndex. reflexivity.
Qed.

Lemma commas_removed_anywhere_witness :
  ~ In 44%N (u "123")
  /\ CsvParser.removeCommas (u "123") = u "123"
  /\ CsvParser.coerceNumber (H := ReferenceHost.host) (JStr (u "1,2,3"))
       (u "total_orders") 0 = Ok (JNum (ofZ 123)).
Proof.
  assert (Hno : ~ In 44%N (u "123")).
  { cbn. intros [E|[E|[E|[]]]]; discriminate. }
  split; [exact Hno|].
  split.
  - exact (proj1 (proj2 (proj2 (commas_removed_anywhere ReferenceHost.host))) _ Hno).
  - exact (proj2 (proj2 (proj2 (proj2 (commas_removed_anywhere ReferenceHost.host))))
             (u "total_orders") 0%nat).
Defined.


(** ** The metrics engine *)

Section MetricsFacts.
Context {H : Host}.
Import DataMerger MetricsCalculator.

Lemma enrichLoop_rows (t : num) (p25 p75 : jsval) (rows : list MergedRow) :
  forall mv, map row (enrichLoop t p25 p75 rows mv) = rows.
Proof.
  induction rows as [|r rows IH]; intros mv; [reflexivity|].
  cbn [enrichLoop map]. rewrite IH. reflexivity.
Qed.

Lemma enrichLoop_In (t : num) (p25 p75 : jsval) (rows : list MergedRow)
    (e : Enriched) :
  forall mv,
    In e (enrichLoop t p25 p75 rows mv) ->
    In (row e) rows
    /\ is_rainy e = classifiedRainy t (row e)
    /\ day_of_week e = getDay (parseIsoToDate (date_iso (row e))).
Proof.
  induction rows as [|r rows IH]; intros mv; [intros []|].
  cbn [enrichLoop In]. intros [<-|Hin].
  - cbn [row is_rainy day_of_week enrichRow]. auto.
  - destruct (IH _ Hin) as (Hr & Hrest). auto.
Qed.

Lemma enrichedRows_rows (mergedRows : list MergedRow) (opts : options) :
  map row (enrichedRows mergedRows opts) = sortedRows mergedRows.
Proof. unfold enrichedRows. apply enrichLoop_rows. Qed.

Lemma enrichedRows_In (mergedRows : list MergedRow) (opts : options) (e : Enriched) :
  In e (enrichedRows mergedRows opts) ->
  In (row e) mergedRows
  /\ is_rainy e = classifiedRainy (effectiveThreshold opts) (row e)
  /\ day_of_week e = getDay (parseIsoToDate (date_iso (row e))).
Proof.
  unfold enrichedRows. intros Hin. apply enrichLoop_In in Hin as (Hr & Hrest).
  split; [|exact Hrest]. unfold sortedRows in Hr. now apply sortBy_In in Hr.
Qed.

(** Every merged row has its enriched row. *)
Lemma enrichedRows_covers (mergedRows : list MergedRow) (opts : options)
    (r : MergedRow) :
  In r mergedRows -> exists e, In e (enrichedRows mergedRows opts) /\ row e = r.
Proof.
  intros Hr.
  assert (Hs : In r (map row (enrichedRows mergedRows opts))).
  { rewrite enrichedRows_rows. unfold sortedRows. now apply sortBy_In. }
  apply in_map_iff in Hs as (e & He & Hin). now exists e.
Qed.

Lemma enrichedRows_length (mergedRows : list MergedRow) (opts : options) :
  List.length (enrichedRows mergedRows opts) = List.length mergedRows.
Proof.
  rewrite <- (length_map row), enrichedRows_rows. apply sortBy_length.
Qed.

Lemma weekday_bucket (k : Z) :
  (0 <= k < 7)%Z ->
  fltb (ofZ k) zero || fltb (ofZ 6) (ofZ k) = false
  /\ bucketIndex (ofZ k) = Some (Z.to_nat k).
Proof.
  intros Hk.
  assert (k = 0 \/ k = 1 \/ k = 2 \/ k = 3 \/ k = 4 \/ k = 5 \/ k = 6)%Z
    as [->|[->|[->|[->|[->|[->| ->]]]]]] by lia;
    vm_compute; split; reflexivity.
Qed.

(** With calendar dates on every row the weekday loop does not throw. *)
Lemma dowLoop_returns (enriched : list Enriched) :
  (forall e, In e enriched ->
     exists z, day_of_week e = getDay (Some z)) ->
  forall buckets, exists buckets', dowLoop enriched buckets = Some buckets'.
Proof.
  induction enriched as [|e enriched IH]; intros Hall buckets.
  - now exists buckets.
  - cbn [dowLoop].
    destruct (Hall e (or_introl eq_refl)) as [z Hz].
    cbn [getDay] in Hz.
    destruct (weekday_bucket ((Day (LocalTime z) + 4) mod 7)) as [Hrange Hidx];
      [apply Z.mod_pos_bound; lia|].
    rewrite Hz, Hrange, Hidx.
    destruct (negb (Number_isFinite (total_orders (row e))));
      apply IH; intros e' He'; apply Hall; now right.
Qed.

Lemma safeAverage_none (values : list jsval) :
  (forall v, In v values -> Number_isFinite v = false) ->
  safeAverage values = JNull.
Proof.
  intros Hall. unfold safeAverage.
  assert (Hf : filter Number_isFinite values = []).
  { induction values as [|v values IH]; [reflexivity|].
    cbn [filter]. rewrite (Hall v (or_introl eq_refl)).
    apply IH. intros v' Hv'. apply Hall. now right. }
  now rewrite Hf.
Qed.

Lemma safeAverage_some (values : list jsval) (v : jsval) :
  In v values -> Number_isFinite v = true ->
  exists x, safeAverage values = JNum x.
Proof.
  intros Hin Hfin. unfold safeAverage.
  assert (Hf : In v (filter Number_isFinite values)) by (now apply filter_In).
  destruct (filter Number_isFinite values) as [|w ws]; [contradiction|].
  eexists. reflexivity.
Qed.

Lemma filter_none {A : Type} (f : A -> bool) (l : list A) :
  (forall x, In x l -> f x = false) -> filter f l = [].
Proof.
  induction l as [|x l IH]; intros Hall; [reflexivity|].
  cbn [filter]. rewrite (Hall x (or_introl eq_refl)).
  apply IH. intros y Hy. apply Hall. now right.
Qed.

Lemma filter_all {A : Type} (f : A -> bool) (l : list A) :
  (forall x, In x l -> f x = true) -> filter f l = l.
Proof.
  induction l as [|x l IH]; intros Hall; [reflexivity|].
  cbn [filter]. rewrite (Hall x (or_introl eq_refl)). f_equal.
  apply IH. intros y Hy. apply Hall. now right.
Qed.

(** What the engine returns once the weekday loop is through: the fields
    about rain, in terms of [enriched]. *)
Lemma metrics_rain_fields (mergedRows : list MergedRow) (opts : options)
    (buckets : list (nat * num)) :
  mergedRows <> [] ->
  dowLoop (enrichedRows mergedRows opts) (repeat (0%nat, zero) 7) = Some buckets ->
  let enriched := enrichedRows mergedRows opts in
  let rainyAverage := safeAverage (rainyOrders enriched) in
  let nonRainyAverage := safeAverage (nonRainyOrders enriched) in
  exists m,
    calculateMetricsAndCharts mergedRows opts = Some (Ok m)
    /\ rainyDayAvg (kpis m) = roundedOrNull 100 100 rainyAverage
    /\ nonRainyDayAvg (kpis m) = roundedOrNull 100 100 nonRainyAverage
    /\ percentIncrease (kpis m)
       = roundedOrNull 10000 100 (percentIncreaseOf nonRainyAverage rainyAverage)
    /\ rainyDays (kpis m) = List.length (rainyOrders enriched)
    /\ nonRainyDays (kpis m) = List.length (nonRainyOrders enriched)
    /\ ordersOverTime (chartData m)
       = map (fun r => mkOrdersPoint (date_iso (row r)) (total_orders (row r))
                         (is_rainy r) (moving_avg_7 r)) enriched
    /\ weatherImpact (chartData m)
       = mkWeatherImpact (rainyDayAvg (kpis m)) (nonRainyDayAvg (kpis m))
           (percentIncrease (kpis m)) (rainyDays (kpis m)) (nonRainyDays (kpis m)).
Proof.
  intros Hne Hdow enriched rainyAverage nonRainyAverage.
  unfold calculateMetricsAndCharts.
  destruct mergedRows as [|r0 rest]; [contradiction|].
  rewrite Hdow.
  eexists. split; [reflexivity|].
  cbn [kpis chartData rainyDayAvg nonRainyDayAvg percentIncrease rainyDays
         nonRainyDays ordersOverTime weatherImpact].
  repeat split; reflexivity.
Qed.

End MetricsFacts.

(** ** Numbers that are not NaN *)

Section NotNaN.
Import Shapes.
Local Open Scope Z_scope.

Lemma shr_1_nonneg (mrs : shr_record) : 0 <= shr_m mrs -> 0 <= shr_m (shr_1 mrs).
Proof.
  destruct mrs as [m r s]. cbn [shr_m]. intros Hm. unfold shr_1.
  destruct m as [|[p|p|]|p]; cbn [shr_m]; lia.
Qed.

Lemma iter_shr_1_nonneg (p : positive) :
  forall mrs, 0 <= shr_m mrs -> 0 <= shr_m (iter_pos shr_1 p mrs).
Proof.
  induction p as [p IH|p IH|]; intros mrs Hm; cbn [iter_pos].
  - apply IH, IH. now apply shr_1_nonneg.
  - now apply IH, IH.
  - now apply shr_1_nonneg.
Qed.

Lemma shr_fexp_nonneg (m e : Z) (l : location) :
  0 <= m -> 0 <= shr_m (fst (shr_fexp 53 1024 m e l)).
Proof.
  intros Hm. unfold shr_fexp, shr.
  assert (H0 : 0 <= shr_m (shr_record_of_loc m l))
    by (destruct l as [|[| |]]; exact Hm).
  destruct (fexp 53 1024 (Zdigits2 m + e) - e); cbn [fst]; try exact H0.
  now apply iter_shr_1_nonneg.
Qed.

Lemma round_nearest_even_nonneg (m : Z) (l : location) :
  0 <= m -> 0 <= round_nearest_even m l.
Proof.
  intros Hm. unfold round_nearest_even.
  destruct l as [|[| |]]; try destruct (Z.even m); lia.
Qed.

(** Rounding a mantissa that is not negative never gives NaN. *)
Lemma binary_round_aux_not_nan (s : bool) (m e : Z) (l : location) :
  0 <= m -> isNaN (binary_round_aux 53 1024 s m e l) = false.
Proof.
  intros Hm. unfold binary_round_aux.
  pose proof (shr_fexp_nonneg m e l Hm) as H1.
  destruct (shr_fexp 53 1024 m e l) as [mrs' e']. cbn [fst] in H1.
  pose proof (shr_fexp_nonneg
                (round_nearest_even (shr_m mrs') (loc_of_shr_record mrs')) e'
                loc_Exact (round_nearest_even_nonneg _ _ H1)) as H2.
  destruct (shr_fexp 53 1024 _ e' loc_Exact) as [mrs'' e'']. cbn [fst] in H2.
  destruct (shr_m mrs'') as [|q|q]; [reflexivity| |lia].
  now destruct (e'' <=? 1024 - 53).
Qed.

Lemma binary_normalize_not_nan (m e : Z) (sz : bool) :
  isNaN (binary_normalize 53 1024 m e sz) = false.
Proof.
  unfold binary_normalize, binary_round.
  destruct m as [|p|p]; [reflexivity| |];
    destruct (shl_align _ _ _) as [mz ez]; now apply binary_round_aux_not_nan.
Qed.

Lemma ofZ_not_NaN (z : Z) : isNaN (ofZ z) = false.
Proof. apply binary_normalize_not_nan. Qed.

(** Adding a finite number to a number gives a number. *)
Lemma fadd_not_nan (x y : num) :
  isNaN x = false -> isFiniteNum y = true -> isNaN (fadd x y) = false.
Proof.
  intros Hx Hy. unfold fadd, SFadd.
  destruct x as [sx|sx| |sx mx ex]; try discriminate;
    destruct y as [sy|sy| |sy my ey]; try discriminate; try reflexivity.
  - now destruct sx, sy.
  - apply binary_normalize_not_nan.
Qed.

(** Dividing a number by a finite number other than zero gives a number. *)
Lemma fdiv_not_nan (x : num) (s : bool) (m : positive) (e : Z) :
  isNaN x = false -> isNaN (fdiv x (S754_finite s m e)) = false.
Proof.
  intros Hx. unfold fdiv, SFdiv.
  destruct x as [sx|sx| |sx mx ex]; try discriminate; try reflexivity.
  unfold SFdiv_core_binary.
  set (m' := match _ with Zpos _ => _ | Z0 => _ | Zneg _ => _ end).
  assert (Hm' : 0 <= m').
  { subst m'. destruct (_ - _ - _); try lia. apply Z.shiftl_nonneg. lia. }
  pose proof (Z.div_eucl_eq m' (Zpos m) ltac:(lia)) as Hq.
  pose proof (Z.mod_pos_bound m' (Zpos m) ltac:(lia)) as Hr.
  unfold Z.modulo in Hr.
  destruct (Z.div_eucl m' (Zpos m)) as [q r].
  apply binary_round_aux_not_nan. nia.
Qed.

(** Multiplying a number by a finite number other than zero gives a
    number. *)
Lemma fmul_not_nan (x : num) (s : bool) (m : positive) (e : Z) :
  isNaN x = false -> isNaN (fmul x (S754_finite s m e)) = false.
Proof.
  intros Hx. unfold fmul, SFmul.
  destruct x as [sx|sx| |sx mx ex]; try discriminate; try reflexivity.
  apply binary_round_aux_not_nan. lia.
Qed.

Lemma Math_round_not_nan (x : num) : isNaN x = false -> isNaN (Math_round x) = false.
Proof.
  intros Hx. unfold Math_round.
  destruct x as [sx|sx| |sx mx [|p|p]]; try discriminate; try reflexivity.
  cbv zeta. destruct (_ =? 0); [reflexivity | apply ofZ_not_NaN].
Qed.

(** A count from 1 to below 2^53 is a finite number other than zero. *)
Lemma count_finite (n : nat) :
  (1 <= n)%nat -> Z.of_nat n < 2 ^ 53 ->
  exists s m e, ofNat n = S754_finite s m e.
Proof.
  intros Hn Hb. unfold ofNat.
  destruct (ofZ_cases (Z.of_nat n)) as [[E _]|(s & k & m & _ & _ & E & _)].
  - unfold safeInt. lia.
  - lia.
  - rewrite E. now eexists _, _, _.
Qed.

Lemma roundTo_100_not_nan (x : num) :
  isNaN x = false -> isNaN (MetricsCalculator.roundTo 100 100 x) = false.
Proof.
  intros Hx. unfold MetricsCalculator.roundTo.
  change (ofZ 100) with (S754_finite false 7036874417766400 (-46)).
  now apply fdiv_not_nan, Math_round_not_nan, fmul_not_nan.
Qed.

Lemma sum_not_nan (values : list num) :
  (forall v, In v values -> isFiniteNum v = true) ->
  forall acc, isNaN acc = false -> isNaN (fold_left fadd values acc) = false.
Proof.
  induction values as [|v values IH]; intros Hall acc Hacc; [exact Hacc|].
  cbn [fold_left]. apply IH.
  - intros w Hw. apply Hall. now right.
  - apply fadd_not_nan; [exact Hacc|]. apply Hall. now left.
Qed.

(** The mean of finite numbers, one at least and fewer than 2^53, is a
    number. *)
Lemma meanOf_not_nan (values : list num) :
  values <> [] -> Z.of_nat (List.length values) < 2 ^ 53 ->
  (forall v, In v values -> isFiniteNum v = true) ->
  isNaN (meanOf values) = false.
Proof.
  intros Hne Hlen Hall. unfold meanOf.
  destruct (count_finite (List.length values)) as (s & m & e & ->).
  - destruct values; [contradiction|cbn; lia].
  - exact Hlen.
  - apply fdiv_not_nan. now apply sum_not_nan.
Qed.

(** [safeAverage] is the mean of the finite values. *)
Lemma safeAverage_mean (values : list jsval) :
  filter Number_isFinite values <> [] ->
  MetricsCalculator.safeAverage values
  = JNum (meanOf (map ToNumber (filter Number_isFinite values))).
Proof.
  intros Hne. unfold MetricsCalculator.safeAverage, meanOf.
  destruct (filter Number_isFinite values) as [|v vs] eqn:E; [contradiction|].
  rewrite length_map. f_equal. f_equal.
  generalize MetricsCalculator.zero. generalize (v :: vs).
  induction l as [|w l IH]; intros acc; [reflexivity|].
  cbn [fold_left map]. apply IH.
Qed.

End NotNaN.

(** ** C6: all rows non-rainy *)

(** C6, as stated, fails: two orders of 1e308 on one day sum to [Infinity];
    the merger emits that row, it is non-rainy, and the metrics engine, which
    averages finite values only, reports [nonRainyDayAvg] as [null]. *)
Lemma all_non_rainy_average_can_be_null :
  let orderRows :=
    [ DataMerger.mkOrderRow (Some (u "2024-01-05")) (JNum (decimalToNum false 1 308));
      DataMerger.mkOrderRow (Some (u "2024-01-05")) (JNum (decimalToNum false 1 308)) ] in
  let weatherRows :=
    [DataMerger.mkWeatherRow (Some (u "2024-01-05")) (JNum (ofZ 20)) (JNum (ofZ 0)) JNull] in
  let opts := MetricsCalculator.mkOptions JUndefined in
  exists rows warnings m,
    DataMerger.mergeOrdersWithWeather (H := ReferenceHost.host) 4 orderRows weatherRows
      (DataMerger.mkOptions JUndefined) = Some (Ok (rows, warnings))
    /\ rows <> []
    /\ (forall r, In r rows ->
          fltb (MetricsCalculator.effectiveThreshold opts)
            (ToNumber (DataMerger.rainfall_mm r)) = false)
    /\ MetricsCalculator.calculateMetricsAndCharts (H := ReferenceHost.host) rows opts
       = Some (Ok m)
    /\ MetricsCalculator.nonRainyDayAvg (MetricsCalculator.kpis m) = JNull.
Proof.
  intros orderRows weatherRows opts.
  eexists. eexists. eexists.
  split; [vm_compute; reflexivity|].
  split; [discriminate|].
  split; [intros r [<-|[]]; vm_compute; reflexivity|].
  split; [vm_compute; reflexivity | reflexivity].
Qed.

(** The number [nonRainyDayAvg] holds can be [Infinity]: two non-rainy rows
    of 1e308 each have finite totals whose sum exceeds the largest number. *)
Lemma non_rainy_average_can_be_infinite :
  let rows :=
    [ DataMerger.mkMergedRow (u "2024-01-05") (JNum (decimalToNum false 1 308))
        (JNum (ofZ 20)) (JNum (ofZ 0)) JNull (JBool false);
      DataMerger.mkMergedRow (u "2024-01-06") (JNum (decimalToNum false 1 308))
        (JNum (ofZ 21)) (JNum (ofZ 0)) JNull (JBool false) ] in
  (forall r, In r rows -> Number_isFinite (DataMerger.total_orders r) = true)
  /\ exists m,
       MetricsCalculator.calculateMetricsAndCharts (H := ReferenceHost.host) rows
         (MetricsCalculator.mkOptions JUndefined) = Some (Ok m)
       /\ MetricsCalculator.nonRainyDayAvg (MetricsCalculator.kpis m)
          = JNum (S754_infinity false).
Proof.
  intros rows. split; [intros r [<-|[<-|[]]]; reflexivity|].
  eexists. split; [vm_compute; reflexivity | reflexivity].
Qed.

(** C6 (amended): for every non-empty merged input whose rows carry calendar
    dates and in which no row's rainfall strictly exceeds the rain threshold,
    the engine returns, [rainyDayAvg] and [percentIncrease] are both [null]
    (not a number at all, so neither NaN nor 0), no day counts as rainy, and
    as soon as one row has a finite [total_orders], [nonRainyDayAvg] is a
    number and not NaN: the mean of the finite totals (their sum in date
    order, divided by their count, which is not zero), rounded to two
    decimals; when no row has a finite total, it is [null] as well. *)
Theorem all_non_rainy_averages
    (H : Host) (rows : list DataMerger.MergedRow) (opts : MetricsCalculator.options) :
  rows <> [] ->
  (Z.of_nat (List.length rows) < 2 ^ 32)%Z ->
  (forall r, In r rows -> hasCalendarDate r) ->
  (forall r, In r rows ->
     fltb (MetricsCalculator.effectiveThreshold opts)
       (ToNumber (DataMerger.rainfall_mm r)) = false) ->
  exists m,
    MetricsCalculator.calculateMetricsAndCharts rows opts = Some (Ok m)
    /\ MetricsCalculator.rainyDayAvg (MetricsCalculator.kpis m) = JNull
    /\ MetricsCalculator.percentIncrease (MetricsCalculator.kpis m) = JNull
    /\ MetricsCalculator.rainyDays (MetricsCalculator.kpis m) = 0%nat
    /\ MetricsCalculator.nonRainyDays (MetricsCalculator.kpis m) = List.length rows
    /\ ((exists r, In r rows /\ Number_isFinite (DataMerger.total_orders r) = true) ->
          finiteTotals rows <> []
          /\ MetricsCalculator.nonRainyDayAvg (MetricsCalculator.kpis m)
             = JNum (MetricsCalculator.roundTo 100 100 (meanOf (finiteTotals rows)))
          /\ isNaN (MetricsCalculator.roundTo 100 100 (meanOf (finiteTotals rows)))
             = false)
    /\ ((forall r, In r rows -> Number_isFinite (DataMerger.total_orders r) = false) ->
          MetricsCalculator.nonRainyDayAvg (MetricsCalculator.kpis m) = JNull)
    /\ MetricsCalculator.rainyAvg
         (MetricsCalculator.weatherImpact (MetricsCalculator.chartData m)) = JNull
    /\ MetricsCalculator.percentDifference
         (MetricsCalculator.weatherImpact (MetricsCalculator.chartData m)) = JNull.
Proof.
  intros Hne Hlen Hdates Hdry.
  set (enriched := MetricsCalculator.enrichedRows rows opts).
  assert (Hall : forall e, In e enriched -> MetricsCalculator.is_rainy e = false).
  { intros e He. unfold enriched in He.
    apply enrichedRows_In in He as (Hr & Hrain & _).
    rewrite Hrain. unfold classifiedRainy. rewrite (Hdry _ Hr).
    now destruct (isFiniteNum _). }
  assert (Hrainy : MetricsCalculator.rainyOrders enriched = []).
  { unfold MetricsCalculator.rainyOrders. now rewrite filter_none. }
  assert (Hnon : MetricsCalculator.nonRainyOrders enriched
                 = map DataMerger.total_orders (MetricsCalculator.sortedRows rows)).
  { unfold MetricsCalculator.nonRainyOrders.
    rewrite filter_all by (intros e He; now rewrite (Hall e He)).
    unfold enriched. now rewrite <- (enrichedRows_rows rows opts), map_map. }
  destruct (dowLoop_returns enriched) with (buckets := repeat (0%nat, MetricsCalculator.zero) 7)
    as [buckets Hdow].
  { intros e He. unfold enriched in He.
    apply enrichedRows_In in He as (Hr & _ & Hday).
    specialize (Hdates _ Hr). unfold hasCalendarDate in Hdates.
    destruct (MetricsCalculator.parseIsoToDate _) as [z|]; [|contradiction].
    now exists z. }
  destruct (metrics_rain_fields rows opts buckets Hne Hdow)
    as (m & Hm & Hra & Hnr & Hpi & Hrd & Hnd & _ & Hwi).
  cbv zeta in Hra, Hnr, Hpi, Hrd, Hnd. fold enriched in Hra, Hnr, Hpi, Hrd, Hnd.
  rewrite Hrainy in Hra, Hpi, Hrd. cbn in Hra, Hrd.
  assert (Hpi' : MetricsCalculator.percentIncrease (MetricsCalculator.kpis m) = JNull).
  { rewrite Hpi. unfold MetricsCalculator.percentIncreaseOf.
    change (MetricsCalculator.safeAverage []) with JNull.
    now destruct (MetricsCalculator.safeAverage _). }
  exists m. split; [exact Hm|]. split; [exact Hra|]. split; [exact Hpi'|].
  split; [exact Hrd|].
  split.
  { rewrite Hnd, Hnon, length_map. apply sortBy_length. }
  split; [|split; [|split]].
  - intros (r & Hr & Hfin).
    assert (Hin : In (DataMerger.total_orders r)
                    (filter Number_isFinite
                       (map DataMerger.total_orders
                          (MetricsCalculator.sortedRows rows)))).
    { apply filter_In. split; [|exact Hfin]. apply in_map.
      unfold MetricsCalculator.sortedRows. now apply sortBy_In. }
    assert (Hsome : filter Number_isFinite
                      (map DataMerger.total_orders
                         (MetricsCalculator.sortedRows rows)) <> [])
      by (intros E; rewrite E in Hin; contradiction).
    assert (Hft : finiteTotals rows <> []).
    { unfold finiteTotals. intros E. apply map_eq_nil in E. contradiction. }
    split; [exact Hft|]. split.
    + rewrite Hnr, Hnon, safeAverage_mean by exact Hsome. reflexivity.
    + apply roundTo_100_not_nan, meanOf_not_nan; [exact Hft| |].
      * unfold finiteTotals. rewrite length_map.
        pose proof (filter_length_le Number_isFinite
                      (map DataMerger.total_orders
                         (MetricsCalculator.sortedRows rows))) as Hle.
        rewrite length_map in Hle.
        assert (Hs : List.length (MetricsCalculator.sortedRows rows)
                     = List.length rows) by apply sortBy_length.
        rewrite Hs in Hle.
        assert (2 ^ 32 < 2 ^ 53)%Z by reflexivity. lia.
      * unfold finiteTotals. intros v Hv.
        apply in_map_iff in Hv as (w & <- & Hw). apply filter_In in Hw as [_ Hw].
        destruct w; try discriminate. exact Hw.
  - intros Hnone. rewrite Hnr, safeAverage_none; [reflexivity|].
    intros v Hv. rewrite Hnon in Hv. apply in_map_iff in Hv as (r & <- & Hr).
    apply Hnone. unfold MetricsCalculator.sortedRows in Hr. now apply sortBy_In in Hr.
  - rewrite Hwi. exact Hra.
  - rewrite Hwi. exact Hpi'.
Qed.

Lemma all_non_rainy_averages_witness :
  let rows :=
    [ DataMerger.mkMergedRow (u "2024-01-06") (JNum (ofZ 40)) (JNum (ofZ 21))
        (JNum (ofZ 1)) JNull (JBool false);
      DataMerger.mkMergedRow (u "2024-01-05") (JNum (ofZ 31)) (JNum (ofZ 18))
        (JNum (ofZ 0)) JNull (JBool true) ] in
  let opts := MetricsCalculator.mkOptions JUndefined in
  rows <> []
  /\ (Z.of_nat (List.length rows) < 2 ^ 32)%Z
  /\ (forall r, In r rows -> hasCalendarDate (H := ReferenceHost.host) r)
  /\ (forall r, In r rows ->
        fltb (MetricsCalculator.effectiveThreshold opts)
          (ToNumber (DataMerger.rainfall_mm r)) = false)
  /\ finiteTotals rows = [ofZ 31; ofZ 40]
  /\ exists m,
       MetricsCalculator.calculateMetricsAndCharts (H := ReferenceHost.host) rows opts
         = Some (Ok m)
       /\ MetricsCalculator.rainyDayAvg (MetricsCalculator.kpis m) = JNull
       /\ MetricsCalculator.percentIncrease (MetricsCalculator.kpis m) = JNull
       /\ MetricsCalculator.nonRainyDayAvg (MetricsCalculator.kpis m)
          = JNum (MetricsCalculator.roundTo 100 100 (meanOf (finiteTotals rows))).
Proof.
  intros rows opts.
  assert (Hne : rows <> []) by discriminate.
  assert (Hlen : (Z.of_nat (List.length rows) < 2 ^ 32)%Z) by reflexivity.
  assert (Hdates : forall r, In r rows -> hasCalendarDate (H := ReferenceHost.host) r).
  { intros r [<-|[<-|[]]]; vm_compute; discriminate. }
  assert (Hdry : forall r, In r rows ->
                   fltb (MetricsCalculator.effectiveThreshold opts)
                     (ToNumber (DataMerger.rainfall_mm r)) = false).
  { intros r [<-|[<-|[]]]; vm_compute; reflexivity. }
  split; [exact Hne|]. split; [exact Hlen|]. split; [exact Hdates|].
  split; [exact Hdry|]. split; [vm_compute; reflexivity|].
  destruct (all_non_rainy_averages ReferenceHost.host rows opts Hne Hlen Hdates Hdry)
    as (m & Hm & Hra & Hpi & _ & _ & Havg & _).
  exists m. split; [exact Hm|]. split; [exact Hra|]. split; [exact Hpi|].
  apply Havg. exists (DataMerger.mkMergedRow (u "2024-01-06") (JNum (ofZ 40))
                        (JNum (ofZ 21)) (JNum (ofZ 1)) JNull (JBool false)).
  split; [now left | reflexivity].
Defined.

(** ** C10: rows without a finite rainfall *)

(** C10, as stated, fails: a [null] rainfall is read as the number 0, and
    with a negative rain threshold 0 exceeds the threshold, so the row is
    classified rainy and counted in the rainy bucket. *)
Lemma null_rainfall_rainy_under_negative_threshold :
  let r :=
    DataMerger.mkMergedRow (u "2024-01-01") (JNum (ofZ 5)) (JNum (ofZ 1))
      JNull JNull (JBool false) in
  Number_isFinite (DataMerger.rainfall_mm r) = false
  /\ exists m,
       MetricsCalculator.calculateMetricsAndCharts (H := ReferenceHost.host) [r]
         (MetricsCalculator.mkOptions (JNum (ofZ (-1)))) = Some (Ok m)
       /\ map MetricsCalculator.op_is_rainy
            (MetricsCalculator.ordersOverTime (MetricsCalculator.chartData m)) = [true]
       /\ MetricsCalculator.rainyDays (MetricsCalculator.kpis m) = 1%nat
       /\ MetricsCalculator.nonRainyDays (MetricsCalculator.kpis m) = 0%nat
       /\ MetricsCalculator.nonRainyDayAvg (MetricsCalculator.kpis m) = JNull.
Proof.
  intros r. split; [reflexivity|].
  eexists. split; [vm_compute; reflexivity|].
  repeat split.
Qed.

(** C10 (amended): in the metrics engine, on rows that carry calendar dates,
    a row whose rainfall is missing, NaN or infinite is always classified as
    non-rainy, and so is a row whose rainfall is [null] whenever the rain
    threshold is not negative ([null] reads as 0); such a row is charted with
    [is_rainy = false], counts among the non-rainy days, and its
    [total_orders] is among the values the non-rainy average is taken over. *)
Theorem non_finite_rainfall_is_non_rainy
    (H : Host) (rows : list DataMerger.MergedRow) (opts : MetricsCalculator.options)
    (r : DataMerger.MergedRow) :
  In r rows ->
  (forall r', In r' rows -> hasCalendarDate r') ->
  notANumberOrInfinite (DataMerger.rainfall_mm r)
  \/ (DataMerger.rainfall_mm r = JNull
      /\ fltb (MetricsCalculator.effectiveThreshold opts) (S754_zero false) = false) ->
  let enriched := MetricsCalculator.enrichedRows rows opts in
  (forall e, In e enriched -> MetricsCalculator.row e = r ->
     MetricsCalculator.is_rainy e = false)
  /\ In (DataMerger.total_orders r) (MetricsCalculator.nonRainyOrders enriched)
  /\ exists m,
       MetricsCalculator.calculateMetricsAndCharts rows opts = Some (Ok m)
       /\ MetricsCalculator.nonRainyDayAvg (MetricsCalculator.kpis m)
          = MetricsCalculator.roundedOrNull 100 100
              (MetricsCalculator.safeAverage (MetricsCalculator.nonRainyOrders enriched))
       /\ MetricsCalculator.nonRainyDays (MetricsCalculator.kpis m)
          = List.length (MetricsCalculator.nonRainyOrders enriched)
       /\ (1 <= MetricsCalculator.nonRainyDays (MetricsCalculator.kpis m))%nat
       /\ exists p,
            In p (MetricsCalculator.ordersOverTime (MetricsCalculator.chartData m))
            /\ MetricsCalculator.op_date_iso p = DataMerger.date_iso r
            /\ MetricsCalculator.op_total_orders p = DataMerger.total_orders r
            /\ MetricsCalculator.op_is_rainy p = false.
Proof.
  intros Hr Hdates Hrain enriched.
  assert (Hclass : classifiedRainy (MetricsCalculator.effectiveThreshold opts) r = false).
  { unfold classifiedRainy.
    destruct Hrain as [[Hu|(n & Hn & Hfin)]|[Hnull Hthr]].
    - now rewrite Hu.
    - rewrite Hn. cbn [ToNumber]. now rewrite Hfin.
    - rewrite Hnull. cbn [ToNumber isFiniteNum]. exact Hthr. }
  assert (Hdry : forall e, In e enriched -> MetricsCalculator.row e = r ->
                   MetricsCalculator.is_rainy e = false).
  { intros e He Hrow. unfold enriched in He.
    apply enrichedRows_In in He as (_ & Hc & _). now rewrite Hc, Hrow. }
  destruct (enrichedRows_covers rows opts r Hr) as (e & He & Hrow).
  fold enriched in He.
  assert (Hin : In (DataMerger.total_orders r) (MetricsCalculator.nonRainyOrders enriched)).
  { unfold MetricsCalculator.nonRainyOrders. rewrite <- Hrow.
    apply (in_map (fun x => DataMerger.total_orders (MetricsCalculator.row x))).
    apply filter_In. split; [exact He|]. now rewrite (Hdry e He Hrow). }
  split; [exact Hdry|]. split; [exact Hin|].
  destruct (dowLoop_returns enriched) with (buckets := repeat (0%nat, MetricsCalculator.zero) 7)
    as [buckets Hdow].
  { intros e' He'. unfold enriched in He'.
    apply enrichedRows_In in He' as (Hr' & _ & Hday).
    specialize (Hdates _ Hr'). unfold hasCalendarDate in Hdates.
    destruct (MetricsCalculator.parseIsoToDate _) as [z|]; [|contradiction].
    now exists z. }
  assert (Hne : rows <> []) by (intros ->; contradiction).
  destruct (metrics_rain_fields rows opts buckets Hne Hdow)
    as (m & Hm & _ & Hnr & _ & _ & Hnd & Hchart & _).
  cbv zeta in Hnr, Hnd, Hchart. fold enriched in Hnr, Hnd, Hchart.
  exists m. split; [exact Hm|]. split; [exact Hnr|]. split; [exact Hnd|].
  split.
  { rewrite Hnd.
    destruct (MetricsCalculator.nonRainyOrders enriched); [contradiction|].
    cbn [List.length]. lia. }
  exists (MetricsCalculator.mkOrdersPoint (DataMerger.date_iso (MetricsCalculator.row e))
            (DataMerger.total_orders (MetricsCalculator.row e))
            (MetricsCalculator.is_rainy e) (MetricsCalculator.moving_avg_7 e)).
  split.
  { rewrite Hchart.
    apply (in_map (fun x =>
                     MetricsCalculator.mkOrdersPoint
                       (DataMerger.date_iso (MetricsCalculator.row x))
                       (DataMerger.total_orders (MetricsCalculator.row x))
                       (MetricsCalculator.is_rainy x) (MetricsCalculator.moving_avg_7 x))).
    exact He. }
  cbn [MetricsCalculator.op_date_iso MetricsCalculator.op_total_orders
         MetricsCalculator.op_is_rainy].
  rewrite Hrow. repeat split. exact (Hdry e He Hrow).
Qed.

Lemma non_finite_rainfall_is_non_rainy_witness :
  let r :=
    DataMerger.mkMergedRow (u "2024-01-01") (JNum (ofZ 5)) (JNum (ofZ 1))
      JNull JNull (JBool false) in
  let r2 :=
    DataMerger.mkMergedRow (u "2024-01-02") (JNum (ofZ 9)) (JNum (ofZ 3))
      (JNum (ofZ 12)) JNull (JBool false) in
  let opts := MetricsCalculator.mkOptions JUndefined in
  In r [r2; r]
  /\ (forall r', In r' [r2; r] -> hasCalendarDate (H := ReferenceHost.host) r')
  /\ (DataMerger.rainfall_mm r = JNull
      /\ fltb (MetricsCalculator.effectiveThreshold opts) (S754_zero false) = false)
  /\ In (DataMerger.total_orders r)
       (MetricsCalculator.nonRainyOrders
          (MetricsCalculator.enrichedRows (H := ReferenceHost.host) [r2; r] opts)).
Proof.
  intros r r2 opts.
  assert (Hin : In r [r2; r]) by (right; left; reflexivity).
  assert (Hdates : forall r', In r' [r2; r]
                     -> hasCalendarDate (H := ReferenceHost.host) r').
  { intros r' [<-|[<-|[]]]; vm_compute; discriminate. }
  assert (Hnull : DataMerger.rainfall_mm r = JNull
                  /\ fltb (MetricsCalculator.effectiveThreshold opts) (S754_zero false)
                     = false) by (split; reflexivity).
  split; [exact Hin|]. split; [exact Hdates|]. split; [exact Hnull|].
  exact (proj1 (proj2 (non_finite_rainfall_is_non_rainy ReferenceHost.host [r2; r] opts r
                         Hin Hdates (or_intror Hnull)))).
Defined.

(** ** The pipeline on the sample files *)

(** The run goes through all four stages: the two orders of 2024-01-01 are
    summed, the count ["1,200"] reads as 1200, the day without weather takes
    the weather of the day before, and the weather-only day 2024-01-08 is not
    surfaced. *)
Lemma sample_pipeline_run :
  exists o,
    Pipeline.onLoad (H := ReferenceHost.host) 100 sampleOrdersCsv sampleWeatherCsv
      = Pipeline.Done o
    /\ map (fun r => (DataMerger.date_iso r, DataMerger.total_orders r,
                      DataMerger.imputed_weather r)) (Pipeline.mergedData o)
       = [ (u "2024-01-01", JNum (ofZ 120), JBool false);
           (u "2024-01-02", JNum (ofZ 1200), JBool false);
           (u "2024-01-03", JNum (ofZ 90), JBool false);
           (u "2024-01-04", JNum (ofZ 0), JBool true);
           (u "2024-01-05", JNum (ofZ 110), JBool false);
           (u "2024-01-06", JNum (ofZ 95), JBool false);
           (u "2024-01-07", JNum (ofZ 105), JBool false) ]
    /\ Pipeline.warnings o
       = [u "Detected 1 missing dates between 2024-01-01 and 2024-01-08. Example: 2024-01-04"]
    /\ MetricsCalculator.rainyDayAvg (Pipeline.kpis o) = JNum (ofZ 655)
    /\ MetricsCalculator.nonRainyDayAvg (Pipeline.kpis o) = JNum (ofZ 82)
    /\ MetricsCalculator.maxOrdersDay (Pipeline.kpis o) = JStr (u "2024-01-02 (1200)").
Proof.
  eexists. split; [vm_compute; reflexivity|].
  repeat split.
Qed.


(* ================================================================== *)
(** * Further properties of the code *)
(* ================================================================== *)

Import Shapes.

(** ** Header tokens *)

Section HeaderTokens.
Import Js.
Local Open Scope N_scope.
Import CsvParser.

Lemma replaceRuns_In (p : N -> bool) (s : jsstring) (c : N) :
  forall inRun, In c (replaceRuns p inRun s) -> c = 95 \/ (In c s /\ p c = false).
Proof.
  induction s as [|x s IH]; intros inRun Hin; [contradiction|].
  cbn [replaceRuns] in Hin. destruct (p x) eqn:Px.
  - destruct inRun.
    + apply IH in Hin as [?|[? ?]]; [now left|right; split; [now right|assumption]].
    + destruct Hin as [<-|Hin]; [now left|].
      apply IH in Hin as [?|[? ?]]; [now left|right; split; [now right|assumption]].
  - destruct Hin as [<-|Hin]; [right; split; [now left|assumption]|].
    apply IH in Hin as [?|[? ?]]; [now left|right; split; [now right|assumption]].
Qed.

Lemma replaceRuns_id (p : N -> bool) (s : jsstring) :
  Forall (fun c => p c = false) s -> forall inRun, replaceRuns p inRun s = s.
Proof.
  induction 1 as [|c s Hc Hs IH]; intros inRun; [reflexivity|].
  cbn [replaceRuns]. rewrite Hc. now rewrite IH.
Qed.

Lemma underscores_single (s : jsstring) :
  forall inRun,
    singleUnderscores (replaceRuns (N.eqb 95) inRun s) = true
    /\ (inRun = true -> hd 0 (replaceRuns (N.eqb 95) inRun s) <> 95).
Proof.
  induction s as [|c s IH]; intros inRun.
  - cbn. split; [reflexivity|intros _; discriminate].
  - cbn [replaceRuns]. destruct (N.eqb_spec 95 c) as [<-|Hc].
    + destruct inRun; [apply IH|].
      destruct (IH true) as [Hs Hh]. specialize (Hh eq_refl).
      split; [|discriminate].
      cbn [singleUnderscores]. apply N.eqb_neq in Hh. rewrite Hh, Hs.
      reflexivity.
    + destruct (IH false) as [Hs _]. split.
      * cbn [singleUnderscores].
        assert (E95 : (c =? 95) = false) by (apply N.eqb_neq; congruence).
        rewrite E95, Hs. reflexivity.
      * intros _. cbn. congruence.
Qed.

Lemma underscores_id (s : jsstring) :
  singleUnderscores s = true -> replaceRuns (N.eqb 95) false s = s.
Proof.
  induction s as [|a s IH]; [reflexivity|].
  cbn [singleUnderscores replaceRuns]. intros Hs.
  apply andb_true_iff in Hs as [Hab Hs]. specialize (IH Hs).
  destruct (N.eqb_spec 95 a) as [<-|Ha]; [|now rewrite IH].
  f_equal. cbn in Hab. apply negb_true_iff in Hab.
  destruct s as [|b r]; [reflexivity|].
  cbn [hd] in Hab. cbn [replaceRuns] in *. rewrite N.eqb_sym in Hab.
  rewrite Hab in *. exact IH.
Qed.

Lemma headerUnit_facts (c : N) :
  isHeaderUnit c = true ->
  isWhiteSpace c = false /\ isUpper c = false /\ (c =? 304) = false
  /\ (c =? 8490) = false /\ (45 =? c) = false.
Proof.
  unfold isHeaderUnit, isLower, isDigit, isUpper, isWhiteSpace. intros Hc.
  assert (Hr : c <= 122 /\ 48 <= c).
  { repeat (apply orb_true_iff in Hc as [Hc|Hc]);
      try (apply andb_true_iff in Hc as [?%N.leb_le ?%N.leb_le]; lia).
    apply N.eqb_eq in Hc. lia. }
  assert (Hu : (65 <=? c) && (c <=? 90) = false).
  { destruct ((65 <=? c) && (c <=? 90)) eqn:E; [|reflexivity].
    apply andb_true_iff in E as [?%N.leb_le ?%N.leb_le].
    repeat (apply orb_true_iff in Hc as [Hc|Hc]);
      try (apply andb_true_iff in Hc as [?%N.leb_le ?%N.leb_le]; lia).
    apply N.eqb_eq in Hc. lia. }
  repeat split; try assumption; try (apply N.eqb_neq; lia).
  cbn [existsb].
  repeat match goal with
         | |- context [c =? ?k] =>
             replace (c =? k) with false by (symmetry; apply N.eqb_neq; lia)
         end.
  cbn. apply andb_false_iff. left. apply N.leb_gt. lia.
Qed.

Lemma toLowerCase_id (s : jsstring) :
  Forall (fun c => isUpper c = false /\ (c =? 304) = false /\ (c =? 8490) = false) s ->
  toLowerCase s = s.
Proof.
  induction 1 as [|c s (Hu & H1 & H2) Hs IH]; [reflexivity|].
  unfold toLowerCase in *. cbn [flat_map]. rewrite Hu, H1, H2, IH. reflexivity.
Qed.

Lemma filter_id {A : Type} (f : A -> bool) (l : list A) :
  Forall (fun x => f x = true) l -> filter f l = l.
Proof.
  induction 1 as [|x l Hx Hl IH]; [reflexivity|]. cbn. now rewrite Hx, IH.
Qed.

(** X1: A normalised header holds lower-case letters, digits and underscores
    only, never two underscores in a row, and normalising it again changes
    nothing. *)
Theorem normalizeHeaderToken_canonical (token : jsstring) :
  Forall (fun c => isHeaderUnit c = true) (normalizeHeaderToken token)
  /\ singleUnderscores (normalizeHeaderToken token) = true
  /\ normalizeHeaderToken (normalizeHeaderToken token) = normalizeHeaderToken token.
Proof.
  assert (Hunits : Forall (fun c => isHeaderUnit c = true) (normalizeHeaderToken token)).
  { apply Forall_forall. intros c Hin. unfold normalizeHeaderToken in Hin.
    apply replaceRuns_In in Hin as [->|[Hin _]]; [reflexivity|].
    now apply filter_In in Hin. }
  assert (Hsingle : singleUnderscores (normalizeHeaderToken token) = true)
    by apply underscores_single.
  split; [exact Hunits|]. split; [exact Hsingle|].
  set (h := normalizeHeaderToken token) in *.
  unfold normalizeHeaderToken at 1.
  rewrite trim_id.
  2:{ eapply Forall_impl; [|exact Hunits]. intros c Hc. now apply headerUnit_facts. }
  rewrite toLowerCase_id.
  2:{ eapply Forall_impl; [|exact Hunits]. intros c Hc.
      now destruct (headerUnit_facts c Hc) as (_ & ? & ? & ? & _). }
  rewrite (replaceRuns_id isWhiteSpace).
  2:{ eapply Forall_impl; [|exact Hunits]. intros c Hc. now apply headerUnit_facts. }
  rewrite (replaceRuns_id (N.eqb 45)).
  2:{ eapply Forall_impl; [|exact Hunits]. intros c Hc. now apply headerUnit_facts. }
  rewrite filter_id by exact Hunits.
  now apply underscores_id.
Qed.

End HeaderTokens.


(** ** Writing and reading one line of delimited text *)

Section CsvLinesRoundTrip.
Import Js.
Local Open Scope N_scope.

Import CsvParser FetchWeather.

Lemma loop_plain (s rest : jsstring) (d : N) (out : list jsstring)
    (cur : jsstring) (q : bool) :
  Forall (fun c => c <> 34 /\ (q = false -> c <> d)) s ->
  parseCsvLineLoop (s ++ rest) d out cur q
  = parseCsvLineLoop rest d out (cur ++ s) q.
Proof.
  revert cur. induction s as [|c s IH]; intros cur Hs.
  - now rewrite app_nil_r.
  - inversion Hs as [|? ? [Hq Hd] Hs']; subst.
    cbn [app parseCsvLineLoop].
    apply N.eqb_neq in Hq. rewrite Hq.
    assert (E : negb q && (c =? d) = false).
    { destruct q; [reflexivity|]. cbn. apply N.eqb_neq. now apply Hd. }
    rewrite E, IH by assumption. now rewrite <- app_assoc.
Qed.

Lemma loop_quoted (s rest : jsstring) (d : N) (out : list jsstring)
    (cur : jsstring) :
  hd 0 rest <> 34 ->
  parseCsvLineLoop (doubleQuotes s ++ 34 :: rest) d out cur true
  = parseCsvLineLoop rest d out (cur ++ s) false.
Proof.
  intros Hrest. revert cur. induction s as [|c s IH]; intros cur.
  - cbn [doubleQuotes flat_map app parseCsvLineLoop]. rewrite N.eqb_refl.
    rewrite app_nil_r. destruct rest as [|n rest']; [reflexivity|].
    cbn in Hrest. apply N.eqb_neq in Hrest. now rewrite Hrest.
  - unfold doubleQuotes in *. cbn [flat_map].
    destruct (N.eqb_spec c 34) as [->|Hc].
    + cbn [app parseCsvLineLoop]. rewrite N.eqb_refl. cbn [andb].
      rewrite IH. now rewrite <- app_assoc.
    + cbn [app parseCsvLineLoop].
      apply N.eqb_neq in Hc. rewrite Hc. cbn [negb andb].
      rewrite IH. now rewrite <- app_assoc.
Qed.

Section CsvLines.
Context {H : Host}.

Lemma existsb_false_Forall {A : Type} (f : A -> bool) (l : list A) :
  existsb f l = false -> Forall (fun x => f x = false) l.
Proof.
  induction l as [|x l IH]; cbn; intros E; constructor;
    apply orb_false_iff in E as [E1 E2]; auto.
Qed.

Lemma loop_opening_quote (l : jsstring) (d : N) (out : list jsstring)
    (cur : jsstring) :
  parseCsvLineLoop (34 :: l) d out cur false
  = parseCsvLineLoop l d out cur true.
Proof. now destruct l. Qed.

Lemma loop_escaped_field (v : jsval) (rest : jsstring) (out : list jsstring) :
  hd 0 rest <> 34 ->
  parseCsvLineLoop (csvEscape v ++ rest) 44 out [] false
  = parseCsvLineLoop rest 44 out (cellText v) false.
Proof.
  intros Hrest. unfold csvEscape. cbv zeta.
  change (if isNullish v then [] else ToString v) with (cellText v).
  destruct (existsb needsQuoting (cellText v)) eqn:E.
  - cbn [app]. rewrite <- app_assoc. cbn [app].
    rewrite loop_opening_quote. now rewrite loop_quoted.
  - apply loop_plain. apply existsb_false_Forall in E.
    eapply Forall_impl; [|exact E].
    intros c Hc. unfold needsQuoting in Hc.
    repeat (apply orb_false_iff in Hc as [Hc ?]).
    split; [|intros _]; now apply N.eqb_neq.
Qed.

Lemma loop_escaped_line (v : jsval) (vs : list jsval) :
  forall out,
    parseCsvLineLoop (join (u ",") (map csvEscape (v :: vs))) 44 out [] false
    = out ++ map cellText (v :: vs).
Proof.
  revert v. induction vs as [|v' vs IH]; intros v out.
  - cbn [map join].
    rewrite <- (app_nil_r (csvEscape v)).
    rewrite loop_escaped_field by (cbn; discriminate). reflexivity.
  - change (join (u ",") (map csvEscape (v :: v' :: vs)))
      with (csvEscape v ++ 44 :: join (u ",") (map csvEscape (v' :: vs))).
    rewrite loop_escaped_field by (cbn; discriminate).
    cbn [parseCsvLineLoop]. change (44 =? 34) with false. cbn [negb andb].
    rewrite N.eqb_refl. rewrite IH. cbn [map]. now rewrite <- app_assoc.
Qed.

End CsvLines.

(** X2: Every list of values written as one CSV line, each value through
    [csvEscape] and the values joined by commas, is read back by
    [parseCsvLine] as the texts of the values: quotes, commas and line breaks
    inside a value survive. *)
Theorem csv_line_round_trip (H : Host) (v : jsval) (vs : list jsval) :
  parseCsvLine (join (u ",") (map csvEscape (v :: vs))) 44
  = map cellText (v :: vs).
Proof.
  unfold parseCsvLine. now rewrite loop_escaped_line.
Qed.

Lemma split_cons (d : N) (s : jsstring) :
  exists p ps, split d s = p :: ps.
Proof.
  induction s as [|c s (p & ps & E)]; cbn; [now eauto|].
  destruct (c =? d); [now eauto|]. rewrite E. now eauto.
Qed.

Lemma loop_no_quote (line : jsstring) (d : N) :
  ~ In 34 line ->
  forall out cur,
    parseCsvLineLoop line d out cur false
    = out ++ match split d line with
             | p :: ps => (cur ++ p) :: ps
             | [] => [cur]
             end.
Proof.
  induction line as [|c line IH]; intros Hq out cur.
  - cbn. now rewrite app_nil_r.
  - assert (Hc : c <> 34) by (intros ->; apply Hq; now left).
    assert (Hl : ~ In 34 line) by (intros Hin; apply Hq; now right).
    cbn [parseCsvLineLoop split]. apply N.eqb_neq in Hc. rewrite Hc.
    cbn [negb andb]. destruct (c =? d).
    + rewrite IH by assumption. rewrite <- app_assoc. cbn [app].
      rewrite app_nil_r. now destruct (split_cons d line) as (p & ps & ->).
    + rewrite IH by assumption.
      destruct (split_cons d line) as (p & ps & ->).
      now rewrite <- app_assoc.
Qed.

(** X3: On a line without a double quote [parseCsvLine] is [line.split(delimiter)]. *)
Theorem parseCsvLine_without_quotes_is_split (line : jsstring) (d : N) :
  ~ In 34 line -> parseCsvLine line d = split d line.
Proof.
  intros Hq. unfold parseCsvLine. rewrite loop_no_quote by assumption.
  now destruct (split_cons d line) as (p & ps & ->).
Qed.

Lemma parseCsvLine_without_quotes_is_split_witness :
  ~ In 34 (u "2024-01-01,12,,x")
  /\ parseCsvLine (u "2024-01-01,12,,x") 44 = [u "2024-01-01"; u "12"; []; u "x"].
Proof.
  assert (Hq : ~ In 34 (u "2024-01-01,12,,x")) by (vm_compute; intuition discriminate).
  split; [exact Hq|].
  exact (parseCsvLine_without_quotes_is_split (u "2024-01-01,12,,x") 44 Hq).
Defined.

End CsvLinesRoundTrip.


(** ** The shape of a parsed table *)

Section ParsedTables.
Import Js.
Local Open Scope N_scope.
Import Statements CsvParser.

Lemma loop_fields_without_delimiter (d : N) (n : nat) :
  forall line out cur q,
    (List.length line <= n)%nat ->
    ~ In d line ->
    List.length (parseCsvLineLoop line d out cur q) = S (List.length out).
Proof.
  induction n as [|n IH]; intros line out cur q Hn Hd.
  - destruct line; [|cbn in Hn; lia].
    cbn. rewrite length_app. cbn. lia.
  - destruct line as [|ch rest].
    { cbn. rewrite length_app. cbn. lia. }
    cbn in Hn.
    assert (Hch : ch <> d) by (intros ->; apply Hd; now left).
    assert (Hrest : ~ In d rest) by (intros Hin; apply Hd; now right).
    cbn [parseCsvLineLoop].
    destruct (ch =? 34).
    + destruct rest as [|nxt rest'].
      * apply IH; [cbn; lia|assumption].
      * destruct (q && (nxt =? 34)).
        -- apply IH; [cbn in *; lia|].
           intros Hin. apply Hrest. now right.
        -- apply IH; [cbn in *; lia|assumption].
    + apply N.eqb_neq in Hch. rewrite Hch, andb_false_r.
      apply IH; [lia|assumption].
Qed.

Lemma delimiterStep_absent (sample : list jsstring) (best : N * num) (d : N) :
  Forall (fun l => ~ In d l) sample ->
  delimiterStep sample best d = best.
Proof.
  intros Hs. unfold delimiterStep.
  assert (E : filter (fun c => (1 <? c)%nat)
                (map (fun l => List.length (parseCsvLine l d)) sample) = []).
  { induction Hs as [|l sample Hl Hs IH]; [reflexivity|].
    cbn [map filter]. unfold parseCsvLine at 1.
    rewrite (loop_fields_without_delimiter d (List.length l)) by auto.
    cbn. exact IH. }
  now rewrite E.
Qed.

Lemma delimiterStep_choice (sample : list jsstring) (best : N * num) (d : N) :
  fst (delimiterStep sample best d) = fst best
  \/ fst (delimiterStep sample best d) = d.
Proof.
  unfold delimiterStep.
  destruct (filter _ _); [now left|].
  destruct (fold_left modeStep _ _) as [modeCount modeFreq].
  destruct (fltb _ _); [now right|now left].
Qed.

Lemma detectDelimiter_In (lines : list jsstring) :
  In (detectDelimiter lines) [44; 59; 9].
Proof.
  unfold detectDelimiter. cbn [fold_left].
  set (s := firstn 10 lines).
  set (b0 := (44, ofZ (-1))).
  destruct (delimiterStep_choice s b0 44) as [E1|E1];
  destruct (delimiterStep_choice s (delimiterStep s b0 44) 59) as [E2|E2];
  destruct (delimiterStep_choice s
              (delimiterStep s (delimiterStep s b0 44) 59) 9) as [E3|E3];
  rewrite ?E3, ?E2, ?E1; cbn; auto.
Qed.

(** X4: The delimiter detected is a comma, a semicolon or a tab; it is the comma
    whenever none of the (at most ten) lines sampled holds a semicolon or a
    tab. *)
Theorem detectDelimiter_candidates (lines : list jsstring) :
  In (detectDelimiter lines) [44; 59; 9]
  /\ (Forall (fun l => ~ In 59 l /\ ~ In 9 l) (firstn 10 lines) ->
      detectDelimiter lines = 44).
Proof.
  split; [apply detectDelimiter_In|].
  unfold detectDelimiter. cbn [fold_left].
  intros Hs.
  assert (H59 : Forall (fun l => ~ In 59 l) (firstn 10 lines))
    by (eapply Forall_impl; [|exact Hs]; now intros l [? ?]).
  assert (H9 : Forall (fun l => ~ In 9 l) (firstn 10 lines))
    by (eapply Forall_impl; [|exact Hs]; now intros l [? ?]).
  rewrite (delimiterStep_absent _ _ 9 H9), (delimiterStep_absent _ _ 59 H59).
  destruct (delimiterStep_choice (firstn 10 lines) (44, ofZ (-1)) 44) as [E|E];
    exact E.
Qed.

Lemma detectDelimiter_candidates_witness :
  let lines := [u "date,total"; u "2024-01-01,5"] in
  Forall (fun l => ~ In 59 l /\ ~ In 9 l) (firstn 10 lines)
  /\ detectDelimiter lines = 44.
Proof.
  intros lines.
  assert (Hs : Forall (fun l => ~ In 59 l /\ ~ In 9 l) (firstn 10 lines))
    by (repeat constructor; vm_compute; intuition discriminate).
  split; [exact Hs|].
  exact (proj2 (detectDelimiter_candidates lines) Hs).
Defined.

Section ParseFacts.
Context {H : Host}.

Lemma rawRows_length (ls : list jsstring) (d : N) (n : nat) (hs : list jsstring) :
  forall i rows ws,
    List.length (fst (rawRows ls i d n hs rows ws))
    = (List.length rows + List.length ls)%nat.
Proof.
  induction ls as [|l ls IH]; intros i rows ws; cbn [rawRows fst List.length].
  - lia.
  - rewrite IH, length_app. cbn. lia.
Qed.

Lemma coerceNumber_value (value : jsval) (fieldName : jsstring) (rowIndex : nat)
    (v : jsval) :
  coerceNumber value fieldName rowIndex = Ok v -> nullOrFinite v = true.
Proof.
  unfold coerceNumber. destruct (isNullish value); [now intros [= <-]|].
  destruct (trim (ToString value)) as [|c r]; [now intros [= <-]|].
  destruct (isFiniteNum (StringToNumber _)) eqn:E; cbn [negb]; [|discriminate].
  now intros [= <-].
Qed.

Lemma canonicalLoop_rows (sn : jsstring) (cmap : list (jsstring * option jsstring))
    (rs : list obj) :
  sn = u "orders" \/ sn = u "weather" ->
  forall i acc ws out ws',
    canonicalLoop sn cmap rs i acc ws = Ok (out, ws') ->
    exists new,
      out = acc ++ new
      /\ List.length new = List.length rs
      /\ Forall (fun row =>
                   Forall (fun f => nullOrFinite (obj_get row f) = true)
                     (numericFields sn)) new.
Proof.
  intros Hsn. induction rs as [|r rs IH]; intros i acc ws out ws' Hrun.
  - cbn in Hrun. injection Hrun as <- <-. exists []. now rewrite app_nil_r.
  - cbn [canonicalLoop] in Hrun. destruct Hsn as [->| ->].
    + change (str_eqb (u "orders") (u "orders")) with true in Hrun.
      cbv iota in Hrun.
      destruct (has (column cmap (u "total_orders"))).
      * destruct (coerceNumber _ (u "total_orders") i) as [v|e] eqn:Ev;
          [|discriminate].
        apply IH in Hrun as (new & -> & Hlen & Hall).
        eexists (_ :: new). rewrite <- app_assoc. split; [reflexivity|].
        split; [cbn; lia|]. constructor; [|exact Hall].
        repeat constructor. unfold obj_get, obj_set.
        rewrite assoc_get_set_same. now apply coerceNumber_value in Ev.
      * destruct (has (column cmap (u "order_id")));
          apply IH in Hrun as (new & -> & Hlen & Hall);
          eexists (_ :: new); rewrite <- app_assoc; (split; [reflexivity|]);
          (split; [cbn; lia|]); (constructor; [|exact Hall]);
          repeat constructor; unfold obj_get, obj_set;
          now rewrite assoc_get_set_same.
    + change (str_eqb (u "weather") (u "orders")) with false in Hrun.
      change (str_eqb (u "weather") (u "weather")) with true in Hrun.
      cbv iota in Hrun.
      destruct (coerceNumber _ (u "temperature_c") i) as [t|e] eqn:Et;
        [|discriminate].
      destruct (coerceNumber _ (u "rainfall_mm") i) as [rn|e] eqn:Er;
        [|discriminate].
      destruct (coerceNumber _ (u "humidity_pct") i) as [hm|e] eqn:Eh;
        [|discriminate].
      destruct (coerceNumber _ (u "rain_duration_minutes") i) as [du|e] eqn:Ed;
        [|discriminate].
      apply IH in Hrun as (new & -> & Hlen & Hall).
      eexists (_ :: new). rewrite <- app_assoc. split; [reflexivity|].
      split; [cbn; lia|]. constructor; [|exact Hall].
      apply coerceNumber_value in Et, Er, Eh, Ed.
      unfold obj_get, obj_set.
      repeat constructor;
        repeat (rewrite assoc_get_set_other by (intros E; discriminate E));
        now rewrite assoc_get_set_same.
Qed.

Lemma headers_length (hs : list jsstring) :
  forall st,
    List.length (fst (fold_left headerStep hs st))
    = (List.length (fst st) + List.length hs)%nat.
Proof.
  induction hs as [|h hs IH]; intros [nh seen]; cbn [fold_left List.length fst].
  - lia.
  - rewrite IH. unfold headerStep. cbn [fst]. rewrite length_app. cbn. lia.
Qed.

(** What a successful parse went through. *)
Lemma parseCsvText_Ok (text : jsstring) (opts : options) (p : Parsed) :
  parseCsvText text opts = Ok p ->
  let lines := nonBlankLines text in
  let sn := match sourceName opts with Some s => s | None => u "unknown" end in
  let headerFields := map trim (parseCsvLine (hd [] lines) (delimiter p)) in
  (8 <= List.length lines)%nat
  /\ delimiter p = detectDelimiter lines
  /\ headers p = fst (fold_left headerStep headerFields ([], []))
  /\ (sn = u "orders" \/ sn = u "weather")
  /\ exists schema raw ws,
       requiredBySource sn = Some schema
       /\ (sn = u "orders" ->
           has (pickColumn (headers p) [u "date"; u "order_placed_at"; u "order_placed_at_1"]) = true
           /\ (has (pickColumn (headers p)
                      [u "total_orders"; u "order_count"; u "orders"; u "total"])
               || has (pickColumn (headers p) [u "order_id"])) = true)
       /\ rawRows (tl lines) 1 (delimiter p) (List.length headerFields)
            (headers p) [] [] = (raw, ws)
       /\ canonicalLoop sn
            (map (fun e => (fst e, pickColumn (headers p) (snd e))) schema)
            raw 0 [] ws = Ok (rows p, warnings p).
Proof.
  intros Hp lines sn headerFields.
  unfold parseCsvText in Hp. fold sn in Hp. cbv zeta in Hp.
  assert (Hlines : lines
                   = filter (fun l => (0 <? List.length (trim l))%nat)
                       (map trimEnd (split 10 (trim (normalizeNewlines (stripBom text))))))
    by reflexivity.
  destruct (trim (normalizeNewlines (stripBom text))) as [|c0 cl] eqn:Ecl;
    [discriminate|].
  rewrite <- Hlines in Hp.
  destruct (List.length lines <? 2)%nat eqn:E2; [discriminate|].
  destruct (List.length lines - 1 <? 7)%nat eqn:E7; [discriminate|].
  apply Nat.ltb_ge in E2, E7.
  destruct (rawRows _ _ _ _ _ _ _) as [raw ws] eqn:Eraw.
  destruct (requiredBySource sn) as [schema|] eqn:Eschema; [|discriminate].
  set (cmap := map _ schema) in Hp.
  destruct (_ ++ _ ++ _) as [|m ms] eqn:Emissing; [|discriminate].
  destruct (canonicalLoop sn cmap raw 0 [] ws) as [[crs cws]|e] eqn:Eloop;
    [|discriminate].
  injection Hp as <-. cbn [delimiter headers rows warnings].
  subst headerFields. cbn [delimiter].
  split; [lia|]. split; [reflexivity|]. split; [reflexivity|].
  assert (Hsn : sn = u "orders" \/ sn = u "weather").
  { unfold requiredBySource in Eschema.
    destruct (str_eqb sn (u "orders")) eqn:Eo; [left; now apply str_eqb_eq|].
    destruct (str_eqb sn (u "weather")) eqn:Ew; [right; now apply str_eqb_eq|].
    exfalso. destruct (set_has sn inheritedNames); [|discriminate].
    injection Eschema as <-. subst cmap. cbn in Emissing. discriminate. }
  split; [exact Hsn|].
  exists schema, raw, ws. split; [first [reflexivity|assumption]|].
  split; [|split; first [reflexivity|assumption]].
  intros Eo. rewrite Eo in Eschema. cbn in Eschema. injection Eschema as <-.
  rewrite Eo in Emissing. subst cmap.
  change (str_eqb (u "orders") (u "orders")) with true in Emissing.
  change (str_eqb (u "orders") (u "weather")) with false in Emissing.
  cbn [map ordersSchema fst snd] in Emissing.
  unfold column in Emissing. cbn [assoc_get] in Emissing.
  change (str_eqb (u "date") (u "date")) with true in Emissing.
  change (str_eqb (u "total_orders") (u "date")) with false in Emissing.
  change (str_eqb (u "total_orders") (u "total_orders")) with true in Emissing.
  change (str_eqb (u "order_id") (u "date")) with false in Emissing.
  change (str_eqb (u "order_id") (u "total_orders")) with false in Emissing.
  change (str_eqb (u "order_id") (u "order_id")) with true in Emissing.
  cbv iota in Emissing.
  destruct (has (pickColumn _ [u "date"; _; _])); [|discriminate].
  split; [reflexivity|].
  destruct (has (pickColumn _ [u "total_orders"; _; _; _])); [reflexivity|].
  destruct (has (pickColumn _ [u "order_id"])); [reflexivity|discriminate].
Qed.

End ParseFacts.

(** X5: A successful parse is of an orders or a weather file of at least seven
    data lines; it returns one row per non-blank data line, in which every
    numeric field of the source is [null] or a finite number, one header per
    field of the header line, and a comma, a semicolon or a tab as the
    delimiter. *)
Theorem parseCsvText_success_shape (H : Host) (text : jsstring)
    (opts : options) (p : Parsed) :
  parseCsvText text opts = Ok p ->
  let sn := match sourceName opts with Some s => s | None => u "unknown" end in
  (sn = u "orders" \/ sn = u "weather")
  /\ In (delimiter p) [44; 59; 9]
  /\ List.length (rows p) = (List.length (nonBlankLines text) - 1)%nat
  /\ (7 <= List.length (rows p))%nat
  /\ List.length (headers p)
     = List.length (parseCsvLine (hd [] (nonBlankLines text)) (delimiter p))
  /\ Forall (fun row =>
               Forall (fun f => nullOrFinite (obj_get row f) = true)
                 (numericFields sn)) (rows p).
Proof.
  intros Hp sn.
  destruct (parseCsvText_Ok text opts p Hp)
    as (Hlen & Hd & Hh & Hsn & schema & raw & ws & Hschema & _ & Hraw & Hloop).
  fold sn in Hsn, Hschema, Hloop.
  apply (canonicalLoop_rows sn _ raw Hsn) in Hloop as (new & Hrows & Hnew & Htyped).
  cbn [app] in Hrows. subst new.
  assert (Hrawlen : List.length raw = (List.length (nonBlankLines text) - 1)%nat).
  { pose proof (rawRows_length (tl (nonBlankLines text)) (delimiter p)
                  (List.length (map trim (parseCsvLine (hd [] (nonBlankLines text))
                                            (delimiter p))))
                  (headers p) 1 [] []) as Hl.
    rewrite Hraw in Hl. cbn [fst List.length] in Hl. rewrite Hl.
    destruct (nonBlankLines text); cbn; lia. }
  split; [exact Hsn|]. split.
  { rewrite Hd. apply detectDelimiter_In. }
  split; [congruence|]. split; [lia|]. split; [|exact Htyped].
  rewrite Hh, headers_length. cbn [fst List.length]. now rewrite length_map.
Qed.

Section ShortInput.
Context {H : Host}.

Lemma replaceCrLf_white (s : jsstring) (n : nat) :
  (List.length s <= n)%nat ->
  Forall (fun c => isWhiteSpace c = true) s ->
  Forall (fun c => isWhiteSpace c = true) (replaceCrLf s).
Proof.
  revert s. induction n as [|n IH]; intros s Hn Hs.
  - destruct s; [constructor|cbn in Hn; lia].
  - destruct s as [|c rest]; [constructor|].
    inversion Hs as [|? ? Hc Hrest]; subst. cbn in Hn.
    cbn [replaceCrLf]. destruct rest as [|c' rest'].
    + constructor; [assumption|constructor].
    + assert (Hrest' : Forall (fun c => isWhiteSpace c = true) rest')
        by now inversion Hrest.
      assert (Hgen : Forall (fun c => isWhiteSpace c = true)
                       (c :: replaceCrLf (c' :: rest'))).
      { constructor; [assumption|]. apply IH; [lia|assumption]. }
      destruct c' as [|p]; [exact Hgen|].
      do 4 (destruct p as [p|p|]; try exact Hgen).
      destruct (c =? 13); [|exact Hgen].
      constructor; [reflexivity|]. apply IH; [cbn in *; lia|assumption].
  Qed.

Lemma trimStart_white (s : jsstring) :
  Forall (fun c => isWhiteSpace c = true) s -> trimStart s = [].
Proof.
  induction 1 as [|c s Hc Hs IH]; [reflexivity|]. cbn. now rewrite Hc.
Qed.

Lemma stripBom_cases (text : jsstring) :
  stripBom text = text \/ text = 65279 :: stripBom text.
Proof.
  destruct text as [|c r]; [now left|].
  destruct (N.eqb_spec c 65279) as [->|Hc]; [now right|].
  left. unfold stripBom. destruct c as [|p]; [reflexivity|].
  do 16 (destruct p as [p|p|]; try reflexivity). congruence.
Qed.

Lemma blank_text_cleans_to_nothing (text : jsstring) :
  Forall (fun c => isWhiteSpace c = true) text ->
  trim (normalizeNewlines (stripBom text)) = [].
Proof.
  intros Hw.
  assert (Hb : Forall (fun c => isWhiteSpace c = true) (stripBom text)).
  { destruct (stripBom_cases text) as [->|E]; [exact Hw|].
    rewrite E in Hw. now inversion Hw. }
  apply (replaceCrLf_white _ _ (le_n _)) in Hb.
  unfold trim, normalizeNewlines. rewrite trimStart_white; [reflexivity|].
  unfold replaceCr. apply Forall_map.
  eapply Forall_impl; [|exact Hb]. intros c Hc. cbn beta.
  destruct (c =? 13); [reflexivity|exact Hc].
Qed.

End ShortInput.

Lemma parseCsvText_success_shape_witness :
  exists p,
    parseCsvText (H := ReferenceHost.host) sampleOrdersCsv (mkOptions (Some (u "orders")))
    = Ok p
    /\ List.length (rows p) = 8%nat
    /\ List.length (rows p) = (List.length (nonBlankLines sampleOrdersCsv) - 1)%nat
    /\ Forall (fun row =>
                 Forall (fun f => nullOrFinite (obj_get row f) = true)
                   (numericFields (u "orders"))) (rows p).
Proof.
  eexists. split; [vm_compute; reflexivity|].
  split; [reflexivity|].
  refine ((fun Hs => conj (proj1 (proj2 (proj2 Hs)))
                         (proj2 (proj2 (proj2 (proj2 (proj2 Hs))))))
            (parseCsvText_success_shape ReferenceHost.host sampleOrdersCsv
               (mkOptions (Some (u "orders"))) _ _)).
  vm_compute; reflexivity.
Defined.

(** X6: A text of white space only (a byte-order mark included) is rejected as
    empty, and a text of fewer than eight non-blank lines is rejected as
    empty or as too short, whatever the source name: the schema is looked at
    only after the row count. *)
Theorem parseCsvText_short_input (H : Host) (text : jsstring) (opts : options) :
  (Forall (fun c => isWhiteSpace c = true) text ->
   parseCsvText text opts
   = Fail (makeError (u "CSV_EMPTY") (u "CSV content is empty.") NoDetails))
  /\ ((List.length (nonBlankLines text) < 8)%nat ->
      exists e,
        parseCsvText text opts = Fail e
        /\ (code e = u "CSV_EMPTY"
            \/ (code e = u "CSV_TOO_FEW_ROWS"
                /\ error_details e
                   = DRows (List.length (nonBlankLines text) - 1)))).
Proof.
  split.
  - intros Hw. unfold parseCsvText.
    now rewrite (blank_text_cleans_to_nothing text Hw).
  - intros Hlen. unfold parseCsvText. unfold nonBlankLines in *.
    destruct (trim (normalizeNewlines (stripBom text))) as [|c0 cl].
    + eexists. split; [reflexivity|]. now left.
    + cbv zeta.
      set (lines := filter _ _) in *.
      destruct (List.length lines <? 2)%nat eqn:E2.
      * eexists. split; [reflexivity|]. now left.
      * replace (List.length lines - 1 <? 7)%nat with true
          by (symmetry; apply Nat.ltb_lt; lia).
        eexists. split; [reflexivity|]. right. now split.
Qed.

Section InferredCounts.
Context {H : Host}.

Lemma orders_loop_infers (cmap : list (jsstring * option jsstring)) (c : jsstring) :
  column cmap (u "total_orders") = None ->
  column cmap (u "order_id") = Some c ->
  forall rs i acc ws,
    canonicalLoop (u "orders") cmap rs i acc ws
    = Ok (acc ++ map (fun r =>
                        obj_set (obj_set r (u "date") (cell r (column cmap (u "date"))))
                          (u "total_orders") (JNum (ofZ 1))) rs,
          ws ++ match rs, i with
                | _ :: _, O => [inferredCountWarning]
                | _, _ => []
                end).
Proof.
  intros Ht Hid. induction rs as [|r rs IH]; intros i acc ws.
  - cbn. now rewrite !app_nil_r.
  - cbn [canonicalLoop]. change (str_eqb (u "orders") (u "orders")) with true.
    cbv iota. rewrite Ht, Hid. cbn [has]. cbv iota.
    rewrite IH. cbn [map]. rewrite <- !app_assoc. cbn [app].
    f_equal. f_equal.
    destruct i; cbn [Nat.eqb]; [|now destruct rs].
    rewrite <- app_assoc. destruct rs; reflexivity.
Qed.

End InferredCounts.

(** X7: An orders file with an [order_id] column and none of the count columns
    parses with [total_orders] set to 1 in every row, and the warning that the
    counts were inferred is the last one. *)
Theorem orders_counts_inferred_from_order_id (H : Host) (text : jsstring)
    (p : Parsed) :
  parseCsvText text (mkOptions (Some (u "orders"))) = Ok p ->
  pickColumn (headers p)
    [u "total_orders"; u "order_count"; u "orders"; u "total"] = None ->
  Forall (fun row => obj_get row (u "total_orders") = JNum (ofZ 1)) (rows p)
  /\ exists ws, warnings p = ws ++ [inferredCountWarning].
Proof.
  intros Hp Hcount.
  destruct (parseCsvText_Ok text _ p Hp)
    as (Hlen & Hd & Hh & Hsn & schema & raw & ws & Hschema & Hcols & Hraw & Hloop).
  cbn [sourceName] in *. cbn in Hschema. injection Hschema as <-.
  destruct (Hcols eq_refl) as [_ Hone]. rewrite Hcount in Hone. cbn [has orb] in Hone.
  destruct (pickColumn (headers p) [u "order_id"]) as [c|] eqn:Eid; [|discriminate].
  rewrite (orders_loop_infers _ c) in Hloop.
  - injection Hloop as Hrows Hws. cbn [app] in Hrows. split.
    + rewrite <- Hrows. apply Forall_forall. intros row Hin.
      apply in_map_iff in Hin as (r & <- & _).
      unfold obj_get, obj_set. now rewrite assoc_get_set_same.
    + exists ws. rewrite <- Hws.
      assert (Hrawlen : List.length raw = (List.length (nonBlankLines text) - 1)%nat).
      { pose proof (rawRows_length (tl (nonBlankLines text)) (delimiter p)
                      (List.length (map trim (parseCsvLine (hd [] (nonBlankLines text))
                                                (delimiter p))))
                      (headers p) 1 [] []) as Hl.
        rewrite Hraw in Hl. cbn [fst List.length] in Hl. rewrite Hl.
        destruct (nonBlankLines text); cbn; lia. }
      destruct raw; [cbn in Hrawlen; lia|reflexivity].
  - unfold column. cbn [map ordersSchema fst snd assoc_get].
    change (str_eqb (u "total_orders") (u "date")) with false.
    change (str_eqb (u "total_orders") (u "total_orders")) with true.
    cbv iota. exact Hcount.
  - unfold column. cbn [map ordersSchema fst snd assoc_get].
    change (str_eqb (u "order_id") (u "date")) with false.
    change (str_eqb (u "order_id") (u "total_orders")) with false.
    change (str_eqb (u "order_id") (u "order_id")) with true.
    cbv iota. exact Eid.
Qed.

Lemma parseCsvText_short_input_witness :
  let text := join [10] [u "date,total_orders"; u "2024-01-01,5"; u "2024-01-02,6"] in
  (List.length (nonBlankLines text) < 8)%nat
  /\ exists e,
       parseCsvText (H := ReferenceHost.host) text (mkOptions (Some (u "orders"))) = Fail e
       /\ (code e = u "CSV_EMPTY"
           \/ (code e = u "CSV_TOO_FEW_ROWS"
               /\ error_details e = DRows (List.length (nonBlankLines text) - 1))).
Proof.
  intros text.
  assert (Hlen : (List.length (nonBlankLines text) < 8)%nat) by (vm_compute; lia).
  split; [exact Hlen|].
  exact (proj2 (parseCsvText_short_input ReferenceHost.host text
                  (mkOptions (Some (u "orders")))) Hlen).
Defined.

Lemma orders_counts_inferred_from_order_id_witness :
  exists p,
    parseCsvText (H := ReferenceHost.host) sampleOrderIdsCsv (mkOptions (Some (u "orders")))
    = Ok p
    /\ pickColumn (headers p)
         [u "total_orders"; u "order_count"; u "orders"; u "total"] = None
    /\ Forall (fun row => obj_get row (u "total_orders") = JNum (ofZ 1)) (rows p).
Proof.
  eexists. split; [vm_compute; reflexivity|].
  split; [vm_compute; reflexivity|].
  refine (proj1 (orders_counts_inferred_from_order_id ReferenceHost.host
                   sampleOrderIdsCsv _ _ _)).
  - vm_compute; reflexivity.
  - vm_compute; reflexivity.
Defined.

End ParsedTables.


(** ** The failures of the parser *)

Section ParseFailures.
Import Js.
Local Open Scope N_scope.
Import Statements CsvParser.

Section ParseFailures.
Context {H : Host}.

Lemma coerceNumber_Fail (v : jsval) (f : jsstring) (i : nat) (e : error) :
  coerceNumber v f i = Fail e ->
  code e = u "CSV_INVALID_NUMBER"
  /\ exists s, error_details e = DField f i s /\ s <> []
               /\ isFiniteNum (StringToNumber (removeCommas s)) = false.
Proof.
  unfold coerceNumber. destruct (isNullish v); [discriminate|].
  destruct (trim (ToString v)) as [|c s] eqn:Es; [discriminate|]. cbv zeta.
  destruct (isFiniteNum (StringToNumber (removeCommas (c :: s)))) eqn:Ef;
    cbn [negb]; [discriminate|].
  intros [= <-]. split; [reflexivity|]. exists (c :: s).
  split; [reflexivity|]. split; [discriminate|exact Ef].
Qed.

Lemma canonicalLoop_Fail (sn : jsstring) (cmap : list (jsstring * option jsstring))
    (rs : list obj) :
  forall i acc ws e,
    canonicalLoop sn cmap rs i acc ws = Fail e ->
    code e = u "CSV_INVALID_NUMBER"
    /\ (sn = u "orders" \/ sn = u "weather")
    /\ exists field k s,
         error_details e = DField field k s
         /\ (i <= k < i + List.length rs)%nat
         /\ In field (numericFields sn)
         /\ s <> [] /\ isFiniteNum (StringToNumber (removeCommas s)) = false.
Proof.
  induction rs as [|r rs IH]; intros i acc ws e Hf; [discriminate|].
  cbn [canonicalLoop] in Hf. unfold numericFields.
  assert (Hnext : forall acc' ws',
            canonicalLoop sn cmap rs (S i) acc' ws' = Fail e ->
            code e = u "CSV_INVALID_NUMBER"
            /\ (sn = u "orders" \/ sn = u "weather")
            /\ exists field k s,
                 error_details e = DField field k s
                 /\ (i <= k < i + List.length (r :: rs))%nat
                 /\ In field (numericFields sn)
                 /\ s <> [] /\ isFiniteNum (StringToNumber (removeCommas s)) = false).
  { intros acc' ws' Hn. destruct (IH _ _ _ _ Hn) as (Hc & Hs & f & k & s & Hd & Hk & Hrest).
    split; [exact Hc|]. split; [exact Hs|]. exists f, k, s.
    split; [exact Hd|]. split; [cbn [List.length]; lia|exact Hrest]. }
  unfold numericFields in Hnext.
  assert (Hhere : forall v f,
            coerceNumber v f i = Fail e ->
            In f (if str_eqb sn (u "orders") then [u "total_orders"]
                  else [u "temperature_c"; u "rainfall_mm"; u "humidity_pct";
                        u "rain_duration_minutes"]) ->
            (sn = u "orders" \/ sn = u "weather") ->
            code e = u "CSV_INVALID_NUMBER"
            /\ (sn = u "orders" \/ sn = u "weather")
            /\ exists field k s,
                 error_details e = DField field k s
                 /\ (i <= k < i + List.length (r :: rs))%nat
                 /\ In field (if str_eqb sn (u "orders") then [u "total_orders"]
                              else [u "temperature_c"; u "rainfall_mm"; u "humidity_pct";
                                    u "rain_duration_minutes"])
                 /\ s <> [] /\ isFiniteNum (StringToNumber (removeCommas s)) = false).
  { intros v f Hc Hin Hsn. destruct (coerceNumber_Fail _ _ _ _ Hc) as (Hcode & s & Hd & Hrest).
    split; [exact Hcode|]. split; [exact Hsn|]. exists f, i, s.
    split; [exact Hd|]. split; [cbn [List.length]; lia|]. split; [exact Hin|exact Hrest]. }
  destruct (str_eqb sn (u "orders")) eqn:Eo.
  - apply str_eqb_eq in Eo.
    destruct (has (column cmap (u "total_orders"))).
    + destruct (coerceNumber _ (u "total_orders") i) as [v|e'] eqn:Ec.
      * now apply Hnext in Hf.
      * injection Hf as ->. apply (Hhere _ _ Ec); [now left|now left].
    + destruct (has (column cmap (u "order_id"))); now apply Hnext in Hf.
  - destruct (str_eqb sn (u "weather")) eqn:Ew; [|now apply IH in Hf as (_ & [E|E] & _);
      [apply str_eqb_neq in Eo|apply str_eqb_neq in Ew]].
    apply str_eqb_eq in Ew. cbv zeta in Hf.
    destruct (coerceNumber _ (u "temperature_c") i) as [v1|e'] eqn:E1.
    2:{ injection Hf as ->. apply (Hhere _ _ E1); [now left|now right]. }
    destruct (coerceNumber _ (u "rainfall_mm") i) as [v2|e'] eqn:E2.
    2:{ injection Hf as ->. apply (Hhere _ _ E2); [right; now left|now right]. }
    destruct (coerceNumber _ (u "humidity_pct") i) as [v3|e'] eqn:E3.
    2:{ injection Hf as ->. apply (Hhere _ _ E3); [right; right; now left|now right]. }
    destruct (coerceNumber _ (u "rain_duration_minutes") i) as [v4|e'] eqn:E4.
    2:{ injection Hf as ->. apply (Hhere _ _ E4); [right; right; right; now left|now right]. }
    now apply Hnext in Hf.
Qed.

End ParseFailures.

(** X8: Every failure of the parser is one of five: the text is empty or has a
    header only; it has fewer than seven data lines; the source name is
    neither [orders] nor [weather]; a required column is missing, with the
    headers found as details; or a numeric field does not read as a finite
    number, and then the details name a numeric field of the source, the
    index of a data row of the file and the text that failed. *)
Theorem parseCsvText_failures (H : Host) (text : jsstring) (opts : options)
    (e : error) :
  parseCsvText text opts = Fail e ->
  let sn := match sourceName opts with Some s => s | None => u "unknown" end in
  let n := List.length (nonBlankLines text) in
  (code e = u "CSV_EMPTY" /\ (n < 2)%nat /\ error_details e = NoDetails)
  \/ (code e = u "CSV_TOO_FEW_ROWS" /\ (2 <= n < 8)%nat
      /\ error_details e = DRows (n - 1))
  \/ (code e = u "CSV_UNKNOWN_SCHEMA" /\ (8 <= n)%nat
      /\ sn <> u "orders" /\ sn <> u "weather")
  \/ (code e = u "MISSING_REQUIRED_COLUMN" /\ (8 <= n)%nat
      /\ exists hs, error_details e = DDetectedHeaders hs)
  \/ (code e = u "CSV_INVALID_NUMBER" /\ (8 <= n)%nat
      /\ (sn = u "orders" \/ sn = u "weather")
      /\ exists field k s,
           error_details e = DField field k s
           /\ (k < n - 1)%nat
           /\ In field (numericFields sn)
           /\ s <> [] /\ isFiniteNum (StringToNumber (removeCommas s)) = false).
Proof.
  intros Hp sn n. unfold parseCsvText in Hp. fold sn in Hp. cbv zeta in Hp.
  assert (Hlines : nonBlankLines text
                   = filter (fun l => (0 <? List.length (trim l))%nat)
                       (map trimEnd (split 10 (trim (normalizeNewlines (stripBom text))))))
    by reflexivity.
  destruct (trim (normalizeNewlines (stripBom text))) as [|c0 cl] eqn:Ecl.
  { injection Hp as <-. left. split; [reflexivity|]. split; [|reflexivity].
    unfold n. rewrite Hlines. cbn. lia. }
  rewrite <- Hlines in Hp. fold n in Hp.
  destruct (n <? 2)%nat eqn:E2.
  { injection Hp as <-. left. apply Nat.ltb_lt in E2. now repeat split. }
  destruct (n - 1 <? 7)%nat eqn:E7.
  { injection Hp as <-. right. left. apply Nat.ltb_ge in E2. apply Nat.ltb_lt in E7.
    split; [reflexivity|]. split; [lia|reflexivity]. }
  apply Nat.ltb_ge in E2, E7.
  destruct (rawRows _ _ _ _ _ _ _) as [raw ws] eqn:Eraw.
  assert (Hrawlen : List.length raw = (n - 1)%nat).
  { match type of Eraw with rawRows ?dl ?i ?d ?nh ?hs ?r0 ?w0 = _ =>
      pose proof (rawRows_length dl d nh hs i r0 w0) as Hl end.
    rewrite Eraw in Hl. cbn [fst List.length] in Hl. rewrite Hl.
    unfold n. destruct (nonBlankLines text); cbn; lia. }
  destruct (requiredBySource sn) as [schema|] eqn:Eschema.
  2:{ injection Hp as <-. right. right. left. split; [reflexivity|]. split; [lia|].
      unfold requiredBySource in Eschema.
      destruct (str_eqb sn (u "orders")) eqn:Eo; [discriminate|].
      destruct (str_eqb sn (u "weather")) eqn:Ew; [discriminate|].
      split; now apply str_eqb_neq. }
  set (cmap := map _ schema) in Hp.
  destruct (_ ++ _ ++ _) as [|m ms] eqn:Emissing.
  2:{ injection Hp as <-. right. right. right. left.
      split; [reflexivity|]. split; [lia|]. eexists. reflexivity. }
  destruct (canonicalLoop sn cmap raw 0 [] ws) as [[crs cws]|e'] eqn:Eloop;
    [discriminate|].
  injection Hp as ->. right. right. right. right.
  destruct (canonicalLoop_Fail _ _ _ _ _ _ _ Eloop)
    as (Hc & Hs & f & k & s & Hd & Hk & Hrest).
  split; [exact Hc|]. split; [lia|]. split; [exact Hs|].
  exists f, k, s. split; [exact Hd|]. split; [lia|exact Hrest].
Qed.

Lemma parseCsvText_failures_witness :
  exists e,
    parseCsvText (H := ReferenceHost.host) sampleWeatherCsv (mkOptions (Some (u "orders")))
    = Fail e
    /\ code e = u "MISSING_REQUIRED_COLUMN"
    /\ exists hs, error_details e = DDetectedHeaders hs.
Proof.
  set (e := makeError (u "MISSING_REQUIRED_COLUMN")
              (u "Missing required columns for orders: total_orders (or order_id to infer counts).")
              (DDetectedHeaders [u "date"; u "temperature"; u "rainfall"; u "humidity"])).
  assert (Hf : parseCsvText (H := ReferenceHost.host) sampleWeatherCsv
                 (mkOptions (Some (u "orders"))) = Fail e)
    by (vm_compute; reflexivity).
  exists e. split; [exact Hf|].
  pose proof (parseCsvText_failures ReferenceHost.host sampleWeatherCsv
                (mkOptions (Some (u "orders"))) e Hf) as Hk.
  cbv zeta in Hk.
  destruct Hk as [(Hc & _)|[(Hc & _)|[(Hc & _)|[(Hc & _ & Hd)|(Hc & _)]]]].
  - discriminate Hc.
  - discriminate Hc.
  - discriminate Hc.
  - split; [exact Hc|exact Hd].
  - discriminate Hc.
Defined.

End ParseFailures.


(** ** Texts of the ISO pattern *)

Section IsoDateTexts.
Import Js.
Local Open Scope N_scope.
Import DateNormalizer.

Section IsoDates.
Context {H : Host}.

Lemma split_digits (ds rest : jsstring) :
  forallb isDigit ds = true ->
  split 45 (ds ++ 45 :: rest) = ds :: split 45 rest.
Proof.
  induction ds as [|c ds IH]; intros Hd.
  - reflexivity.
  - cbn [forallb] in Hd. apply andb_true_iff in Hd as [Hc Hd].
    cbn [app split]. rewrite (IH Hd).
    apply isDigit_range in Hc.
    replace (c =? 45) with false by (symmetry; apply N.eqb_neq; lia).
    reflexivity.
Qed.

Lemma split_digits_last (ds : jsstring) :
  forallb isDigit ds = true -> split 45 ds = [ds].
Proof.
  induction ds as [|c ds IH]; intros Hd; [reflexivity|].
  cbn [forallb] in Hd. apply andb_true_iff in Hd as [Hc Hd].
  cbn [split]. rewrite (IH Hd). apply isDigit_range in Hc.
  replace (c =? 45) with false by (symmetry; apply N.eqb_neq; lia).
  reflexivity.
Qed.

(** Two and four digits print back as they were read. *)
Lemma two_digits_print (a b : N) :
  isDigit a = true -> isDigit b = true ->
  padStart0 2 (numToString (StringToNumber [a; b])) = [a; b].
Proof.
  intros Ha Hb.
  assert (Hall : forallb (fun a => forallb (fun b =>
                   str_eqb (padStart0 2 (numToString (StringToNumber [a; b]))) [a; b])
                   [48; 49; 50; 51; 52; 53; 54; 55; 56; 57])
                   [48; 49; 50; 51; 52; 53; 54; 55; 56; 57] = true)
    by (vm_compute; reflexivity).
  apply isDigit_cases in Ha, Hb.
  rewrite forallb_forall in Hall. specialize (Hall a Ha).
  rewrite forallb_forall in Hall. specialize (Hall b Hb).
  now apply str_eqb_eq.
Qed.

Lemma four_digits_print (a b c d : N) :
  isDigit a = true -> isDigit b = true -> isDigit c = true -> isDigit d = true ->
  padStart0 4 (numToString (StringToNumber [a; b; c; d])) = [a; b; c; d].
Proof.
  intros Ha Hb Hc Hd.
  assert (Hall : forallb (fun a => forallb (fun b => forallb (fun c => forallb (fun d =>
                   str_eqb (padStart0 4 (numToString (StringToNumber [a; b; c; d])))
                     [a; b; c; d])
                   [48; 49; 50; 51; 52; 53; 54; 55; 56; 57])
                   [48; 49; 50; 51; 52; 53; 54; 55; 56; 57])
                   [48; 49; 50; 51; 52; 53; 54; 55; 56; 57])
                   [48; 49; 50; 51; 52; 53; 54; 55; 56; 57] = true)
    by (vm_compute; reflexivity).
  apply isDigit_cases in Ha, Hb, Hc, Hd.
  rewrite forallb_forall in Hall. specialize (Hall a Ha).
  rewrite forallb_forall in Hall. specialize (Hall b Hb).
  rewrite forallb_forall in Hall. specialize (Hall c Hc).
  rewrite forallb_forall in Hall. specialize (Hall d Hd).
  now apply str_eqb_eq.
Qed.

Lemma matchIsoDate_shape (raw : jsstring) :
  matchIsoDate raw = true ->
  exists y1 y2 y3 y4 m1 m2 d1 d2,
    raw = [y1; y2; y3; y4; 45; m1; m2; 45; d1; d2]
    /\ forallb isDigit [y1; y2; y3; y4; m1; m2; d1; d2] = true.
Proof.
  unfold matchIsoDate.
  destruct raw as [|y1 [|y2 [|y3 [|y4 [|s1 [|m1 [|m2 [|s2 [|d1 [|d2 [|x r]]]]]]]]]]];
    try discriminate.
  intros Hm. apply andb_true_iff in Hm as [Hm Hs2].
  apply andb_true_iff in Hm as [Hm Hs1].
  apply N.eqb_eq in Hs1, Hs2. subst.
  now exists y1, y2, y3, y4, m1, m2, d1, d2.
Qed.

Lemma iso_parts_print (y1 y2 y3 y4 m1 m2 d1 d2 : N) :
  forallb isDigit [y1; y2; y3; y4; m1; m2; d1; d2] = true ->
  let raw := [y1; y2; y3; y4; 45; m1; m2; 45; d1; d2] in
  let parts := split 45 raw in
  toIsoDateFromParts (nthNum 0 parts) (nthNum 1 parts) (nthNum 2 parts) = raw.
Proof.
  intros Hd raw parts. cbn [forallb] in Hd.
  repeat (apply andb_true_iff in Hd as [? Hd]).
  assert (Hparts : parts = [[y1; y2; y3; y4]; [m1; m2]; [d1; d2]]).
  { unfold parts, raw.
    change [y1; y2; y3; y4; 45; m1; m2; 45; d1; d2]
      with ([y1; y2; y3; y4] ++ 45 :: [m1; m2] ++ 45 :: [d1; d2]).
    rewrite split_digits by (cbn; now rewrite ?andb_true_iff).
    rewrite split_digits by (cbn; now rewrite ?andb_true_iff).
    rewrite split_digits_last by (cbn; now rewrite ?andb_true_iff).
    reflexivity. }
  rewrite Hparts. unfold toIsoDateFromParts, pad2, nthNum. cbn [nth_error].
  rewrite four_digits_print, !two_digits_print by assumption.
  reflexivity.
Qed.

End IsoDates.

End IsoDateTexts.


(** ** Day numbers and calendar dates *)

(** Linear arithmetic with divisions by constants. *)
Ltac lia_div := Z.div_mod_to_equations; lia.

(** Replaces the entries of the table of days before a month by their
    values. *)
Ltac table_values :=
  repeat match goal with
         | |- context [daysBeforeMonth ?b ?k] =>
             let v := eval vm_compute in (daysBeforeMonth b k) in
             change (daysBeforeMonth b k) with v
         | H : context [daysBeforeMonth ?b ?k] |- _ =>
             let v := eval vm_compute in (daysBeforeMonth b k) in
             change (daysBeforeMonth b k) with v in H
         end.

Section Calendar.
Import Js.
Local Open Scope Z_scope.

Lemma isLeap_cases (y : Z) :
  (isLeap y = true /\ y mod 4 = 0 /\ (y mod 100 <> 0 \/ y mod 400 = 0))
  \/ (isLeap y = false /\ (y mod 4 <> 0 \/ (y mod 100 = 0 /\ y mod 400 <> 0))).
Proof.
  unfold isLeap.
  destruct (Z.eqb_spec (y mod 4) 0); destruct (Z.eqb_spec (y mod 100) 0);
    destruct (Z.eqb_spec (y mod 400) 0); cbn; intuition lia.
Qed.

Lemma small_cases (k : Z) :
  0 <= k <= 11 ->
  k = 0 \/ k = 1 \/ k = 2 \/ k = 3 \/ k = 4 \/ k = 5 \/ k = 6 \/ k = 7
  \/ k = 8 \/ k = 9 \/ k = 10 \/ k = 11.
Proof. lia. Qed.

(** Days before a month, counted in a year that starts in March. *)
Lemma daysBeforeMonth_march (leap : bool) (mp : Z) :
  0 <= mp <= 11 ->
  daysBeforeMonth leap (if mp <? 10 then mp + 2 else mp - 10)
  = if mp <? 10 then (153 * mp + 2) / 5 + 59 + (if leap then 1 else 0)
    else (153 * mp + 2) / 5 - 306.
Proof.
  intros Hmp. apply small_cases in Hmp.
  repeat (destruct Hmp as [->|Hmp]); try subst mp; destruct leap; reflexivity.
Qed.

Lemma daysInMonth_march (y mp : Z) :
  0 <= mp <= 11 ->
  ReferenceHost.daysInMonth y (if mp <? 10 then mp + 3 else mp - 9)
  = if mp =? 11 then (if isLeap y then 29 else 28)
    else (153 * (mp + 1) + 2) / 5 - (153 * mp + 2) / 5.
Proof.
  intros Hmp. apply small_cases in Hmp.
  repeat (destruct Hmp as [->|Hmp]); try subst mp; reflexivity.
Qed.

(** The year, month and day of a day number name that day, and are a
    calendar date. *)
Lemma civil_inverse (z : Z) :
  let '(y, mi, d) := civilFromDays z in
  0 <= mi <= 11 /\ 1 <= d <= ReferenceHost.daysInMonth y (mi + 1)
  /\ MakeDay y mi d = z.
Proof.
  unfold civilFromDays.
  set (z' := z + 719468).
  set (era := z' / 146097).
  set (doe := z' - era * 146097).
  set (yoe := (doe - doe / 1460 + doe / 36524 - doe / 146096) / 365).
  set (doy := doe - (365 * yoe + yoe / 4 - yoe / 100)).
  set (mp := (5 * doy + 2) / 153).
  set (m := if mp <? 10 then mp + 3 else mp - 9).
  set (y := yoe + era * 400 + (if m <=? 2 then 1 else 0)).
  set (d := doy - (153 * mp + 2) / 5 + 1).
  assert (Hdoe : 0 <= doe < 146097) by (subst doe era; lia_div).
  assert (Hyoe : 0 <= yoe <= 399 /\ 0 <= doy <= 365) by (subst doy yoe; lia_div).
  assert (Hmp : 0 <= mp <= 11) by (subst mp; lia_div).
  assert (Hmi : m - 1 = if mp <? 10 then mp + 2 else mp - 10)
    by (subst m; destruct (mp <? 10); lia).
  assert (Hm1 : m - 1 + 1 = if mp <? 10 then mp + 3 else mp - 9)
    by (subst m; destruct (mp <? 10); lia).
  assert (Hrange : 0 <= m - 1 <= 11)
    by (rewrite Hmi; destruct (Z.ltb_spec mp 10); lia).
  split; [exact Hrange|].
  unfold MakeDay.
  replace ((m - 1) / 12) with 0 by lia_div.
  replace ((m - 1) mod 12) with (m - 1) by lia_div.
  rewrite Z.add_0_r, Hm1, Hmi.
  rewrite daysInMonth_march, daysBeforeMonth_march by exact Hmp.
  unfold DayFromYear.
  assert (Hy : y = yoe + era * 400 + (if mp <? 10 then 0 else 1)).
  { subst y m. destruct (Z.ltb_spec mp 10).
    - replace (mp + 3 <=? 2) with false by lia. reflexivity.
    - replace (mp - 9 <=? 2) with true by lia. reflexivity. }
  assert (Eera : era = z' / 146097) by reflexivity.
  assert (Edoe : doe = z' - era * 146097) by reflexivity.
  assert (Eyoe : yoe = (doe - doe / 1460 + doe / 36524 - doe / 146096) / 365)
    by reflexivity.
  assert (Edoy : doy = doe - (365 * yoe + yoe / 4 - yoe / 100)) by reflexivity.
  assert (Emp : mp = (5 * doy + 2) / 153) by reflexivity.
  assert (Ed : d = doy - (153 * mp + 2) / 5 + 1) by reflexivity.
  assert (Ez : z' = z + 719468) by reflexivity.
  clearbody z' era doe yoe doy mp m y d.
  destruct (isLeap_cases y) as [[-> Hl]|[-> Hl]];
    destruct (Z.ltb_spec mp 10); destruct (Z.eqb_spec mp 11);
    lia_div.
Qed.

Lemma MakeDay_valid (y mi d : Z) :
  0 <= mi <= 11 ->
  MakeDay y mi d = DayFromYear y + daysBeforeMonth (isLeap y) mi + d - 1.
Proof.
  intros Hmi. unfold MakeDay.
  replace (mi / 12) with 0 by lia_div.
  replace (mi mod 12) with mi by lia_div.
  now rewrite Z.add_0_r.
Qed.

Lemma DayFromYear_next (y : Z) :
  DayFromYear (y + 1) = DayFromYear y + 365 + (if isLeap y then 1 else 0).
Proof.
  unfold DayFromYear. destruct (isLeap_cases y) as [[-> Hl]|[-> Hl]]; lia_div.
Qed.

Lemma DayFromYear_mono (y y' : Z) : y <= y' -> DayFromYear y <= DayFromYear y'.
Proof. unfold DayFromYear. intros Hy. lia_div. Qed.

Lemma dayOfYear_bounds (y mi d : Z) :
  validDate y mi d ->
  0 <= daysBeforeMonth (isLeap y) mi + d - 1 <= 364 + (if isLeap y then 1 else 0).
Proof.
  intros [Hmi Hd]. apply small_cases in Hmi.
  unfold ReferenceHost.daysInMonth in Hd.
  repeat (destruct Hmi as [->|Hmi]); try subst mi;
    destruct (isLeap y); cbn in Hd; table_values; lia.
Qed.

Lemma dayOfYear_inj (leap : bool) (y mi d mi' d' : Z) :
  isLeap y = leap ->
  validDate y mi d -> validDate y mi' d' ->
  daysBeforeMonth leap mi + d = daysBeforeMonth leap mi' + d' ->
  mi = mi' /\ d = d'.
Proof.
  intros Hleap [Hmi Hd] [Hmi' Hd'] E.
  unfold ReferenceHost.daysInMonth in Hd, Hd'. rewrite Hleap in Hd, Hd'.
  apply small_cases in Hmi. apply small_cases in Hmi'.
  repeat (destruct Hmi as [->|Hmi]); try subst mi;
    repeat (destruct Hmi' as [->|Hmi']); try subst mi';
    destruct leap; cbn in Hd, Hd'; table_values; lia.
Qed.

Lemma MakeDay_inj (y mi d y' mi' d' : Z) :
  validDate y mi d -> validDate y' mi' d' ->
  MakeDay y mi d = MakeDay y' mi' d' ->
  y = y' /\ mi = mi' /\ d = d'.
Proof.
  intros Hv Hv' E.
  pose proof (dayOfYear_bounds y mi d Hv) as Hb.
  pose proof (dayOfYear_bounds y' mi' d' Hv') as Hb'.
  rewrite !MakeDay_valid in E by apply Hv || apply Hv'.
  pose proof (DayFromYear_next y) as Hn. pose proof (DayFromYear_next y') as Hn'.
  assert (Hy : y = y').
  { destruct (Z.lt_trichotomy y y') as [Hlt|[Heq|Hgt]]; [|assumption|].
    - pose proof (DayFromYear_mono (y + 1) y' ltac:(lia)). lia.
    - pose proof (DayFromYear_mono (y' + 1) y ltac:(lia)). lia. }
  subst y'. split; [reflexivity|].
  apply (dayOfYear_inj (isLeap y) y); try assumption; [reflexivity|lia].
Qed.

(** The day number of a calendar date reads back as that date. *)
Lemma civil_of_MakeDay (y mi d : Z) :
  validDate y mi d -> civilFromDays (MakeDay y mi d) = (y, mi, d).
Proof.
  intros Hv. pose proof (civil_inverse (MakeDay y mi d)) as Hc.
  destruct (civilFromDays (MakeDay y mi d)) as [[y' mi'] d'].
  destruct Hc as (Hmi' & Hd' & E).
  destruct (MakeDay_inj y' mi' d' y mi d (conj Hmi' Hd') Hv E) as (-> & -> & ->).
  reflexivity.
Qed.

End Calendar.


(** ** The calendar check of the parsers *)

Section ValidDates.
Import Js. Import Statements.
Local Open Scope Z_scope.
Import DateNormalizer.

Lemma daysBeforeMonth_bounds (leap : bool) (k : Z) :
  0 <= daysBeforeMonth leap k <= 335.
Proof.
  unfold daysBeforeMonth.
  destruct (Z.to_nat k) as [|[|[|[|[|[|[|[|[|[|[|[|n]]]]]]]]]]]];
    destruct leap; cbn; try lia; destruct n; cbn; lia.
Qed.

Lemma MakeDay_bounds (y mi d : Z) :
  -10000 <= y <= 20000 -> -200 <= mi <= 200 -> -10000000 <= d <= 10000000 ->
  Z.abs (MakeDay y mi d) <= 100000000.
Proof.
  intros Hy Hm Hd. unfold MakeDay. cbv zeta.
  pose proof (daysBeforeMonth_bounds (isLeap (y + mi / 12)) (mi mod 12)) as Hb.
  unfold DayFromYear. lia_div.
Qed.

(** The year of a day number within the range of time values. *)
Lemma civil_year_bounds (z : Z) :
  Z.abs z <= 100000000 ->
  let '(y, mi, d) := civilFromDays z in Z.abs y <= 300000.
Proof.
  intros Hz. pose proof (civil_inverse z) as Hc.
  destruct (civilFromDays z) as [[y mi] d]. destruct Hc as (Hmi & Hd & Hmk).
  rewrite MakeDay_valid in Hmk by exact Hmi.
  pose proof (daysBeforeMonth_bounds (isLeap y) mi) as Hb.
  assert (Hdm : ReferenceHost.daysInMonth y (mi + 1) <= 31).
  { unfold ReferenceHost.daysInMonth.
    repeat match goal with |- context [if ?c then _ else _] => destruct c end; lia. }
  unfold DayFromYear in Hmk. lia_div.
Qed.

Lemma safeInt_small (z : Z) : Z.abs z <= 100000000 -> safeInt z.
Proof. unfold safeInt. intros Hz. change (2 ^ 53) with 9007199254740992. lia. Qed.

Lemma MakeDay_small (y mi d : Z) :
  -10000 <= y <= 20000 -> -200 <= mi <= 200 -> -11000000 <= d <= 11000000 ->
  Z.abs (MakeDay y mi d) <= 20000000.
Proof.
  intros Hy Hm Hd. unfold MakeDay. cbv zeta.
  pose proof (daysBeforeMonth_bounds (isLeap (y + mi / 12)) (mi mod 12)) as Hb.
  unfold DayFromYear. lia_div.
Qed.

Section LocalDates.
Context {H : Host}.

Lemma Day_within (z r : Z) : 0 <= r < msPerDay -> Day (MakeDate z r) = z.
Proof.
  intros Hr. unfold Day, MakeDate, msPerDay in *. lia_div.
Qed.

Lemma TimeWithinDay_bounds (t : Z) : 0 <= TimeWithinDay t < msPerDay.
Proof. unfold TimeWithinDay, msPerDay. lia_div. Qed.

(** A local time read as a time value and back lands at most two days
    away, in any time zone. *)
Lemma round_trip_near (t : Z) :
  Day t - 2 <= Day (LocalTime (UTC t)) <= Day t + 2.
Proof.
  unfold LocalTime, UTC, Day.
  pose proof (host_localTZA_bound t false) as H1.
  pose proof (host_localTZA_bound (t - host_localTZA t false) true) as H2.
  unfold msPerDay. lia_div.
Qed.

Lemma UTC_in_range (z r : Z) :
  Z.abs z <= 50000000 -> 0 <= r < msPerDay ->
  timeClip (UTC (MakeDate z r)) = Some (UTC (MakeDate z r)).
Proof.
  intros Hz Hr. unfold timeClip.
  rewrite (proj2 (Z.leb_le _ _)); [reflexivity|].
  unfold UTC, MakeDate, msPerDay in *.
  pose proof (host_localTZA_bound (z * 86400000 + r) false). lia.
Qed.

Lemma newDate_ofZ (y m d : Z) :
  0 <= y <= 9999 -> -1 <= m <= 99 -> -10000000 <= d <= 10000000 ->
  newDate (ofZ y) (ofZ m) (ofZ d)
  = Some (UTC (MakeDate (MakeDay (if y <=? 99 then 1900 + y else y) m d) 0)).
Proof.
  intros Hy Hm Hd. unfold newDate.
  destruct (ofZ_integer y) as (-> & _ & _ & -> & _); [apply safeInt_small; lia|].
  destruct (ofZ_integer m) as (-> & _ & _ & -> & _); [apply safeInt_small; lia|].
  destruct (ofZ_integer d) as (-> & _ & _ & -> & _); [apply safeInt_small; lia|].
  cbn [andb]. replace (0 <=? y) with true by lia. cbn [andb].
  apply UTC_in_range; [|unfold msPerDay; lia].
  pose proof (MakeDay_small (if y <=? 99 then 1900 + y else y) m d) as Hb.
  destruct (y <=? 99); lia.
Qed.

(** What a date reads back as: the calendar date of its local day. *)
Lemma date_fields (t : Z) :
  Z.abs (Day (LocalTime t)) <= 100000000 ->
  let '(y, mi, d) := civilFromDays (Day (LocalTime t)) in
  getFullYear (Some t) = ofZ y /\ getMonth (Some t) = ofZ mi
  /\ getDate (Some t) = ofZ d
  /\ Z.abs y <= 300000 /\ 0 <= mi <= 11 /\ 1 <= d <= 31
  /\ validDate y mi d /\ MakeDay y mi d = Day (LocalTime t).
Proof.
  intros Hz. pose proof (civil_inverse (Day (LocalTime t))) as Hc.
  pose proof (civil_year_bounds _ Hz) as Hy.
  unfold getFullYear, getMonth, getDate.
  destruct (civilFromDays (Day (LocalTime t))) as [[y mi] d].
  destruct Hc as (Hmi & Hd & Hmk).
  assert (Hdm : ReferenceHost.daysInMonth y (mi + 1) <= 31).
  { unfold ReferenceHost.daysInMonth.
    repeat match goal with |- context [if ?c then _ else _] => destruct c end; lia. }
  repeat split; try assumption; lia.
Qed.

End LocalDates.

Lemma century_apart (y mi d mi' d' k : Z) :
  0 <= y <= 99 -> 0 <= mi <= 11 -> 0 <= mi' <= 11 -> 0 <= d <= 99 -> 0 <= d' <= 99 ->
  -2 <= k <= 2 ->
  MakeDay y mi d <> MakeDay (1900 + y) mi' d' + k.
Proof.
  intros Hy Hmi Hmi' Hd Hd' Hk. rewrite !MakeDay_valid by assumption.
  pose proof (daysBeforeMonth_bounds (isLeap y) mi).
  pose proof (daysBeforeMonth_bounds (isLeap (1900 + y)) mi').
  unfold DayFromYear. lia_div.
Qed.

Section CalendarCheck.
Context {H : Host}.

(** [isValidYmd] on whole numbers as the parsers read them (a year of at
    most four digits, a month and a day of at most two): the date is read
    back from the local day of local midnight. *)
Lemma isValidYmd_local_day (y m d : Z) :
  0 <= y <= 9999 -> 0 <= m <= 99 -> 0 <= d <= 99 ->
  let yr := if y <=? 99 then 1900 + y else y in
  isValidYmd (ofZ y) (ofZ m) (ofZ d) = true
  <-> civilFromDays (Day (LocalTime (UTC (MakeDate (MakeDay yr (m - 1) d) 0))))
      = (y, m - 1, d).
Proof.
  intros Hy Hm Hd yr. unfold isValidYmd. cbv zeta. unfold one.
  rewrite fsub_ofZ by (apply safeInt_small; lia).
  rewrite newDate_ofZ by lia. fold yr.
  set (t := UTC (MakeDate (MakeDay yr (m - 1) d) 0)).
  assert (Hz : Z.abs (Day (LocalTime t)) <= 100000000).
  { pose proof (round_trip_near (MakeDate (MakeDay yr (m - 1) d) 0)) as Hn.
    fold t in Hn. rewrite Day_within in Hn by (unfold msPerDay; lia).
    pose proof (MakeDay_small yr (m - 1) d) as Hb.
    subst yr. destruct (y <=? 99); lia. }
  pose proof (date_fields t Hz) as Hf.
  destruct (civilFromDays (Day (LocalTime t))) as [[y' mi'] d'] eqn:Ec.
  destruct Hf as (-> & -> & -> & Hy' & Hmi' & Hd' & Hv & Hmk).
  destruct (compare_ofZ y' y) as (-> & _); [apply safeInt_small; lia..|].
  destruct (compare_ofZ mi' (m - 1)) as (-> & _); [apply safeInt_small; lia..|].
  destruct (compare_ofZ d' d) as (-> & _); [apply safeInt_small; lia..|].
  rewrite !andb_true_iff, !Z.eqb_eq. split.
  - intros [[-> ->] ->]. reflexivity.
  - intros [= -> -> ->]. repeat split.
Qed.

(** In any time zone, what passes [isValidYmd] is a calendar date of a
    year from 100 on. *)
Lemma isValidYmd_sound (y m d : Z) :
  0 <= y <= 9999 -> 0 <= m <= 99 -> 0 <= d <= 99 ->
  isValidYmd (ofZ y) (ofZ m) (ofZ d) = true -> 100 <= y /\ validDate y (m - 1) d.
Proof.
  intros Hy Hm Hd Hv.
  apply isValidYmd_local_day in Hv; try assumption. cbv zeta in Hv.
  set (yr := if y <=? 99 then 1900 + y else y) in *.
  pose proof (round_trip_near (MakeDate (MakeDay yr (m - 1) d) 0)) as Hn.
  rewrite Day_within in Hn by (unfold msPerDay; lia).
  pose proof (civil_inverse
                (Day (LocalTime (UTC (MakeDate (MakeDay yr (m - 1) d) 0))))) as Hc.
  rewrite Hv in Hc. destruct Hc as (Hmi & Hdd & Hmk).
  split; [|split; assumption].
  destruct (Z.leb_spec y 99) as [Hle|Hgt]; [|lia]. exfalso.
  subst yr. revert Hmk.
  set (k := Day (LocalTime (UTC (MakeDate (MakeDay (1900 + y) (m - 1) d) 0)))
            - MakeDay (1900 + y) (m - 1) d) in *.
  replace (Day (LocalTime (UTC (MakeDate (MakeDay (1900 + y) (m - 1) d) 0))))
    with (MakeDay (1900 + y) (m - 1) d + k) by (subst k; lia).
  apply century_apart; lia.
Qed.

(** In a time zone that keeps civil days, [isValidYmd] accepts exactly the
    calendar dates of the years from 100 on. *)
Lemma isValidYmd_ofZ (y m d : Z) :
  keepsCivilDays H ->
  0 <= y <= 9999 -> 0 <= m <= 99 -> 0 <= d <= 99 ->
  isValidYmd (ofZ y) (ofZ m) (ofZ d) = true <-> 100 <= y /\ validDate y (m - 1) d.
Proof.
  intros HC Hy Hm Hd. split; [now apply isValidYmd_sound|].
  intros [Hy100 Hvalid]. apply isValidYmd_local_day; try assumption. cbv zeta.
  replace (y <=? 99) with false by lia.
  rewrite HC, Day_within by (unfold msPerDay; lia).
  now apply civil_of_MakeDay.
Qed.

End CalendarCheck.

(** The reference host, in UTC, keeps civil days. *)
Lemma utc_keeps_civil_days : keepsCivilDays ReferenceHost.host.
Proof.
  intros t. unfold LocalTime, UTC. cbn [host_localTZA ReferenceHost.host].
  f_equal. lia.
Qed.

End ValidDates.


(** ** Date texts and their order *)

Ltac split_unit_order :=
  repeat match goal with
         | |- context [(?x <? ?y)%N] => destruct (N.ltb_spec x y)
         end.

Section DateTexts.
Import Js.
Local Open Scope Z_scope.
Import DateNormalizer.

Lemma daysFrom_In (n : nat) (z x : Z) :
  In x (daysFrom n z) <-> z <= x < z + Z.of_nat n.
Proof.
  revert z. induction n as [|n IH]; intros z; cbn [daysFrom In]; [lia|].
  rewrite IH. lia.
Qed.

Lemma daysFrom_length (n : nat) (z : Z) : List.length (daysFrom n z) = n.
Proof. revert z. induction n as [|n IH]; intros z; cbn; [|rewrite IH]; reflexivity. Qed.

Lemma pad4_read (y : Z) :
  0 <= y <= 9999 ->
  exists a b c d,
    padStart0 4 (intToString y) = [a; b; c; d]
    /\ forallb isDigit [a; b; c; d] = true /\ digitsToZ [a; b; c; d] = y.
Proof.
  intros Hy.
  assert (Hall : forallb (paddedRead 4) (daysFrom (Z.to_nat 10000) 0) = true)
    by (vm_compute; reflexivity).
  rewrite forallb_forall in Hall.
  specialize (Hall y ltac:(apply daysFrom_In; lia)).
  unfold paddedRead in Hall. cbv zeta in Hall.
  apply andb_true_iff in Hall as [Hall Hv]. apply andb_true_iff in Hall as [Hl Hd].
  apply Nat.eqb_eq in Hl. apply Z.eqb_eq in Hv.
  destruct (padStart0 4 (intToString y)) as [|a [|b [|c [|d [|e r]]]]];
    try discriminate.
  now exists a, b, c, d.
Qed.

Lemma pad2_read (y : Z) :
  0 <= y <= 99 ->
  exists a b,
    padStart0 2 (intToString y) = [a; b]
    /\ forallb isDigit [a; b] = true /\ digitsToZ [a; b] = y.
Proof.
  intros Hy.
  assert (Hall : forallb (paddedRead 2) (daysFrom (Z.to_nat 100) 0) = true)
    by (vm_compute; reflexivity).
  rewrite forallb_forall in Hall.
  specialize (Hall y ltac:(apply daysFrom_In; lia)).
  unfold paddedRead in Hall. cbv zeta in Hall.
  apply andb_true_iff in Hall as [Hall Hv]. apply andb_true_iff in Hall as [Hl Hd].
  apply Nat.eqb_eq in Hl. apply Z.eqb_eq in Hv.
  destruct (padStart0 2 (intToString y)) as [|a [|b [|e r]]]; try discriminate.
  now exists a, b.
Qed.

Section IsoTexts.
Context {H : Host}.

Lemma toIso_ofZ (y m d : Z) :
  safeInt y -> safeInt m -> safeInt d ->
  toIsoDateFromParts (ofZ y) (ofZ m) (ofZ d) = isoText y m d.
Proof.
  intros Hy Hm Hd. unfold toIsoDateFromParts, pad2, isoText.
  now rewrite !numToString_ofZ by assumption.
Qed.

(** The parts of a date text as numbers. *)
Lemma isoText_parts (y m d : Z) :
  0 <= y <= 9999 -> 0 <= m <= 99 -> 0 <= d <= 99 ->
  matchIsoDate (isoText y m d) = true
  /\ nthNum 0 (split 45 (isoText y m d)) = ofZ y
  /\ nthNum 1 (split 45 (isoText y m d)) = ofZ m
  /\ nthNum 2 (split 45 (isoText y m d)) = ofZ d.
Proof.
  intros Hy Hm Hd. unfold isoText.
  destruct (pad4_read y Hy) as (y1 & y2 & y3 & y4 & -> & Hyd & Hyv).
  destruct (pad2_read m Hm) as (m1 & m2 & -> & Hmd & Hmv).
  destruct (pad2_read d Hd) as (d1 & d2 & -> & Hdd & Hdv).
  split.
  - change (u "-") with [45%N]. cbn [app].
    unfold matchIsoDate.
    change [y1; y2; y3; y4; m1; m2; d1; d2]
      with ([y1; y2; y3; y4] ++ [m1; m2] ++ [d1; d2]).
    now rewrite !forallb_app, Hyd, Hmd, Hdd.
  - change (u "-") with [45%N]. cbn [app].
    change [y1; y2; y3; y4; 45%N; m1; m2; 45%N; d1; d2]
      with ([y1; y2; y3; y4] ++ 45%N :: [m1; m2] ++ 45%N :: [d1; d2]).
    rewrite !split_digits, split_digits_last by assumption.
    unfold nthNum. cbn [nth_error].
    rewrite !StringToNumber_digits by (assumption || discriminate).
    now rewrite Hyv, Hmv, Hdv.
Qed.

End IsoTexts.

Lemma dayOfYear_lt (leap : bool) (y mi d mi' d' : Z) :
  isLeap y = leap ->
  validDate y mi d -> validDate y mi' d' ->
  mi < mi' ->
  daysBeforeMonth leap mi + d < daysBeforeMonth leap mi' + d'.
Proof.
  intros Hleap [Hmi Hd] [Hmi' Hd'] Hlt.
  unfold ReferenceHost.daysInMonth in Hd, Hd'. rewrite Hleap in Hd, Hd'.
  apply small_cases in Hmi. apply small_cases in Hmi'.
  repeat (destruct Hmi as [->|Hmi]); try subst mi;
    repeat (destruct Hmi' as [->|Hmi']); try subst mi';
    try lia;
    destruct leap; cbn in Hd, Hd'; table_values; lia.
Qed.

Lemma MakeDay_lt (y mi d y' mi' d' : Z) :
  validDate y mi d -> validDate y' mi' d' ->
  dateBefore y mi d y' mi' d' = true ->
  MakeDay y mi d < MakeDay y' mi' d'.
Proof.
  intros Hv Hv' Hlex.
  pose proof (dayOfYear_bounds y mi d Hv) as Hb.
  pose proof (dayOfYear_bounds y' mi' d' Hv') as Hb'.
  rewrite !MakeDay_valid by apply Hv || apply Hv'.
  pose proof (DayFromYear_next y) as Hn.
  unfold dateBefore in Hlex.
  destruct (Z.ltb_spec y y') as [Hy|Hy].
  - pose proof (DayFromYear_mono (y + 1) y' ltac:(lia)). lia.
  - cbn [orb] in Hlex. apply andb_true_iff in Hlex as [Hyy Hlex].
    apply Z.eqb_eq in Hyy. subst y'.
    destruct (Z.ltb_spec mi mi') as [Hm|Hm].
    + pose proof (dayOfYear_lt (isLeap y) y mi d mi' d' eq_refl Hv Hv' Hm). lia.
    + cbn [orb] in Hlex. apply andb_true_iff in Hlex as [Hmm Hlex].
      apply Z.eqb_eq in Hmm. subst mi'. apply Z.ltb_lt in Hlex. lia.
Qed.

Lemma dateBefore_total (y mi d y' mi' d' : Z) :
  dateBefore y mi d y' mi' d' = false ->
  (y, mi, d) = (y', mi', d') \/ dateBefore y' mi' d' y mi d = true.
Proof.
  unfold dateBefore. intros Hlex.
  destruct (Z.ltb_spec y y'); [discriminate|].
  destruct (Z.ltb_spec y' y); [now right|]. assert (y = y') by lia. subst y'.
  rewrite Z.eqb_refl in *. cbn [orb andb] in *.
  destruct (Z.ltb_spec mi mi'); [discriminate|].
  destruct (Z.ltb_spec mi' mi); [now right|]. assert (mi = mi') by lia. subst mi'.
  rewrite Z.eqb_refl in *. cbn [orb andb] in *.
  destruct (Z.ltb_spec d d'); [discriminate|].
  destruct (Z.ltb_spec d' d); [now right|]. left. f_equal. lia.
Qed.

(** Day numbers are ordered as their calendar dates are. *)
Lemma MakeDay_order (y mi d y' mi' d' : Z) :
  validDate y mi d -> validDate y' mi' d' ->
  (MakeDay y mi d <? MakeDay y' mi' d') = dateBefore y mi d y' mi' d'.
Proof.
  intros Hv Hv'. destruct (dateBefore y mi d y' mi' d') eqn:Hlex.
  - apply Z.ltb_lt. now apply MakeDay_lt.
  - apply Z.ltb_ge. destruct (dateBefore_total _ _ _ _ _ _ Hlex) as [E|Hgt].
    + injection E as -> -> ->. lia.
    + pose proof (MakeDay_lt _ _ _ _ _ _ Hv' Hv Hgt). lia.
Qed.

Lemma civil_in_range (z : Z) :
  inIsoRange z ->
  let '(y, mi, d) := civilFromDays z in
  100 <= y <= 9999 /\ validDate y mi d /\ MakeDay y mi d = z.
Proof.
  unfold inIsoRange. intros Hz. pose proof (civil_inverse z) as Hc.
  destruct (civilFromDays z) as [[y mi] d]. destruct Hc as (Hmi & Hd & Hmk).
  assert (Hv : validDate y mi d) by (split; assumption).
  split; [|split; assumption].
  pose proof (dayOfYear_bounds y mi d Hv) as Hb.
  rewrite MakeDay_valid in Hmk by exact Hmi.
  pose proof (DayFromYear_next y) as Hn.
  change (MakeDay 100 0 1) with (DayFromYear 100) in Hz.
  assert (Hhi : MakeDay 9999 11 31 = DayFromYear 10000 - 1) by (vm_compute; reflexivity).
  rewrite Hhi in Hz.
  split.
  - destruct (Z_lt_le_dec y 100) as [Hlt|Hge]; [|exact Hge].
    pose proof (DayFromYear_mono (y + 1) 100 ltac:(lia)). lia.
  - destruct (Z_lt_le_dec 9999 y) as [Hlt|Hge]; [|exact Hge].
    pose proof (DayFromYear_mono 10000 y ltac:(lia)). lia.
Qed.

Lemma MakeDay_in_range (y mi d : Z) :
  100 <= y <= 9999 -> validDate y mi d -> inIsoRange (MakeDay y mi d).
Proof.
  intros Hy Hv. unfold inIsoRange.
  assert (Hlo : validDate 100 0 1) by (vm_compute; intuition discriminate).
  assert (Hhi : validDate 9999 11 31) by (vm_compute; intuition discriminate).
  split.
  - apply Z.ltb_ge. rewrite (MakeDay_order _ _ _ _ _ _ Hv Hlo).
    destruct Hv as [Hmi Hd]. unfold dateBefore.
    destruct (Z.ltb_spec y 100); [lia|]. cbn [orb].
    destruct (Z.eqb_spec y 100); [|reflexivity]. cbn [andb].
    destruct (Z.ltb_spec mi 0); [lia|]. cbn [orb].
    destruct (Z.eqb_spec mi 0); [|reflexivity]. cbn [andb]. apply Z.ltb_ge. lia.
  - apply Z.ltb_ge. rewrite (MakeDay_order _ _ _ _ _ _ Hhi Hv).
    destruct Hv as [Hmi Hd]. unfold dateBefore.
    destruct (Z.ltb_spec 9999 y); [lia|]. cbn [orb].
    destruct (Z.eqb_spec 9999 y); [|reflexivity]. cbn [andb].
    destruct (Z.ltb_spec 11 mi); [lia|]. cbn [orb].
    destruct (Z.eqb_spec 11 mi); [|reflexivity]. cbn [andb]. apply Z.ltb_ge.
    subst mi. unfold ReferenceHost.daysInMonth in Hd. cbn in Hd. lia.
Qed.

(** ** Order of date texts *)

Lemma str_ltb_digits2 (a b a' b' : N) (s t : jsstring) :
  forallb isDigit [a; b] = true -> forallb isDigit [a'; b'] = true ->
  str_ltb ([a; b] ++ s) ([a'; b'] ++ t)
  = (digitsToZ [a; b] <? digitsToZ [a'; b'])
    || ((digitsToZ [a; b] =? digitsToZ [a'; b']) && str_ltb s t).
Proof.
  intros Hd Hd'. cbn [forallb] in Hd, Hd'.
  repeat (apply andb_true_iff in Hd as [? Hd]).
  repeat (apply andb_true_iff in Hd' as [? Hd']).
  repeat match goal with
         | Hx : isDigit _ = true |- _ => apply isDigit_range in Hx
         end.
  cbn [app str_ltb]. unfold digitsToZ. cbn [fold_left].
  split_unit_order;
    match goal with
    | |- _ = (?X <? ?Y) || ((?X =? ?Y) && _) =>
        destruct (Z.ltb_spec X Y); destruct (Z.eqb_spec X Y); try lia; reflexivity
    end.
Qed.

Lemma str_ltb_digits4 (a b c d a' b' c' d' : N) (s t : jsstring) :
  forallb isDigit [a; b; c; d] = true -> forallb isDigit [a'; b'; c'; d'] = true ->
  str_ltb ([a; b; c; d] ++ s) ([a'; b'; c'; d'] ++ t)
  = (digitsToZ [a; b; c; d] <? digitsToZ [a'; b'; c'; d'])
    || ((digitsToZ [a; b; c; d] =? digitsToZ [a'; b'; c'; d']) && str_ltb s t).
Proof.
  intros Hd Hd'. cbn [forallb] in Hd, Hd'.
  repeat (apply andb_true_iff in Hd as [? Hd]).
  repeat (apply andb_true_iff in Hd' as [? Hd']).
  repeat match goal with
         | Hx : isDigit _ = true |- _ => apply isDigit_range in Hx
         end.
  cbn [app str_ltb]. unfold digitsToZ. cbn [fold_left].
  split_unit_order;
    match goal with
    | |- _ = (?X <? ?Y) || ((?X =? ?Y) && _) =>
        destruct (Z.ltb_spec X Y); destruct (Z.eqb_spec X Y); try lia; reflexivity
    end.
Qed.

Lemma str_ltb_cons_same (c : N) (s t : jsstring) :
  str_ltb (c :: s) (c :: t) = str_ltb s t.
Proof. cbn [str_ltb]. now rewrite N.ltb_irrefl. Qed.

Lemma str_ltb_digits2_end (a b a' b' : N) :
  forallb isDigit [a; b] = true -> forallb isDigit [a'; b'] = true ->
  str_ltb [a; b] [a'; b'] = (digitsToZ [a; b] <? digitsToZ [a'; b']).
Proof.
  intros Hd Hd'. pose proof (str_ltb_digits2 a b a' b' [] [] Hd Hd') as E.
  cbn [app] in E. rewrite E. cbn [str_ltb]. now rewrite andb_false_r, orb_false_r.
Qed.

Lemma isoText_order (y m d y' m' d' : Z) :
  0 <= y <= 9999 -> 0 <= m <= 99 -> 0 <= d <= 99 ->
  0 <= y' <= 9999 -> 0 <= m' <= 99 -> 0 <= d' <= 99 ->
  str_ltb (isoText y m d) (isoText y' m' d') = dateBefore y m d y' m' d'.
Proof.
  intros Hy Hm Hd Hy' Hm' Hd'. unfold isoText, dateBefore.
  destruct (pad4_read y Hy) as (y1 & y2 & y3 & y4 & -> & Hyd & <-).
  destruct (pad2_read m Hm) as (m1 & m2 & -> & Hmd & <-).
  destruct (pad2_read d Hd) as (d1 & d2 & -> & Hdd & <-).
  destruct (pad4_read y' Hy') as (y1' & y2' & y3' & y4' & -> & Hyd' & <-).
  destruct (pad2_read m' Hm') as (m1' & m2' & -> & Hmd' & <-).
  destruct (pad2_read d' Hd') as (d1' & d2' & -> & Hdd' & <-).
  change (u "-") with [45%N].
  rewrite str_ltb_digits4 by assumption. f_equal. f_equal.
  change ([45%N] ++ [m1; m2] ++ [45%N] ++ [d1; d2])
    with (45%N :: [m1; m2] ++ 45%N :: [d1; d2]).
  change ([45%N] ++ [m1'; m2'] ++ [45%N] ++ [d1'; d2'])
    with (45%N :: [m1'; m2'] ++ 45%N :: [d1'; d2']).
  rewrite str_ltb_cons_same, str_ltb_digits2 by assumption. f_equal. f_equal.
  rewrite str_ltb_cons_same. now apply str_ltb_digits2_end.
Qed.

Lemma isoOfDay_MakeDay (y m d : Z) :
  validDate y (m - 1) d -> isoOfDay (MakeDay y (m - 1) d) = isoText y m d.
Proof.
  intros Hv. unfold isoOfDay. rewrite (civil_of_MakeDay _ _ _ Hv).
  f_equal. lia.
Qed.

Lemma isoOfDay_order (a b : Z) :
  inIsoRange a -> inIsoRange b ->
  str_ltb (isoOfDay a) (isoOfDay b) = (a <? b).
Proof.
  intros Ha Hb. unfold isoOfDay.
  pose proof (civil_in_range a Ha) as Hca. pose proof (civil_in_range b Hb) as Hcb.
  destruct (civilFromDays a) as [[y mi] d]. destruct (civilFromDays b) as [[y' mi'] d'].
  destruct Hca as (Hy & Hv & <-). destruct Hcb as (Hy' & Hv' & <-).
  rewrite (MakeDay_order _ _ _ _ _ _ Hv Hv').
  assert (Hd31 : forall yy mm dd, validDate yy mm dd -> 0 <= mm + 1 <= 99 /\ 0 <= dd <= 99).
  { intros yy mm dd [Hmm Hdd]. unfold ReferenceHost.daysInMonth in Hdd.
    repeat match type of Hdd with context [if ?c then _ else _] => destruct c end; lia. }
  destruct (Hd31 _ _ _ Hv), (Hd31 _ _ _ Hv').
  rewrite isoText_order by lia.
  unfold dateBefore.
  replace (mi + 1 <? mi' + 1) with (mi <? mi') by lia.
  replace (mi + 1 =? mi' + 1) with (mi =? mi') by lia.
  reflexivity.
Qed.

Lemma isoOfDay_inj (a b : Z) :
  inIsoRange a -> inIsoRange b -> isoOfDay a = isoOfDay b -> a = b.
Proof.
  intros Ha Hb E.
  pose proof (isoOfDay_order a b Ha Hb) as Hab.
  pose proof (isoOfDay_order b a Hb Ha) as Hba.
  rewrite E, str_ltb_irrefl in Hab. rewrite E, str_ltb_irrefl in Hba. lia.
Qed.

End DateTexts.


(** ** ISO dates and shifting by days *)

Section IsoDates.
Import Js. Import Statements.
Local Open Scope Z_scope.
Import DateNormalizer.

Lemma validDate_small (y mi d : Z) :
  validDate y mi d -> 0 <= mi + 1 <= 99 /\ 0 <= d <= 99.
Proof.
  intros [Hmi Hd]. unfold ReferenceHost.daysInMonth in Hd.
  repeat match type of Hd with context [if ?c then _ else _] => destruct c end; lia.
Qed.

Lemma four_digits_value (a b c d : N) :
  forallb isDigit [a; b; c; d] = true -> 0 <= digitsToZ [a; b; c; d] <= 9999.
Proof.
  intros Hd. cbn [forallb] in Hd. repeat (apply andb_true_iff in Hd as [? Hd]).
  repeat match goal with
         | Hx : isDigit _ = true |- _ => apply isDigit_range in Hx
         end.
  unfold digitsToZ. cbn [fold_left]. lia.
Qed.

Lemma two_digits_value (a b : N) :
  forallb isDigit [a; b] = true -> 0 <= digitsToZ [a; b] <= 99.
Proof.
  intros Hd. cbn [forallb] in Hd. repeat (apply andb_true_iff in Hd as [? Hd]).
  repeat match goal with
         | Hx : isDigit _ = true |- _ => apply isDigit_range in Hx
         end.
  unfold digitsToZ. cbn [fold_left]. lia.
Qed.

Section IsoAcceptance.
Context {H : Host}.

(** A text of the ISO pattern is the text of its three numbers. *)
Lemma iso_shape_text (y1 y2 y3 y4 m1 m2 d1 d2 : N) :
  forallb isDigit [y1; y2; y3; y4; m1; m2; d1; d2] = true ->
  [y1; y2; y3; y4; 45%N; m1; m2; 45%N; d1; d2]
  = isoText (digitsToZ [y1; y2; y3; y4]) (digitsToZ [m1; m2]) (digitsToZ [d1; d2]).
Proof.
  intros Hd.
  change [y1; y2; y3; y4; m1; m2; d1; d2]
    with ([y1; y2; y3; y4] ++ [m1; m2] ++ [d1; d2]) in Hd.
  rewrite !forallb_app in Hd.
  apply andb_true_iff in Hd as [Hy Hd]. apply andb_true_iff in Hd as [Hm Hd].
  pose proof (four_digits_value _ _ _ _ Hy) as By.
  pose proof (two_digits_value _ _ Hm) as Bm.
  pose proof (two_digits_value _ _ Hd) as Bd.
  cbn [forallb] in Hy, Hm, Hd.
  repeat (apply andb_true_iff in Hy as [? Hy]).
  repeat (apply andb_true_iff in Hm as [? Hm]).
  repeat (apply andb_true_iff in Hd as [? Hd]).
  pose proof (four_digits_print y1 y2 y3 y4) as Py.
  pose proof (two_digits_print m1 m2) as Pm.
  pose proof (two_digits_print d1 d2) as Pd.
  rewrite StringToNumber_digits, numToString_ofZ in Py, Pm, Pd
    by (try discriminate; try (apply safeInt_small; lia);
        cbn [forallb]; now rewrite ?andb_true_iff).
  unfold isoText. rewrite Py, Pm, Pd by assumption. reflexivity.
Qed.

Lemma parseIsoDate_isoText (y m d : Z) :
  0 <= y <= 9999 -> 0 <= m <= 99 -> 0 <= d <= 99 ->
  parseIsoDate (isoText y m d)
  = if isValidYmd (ofZ y) (ofZ m) (ofZ d)
    then Some (mkParsed (u "iso") (JStr (isoText y m d))) else None.
Proof.
  intros Hy Hm Hd. unfold parseIsoDate.
  destruct (isoText_parts y m d Hy Hm Hd) as (-> & -> & -> & ->).
  cbn [negb]. cbv zeta.
  destruct (isValidYmd (ofZ y) (ofZ m) (ofZ d)); [|reflexivity].
  cbn [negb]. now rewrite toIso_ofZ by (apply safeInt_small; lia).
Qed.

End IsoAcceptance.

(** X9: In any time zone, what the ISO date parser accepts is the text
    [YYYY-MM-DD] of a calendar date from year 0100 to year 9999 (the month is
    counted from 0 in [validDate], as [Date] counts it), returned as it is
    with the family [iso], and the chain of parsers then returns the same; in
    a time zone that keeps every local time on its civil day, the parser
    accepts every such text. *)
Theorem parseIsoDate_accepts_calendar_dates (H : Host) (raw : jsstring) (p : parsed) :
  (parseIsoDate raw = Some p ->
   exists y m d,
     100 <= y <= 9999 /\ validDate y (m - 1) d
     /\ raw = isoText y m d /\ p = mkParsed (u "iso") (JStr raw))
  /\ (keepsCivilDays H ->
      (exists y m d,
         100 <= y <= 9999 /\ validDate y (m - 1) d
         /\ raw = isoText y m d /\ p = mkParsed (u "iso") (JStr raw)) ->
      parseIsoDate raw = Some p)
  /\ (parseIsoDate raw = Some p -> parseDateValue raw = Some p).
Proof.
  split; [|split].
  - intros Hp.
    destruct (matchIsoDate raw) eqn:Hm.
    2:{ unfold parseIsoDate in Hp. rewrite Hm in Hp. discriminate. }
    destruct (matchIsoDate_shape raw Hm)
      as (y1 & y2 & y3 & y4 & m1 & m2 & d1 & d2 & Hraw & Hd).
    pose proof (iso_shape_text _ _ _ _ _ _ _ _ Hd) as Htext.
    rewrite <- Hraw in Htext.
    change [y1; y2; y3; y4; m1; m2; d1; d2]
      with ([y1; y2; y3; y4] ++ [m1; m2] ++ [d1; d2]) in Hd.
    rewrite !forallb_app in Hd.
    apply andb_true_iff in Hd as [Hyd Hd]. apply andb_true_iff in Hd as [Hmd Hdd].
    pose proof (four_digits_value _ _ _ _ Hyd) as By.
    pose proof (two_digits_value _ _ Hmd) as Bm.
    pose proof (two_digits_value _ _ Hdd) as Bd.
    set (y := digitsToZ [y1; y2; y3; y4]) in *.
    set (m := digitsToZ [m1; m2]) in *. set (d := digitsToZ [d1; d2]) in *.
    rewrite Htext, parseIsoDate_isoText in Hp by assumption.
    destruct (isValidYmd (ofZ y) (ofZ m) (ofZ d)) eqn:Ev; [|discriminate].
    apply isValidYmd_sound in Ev as [Hy100 Hv]; try assumption.
    exists y, m, d. rewrite <- Htext in Hp. injection Hp as <-.
    repeat split; try lia; try assumption; apply Hv.
  - intros HC (y & m & d & Hy & Hv & -> & ->).
    destruct (validDate_small _ _ _ Hv) as [Bm Bd].
    rewrite parseIsoDate_isoText by lia.
    now rewrite (proj2 (isValidYmd_ofZ y m d HC ltac:(lia) ltac:(lia) ltac:(lia))
                   (conj (proj1 Hy) Hv)).
  - intros Hp. unfold parseDateValue. now rewrite Hp.
Qed.

Lemma parseIsoDate_accepts_calendar_dates_witness :
  keepsCivilDays ReferenceHost.host
  /\ parseIsoDate (H := ReferenceHost.host) (u "2024-02-29")
     = Some (mkParsed (u "iso") (JStr (u "2024-02-29"))).
Proof.
  split; [exact utc_keeps_civil_days|].
  apply (proj1 (proj2 (parseIsoDate_accepts_calendar_dates ReferenceHost.host
                         (u "2024-02-29") (mkParsed (u "iso") (JStr (u "2024-02-29")))))).
  { exact utc_keeps_civil_days. }
  exists 2024, 2, 29.
  split; [lia|]. split; [vm_compute; intuition discriminate|].
  split; reflexivity.
Defined.

Section AddDays.
Context {H : Host}.

Lemma addDaysIso_text (y m d k : Z) :
  keepsCivilDays H ->
  100 <= y <= 9999 -> 0 <= m <= 99 -> 0 <= d <= 99 -> Z.abs k <= 1000000 ->
  addDaysIso (isoText y m d) (ofZ k) = isoOfDay (MakeDay y (m - 1) d + k).
Proof.
  intros HC Hy Hm Hd Hk. unfold addDaysIso. cbv zeta.
  destruct (isoText_parts y m d ltac:(lia) Hm Hd) as (_ & -> & -> & ->).
  unfold one. rewrite fsub_ofZ by (apply safeInt_small; lia).
  rewrite newDate_ofZ by lia. replace (y <=? 99) with false by lia.
  set (z := MakeDay y (m - 1) d).
  assert (Hz : Z.abs z <= 10000000).
  { subst z. unfold MakeDay. cbv zeta.
    pose proof (daysBeforeMonth_bounds (isLeap (y + (m - 1) / 12)) ((m - 1) mod 12)).
    unfold DayFromYear. lia_div. }
  set (t := UTC (MakeDate z 0)).
  assert (Ht : Day (LocalTime t) = z).
  { subst t. rewrite HC. apply Day_within. unfold msPerDay. lia. }
  pose proof (date_fields t) as Hf. rewrite Ht in Hf. specialize (Hf ltac:(lia)).
  unfold setDate. rewrite Ht.
  destruct (civilFromDays z) as [[y0 mi0] d0] eqn:Ec.
  destruct Hf as (_ & _ & Hgd & Hy0 & Hmi0 & Hd0 & Hv0 & Hmk0).
  rewrite Hgd. rewrite fadd_ofZ by (apply safeInt_small; lia).
  destruct (ofZ_integer (d0 + k)) as (-> & _ & _ & -> & _);
    [apply safeInt_small; lia|].
  assert (Hshift : MakeDay y0 mi0 (d0 + k) = z + k).
  { rewrite <- Hmk0. unfold MakeDay. lia. }
  rewrite Hshift.
  rewrite UTC_in_range by (lia || apply TimeWithinDay_bounds).
  set (t' := UTC (MakeDate (z + k) (TimeWithinDay (LocalTime t)))).
  assert (Ht' : Day (LocalTime t') = z + k).
  { subst t'. rewrite HC. apply Day_within, TimeWithinDay_bounds. }
  pose proof (date_fields t') as Hf'. rewrite Ht' in Hf'.
  specialize (Hf' ltac:(lia)).
  unfold isoOfDay.
  destruct (civilFromDays (z + k)) as [[y1 mi1] d1].
  destruct Hf' as (-> & -> & -> & Hy1 & Hmi1 & Hd1 & _).
  rewrite fadd_ofZ by (apply safeInt_small; lia).
  apply toIso_ofZ; apply safeInt_small; lia.
Qed.

End AddDays.

Lemma addDaysIso_text_day {H : Host} (z k : Z) :
  keepsCivilDays H ->
  inIsoRange z -> Z.abs k <= 1000000 ->
  addDaysIso (isoOfDay z) (ofZ k) = isoOfDay (z + k).
Proof.
  intros HC Hz Hk. pose proof (civil_in_range z Hz) as Hc.
  unfold isoOfDay at 1.
  destruct (civilFromDays z) as [[y mi] d]. destruct Hc as (Hy & Hv & Hmk).
  destruct (validDate_small _ _ _ Hv) as [Bm Bd].
  rewrite addDaysIso_text by assumption.
  replace (mi + 1 - 1) with mi by lia. now rewrite Hmk.
Qed.

(** X10: In a time zone that keeps every local time on its civil day,
    adding days to a date text moves along the calendar: on the text of a
    day from year 0100 to year 9999 the result is the text of the day that
    many days later (earlier, for a negative count), across the ends of
    months and years; so adding nothing changes nothing, and adding twice
    adds the sum while the day in between stays within those years. *)
Theorem addDaysIso_moves_along_calendar (H : Host) (z k : Z) :
  keepsCivilDays H ->
  inIsoRange z -> Z.abs k <= 1000000 ->
  addDaysIso (isoOfDay z) (ofZ k) = isoOfDay (z + k)
  /\ addDaysIso (isoOfDay z) (ofZ 0) = isoOfDay z
  /\ forall k', inIsoRange (z + k) -> Z.abs k' <= 1000000 -> Z.abs (k + k') <= 1000000 ->
       addDaysIso (addDaysIso (isoOfDay z) (ofZ k)) (ofZ k')
       = addDaysIso (isoOfDay z) (ofZ (k + k')).
Proof.
  intros HC Hz Hk. split; [now apply addDaysIso_text_day|]. split.
  - rewrite addDaysIso_text_day by (assumption || (cbn; lia)).
    now replace (z + 0) with z by lia.
  - intros k' Hzk Hk' Hsum.
    rewrite (addDaysIso_text_day z k), (addDaysIso_text_day (z + k) k'),
      (addDaysIso_text_day z (k + k')) by assumption.
    f_equal. lia.
Qed.

Lemma addDaysIso_moves_along_calendar_witness :
  keepsCivilDays ReferenceHost.host
  /\ inIsoRange (MakeDay 2024 1 28)
  /\ addDaysIso (H := ReferenceHost.host) (u "2024-02-28") (ofZ 2) = u "2024-03-01".
Proof.
  assert (Hz : inIsoRange (MakeDay 2024 1 28)) by (vm_compute; intuition discriminate).
  split; [exact utc_keeps_civil_days|]. split; [exact Hz|].
  refine (proj1 (addDaysIso_moves_along_calendar ReferenceHost.host
                   (MakeDay 2024 1 28) 2 utc_keeps_civil_days Hz _)).
  vm_compute; discriminate.
Defined.

End IsoDates.


(** ** The scan for missing days *)

Section MissingDays.
Import Js. Import Statements.
Local Open Scope Z_scope.
Import DateNormalizer.

Section GapScan.
Context {H : Host}.

Lemma gapLoop_spec (b : Z) (dateSet : list jsstring) :
  keepsCivilDays H ->
  inIsoRange b ->
  forall (fuel : nat) (a : Z) (missing : list jsstring),
    inIsoRange a ->
    (Z.to_nat (b - a) < fuel)%nat ->
    gapLoop fuel (isoOfDay a) (isoOfDay b) dateSet missing
    = Some (missing ++ missingBetween a b dateSet).
Proof.
  intros HC Hb. induction fuel as [|fuel IH]; intros a missing Ha Hfuel; [lia|].
  cbn [gapLoop]. rewrite (isoOfDay_order a b Ha Hb).
  destruct (Z.ltb_spec a b) as [Hlt|Hge].
  - assert (Ha1 : inIsoRange (a + 1)) by (unfold inIsoRange in *; lia).
    change one with (ofZ 1).
    rewrite (addDaysIso_text_day a 1 HC Ha) by (cbn; lia).
    rewrite (isoOfDay_order (a + 1) b Ha1 Hb).
    rewrite IH by (assumption || lia). f_equal.
    unfold missingBetween.
    destruct (Z.ltb_spec (a + 1) b) as [Hlt1|Hge1].
    + replace (Z.to_nat (b - a - 1)) with (S (Z.to_nat (b - (a + 1) - 1))) by lia.
      cbn [daysFrom map filter andb].
      destruct (set_has (isoOfDay (a + 1)) dateSet); cbn [negb].
      * reflexivity.
      * now rewrite <- app_assoc.
    + replace (Z.to_nat (b - a - 1)) with O by lia.
      replace (Z.to_nat (b - (a + 1) - 1)) with O by lia.
      cbn [daysFrom map filter andb]. reflexivity.
  - unfold missingBetween. replace (Z.to_nat (b - a - 1)) with O by lia.
    cbn [daysFrom map filter]. now rewrite app_nil_r.
Qed.

End GapScan.

(** X11: In a time zone that keeps every local time on its civil day, the
    scan for missing days between two dates, both from year 0100 to year
    9999, ends within as many turns as there are days between them, and
    reports the days strictly between the two that are not in the set, in
    calendar order. *)
Theorem gap_scan_reports_missing_days (H : Host) (a b : Z)
    (dateSet : list jsstring) (fuel : nat) :
  keepsCivilDays H ->
  inIsoRange a -> inIsoRange b -> (Z.to_nat (b - a) < fuel)%nat ->
  gapLoop fuel (isoOfDay a) (isoOfDay b) dateSet [] = Some (missingBetween a b dateSet)
  /\ forall s,
       In s (missingBetween a b dateSet)
       <-> (exists z, a < z < b /\ s = isoOfDay z) /\ set_has s dateSet = false.
Proof.
  intros HC Ha Hb Hfuel. split.
  - now rewrite (gapLoop_spec b dateSet HC Hb fuel a [] Ha Hfuel).
  - intros s. unfold missingBetween. rewrite filter_In, in_map_iff.
    rewrite negb_true_iff. split.
    + intros [(z & <- & Hz) Hs]. apply daysFrom_In in Hz.
      split; [exists z; split; [lia|reflexivity]|exact Hs].
    + intros [(z & Hz & ->) Hs]. split; [|exact Hs].
      exists z. split; [reflexivity|]. apply daysFrom_In. lia.
Qed.

Lemma gap_scan_reports_missing_days_witness :
  gapLoop (H := ReferenceHost.host) 10 (u "2024-01-01") (u "2024-01-05")
    [u "2024-01-01"; u "2024-01-03"; u "2024-01-05"] []
  = Some [u "2024-01-02"; u "2024-01-04"].
Proof.
  refine (proj1 (gap_scan_reports_missing_days ReferenceHost.host
                   (MakeDay 2024 0 1) (MakeDay 2024 0 5)
                   [u "2024-01-01"; u "2024-01-03"; u "2024-01-05"] 10 _ _ _ _)).
  - exact utc_keeps_civil_days.
  - vm_compute; intuition discriminate.
  - vm_compute; intuition discriminate.
  - vm_compute; lia.
Defined.

End MissingDays.


(** ** The dates the parsers write *)

Section ParsedDateTexts.
Import Js. Import Statements.
Local Open Scope Z_scope.
Import DateNormalizer.

Lemma span_forallb (p : N -> bool) (s a b : jsstring) :
  span p s = (a, b) -> forallb p a = true.
Proof.
  revert a b. induction s as [|c s IH]; intros a b E; cbn [span] in E.
  - now injection E as <- <-.
  - destruct (p c) eqn:Hc.
    + destruct (span p s) as [a' b'] eqn:Es. injection E as <- <-.
      cbn [forallb]. rewrite Hc. now apply (IH a' b').
    + now injection E as <- <-.
Qed.

Lemma digits_value_bound (ds : jsstring) (acc : Z) :
  forallb isDigit ds = true -> 0 <= acc ->
  fold_left (fun acc c => acc * 10 + (Z.of_N c - 48)) ds acc
  < (acc + 1) * 10 ^ Z.of_nat (List.length ds).
Proof.
  revert acc. induction ds as [|c ds IH]; intros acc Hd Hacc.
  - cbn. lia.
  - cbn [forallb] in Hd. apply andb_true_iff in Hd as [Hc Hd].
    apply isDigit_range in Hc. cbn [fold_left List.length].
    specialize (IH (acc * 10 + (Z.of_N c - 48)) Hd ltac:(lia)).
    rewrite Nat2Z.inj_succ, Z.pow_succ_r by lia.
    assert (0 < 10 ^ Z.of_nat (List.length ds)) by (apply Z.pow_pos_nonneg; lia).
    nia.
Qed.

Lemma digits_read (ds : jsstring) (n : nat) :
  ds <> [] -> forallb isDigit ds = true -> (List.length ds <= n)%nat ->
  StringToNumber ds = ofZ (digitsToZ ds) /\ 0 <= digitsToZ ds < 10 ^ Z.of_nat n.
Proof.
  intros Hne Hd Hn. split; [now apply StringToNumber_digits|].
  split; [now apply digitsToZ_nonneg|].
  pose proof (digits_value_bound ds 0 Hd ltac:(lia)) as Hb. fold (digitsToZ ds) in Hb.
  assert (10 ^ Z.of_nat (List.length ds) <= 10 ^ Z.of_nat n)
    by (apply Z.pow_le_mono_r; lia).
  lia.
Qed.

Section ParsedDates.
Context {H : Host}.

(** Three whole numbers that pass [isValidYmd] are written as the text of
    a day from year 0100 to year 9999. *)
Lemma valid_parts_text (y m d : Z) :
  0 <= y <= 9999 -> 0 <= m <= 99 -> 0 <= d <= 99 ->
  isValidYmd (ofZ y) (ofZ m) (ofZ d) = true ->
  inIsoRange (MakeDay y (m - 1) d)
  /\ toIsoDateFromParts (ofZ y) (ofZ m) (ofZ d) = isoOfDay (MakeDay y (m - 1) d).
Proof.
  intros Hy Hm Hd Hv. apply isValidYmd_sound in Hv as [Hy100 Hv]; try assumption.
  split; [apply MakeDay_in_range; [lia|exact Hv]|].
  rewrite toIso_ofZ by (apply safeInt_small; lia).
  symmetry. now apply isoOfDay_MakeDay.
Qed.

(** What was checked and written is the text of a day, and reads again
    as the same ISO date. *)
Lemma checked_dated (p : parsed) : checkedResult p -> datedResult p.
Proof.
  intros (y & m & d & Hy & Hm & Hd & Hv & Hp).
  destruct (valid_parts_text y m d Hy Hm Hd Hv) as [Hr Ht].
  exists (MakeDay y (m - 1) d). split; [exact Hr|].
  rewrite Hp, <- Ht. now rewrite toIso_ofZ by (apply safeInt_small; lia).
Qed.

Lemma checked_reparse (p : parsed) :
  checkedResult p ->
  exists z,
    inIsoRange z /\ date_iso p = JStr (isoOfDay z)
    /\ parseIsoDate (isoOfDay z) = Some (mkParsed (u "iso") (JStr (isoOfDay z))).
Proof.
  intros (y & m & d & Hy & Hm & Hd & Hv & Hp).
  destruct (valid_parts_text y m d Hy Hm Hd Hv) as [Hr Ht].
  rewrite toIso_ofZ in Ht by (apply safeInt_small; lia).
  exists (MakeDay y (m - 1) d). rewrite <- Ht. split; [exact Hr|].
  split; [exact Hp|].
  rewrite parseIsoDate_isoText by assumption. now rewrite Hv.
Qed.

Lemma isValidYmd_nan_month (y d : num) : isValidYmd y S754_nan d = false.
Proof.
  unfold isValidYmd, newDate. cbv zeta.
  change (fsub S754_nan one) with S754_nan.
  change (isFiniteNum S754_nan) with false.
  rewrite andb_false_r. cbn [andb getFullYear getMonth getDate].
  unfold feqb. destruct y; reflexivity.
Qed.

Lemma monthLookup_values (t : jsstring) (month : num) :
  monthLookup t = Some month ->
  month = S754_nan \/ exists n, 1 <= n <= 12 /\ month = ofZ n.
Proof.
  unfold monthLookup. destruct (assoc_get t monthMap) as [n|] eqn:E.
  - intros [= <-]. right. exists n. split; [|reflexivity].
    unfold monthMap in E. cbn [assoc_get] in E.
    repeat match type of E with
           | (if ?c then _ else _) = _ => destruct c; [injection E as <-; lia|]
           end.
    discriminate.
  - destruct (str_eqb t (u "constructor")); [|discriminate].
    intros [= <-]. now left.
Qed.

Lemma parseMonthNameDate_checked (raw : jsstring) (p : parsed) :
  parseMonthNameDate raw = Some p ->
  family p = u "invalid" \/ checkedResult p.
Proof.
  unfold parseMonthNameDate. cbv zeta.
  destruct (trim raw) as [|c0 s0] eqn:Es; [discriminate|].
  match goal with
  | |- context [matchMonthName ?c] => set (candidate := c)
  end.
  destruct (matchMonthName candidate) as [[[m1 m2] m3]|] eqn:Em; [|discriminate].
  destruct (monthLookup (map lowerUnit m1)) as [month|] eqn:El; [|discriminate].
  unfold matchMonthName in Em.
  destruct (span isAlpha candidate) as [letters r1].
  destruct (span isWhiteSpace r1) as [ws1 r2].
  destruct (span isDigit r2) as [ds r3] eqn:Ed.
  destruct (span isWhiteSpace _) as [ws2 r5].
  destruct letters; [discriminate|]. destruct ws1; [discriminate|].
  destruct ws2; [discriminate|].
  destruct (_ && _) eqn:Ec in Em; [|discriminate].
  injection Em as <- <- <-.
  apply andb_true_iff in Ec as [Ec Hy]. apply andb_true_iff in Ec as [Hlen Hl4].
  apply Nat.eqb_eq in Hl4.
  pose proof (span_forallb _ _ _ _ Ed) as Hds.
  assert (Hne : ds <> []).
  { destruct ds; [|discriminate]. cbn in Hlen. discriminate. }
  assert (Hl2 : (List.length ds <= 2)%nat).
  { apply orb_true_iff in Hlen as [E|E]; apply Nat.eqb_eq in E; lia. }
  destruct (digits_read ds 2 Hne Hds Hl2) as [-> Bd].
  assert (Hne5 : r5 <> []) by (destruct r5; [discriminate|discriminate]).
  destruct (digits_read r5 4 Hne5 Hy ltac:(lia)) as [-> By].
  change (10 ^ Z.of_nat 2) with 100 in Bd. change (10 ^ Z.of_nat 4) with 10000 in By.
  destruct (monthLookup_values _ _ El) as [->|(k & Hk & ->)].
  - rewrite isValidYmd_nan_month. cbn [negb]. intros [= <-]. now left.
  - destruct (isValidYmd _ _ _) eqn:Ev; cbn [negb]; intros [= <-]; [|now left].
    right. exists (digitsToZ r5), k, (digitsToZ ds).
    split; [lia|]. split; [lia|]. split; [lia|]. split; [exact Ev|].
    cbn [date_iso]. now rewrite toIso_ofZ by (apply safeInt_small; lia).
Qed.

Lemma parseMonthNameDate_result (raw : jsstring) (p : parsed) :
  parseMonthNameDate raw = Some p ->
  family p = u "invalid" \/ datedResult p.
Proof.
  intros Hp. destruct (parseMonthNameDate_checked raw p Hp) as [E|E];
    [now left | right; now apply checked_dated].
Qed.

Lemma matchSlash_shape (raw m1 m2 m3 : jsstring) :
  matchSlash raw = Some (m1, m2, m3) ->
  exists a1 a2 b1 b2 y1 y2 y3 y4,
    raw = slashForm a1 a2 b1 b2 y1 y2 y3 y4
    /\ forallb isDigit [a1; a2; b1; b2; y1; y2; y3; y4] = true.
Proof.
  unfold matchSlash.
  destruct raw as [|a1 [|a2 [|s1 [|b1 [|b2 [|s2 [|y1 [|y2 [|y3 [|y4 [|x r]]]]]]]]]]];
    try discriminate.
  destruct (_ && _) eqn:Ec; [|discriminate]. intros _.
  apply andb_true_iff in Ec as [Ec Hs2]. apply andb_true_iff in Ec as [Ec Hs1].
  apply N.eqb_eq in Hs1, Hs2. subst.
  now exists a1, a2, b1, b2, y1, y2, y3, y4.
Qed.

Lemma parseSlashDate_checked (raw : jsstring) (p : parsed) :
  parseSlashDate raw = Some p ->
  family p = u "invalid" \/ family p = u "ambiguous" \/ checkedResult p.
Proof.
  intros Hp.
  destruct (matchSlash raw) as [[[m1 m2] m3]|] eqn:Em.
  2:{ unfold parseSlashDate in Hp. rewrite Em in Hp. discriminate. }
  destruct (matchSlash_shape _ _ _ _ Em)
    as (a1 & a2 & b1 & b2 & y1 & y2 & y3 & y4 & -> & Hd).
  cbn [forallb] in Hd. repeat (apply andb_true_iff in Hd as [? Hd]).
  rewrite parseSlashDate_tokens in Hp by assumption.
  pose proof (tokenValue_range a1 a2 ltac:(assumption) ltac:(assumption)) as Ba.
  pose proof (tokenValue_range b1 b2 ltac:(assumption) ltac:(assumption)) as Bb.
  assert (Hy : forallb isDigit [y1; y2; y3; y4] = true)
    by (cbn [forallb]; now rewrite ?andb_true_iff).
  pose proof (four_digits_value _ _ _ _ Hy) as By.
  rewrite StringToNumber_digits in Hp by (discriminate || assumption).
  destruct (_ || _) in Hp; [injection Hp as <-; now left|].
  cbv zeta in Hp.
  destruct (negb _ && negb _) in Hp; [injection Hp as <-; right; now left|].
  destruct ((12 <? tokenValue a1 a2) && (tokenValue b1 b2 <=? 12)) in Hp;
    match type of Hp with
    | (if negb (isValidYmd (ofZ ?y) (ofZ ?m) (ofZ ?d)) then _ else _) = _ =>
        destruct (isValidYmd (ofZ y) (ofZ m) (ofZ d)) eqn:Ev;
        cbn [negb] in Hp; injection Hp as <-; [|now left];
        right; right; exists y, m, d;
        split; [lia|]; split; [lia|]; split; [lia|]; split; [exact Ev|];
        cbn [date_iso]; now rewrite toIso_ofZ by (apply safeInt_small; lia)
    end.
Qed.

Lemma parseSlashDate_result (raw : jsstring) (p : parsed) :
  parseSlashDate raw = Some p ->
  family p = u "invalid" \/ family p = u "ambiguous" \/ datedResult p.
Proof.
  intros Hp. destruct (parseSlashDate_checked raw p Hp) as [E|[E|E]];
    [now left | right; now left | right; right; now apply checked_dated].
Qed.

Lemma parseIsoDate_checked (raw : jsstring) (p : parsed) :
  parseIsoDate raw = Some p -> checkedResult p.
Proof.
  intros Hp.
  destruct (matchIsoDate raw) eqn:Hm.
  2:{ unfold parseIsoDate in Hp. rewrite Hm in Hp. discriminate. }
  destruct (matchIsoDate_shape raw Hm)
    as (y1 & y2 & y3 & y4 & m1 & m2 & d1 & d2 & Hraw & Hd).
  pose proof (iso_shape_text _ _ _ _ _ _ _ _ Hd) as Htext.
  rewrite <- Hraw in Htext.
  change [y1; y2; y3; y4; m1; m2; d1; d2]
    with ([y1; y2; y3; y4] ++ [m1; m2] ++ [d1; d2]) in Hd.
  rewrite !forallb_app in Hd.
  apply andb_true_iff in Hd as [Hyd Hd]. apply andb_true_iff in Hd as [Hmd Hdd].
  pose proof (four_digits_value _ _ _ _ Hyd) as By.
  pose proof (two_digits_value _ _ Hmd) as Bm.
  pose proof (two_digits_value _ _ Hdd) as Bd.
  rewrite Htext, parseIsoDate_isoText in Hp by assumption.
  destruct (isValidYmd _ _ _) eqn:Ev in Hp; [|discriminate].
  injection Hp as <-.
  eexists _, _, _. split; [exact By|]. split; [exact Bm|]. split; [exact Bd|].
  split; [exact Ev|]. reflexivity.
Qed.

Lemma parseIsoDate_result (raw : jsstring) (p : parsed) :
  parseIsoDate raw = Some p -> datedResult p.
Proof. intros Hp. now apply checked_dated, (parseIsoDate_checked raw). Qed.

Lemma parseDateValue_checked (s : jsstring) (p : parsed) :
  parseIsoTimestamp s = None ->
  parseDateValue s = Some p ->
  family p = u "invalid" \/ family p = u "ambiguous" \/ checkedResult p.
Proof.
  intros Hts. unfold parseDateValue, orElse. rewrite Hts.
  destruct (parseIsoDate s) as [q|] eqn:E1.
  { intros [= <-]. right. right. now apply (parseIsoDate_checked s). }
  destruct (parseMonthNameDate s) as [q|] eqn:E2.
  { intros [= <-]. destruct (parseMonthNameDate_checked s q E2); tauto. }
  apply parseSlashDate_checked.
Qed.

Lemma parseDateValue_result (s : jsstring) (p : parsed) :
  parseIsoTimestamp s = None ->
  parseDateValue s = Some p ->
  family p = u "invalid" \/ family p = u "ambiguous" \/ datedResult p.
Proof.
  intros Hts Hp. destruct (parseDateValue_checked s p Hts Hp) as [E|[E|E]];
    [now left | right; now left | right; right; now apply checked_dated].
Qed.

Lemma parseIsoDate_isoOfDay (z : Z) :
  keepsCivilDays H ->
  inIsoRange z ->
  parseIsoDate (isoOfDay z) = Some (mkParsed (u "iso") (JStr (isoOfDay z))).
Proof.
  intros HC Hz. pose proof (civil_in_range z Hz) as Hc. unfold isoOfDay.
  destruct (civilFromDays z) as [[y mi] d]. destruct Hc as (Hy & Hv & _).
  destruct (validDate_small _ _ _ Hv) as [Bm Bd].
  rewrite parseIsoDate_isoText by lia.
  rewrite (proj2 (isValidYmd_ofZ y (mi + 1) d HC ltac:(lia) ltac:(lia) ltac:(lia)));
    [reflexivity|].
  split; [lia|]. now replace (mi + 1 - 1) with mi by lia.
Qed.

End ParsedDates.

(** X12: Whatever form a date was written in (timestamps apart), the date the
    normaliser writes for it is the text of a calendar day from year 0100 to
    year 9999, and normalising that text again returns it unchanged, as an
    ISO date. *)
Theorem normalized_date_is_calendar_date (H : Host) (s : jsstring) (p : parsed) :
  looksLikeIsoTs s = false ->
  parseDateValue s = Some p ->
  family p <> u "invalid" -> family p <> u "ambiguous" ->
  exists z,
    inIsoRange z /\ date_iso p = JStr (isoOfDay z)
    /\ parseDateValue (isoOfDay z) = Some (mkParsed (u "iso") (JStr (isoOfDay z))).
Proof.
  intros Hts Hp Hi Ha.
  assert (Hnone : parseIsoTimestamp s = None)
    by (unfold parseIsoTimestamp; now rewrite Hts).
  destruct (parseDateValue_checked s p Hnone Hp) as [E|[E|E]];
    [contradiction..|].
  destruct (checked_reparse p E) as (z & Hz & Ez & Hre).
  exists z. split; [exact Hz|]. split; [exact Ez|].
  unfold parseDateValue. now rewrite Hre.
Qed.

Lemma normalized_date_is_calendar_date_witness :
  parseDateValue (H := ReferenceHost.host) (u "15/01/2024")
  = Some (mkParsed (u "dmy") (JStr (u "2024-01-15")))
  /\ exists z,
       inIsoRange z /\ JStr (u "2024-01-15") = JStr (isoOfDay z)
       /\ parseDateValue (H := ReferenceHost.host) (isoOfDay z)
          = Some (mkParsed (u "iso") (JStr (isoOfDay z))).
Proof.
  split; [vm_compute; reflexivity|].
  refine (normalized_date_is_calendar_date ReferenceHost.host (u "15/01/2024")
            (mkParsed (u "dmy") (JStr (u "2024-01-15"))) _ _ _ _).
  - vm_compute; reflexivity.
  - vm_compute; reflexivity.
  - vm_compute; discriminate.
  - vm_compute; discriminate.
Defined.

End ParsedDateTexts.


(** ** The textual month-name form, in general *)

Section MonthNameDates.
Import Js. Import Statements.
Local Open Scope Z_scope.
Import DateNormalizer.

Section MonthNames.
Context {H : Host}.

Lemma span_app (p : N -> bool) (a rest : jsstring) :
  forallb p a = true -> p (hd 0%N rest) = false \/ rest = [] ->
  span p (a ++ rest) = (a, rest).
Proof.
  intros Ha Hrest. induction a as [|c a IH]; cbn [app].
  - destruct rest as [|r rest]; [reflexivity|]. cbn [span hd] in *.
    destruct Hrest as [->|E]; [reflexivity|discriminate].
  - cbn [forallb] in Ha. apply andb_true_iff in Ha as [Hc Ha].
    cbn [span]. now rewrite Hc, (IH Ha).
Qed.

Lemma lowerUnit_alpha (c : N) : isLower (lowerUnit c) = true -> isAlpha c = true.
Proof.
  unfold lowerUnit, isAlpha. destruct (isUpper c) eqn:Eu; [reflexivity|].
  now intros ->.
Qed.

Lemma month_key_letters (name : jsstring) (m : Z) :
  assoc_get (map lowerUnit name) monthMap = Some m ->
  name <> [] /\ forallb isAlpha name = true /\ 1 <= m <= 12.
Proof.
  intros E.
  assert (Hkeys : forallb (fun kv => negb (List.length (fst kv) =? 0)%nat
                                     && forallb isLower (fst kv)
                                     && (1 <=? snd kv) && (snd kv <=? 12))
                    monthMap = true) by (vm_compute; reflexivity).
  rewrite forallb_forall in Hkeys.
  assert (Hin : In (map lowerUnit name, m) monthMap).
  { revert E. generalize monthMap. intros l. induction l as [|[k v] l IH]; [discriminate|].
    cbn [assoc_get]. destruct (str_eqb (map lowerUnit name) k) eqn:Ek.
    - apply str_eqb_eq in Ek. intros [= ->]. left. now rewrite Ek.
    - intros E. right. now apply IH. }
  specialize (Hkeys _ Hin). cbn [fst snd] in Hkeys.
  apply andb_true_iff in Hkeys as [Hkeys H12].
  apply andb_true_iff in Hkeys as [Hkeys H1].
  apply andb_true_iff in Hkeys as [Hne Hlow].
  split; [|split; [|lia]].
  - intros ->. discriminate.
  - clear -Hlow. induction name as [|c name IH]; [reflexivity|].
    cbn [map forallb] in *. apply andb_true_iff in Hlow as [Hc Hlow].
    now rewrite (lowerUnit_alpha c Hc), IH.
Qed.

Lemma isAlpha_facts (c : N) :
  isAlpha c = true ->
  isWhiteSpace c = false /\ isDigit c = false /\ (44 =? c)%N = false.
Proof.
  unfold isAlpha, isUpper, isLower. intros Hc.
  assert (Hr : (65 <= c <= 90 \/ 97 <= c <= 122)%N).
  { apply orb_true_iff in Hc as [Hc|Hc]; apply andb_true_iff in Hc as [H1 H2];
      apply N.leb_le in H1, H2; lia. }
  assert (Hw : forallb (fun w => negb ((65 <=? w) && (w <=? 90) || (97 <=? w) && (w <=? 122))%N)
                 [9; 10; 11; 12; 13; 32; 160; 5760; 8232; 8233; 8239; 8287; 12288; 65279]%N
               = true) by reflexivity.
  split; [|split].
  - unfold isWhiteSpace. apply orb_false_iff. split.
    + apply not_true_is_false. intros Hex. apply existsb_exists in Hex as (w & Hin & Ew).
      apply N.eqb_eq in Ew. subst w. rewrite forallb_forall in Hw.
      specialize (Hw c Hin). apply negb_true_iff in Hw.
      apply orb_false_iff in Hw as [Hu Hl].
      destruct Hr as [Hr|Hr].
      * rewrite (proj2 (N.leb_le 65 c)), (proj2 (N.leb_le c 90)) in Hu by lia.
        discriminate.
      * rewrite (proj2 (N.leb_le 97 c)), (proj2 (N.leb_le c 122)) in Hl by lia.
        discriminate.
    + apply andb_false_iff. destruct (N.leb_spec 8192 c); [lia|now left].
  - unfold isDigit. apply andb_false_iff.
    destruct (N.leb_spec c 57); [lia|now right].
  - apply N.eqb_neq. lia.
Qed.

Lemma includes_app (c : N) (a b : jsstring) :
  includes c (a ++ b) = includes c a || includes c b.
Proof. unfold includes. apply existsb_app. Qed.

Lemma includes_none (c : N) (p : N -> bool) (a : jsstring) :
  (forall x, p x = true -> (c =? x)%N = false) ->
  forallb p a = true -> includes c a = false.
Proof.
  intros Hp Ha. unfold includes. induction a as [|x a IH]; [reflexivity|].
  cbn [forallb existsb] in *. apply andb_true_iff in Ha as [Hx Ha].
  now rewrite (Hp x Hx), IH.
Qed.

Lemma trim_ends (s : jsstring) :
  isWhiteSpace (hd 0%N s) = false -> isWhiteSpace (last s 0%N) = false -> trim s = s.
Proof.
  intros Hh Hl. unfold trim, trimEnd.
  rewrite (trimStart_id s) by (now left).
  rewrite trimStart_id; [apply rev_involutive|]. left.
  destruct s as [|c s]; [exact Hh|].
  destruct (exists_last (l := c :: s) ltac:(discriminate)) as (pre & l & E).
  rewrite E in *. rewrite rev_app_distr. cbn [rev app hd].
  now rewrite last_last in Hl.
Qed.

Lemma last_app_nonempty {A : Type} (a b : list A) (d : A) :
  b <> [] -> last (a ++ b) d = last b d.
Proof.
  intros Hb. induction a as [|x a IH]; [reflexivity|].
  cbn [app]. destruct (a ++ b) eqn:E.
  - destruct a; [cbn in E; contradiction|discriminate].
  - cbn [last]. exact IH.
Qed.

Lemma last_forallb (p : N -> bool) (s : jsstring) (d : N) :
  s <> [] -> forallb p s = true -> p (last s d) = true.
Proof.
  intros Hs Hp. destruct (exists_last Hs) as (pre & l & ->).
  rewrite last_last. rewrite forallb_app in Hp. apply andb_true_iff in Hp as [_ Hl].
  cbn in Hl. now rewrite andb_true_r in Hl.
Qed.

Lemma monthNameForm_match (name ds ys : jsstring) :
  name <> [] -> forallb isAlpha name = true ->
  ds <> [] -> forallb isDigit ds = true ->
  ys <> [] -> forallb isDigit ys = true ->
  trim (monthNameForm name ds ys) = monthNameForm name ds ys
  /\ includes 44 (monthNameForm name ds ys) = false
  /\ span isAlpha (monthNameForm name ds ys) = (name, 32%N :: ds ++ 32%N :: ys)
  /\ span isWhiteSpace (32%N :: ds ++ 32%N :: ys) = ([32%N], ds ++ 32%N :: ys)
  /\ span isDigit (ds ++ 32%N :: ys) = (ds, 32%N :: ys)
  /\ span isWhiteSpace (32%N :: ys) = ([32%N], ys).
Proof.
  intros Hn Ha Hd Hds Hy Hys. unfold monthNameForm.
  destruct name as [|n0 name]; [contradiction|].
  destruct ds as [|d0 ds]; [contradiction|].
  destruct ys as [|y0 ys]; [contradiction|].
  pose proof Ha as Ha'. pose proof Hds as Hds'. pose proof Hys as Hys'.
  cbn [forallb] in Ha', Hds', Hys'.
  apply andb_true_iff in Ha' as [Hn0 _]. apply andb_true_iff in Hds' as [Hd0 _].
  apply andb_true_iff in Hys' as [Hy0 _].
  destruct (isAlpha_facts n0 Hn0) as (Hn0w & _ & _).
  repeat split.
  - apply trim_ends; [exact Hn0w|].
    change (n0 :: name ++ 32%N :: (d0 :: ds) ++ 32%N :: y0 :: ys)
      with ((n0 :: name) ++ (32%N :: d0 :: ds) ++ [32%N] ++ y0 :: ys).
    rewrite (last_app_nonempty (n0 :: name)) by discriminate.
    change (32%N :: (d0 :: ds) ++ 32%N :: y0 :: ys)
      with ((32%N :: d0 :: ds) ++ [32%N] ++ y0 :: ys).
    rewrite (last_app_nonempty (32%N :: d0 :: ds)) by discriminate.
    rewrite (last_app_nonempty [32%N]) by discriminate.
    apply isDigit_not_ws. apply last_forallb; [discriminate|exact Hys].
  - change ((n0 :: name) ++ 32%N :: (d0 :: ds) ++ 32%N :: y0 :: ys)
      with ((n0 :: name) ++ [32%N] ++ (d0 :: ds) ++ [32%N] ++ (y0 :: ys)).
    rewrite !includes_app.
    rewrite (includes_none 44 isAlpha (n0 :: name));
      [|intros x Hx; apply (isAlpha_facts x Hx)|exact Ha].
    rewrite (includes_none 44 isDigit (d0 :: ds) isDigit_not_comma Hds).
    rewrite (includes_none 44 isDigit (y0 :: ys) isDigit_not_comma Hys).
    reflexivity.
  - apply span_app; [exact Ha|]. now left.
  - cbn [span app]. change (isWhiteSpace 32) with true.
    now rewrite (isDigit_not_ws d0 Hd0).
  - apply span_app; [exact Hds|]. now left.
  - cbn [span]. change (isWhiteSpace 32) with true.
    now rewrite (isDigit_not_ws y0 Hy0).
Qed.

Lemma matchIsoDate_head (c : N) (r : jsstring) :
  isDigit c = false -> matchIsoDate (c :: r) = false.
Proof.
  intros Hc. destruct (matchIsoDate (c :: r)) eqn:E; [|reflexivity].
  destruct (matchIsoDate_shape _ E)
    as (y1 & y2 & y3 & y4 & m1 & m2 & d1 & d2 & Hraw & Hd).
  injection Hraw as -> _. cbn [forallb] in Hd. rewrite Hc in Hd. discriminate.
Qed.

Lemma looksLikeIsoTs_head (c : N) (r : jsstring) :
  isDigit c = false -> looksLikeIsoTs (c :: r) = false.
Proof.
  intros Hc. unfold looksLikeIsoTs.
  destruct r as [|y2 [|y3 [|y4 [|s1 [|m1 [|m2 [|s2 [|d1 [|d2 [|t r]]]]]]]]]];
    try reflexivity.
  cbn [forallb]. now rewrite Hc.
Qed.

Lemma matchMonthName_form (name ds ys : jsstring) :
  name <> [] -> forallb isAlpha name = true ->
  (List.length ds = 1 \/ List.length ds = 2)%nat -> forallb isDigit ds = true ->
  List.length ys = 4%nat -> forallb isDigit ys = true ->
  matchMonthName (monthNameForm name ds ys) = Some (name, ds, ys).
Proof.
  intros Hn Ha Hl Hds Hl4 Hys.
  assert (Hd : ds <> []) by (intros ->; cbn in Hl; lia).
  assert (Hy : ys <> []) by (intros ->; cbn in Hl4; lia).
  destruct (monthNameForm_match name ds ys Hn Ha Hd Hds Hy Hys)
    as (_ & _ & S1 & S2 & S3 & S4).
  unfold matchMonthName. rewrite S1, S2, S3.
  change (if (32 =? 44)%N then ys else 32%N :: ys) with (32%N :: ys).
  rewrite S4. destruct name as [|n0 name]; [contradiction|].
  rewrite Hl4, Hys. cbn [Nat.eqb andb].
  destruct Hl as [-> | ->]; reflexivity.
Qed.

End MonthNames.

(** X13: The textual form [Month D YYYY], with the month name in full or
    abbreviated and in any case, is read as the date it names or as invalid,
    never as unrecognised: in any time zone it is the family [invalid] when
    it names no calendar date of a year from 0100 on (so [February 30 2024]
    fails the batch as invalid); in a time zone that keeps every local time
    on its civil day it is the family [month_name] with the ISO text of the
    date when it names one. *)
Theorem month_name_form_is_read (H : Host) (name ds ys : jsstring) (m : Z) :
  assoc_get (map lowerUnit name) monthMap = Some m ->
  (List.length ds = 1 \/ List.length ds = 2)%nat -> forallb isDigit ds = true ->
  List.length ys = 4%nat -> forallb isDigit ys = true ->
  let y := digitsToZ ys in
  let d := digitsToZ ds in
  let s := monthNameForm name ds ys in
  (parseDateValue s = Some (mkParsed (u "month_name") (JStr (isoText y m d)))
   \/ parseDateValue s = Some (mkParsed (u "invalid") JUndefined))
  /\ (~ (100 <= y /\ validDate y (m - 1) d) ->
      parseDateValue s = Some (mkParsed (u "invalid") JUndefined))
  /\ (keepsCivilDays H -> 100 <= y /\ validDate y (m - 1) d ->
      parseDateValue s = Some (mkParsed (u "month_name") (JStr (isoText y m d)))).
Proof.
  intros Hm Hl Hds Hl4 Hys y d s.
  destruct (month_key_letters name m Hm) as (Hn & Ha & Hm12).
  assert (Hd : ds <> []) by (intros ->; cbn in Hl; lia).
  assert (Hy : ys <> []) by (intros ->; cbn in Hl4; lia).
  destruct (monthNameForm_match name ds ys Hn Ha Hd Hds Hy Hys)
    as (Htrim & Hcomma & _).
  pose proof (matchMonthName_form name ds ys Hn Ha Hl Hds Hl4 Hys) as Hmatch.
  destruct (digits_read ds 2 Hd Hds ltac:(lia)) as [Nd Bd].
  destruct (digits_read ys 4 Hy Hys ltac:(lia)) as [Ny By].
  change (10 ^ Z.of_nat 2) with 100 in Bd. change (10 ^ Z.of_nat 4) with 10000 in By.
  fold d in Nd, Bd. fold y in Ny, By.
  assert (Hparse : parseDateValue s
                   = if isValidYmd (ofZ y) (ofZ m) (ofZ d)
                     then Some (mkParsed (u "month_name") (JStr (isoText y m d)))
                     else Some (mkParsed (u "invalid") JUndefined)).
  { fold s in Htrim, Hcomma, Hmatch.
    assert (Hs : exists n0 rest, s = n0 :: rest /\ isAlpha n0 = true).
    { unfold s, monthNameForm. destruct name as [|n0 name]; [contradiction|].
      exists n0, (name ++ 32%N :: ds ++ 32%N :: ys). split; [reflexivity|].
      cbn [forallb] in Ha. now apply andb_true_iff in Ha as [Ha _]. }
    destruct Hs as (n0 & rest & Es & Hn0).
    destruct (isAlpha_facts n0 Hn0) as (_ & Hnd & _).
    unfold parseDateValue, orElse.
    assert (E1 : parseIsoDate s = None).
    { unfold parseIsoDate. rewrite Es, (matchIsoDate_head n0 rest Hnd). reflexivity. }
    assert (E2 : parseIsoTimestamp s = None).
    { unfold parseIsoTimestamp. rewrite Es, (looksLikeIsoTs_head n0 rest Hnd).
      reflexivity. }
    rewrite E1, E2.
    unfold parseMonthNameDate. cbv zeta. rewrite Htrim, Hcomma.
    rewrite Es. cbv iota. rewrite <- Es. rewrite Hmatch.
    unfold monthLookup. rewrite Hm. rewrite Nd, Ny.
    destruct (isValidYmd (ofZ y) (ofZ m) (ofZ d)); cbn [negb]; [|reflexivity].
    now rewrite toIso_ofZ by (apply safeInt_small; lia). }
  rewrite Hparse. split; [|split].
  - destruct (isValidYmd (ofZ y) (ofZ m) (ofZ d)); [now left | now right].
  - intros Hnv. destruct (isValidYmd (ofZ y) (ofZ m) (ofZ d)) eqn:Ev; [|reflexivity].
    exfalso. apply Hnv.
    now apply (isValidYmd_sound y m d ltac:(lia) ltac:(lia) ltac:(lia)).
  - intros HC Hv.
    now rewrite (proj2 (isValidYmd_ofZ y m d HC ltac:(lia) ltac:(lia) ltac:(lia)) Hv).
Qed.

Lemma month_name_form_is_read_witness :
  keepsCivilDays ReferenceHost.host
  /\ parseDateValue (H := ReferenceHost.host) (u "SEPT 9 2024")
     = Some (mkParsed (u "month_name") (JStr (u "2024-09-09"))).
Proof.
  split; [exact utc_keeps_civil_days|].
  refine (proj2 (proj2 (month_name_form_is_read ReferenceHost.host
                          (u "SEPT") (u "9") (u "2024") 9 _ _ _ _ _))
            utc_keeps_civil_days _).
  - vm_compute; reflexivity.
  - left; reflexivity.
  - vm_compute; reflexivity.
  - vm_compute; reflexivity.
  - vm_compute; reflexivity.
  - vm_compute; intuition discriminate.
Defined.

End MonthNameDates.


(** ** The rows the date normaliser returns *)

Section NormalizedRows.
Import Js.
Local Open Scope N_scope.
Import DateNormalizer.

Section NormalizeFacts.
Context {H : Host}.

Lemma normalizeLoop_Ok (dk sn om : jsstring) (rows : list obj) :
  forall i fams acc dropped fams' out dropped',
    normalizeLoop dk sn om rows i fams acc dropped = Ok (fams', out, dropped') ->
    out = acc ++ map (normalizedRow dk) (datedRows dk rows)
    /\ (dropped' + List.length (datedRows dk rows)
        = dropped + List.length rows)%nat
    /\ (str_eqb om (u "drop") = false -> datedRows dk rows = rows)
    /\ (forall f, In f fams -> In f fams')
    /\ (forall r, In r (datedRows dk rows) ->
        exists f, familyOf dk r = Some f /\ In f fams'
                  /\ f <> u "ambiguous" /\ f <> u "invalid").
Proof.
  induction rows as [|row rest IH]; intros i fams acc dropped fams' out dropped' Hrun.
  - cbn in Hrun. injection Hrun as <- <- <-. cbn. rewrite app_nil_r.
    repeat split; auto. intros r [].
  - cbn [normalizeLoop] in Hrun. unfold datedRows. cbn [filter].
    fold (datedRows dk rest).
    destruct (isMissing (obj_member row dk)) eqn:Em; cbn [negb].
    + destruct (str_eqb om (u "drop")) eqn:Eom; [|discriminate].
      apply IH in Hrun as (Hout & Hcount & _ & Hfams & Hrows).
      split; [exact Hout|]. split; [cbn [List.length]; lia|].
      split; [discriminate|]. split; assumption.
    + fold (dateText dk row) in Hrun.
      destruct (parseDateValue (dateText dk row)) as [p|] eqn:Ep; [|discriminate].
      destruct (str_eqb (family p) (u "ambiguous")) eqn:Ea; [discriminate|].
      destruct (str_eqb (family p) (u "invalid")) eqn:Ei; [discriminate|].
      apply IH in Hrun as (Hout & Hcount & Hall & Hfams & Hrows).
      assert (Hp : In (family p) fams').
      { apply Hfams. unfold set_add. destruct (set_has (family p) fams) eqn:Eh.
        - unfold set_has in Eh. apply existsb_exists in Eh as (x & Hx & Ex).
          apply str_eqb_eq in Ex. now subst.
        - apply in_or_app. right. now left. }
      split.
      { rewrite Hout, <- app_assoc. cbn [map app]. unfold normalizedRow at 2.
        now rewrite Ep. }
      split; [cbn [List.length]; lia|].
      split; [intros Hom; now rewrite (Hall Hom)|].
      split.
      { intros f Hf. apply Hfams. unfold set_add.
        destruct (set_has (family p) fams); [assumption|].
        apply in_or_app. now left. }
      intros r [<-|Hr]; [|now apply Hrows].
      exists (family p). unfold familyOf. rewrite Ep.
      apply str_eqb_neq in Ea, Ei. repeat split; assumption.
Qed.

Lemma effective_families_cover (families : list jsstring) :
  forall acc f,
    In f acc \/ In f families ->
    In f (fold_left
            (fun acc f => set_add (if str_eqb f (u "iso") then u "iso" else f) acc)
            families acc).
Proof.
  induction families as [|g families IH]; intros acc f Hf; cbn [fold_left].
  - destruct Hf as [Hf|[]]. exact Hf.
  - apply IH.
    assert (Hg : (if str_eqb g (u "iso") then u "iso" else g) = g).
    { destruct (str_eqb g (u "iso")) eqn:E; [|reflexivity].
      apply str_eqb_eq in E. now subst. }
    rewrite Hg. unfold set_add.
    destruct Hf as [Hf|[<-|Hf]].
    + left. destruct (set_has g acc); [assumption|]. apply in_or_app. now left.
    + left. destruct (set_has g acc) eqn:Eh.
      * unfold set_has in Eh. apply existsb_exists in Eh as (x & Hx & Ex).
        apply str_eqb_eq in Ex. now subst.
      * apply in_or_app. right. now left.
    + now right.
Qed.

End NormalizeFacts.

(** X14: A successful normalisation returns the rows that hold a date, in their
    order, each with [date_raw] and [date_iso] added; one family of format
    read them all; the rows left out are those without a date, and there are
    none unless missing dates are to be dropped. *)
Theorem normalizeDatesInRows_success_shape (H : Host) (fuel : nat)
    (rows : list obj) (opts : options) (out : list obj) (ws : list jsstring) :
  normalizeDatesInRows fuel rows opts = Some (Ok (out, ws)) ->
  let dk := orDefault (dateKey opts) (u "date") in
  out = map (normalizedRow dk) (datedRows dk rows)
  /\ (orDefault (onMissingDate opts) (u "error") <> u "drop" ->
      datedRows dk rows = rows)
  /\ (forall r r' f f',
        In r (datedRows dk rows) -> In r' (datedRows dk rows) ->
        familyOf dk r = Some f -> familyOf dk r' = Some f' ->
        f = f' /\ f <> u "ambiguous" /\ f <> u "invalid")
  /\ ((List.length out < List.length rows)%nat ->
      exists rest,
        ws = (u "Dropped "
                ++ intToString (Z.of_nat (List.length rows - List.length out))
                ++ u " rows in " ++ orDefault (sourceName opts) (u "unknown")
                ++ u " due to missing dates.") :: rest).
Proof.
  intros Hrun dk. unfold normalizeDatesInRows in Hrun. fold dk in Hrun.
  cbv zeta in Hrun.
  destruct (normalizeLoop dk _ _ rows 0 [] [] 0) as [[[fams nrows] dropped]|e] eqn:El;
    [|discriminate].
  destruct (normalizeLoop_Ok _ _ _ _ _ _ _ _ _ _ _ El)
    as (Hout & Hcount & Hall & _ & Hrows).
  cbn [app] in Hout. cbn [Nat.add] in Hcount.
  set (eff := fold_left _ fams []) in Hrun.
  destruct (1 <? List.length eff)%nat eqn:Emix; [discriminate|].
  apply Nat.ltb_ge in Emix.
  set (dropWarning := u "Dropped " ++ intToString (Z.of_nat dropped) ++ _) in Hrun.
  assert (Hnrows : nrows = out
                   /\ ((0 < dropped)%nat -> exists rest, ws = dropWarning :: rest)).
  { destruct (0 <? dropped)%nat eqn:Ed.
    - destruct (List.length _ <? 7)%nat in Hrun;
        (destruct (2 <=? _)%nat in Hrun;
         [destruct (gapLoop _ _ _ _ _) as [missing|] in Hrun; [|discriminate];
          destruct missing|]);
        injection Hrun as -> <-; (split; [reflexivity|]); intros _;
        cbn [app]; eauto.
    - apply Nat.ltb_ge in Ed.
      split; [|intros Hd; lia].
      destruct (List.length _ <? 7)%nat in Hrun;
        (destruct (2 <=? _)%nat in Hrun;
         [destruct (gapLoop _ _ _ _ _) as [missing|] in Hrun; [|discriminate]|]);
        now injection Hrun as -> _. }
  destruct Hnrows as [Hnrows Hdrop].
  rewrite Hnrows in Hout.
  assert (Hlen : (dropped + List.length out = List.length rows)%nat).
  { rewrite Hout at 1. now rewrite length_map. }
  split; [exact Hout|]. split.
  { intros Hom. apply Hall. now apply str_eqb_neq. }
  split.
  2:{ intros Hlt. destruct Hdrop as [rest ->]; [lia|].
      exists rest. subst dropWarning.
      replace (List.length rows - List.length out)%nat with dropped by lia.
      reflexivity. }
  intros r r' f f' Hr Hr' Hf Hf'.
  destruct (Hrows r Hr) as (g & Hg & Hgin & Hga & Hgi).
  destruct (Hrows r' Hr') as (g' & Hg' & Hgin' & _ & _).
  rewrite Hf in Hg. rewrite Hf' in Hg'. injection Hg as <-. injection Hg' as <-.
  split; [|split; assumption].
  assert (Hin : In f eff) by (apply effective_families_cover; now right).
  assert (Hin' : In f' eff) by (apply effective_families_cover; now right).
  destruct eff as [|a [|b eff']]; [contradiction| |cbn in Emix; lia].
  destruct Hin as [<-|[]]. now destruct Hin' as [<-|[]].
Qed.

Lemma normalizeDatesInRows_success_shape_witness :
  let opts := mkOptions (Some (u "date")) (Some (u "orders")) (Some (u "drop")) in
  exists out ws,
    normalizeDatesInRows (H := ReferenceHost.host) 10 sampleDatedRows opts
    = Some (Ok (out, ws))
    /\ List.length out = 2%nat
    /\ out = map (normalizedRow (H := ReferenceHost.host) (u "date"))
               (datedRows (H := ReferenceHost.host) (u "date") sampleDatedRows).
Proof.
  intros opts. eexists. eexists. split; [vm_compute; reflexivity|].
  split; [reflexivity|].
  refine (proj1 (normalizeDatesInRows_success_shape ReferenceHost.host 10
                   sampleDatedRows opts _ _ _)).
  vm_compute; reflexivity.
Defined.

End NormalizedRows.


(** ** The date normaliser always returns *)

Section NormalizerEnds.
Import Js. Import Statements.
Local Open Scope Z_scope.
Import DateNormalizer.

Section NormalizerReturns.
Context {H : Host}.

Lemma looksLikeIsoTs_none (s : jsstring) :
  looksLikeIsoTs s = false -> parseIsoTimestamp s = None.
Proof. intros E. unfold parseIsoTimestamp. now rewrite E. Qed.

Lemma normalizedRow_date (dk : jsstring) (r : obj) (f : jsstring) :
  looksLikeIsoTs (dateText dk r) = false ->
  familyOf dk r = Some f -> f <> u "ambiguous" -> f <> u "invalid" ->
  isoDay (rowDateIso (normalizedRow dk r)).
Proof.
  intros Hts Hf Ha Hi. unfold familyOf in Hf. unfold normalizedRow.
  destruct (parseDateValue (dateText dk r)) as [p|] eqn:Ep; [|discriminate].
  cbn [option_map] in Hf. injection Hf as <-.
  destruct (parseDateValue_result _ _ (looksLikeIsoTs_none _ Hts) Ep)
    as [E|[E|(z & Hz & Ez)]]; [contradiction..|].
  exists z. split; [exact Hz|].
  unfold rowDateIso, obj_get, obj_set. rewrite assoc_get_set_same, Ez. reflexivity.
Qed.

Lemma dateSet_In (rows : list obj) :
  forall acc s,
    In s (fold_left (fun acc r => set_add (rowDateIso r) acc) rows acc) ->
    In s acc \/ In s (map rowDateIso rows).
Proof.
  induction rows as [|r rows IH]; intros acc s Hs; cbn [fold_left] in Hs.
  - now left.
  - apply IH in Hs as [Hs|Hs]; [|right; now right].
    unfold set_add in Hs. destruct (set_has (rowDateIso r) acc); [now left|].
    apply in_app_or in Hs as [Hs|[<-|[]]]; [now left|]. right. now left.
Qed.

Lemma last_In {A : Type} (l : list A) (d : A) : l <> [] -> In (last l d) l.
Proof.
  induction l as [|x l IH]; intros Hne; [contradiction|].
  destruct l as [|y l]; [now left|]. right. apply IH. discriminate.
Qed.

End NormalizerReturns.

(** X15: In a time zone that keeps every local time on its civil day, the
    normaliser returns, whatever the rows: when no date text starts like a
    timestamp, the scan for missing days between the first and the last date
    ends within the days of the years 0100 to 9999, so that much fuel always
    gives the result, and more fuel gives the same. *)
Theorem normalizeDatesInRows_returns (H : Host) (rows : list obj) (opts : options) :
  keepsCivilDays H ->
  let dk := orDefault (dateKey opts) (u "date") in
  Forall (fun r => looksLikeIsoTs (dateText dk r) = false) rows ->
  exists res,
    forall fuel : nat,
      3615900 <= Z.of_nat fuel -> normalizeDatesInRows fuel rows opts = Some res.
Proof.
  intros HC dk Hts. unfold normalizeDatesInRows. fold dk. cbv zeta.
  destruct (normalizeLoop dk _ _ rows 0 [] [] 0) as [[[fams nrows] dropped]|e] eqn:El.
  2:{ eexists. intros fuel _. reflexivity. }
  destruct (1 <? List.length _)%nat; [eexists; intros fuel _; reflexivity|].
  set (dateSet := fold_left (fun acc r => set_add (rowDateIso r) acc) nrows []).
  destruct (2 <=? List.length (sortBy str_ltb dateSet))%nat eqn:E2;
    [|eexists; intros fuel _; reflexivity].
  destruct (normalizeLoop_Ok _ _ _ _ _ _ _ _ _ _ _ El)
    as (Hout & _ & _ & _ & Hrows).
  cbn [app] in Hout.
  assert (Hset : forall s, In s dateSet -> isoDay s).
  { intros s Hs. apply dateSet_In in Hs as [[]|Hs].
    rewrite Hout, map_map in Hs. apply in_map_iff in Hs as (r & <- & Hr).
    destruct (Hrows r Hr) as (f & Hf & _ & Ha & Hi).
    apply (normalizedRow_date dk r f); try assumption.
    rewrite Forall_forall in Hts. apply Hts.
    unfold datedRows in Hr. now apply filter_In in Hr as [Hr _]. }
  assert (Hne : sortBy str_ltb dateSet <> []).
  { intros E. rewrite E in E2. discriminate. }
  destruct (Hset (hd [] (sortBy str_ltb dateSet))) as (a & Ha & Ea).
  { apply (sortBy_In str_ltb).
    destruct (sortBy str_ltb dateSet); [contradiction|now left]. }
  destruct (Hset (last (sortBy str_ltb dateSet) [])) as (b & Hb & Eb).
  { apply (sortBy_In str_ltb). now apply last_In. }
  rewrite Ea, Eb. eexists. intros fuel Hfuel.
  rewrite (gapLoop_spec b dateSet HC Hb fuel a [] Ha).
  2:{ unfold inIsoRange in Ha, Hb.
      assert (MakeDay 9999 11 31 - MakeDay 100 0 1 = 3615899)
        by (vm_compute; reflexivity).
      lia. }
  cbn [app]. reflexivity.
Qed.

Lemma normalizeDatesInRows_returns_witness :
  let opts := mkOptions (Some (u "date")) (Some (u "orders")) (Some (u "drop")) in
  keepsCivilDays ReferenceHost.host
  /\ Forall (fun r => looksLikeIsoTs (dateText (H := ReferenceHost.host) (u "date") r) = false)
    sampleDatedRows
  /\ exists res,
       forall fuel : nat,
         3615900 <= Z.of_nat fuel ->
         normalizeDatesInRows (H := ReferenceHost.host) fuel sampleDatedRows opts
         = Some res.
Proof.
  intros opts.
  assert (Hts : Forall (fun r => looksLikeIsoTs
                                   (dateText (H := ReferenceHost.host) (u "date") r) = false)
                  sampleDatedRows)
    by (repeat constructor).
  split; [exact utc_keeps_civil_days|]. split; [exact Hts|].
  exact (normalizeDatesInRows_returns ReferenceHost.host sampleDatedRows opts
           utc_keeps_civil_days Hts).
Defined.

End NormalizerEnds.


(** ** Daily weather and the outcomes of the merge *)

Section DailyWeather.
Import Js. Import Statements.
Import DataMerger.

Section WeatherFacts.

Lemma weatherStep_get (acc : list (jsstring * Bucket)) (r : WeatherRow)
    (d : jsstring) :
  assoc_get d (weatherStep acc r) =
    if weatherOf d r
    then Some (addToBucket
                 (match assoc_get d acc with Some b => b | None => emptyBucket end) r)
    else assoc_get d acc.
Proof.
  unfold weatherStep, weatherOf.
  destruct (weather_date_iso r) as [d'|]; cbn [noDate dateOf]; [|reflexivity].
  destruct d' as [|c d']; [now rewrite andb_false_r|].
  cbn [negb]. rewrite andb_true_r.
  destruct (str_eqb d (c :: d')) eqn:E.
  - apply str_eqb_eq in E. subst. now rewrite assoc_get_set_same.
  - apply str_eqb_neq in E. now rewrite assoc_get_set_other.
Qed.

Lemma weatherStep_NoDup (acc : list (jsstring * Bucket)) (r : WeatherRow) :
  NoDup (map fst acc) -> NoDup (map fst (weatherStep acc r)).
Proof.
  intros Hnd. unfold weatherStep. destruct (noDate _); [exact Hnd|].
  now apply assoc_set_NoDup.
Qed.

Lemma weatherBuckets (rows : list WeatherRow) :
  forall acc d,
    assoc_get d (fold_left weatherStep rows acc)
    = bucketFrom (assoc_get d acc) d rows
    /\ (NoDup (map fst acc) ->
        NoDup (map fst (fold_left weatherStep rows acc))).
Proof.
  induction rows as [|r rows IH]; intros acc d; [now split|].
  cbn [fold_left bucketFrom]. destruct (IH (weatherStep acc r) d) as [Hget Hnd].
  split.
  - now rewrite Hget, weatherStep_get.
  - intros Hacc. now apply Hnd, weatherStep_NoDup.
Qed.

Lemma weatherEntry_get (byDate : list (jsstring * DailyWeather))
    (k : jsstring) (b : Bucket) (d : jsstring) :
  assoc_get d (weatherEntry byDate (k, b)) =
    if str_eqb d k
    then match dailyOfBucket k b with
         | Some w => Some w
         | None => assoc_get d byDate
         end
    else assoc_get d byDate.
Proof.
  unfold weatherEntry, dailyOfBucket.
  destruct (countTemp b =? 0)%nat; [now destruct (str_eqb d k)|].
  destruct (str_eqb d k) eqn:E.
  - apply str_eqb_eq in E. subst. now rewrite assoc_get_set_same.
  - apply str_eqb_neq in E. now rewrite assoc_get_set_other.
Qed.

Lemma weatherEntries_get (acc : list (jsstring * Bucket)) (d : jsstring) :
  NoDup (map fst acc) ->
  forall byDate,
    assoc_get d (fold_left weatherEntry acc byDate) =
      match assoc_get d acc with
      | Some b =>
          match dailyOfBucket d b with
          | Some w => Some w
          | None => assoc_get d byDate
          end
      | None => assoc_get d byDate
      end.
Proof.
  induction acc as [|[k b] acc IH]; intros Hnd byDate; [reflexivity|].
  cbn [map fst] in Hnd. inversion Hnd as [|? ? Hk Hnd']; subst.
  cbn [fold_left assoc_get]. rewrite (IH Hnd'), weatherEntry_get.
  destruct (str_eqb d k) eqn:E; [|reflexivity].
  apply str_eqb_eq in E. subst k.
  destruct (assoc_get d acc) as [b'|] eqn:Eacc; [|reflexivity].
  exfalso. apply Hk. apply assoc_get_key. congruence.
Qed.

Lemma aggregateWeatherDaily_get (rows : list WeatherRow) (d : jsstring) :
  assoc_get d (aggregateWeatherDaily rows) = dailyWeatherOf d rows.
Proof.
  unfold aggregateWeatherDaily, dailyWeatherOf.
  destruct (weatherBuckets rows [] d) as [Hget Hnd].
  rewrite weatherEntries_get by (apply Hnd; constructor).
  rewrite Hget. cbn [assoc_get].
  destruct (bucketFrom None d rows) as [b|]; [|reflexivity].
  now destruct (dailyOfBucket d b).
Qed.

Lemma bucketFrom_count (d : jsstring) (rows : list WeatherRow) :
  forall b,
    match bucketFrom b d rows with
    | Some b' =>
        (0 < countTemp b')%nat <->
        (exists b0, b = Some b0 /\ (0 < countTemp b0)%nat)
        \/ exists r, In r rows /\ weatherOf d r = true
                     /\ Number_isFinite (weather_temperature_c r) = true
    | None => b = None /\ forall r, In r rows -> weatherOf d r = false
    end.
Proof.
  induction rows as [|r rows IH]; intros b.
  - cbn. destruct b as [b|].
    + split; [intros Hc; left; eauto|].
      intros [(b0 & [= <-] & Hc)|(r & [] & _)]. exact Hc.
    + split; [reflexivity|]. intros r [].
  - cbn [bucketFrom]. specialize (IH (if weatherOf d r
                                       then Some (addToBucket
                                                    match b with
                                                    | Some b0 => b0
                                                    | None => emptyBucket
                                                    end r)
                                       else b)).
    destruct (bucketFrom _ d rows) as [b'|].
    + rewrite IH. clear IH. destruct (weatherOf d r) eqn:Ew.
      * set (b0 := match b with Some b0 => b0 | None => emptyBucket end).
        assert (Hadd : (0 < countTemp (addToBucket b0 r))%nat
                       <-> (0 < countTemp b0)%nat
                           \/ Number_isFinite (weather_temperature_c r) = true).
        { unfold addToBucket.
          destruct (Number_isFinite (weather_temperature_c r));
            destruct (Number_isFinite (weather_rainfall_mm r));
            destruct (Number_isFinite (weather_humidity_pct r));
            cbn [countTemp]; intuition (try lia; try discriminate). }
        split.
        -- intros [(bx & [= <-] & Hc)|(r' & Hin & Hw & Hf)].
           ++ apply Hadd in Hc as [Hc|Hf].
              ** left. subst b0. destruct b as [bb|]; [eauto|cbn in Hc; lia].
              ** right. exists r. repeat split; auto. now left.
           ++ right. exists r'. repeat split; auto. now right.
        -- intros [(bx & -> & Hc)|(r' & [<-|Hin] & Hw & Hf)].
           ++ left. eexists. split; [reflexivity|]. apply Hadd. now left.
           ++ left. eexists. split; [reflexivity|]. apply Hadd. now right.
           ++ right. now exists r'.
      * split.
        -- intros [Hb|(r' & Hin & Hw & Hf)]; [now left|].
           right. exists r'. repeat split; auto. now right.
        -- intros [Hb|(r' & [<-|Hin] & Hw & Hf)]; [now left|congruence|].
           right. now exists r'.
    + destruct IH as [Hb Hall]. destruct (weatherOf d r) eqn:Ew; [discriminate|].
      split; [exact Hb|]. intros r' [<-|Hin]; auto.
Qed.

Lemma weather_present_iff (rows : list WeatherRow) (d : jsstring) :
  assoc_get d (aggregateWeatherDaily rows) <> None
  <-> exists r, In r rows /\ weatherOf d r = true
                /\ Number_isFinite (weather_temperature_c r) = true.
Proof.
  rewrite aggregateWeatherDaily_get.
  unfold dailyWeatherOf. pose proof (bucketFrom_count d rows None) as Hb.
  destruct (bucketFrom None d rows) as [b|].
  - unfold dailyOfBucket.
    destruct (Nat.eqb_spec (countTemp b) 0) as [E|E].
    + split; [intros Hn; now contradiction Hn|].
      intros Hex. exfalso.
      assert (Hc : (0 < countTemp b)%nat) by (apply Hb; now right). lia.
    + split; [|discriminate]. intros _.
      assert (Hc : (0 < countTemp b)%nat) by lia.
      apply Hb in Hc as [(b0 & [=] & _)|Hex]. exact Hex.
  - destruct Hb as [_ Hall].
    split; [intros Hn; now contradiction Hn|].
    intros (r & Hin & Hw & _). rewrite (Hall r Hin) in Hw. discriminate.
Qed.

End WeatherFacts.

(** X16: The weather of a date is what the rows of that date add up to, in input
    order: the mean of the finite temperatures, the total of the finite
    rainfalls and the mean of the finite humidities.  A date has weather
    exactly when one of its rows holds a finite temperature. *)
Theorem daily_weather_is_per_date_aggregate (rows : list WeatherRow) (d : jsstring) :
  assoc_get d (aggregateWeatherDaily rows) = dailyWeatherOf d rows
  /\ (assoc_get d (aggregateWeatherDaily rows) <> None
      <-> exists r, In r rows /\ weatherOf d r = true
                    /\ Number_isFinite (weather_temperature_c r) = true)
  /\ (forall w, assoc_get d (aggregateWeatherDaily rows) = Some w -> dw_date_iso w = d).
Proof.
  split; [apply aggregateWeatherDaily_get|].
  split; [apply weather_present_iff|].
  rewrite aggregateWeatherDaily_get. unfold dailyWeatherOf, dailyOfBucket.
  intros w. destruct (bucketFrom None d rows) as [b|]; [|discriminate].
  destruct (countTemp b =? 0)%nat; [discriminate|]. now intros [= <-].
Qed.

Section MergeOutcomes.
Context {H : Host}.

Lemma merge_loop_counts (fuel : nat) (W : list (jsstring * DailyWeather)) (g : num)
    (daily : list DailyOrders) :
  forall merged warnings st,
    mergeLoop fuel W g daily (merged, warnings) = Some st ->
    (List.length (fst st) + List.length (snd st)
     = List.length merged + List.length warnings + List.length daily)%nat.
Proof.
  induction daily as [|o daily IH]; intros merged warnings st Hst;
    cbn [mergeLoop] in Hst.
  - injection Hst as <-. cbn. lia.
  - destruct (mergeStep fuel W g (merged, warnings) o) as [[m' w']|] eqn:E;
      [|discriminate].
    rewrite (IH _ _ _ Hst). unfold mergeStep in E.
    destruct (findNearestWeather fuel (daily_date_iso o) W g) as [[[w i]|]|];
      [| |discriminate]; injection E as <- <-; rewrite length_app; cbn; lia.
Qed.

(** The loop returns when every search does. *)
Lemma merge_loop_returns (fuel : nat) (W : list (jsstring * DailyWeather)) (g : num)
    (daily : list DailyOrders) :
  (forall o, In o daily -> findNearestWeather fuel (daily_date_iso o) W g <> None) ->
  forall st, exists st', mergeLoop fuel W g daily st = Some st'.
Proof.
  induction daily as [|o daily IH]; intros Hall st; cbn [mergeLoop].
  - now exists st.
  - destruct st as [merged warnings]. unfold mergeStep.
    specialize (Hall o (or_introl eq_refl)) as Ho.
    destruct (findNearestWeather fuel (daily_date_iso o) W g) as [[[w i]|]|];
      [| |contradiction]; apply IH; intros o' Ho'; apply Hall; now right.
Qed.

Lemma mergedOf_nil (fuel : nat) (W : list (jsstring * DailyWeather)) (g : num)
    (daily : list DailyOrders) :
  (forall o, In o daily -> findNearestWeather fuel (daily_date_iso o) W g <> None) ->
  mergedOf fuel W g daily = [] <->
  forall o, In o daily -> findNearestWeather fuel (daily_date_iso o) W g = Some None.
Proof.
  induction daily as [|o daily IH]; intros Hret; [cbn; tauto|].
  unfold mergedOf. cbn [flat_map]. fold (mergedOf fuel W g daily).
  specialize (Hret o (or_introl eq_refl)) as Ho.
  destruct (findNearestWeather fuel (daily_date_iso o) W g) as [[[w i]|]|] eqn:E;
    [| |contradiction].
  - split; [discriminate|]. intros Hall. specialize (Hall o (or_introl eq_refl)).
    congruence.
  - cbn [app]. rewrite IH by (intros o' Ho'; apply Hret; now right). split.
    + intros Hall o' [<-|Hin]; auto.
    + intros Hall o' Hin. apply Hall. now right.
Qed.

(** A search that returns in the loop: every search of a loop that returns
    did. *)
Lemma merge_loop_searches (fuel : nat) (W : list (jsstring * DailyWeather)) (g : num)
    (daily : list DailyOrders) :
  forall st st',
    mergeLoop fuel W g daily st = Some st' ->
    forall o, In o daily -> findNearestWeather fuel (daily_date_iso o) W g <> None.
Proof.
  induction daily as [|o daily IH]; intros st st' Hst o' Ho'; [contradiction|].
  cbn [mergeLoop] in Hst.
  destruct (mergeStep fuel W g st o) as [st1|] eqn:E; [|discriminate].
  destruct Ho' as [<-|Ho'].
  - unfold mergeStep in E. destruct st as [m w].
    now destruct (findNearestWeather fuel (daily_date_iso o) W g).
  - now apply (IH _ _ Hst).
Qed.

(** Without any daily weather, a search for a bound below 2^53 ends
    without a day. *)
Lemma findNearestWeather_empty (fuel : nat) (d : jsstring) (g : num)
    (W : list (jsstring * DailyWeather)) :
  (forall k, assoc_get k W = None) ->
  findNearestWeather fuel d W g <> None ->
  findNearestWeather fuel d W g = Some None.
Proof.
  intros HW. unfold findNearestWeather. rewrite HW.
  generalize one. induction fuel as [|n IH]; intros k; [contradiction|].
  cbn [searchOutward]. destruct (fleb k g); [|reflexivity].
  rewrite !HW. apply IH.
Qed.

(** For a bound below 2^53 every search returns, within as many turns as
    the integer part of the bound, and one more. *)
Lemma findNearestWeather_returns (fuel : nat) (d : jsstring) (g : num)
    (W : list (jsstring * DailyWeather)) :
  validNum g = true -> isFiniteNum g = true ->
  (floorZ g < 2 ^ 53 - 1)%Z -> (Z.max 0 (floorZ g) < Z.of_nat fuel)%Z ->
  findNearestWeather fuel d W g <> None.
Proof.
  intros Hv Hfin Hbig Hfuel. unfold findNearestWeather.
  destruct (assoc_get d W); [discriminate|].
  change one with (ofZ (Z.of_nat 1)).
  rewrite (searchOutward_first_candidate d g W Hv Hfin Hbig fuel 1) by lia.
  discriminate.
Qed.

Lemma merge_result (fuel : nat) (orderRows : list OrderRow)
    (weatherRows : list WeatherRow) (opts : options) :
  let daily := aggregateOrdersDaily orderRows in
  let W := aggregateWeatherDaily weatherRows in
  let g := effectiveMaxGap opts in
  mergeOrdersWithWeather fuel orderRows weatherRows opts =
    match mergeLoop fuel W g daily ([], []) with
    | None => None
    | Some st =>
        Some (match sortBy byDateIso (mergedOf fuel W g daily) with
              | [] => Fail noRowsError
              | rows => Ok (rows, snd st)
              end)
    end.
Proof.
  intros daily W g. unfold mergeOrdersWithWeather. fold daily W g.
  pose proof (merge_loop_rows fuel W g daily [] []) as Hrows.
  destruct (mergeLoop fuel W g daily ([], [])) as [[merged warnings]|];
    [|reflexivity].
  specialize (Hrows _ eq_refl). cbn [app fst snd] in *. subst merged.
  now destruct (sortBy byDateIso (mergedOf fuel W g daily)).
Qed.

End MergeOutcomes.

(** X17: When the merge returns, it fails in one way only, with
    [MERGE_NO_ROWS], exactly when no date of the daily orders finds weather
    within the gap, and when it succeeds it returns at least one row, every
    date of the daily orders being either merged or dropped with one warning.
    For a gap bound below 2^53 it returns, each search taking at most as
    many turns as the integer part of the bound and one more, and it fails
    with [MERGE_NO_ROWS] whenever no weather row holds a finite temperature;
    for a bound from 2^53 on, where the counter of the search no longer
    moves, it never returns when there is a daily order and no weather row
    holds a finite temperature. *)
Theorem merge_outcomes (H : Host) (fuel : nat) (orderRows : list OrderRow)
    (weatherRows : list WeatherRow) (opts : options) :
  let daily := aggregateOrdersDaily orderRows in
  let W := aggregateWeatherDaily weatherRows in
  let g := effectiveMaxGap opts in
  (forall res,
     mergeOrdersWithWeather fuel orderRows weatherRows opts = Some res ->
     match res with
     | Ok (rows, warnings) =>
         rows <> []
         /\ (List.length rows + List.length warnings = List.length daily)%nat
     | Fail e =>
         e = noRowsError
         /\ forall o, In o daily ->
              findNearestWeather fuel (daily_date_iso o) W g = Some None
     end)
  /\ (validNum g = true ->
      (floorZ g < 2 ^ 53 - 1)%Z -> (Z.max 0 (floorZ g) < Z.of_nat fuel)%Z ->
      (exists res, mergeOrdersWithWeather fuel orderRows weatherRows opts = Some res)
      /\ ((forall r, In r weatherRows ->
             Number_isFinite (weather_temperature_c r) = false) ->
          mergeOrdersWithWeather fuel orderRows weatherRows opts
            = Some (Fail noRowsError)))
  /\ (validNum g = true -> (2 ^ 53 <= floorZ g)%Z -> daily <> [] ->
      (forall r, In r weatherRows ->
         Number_isFinite (weather_temperature_c r) = false) ->
      mergeOrdersWithWeather fuel orderRows weatherRows opts = None).
Proof.
  intros daily W g.
  pose proof (merge_result fuel orderRows weatherRows opts) as Hres.
  cbv zeta in Hres. fold daily W g in Hres.
  assert (Hfin : isFiniteNum g = true).
  { subst g. unfold effectiveMaxGap.
    destruct (Number_isFinite (maxGapDays opts)) eqn:E; [|reflexivity].
    destruct (maxGapDays opts); try discriminate. exact E. }
  assert (Hempty : (forall r, In r weatherRows ->
                      Number_isFinite (weather_temperature_c r) = false) ->
                   forall k, assoc_get k W = None).
  { intros Hcold k. subst W.
    destruct (assoc_get k (aggregateWeatherDaily weatherRows)) eqn:E;
      [|reflexivity].
    exfalso.
    assert (Hne : assoc_get k (aggregateWeatherDaily weatherRows) <> None)
      by congruence.
    apply weather_present_iff in Hne as (r & Hin & _ & Hf).
    rewrite (Hcold r Hin) in Hf. discriminate. }
  split; [|split].
  - intros res Hrun. rewrite Hres in Hrun.
    pose proof (merge_loop_rows fuel W g daily [] []) as Hrows.
    pose proof (merge_loop_counts fuel W g daily [] []) as Hcount.
    pose proof (merge_loop_searches fuel W g daily ([], [])) as Hret.
    destruct (mergeLoop fuel W g daily ([], [])) as [st|]; [|discriminate].
    specialize (Hrows _ eq_refl). specialize (Hcount _ eq_refl).
    specialize (Hret _ eq_refl).
    cbn [app List.length Nat.add] in Hrows, Hcount.
    injection Hrun as <-.
    destruct (sortBy byDateIso (mergedOf fuel W g daily)) as [|r rs] eqn:Es.
    + split; [reflexivity|]. apply mergedOf_nil; [exact Hret|].
      apply (f_equal (@List.length _)) in Es. rewrite sortBy_length in Es.
      now destruct (mergedOf fuel W g daily).
    + split; [discriminate|].
      rewrite <- Es, sortBy_length, <- Hrows. exact Hcount.
  - intros Hv Hbig Hfuel.
    assert (Hret : forall o, In o daily ->
                     findNearestWeather fuel (daily_date_iso o) W g <> None).
    { intros o _. now apply findNearestWeather_returns. }
    destruct (merge_loop_returns fuel W g daily Hret ([], [])) as [st Hst].
    rewrite Hres, Hst. split; [eexists; reflexivity|].
    intros Hcold.
    assert (Hnil : mergedOf fuel W g daily = []).
    { apply mergedOf_nil; [exact Hret|]. intros o Ho.
      apply findNearestWeather_empty; [now apply Hempty | now apply Hret]. }
    now rewrite Hnil.
  - intros Hv Hbig Hne Hcold. unfold mergeOrdersWithWeather. fold daily W g.
    destruct daily as [|o daily']; [contradiction|].
    cbn [mergeLoop]. unfold mergeStep, findNearestWeather.
    rewrite (Hempty Hcold).
    change one with (ofZ 1).
    rewrite (searchOutward_without_end (daily_date_iso o) g W Hv Hfin Hbig)
      by (try (intros x; now apply Hempty); lia).
    reflexivity.
Qed.

Lemma merge_outcomes_witness :
  let orderRows := [mkOrderRow (Some (u "2024-01-05")) (JNum (ofZ 7))] in
  let weatherRows :=
    [mkWeatherRow (Some (u "2024-01-05")) JNull (JNum (ofZ 1)) JNull] in
  mergeOrdersWithWeather (H := ReferenceHost.host) 4 orderRows weatherRows
    (mkOptions JUndefined) = Some (Fail noRowsError)
  /\ forall fuel,
       mergeOrdersWithWeather (H := ReferenceHost.host) fuel orderRows weatherRows
         (mkOptions (JNum (ofZ (2 ^ 53)))) = None.
Proof.
  intros orderRows weatherRows.
  assert (Hcold : forall r, In r weatherRows ->
                    Number_isFinite (weather_temperature_c r) = false)
    by (intros r [<-|[]]; reflexivity).
  split.
  - refine (proj2 (proj1 (proj2 (merge_outcomes ReferenceHost.host 4 orderRows
                                   weatherRows (mkOptions JUndefined))) _ _ _) Hcold);
      vm_compute; reflexivity.
  - intros fuel.
    refine (proj2 (proj2 (merge_outcomes ReferenceHost.host fuel orderRows
                            weatherRows (mkOptions (JNum (ofZ (2 ^ 53))))))
              _ _ _ Hcold).
    + vm_compute; reflexivity.
    + vm_compute; discriminate.
    + vm_compute; discriminate.
Defined.

End DailyWeather.


(** ** The nearest day with weather *)

Section NearestDays.
Import Js. Import Statements.
Local Open Scope Z_scope.
Import DataMerger.

Section NearestDay.
Context {H : Host}.

(** The merger and the date normaliser shift dates alike. *)
Lemma addDays_addDaysIso (s : jsstring) (k : num) :
  addDays s k = DateNormalizer.addDaysIso s k.
Proof. reflexivity. Qed.

Lemma addDays_day (z k : Z) :
  keepsCivilDays H ->
  inIsoRange z -> Z.abs k <= 1000000 ->
  addDays (isoOfDay z) (ofZ k) = isoOfDay (z + k).
Proof.
  intros HC Hz Hk. rewrite addDays_addDaysIso. now apply addDaysIso_text_day.
Qed.

(** The search from the offset [k] on returns, and what it finds lies at
    the first offset with weather on either side, the earlier day first. *)
Lemma searchOutward_nearest (z : Z) (W : list (jsstring * DailyWeather)) (g : num) :
  keepsCivilDays H ->
  inIsoRange z -> validNum g = true -> isFiniteNum g = true ->
  floorZ g <= 1000000 ->
  forall n k,
    1 <= k <= Z.max 0 (floorZ g) + 1 ->
    Z.max 0 (floorZ g) + 1 - k < Z.of_nat n ->
    (forall j, - k < j < k -> j <> 0 -> assoc_get (isoOfDay (z + j)) W = None) ->
    exists res,
      searchOutward n (ofZ k) g (isoOfDay z) W = Some res
      /\ match res with
         | Some (w, imputed) =>
             imputed = true
             /\ exists k', k <= k' <= floorZ g
                  /\ (forall j, - k' < j < k' -> j <> 0 ->
                        assoc_get (isoOfDay (z + j)) W = None)
                  /\ (assoc_get (isoOfDay (z - k')) W = Some w
                      \/ (assoc_get (isoOfDay (z - k')) W = None
                          /\ assoc_get (isoOfDay (z + k')) W = Some w))
         | None =>
             forall j, - floorZ g <= j <= floorZ g -> j <> 0 ->
                       assoc_get (isoOfDay (z + j)) W = None
         end.
Proof.
  intros HC Hz Hv Hfin Hg.
  induction n as [|n IH]; intros k Hk Hn Hnone; [lia|].
  cbn [searchOutward].
  rewrite loop_test_is_count
    by (try assumption; change (2 ^ 53) with 9007199254740992; lia).
  destruct (Z.leb_spec k (floorZ g)) as [Hle|Hgt].
  2:{ eexists. split; [reflexivity|]. intros j Hj Hj0. apply Hnone; lia. }
  rewrite fneg_ofZ
    by (unfold safeInt; change (2 ^ 53) with 9007199254740992; lia).
  rewrite !addDays_day by (assumption || lia).
  replace (z + - k) with (z - k) by lia.
  destruct (assoc_get (isoOfDay (z - k)) W) as [w|] eqn:Eprev.
  { eexists. split; [reflexivity|]. split; [reflexivity|].
    exists k. split; [lia|]. split; [exact Hnone|]. now left. }
  destruct (assoc_get (isoOfDay (z + k)) W) as [w|] eqn:Enext.
  { eexists. split; [reflexivity|]. split; [reflexivity|].
    exists k. split; [lia|]. split; [exact Hnone|]. now right. }
  assert (Hnone' : forall j, - (k + 1) < j < k + 1 -> j <> 0 ->
                     assoc_get (isoOfDay (z + j)) W = None).
  { intros j Hj Hj0.
    destruct (Z.eq_dec j k) as [->|Hjk]; [exact Enext|].
    destruct (Z.eq_dec j (- k)) as [->|Hjk'];
      [now replace (z + - k) with (z - k) by lia|].
    apply Hnone; lia. }
  unfold one.
  rewrite fadd_ofZ
    by (unfold safeInt; change (2 ^ 53) with 9007199254740992; lia).
  destruct (IH (k + 1) ltac:(lia) ltac:(lia) Hnone') as (res & Hres & Hspec).
  exists res. split; [exact Hres|].
  destruct res as [[w imputed]|]; [|exact Hspec].
  destruct Hspec as (Hi & k' & Hk' & Hrest). split; [exact Hi|].
  exists k'. split; [lia|exact Hrest].
Qed.

End NearestDay.

(** X18: In a time zone that keeps every local time on its civil day, the
    search for the weather of a date returns, within as many turns as the
    integer part of [maxGapDays] and one more, and the weather comes from
    the nearest day that has any: its own day, not imputed, or else the day
    at the least distance of at most [maxGapDays] calendar days, the earlier
    one of the two at that distance first, imputed; and none is found
    exactly when no day within that distance has weather. *)
Theorem nearest_weather_is_nearest_calendar_day (H : Host) (z : Z)
    (W : list (jsstring * DailyWeather)) (g : num) (fuel : nat) :
  keepsCivilDays H ->
  inIsoRange z -> validNum g = true -> isFiniteNum g = true ->
  floorZ g <= 1000000 -> Z.max 0 (floorZ g) < Z.of_nat fuel ->
  exists res,
    findNearestWeather fuel (isoOfDay z) W g = Some res
    /\ match res with
       | Some (w, imputed) =>
           exists k, 0 <= k /\ (k = 0 \/ k <= floorZ g)
             /\ imputed = negb (k =? 0)
             /\ (forall j, - k < j < k -> assoc_get (isoOfDay (z + j)) W = None)
             /\ (assoc_get (isoOfDay (z - k)) W = Some w
                 \/ (assoc_get (isoOfDay (z - k)) W = None
                     /\ assoc_get (isoOfDay (z + k)) W = Some w))
       | None =>
           forall j, - floorZ g <= j <= floorZ g \/ j = 0 ->
                     assoc_get (isoOfDay (z + j)) W = None
       end.
Proof.
  intros HC Hz Hv Hfin Hg Hfuel. unfold findNearestWeather.
  destruct (assoc_get (isoOfDay z) W) as [w|] eqn:Eown.
  { eexists. split; [reflexivity|].
    exists 0. split; [lia|]. split; [now left|]. split; [reflexivity|].
    split; [intros j Hj; lia|]. left. now replace (z - 0) with z by lia. }
  change one with (ofZ 1).
  destruct (searchOutward_nearest z W g HC Hz Hv Hfin Hg fuel 1
              ltac:(lia) ltac:(lia) ltac:(intros j Hj Hj0; lia))
    as (res & Hres & Hs).
  exists res. split; [exact Hres|].
  destruct res as [[w imputed]|].
  - destruct Hs as (-> & k & Hk & Hnone & Hfound).
    exists k. split; [lia|]. split; [right; lia|].
    split; [now replace (k =? 0) with false by lia|].
    split; [|exact Hfound].
    intros j Hj. destruct (Z.eq_dec j 0) as [->|Hj0].
    + now replace (z + 0) with z by lia.
    + now apply Hnone.
  - intros j [Hj| ->]; [|now replace (z + 0) with z by lia].
    destruct (Z.eq_dec j 0) as [->|Hj0]; [now replace (z + 0) with z by lia|].
    now apply Hs.
Qed.

Lemma nearest_weather_is_nearest_calendar_day_witness :
  let W := [ (u "2024-01-02", mkDailyWeather (u "2024-01-02") (ofZ 20) (ofZ 0) JNull);
             (u "2024-01-05", mkDailyWeather (u "2024-01-05") (ofZ 25) (ofZ 3) JNull) ] in
  keepsCivilDays ReferenceHost.host
  /\ findNearestWeather (H := ReferenceHost.host) 4 (u "2024-01-04") W (ofZ 3)
     = Some (Some (mkDailyWeather (u "2024-01-05") (ofZ 25) (ofZ 3) JNull, true))
  /\ exists res,
       findNearestWeather (H := ReferenceHost.host) 4
         (isoOfDay (MakeDay 2024 0 4)) W (ofZ 3) = Some res
       /\ match res with
          | Some (w, imputed) =>
              exists k, 0 <= k /\ (k = 0 \/ k <= floorZ (ofZ 3))
                /\ imputed = negb (k =? 0)
                /\ (forall j, - k < j < k ->
                      assoc_get (isoOfDay (MakeDay 2024 0 4 + j)) W = None)
                /\ (assoc_get (isoOfDay (MakeDay 2024 0 4 - k)) W = Some w
                    \/ (assoc_get (isoOfDay (MakeDay 2024 0 4 - k)) W = None
                        /\ assoc_get (isoOfDay (MakeDay 2024 0 4 + k)) W = Some w))
          | None =>
              forall j, - floorZ (ofZ 3) <= j <= floorZ (ofZ 3) \/ j = 0 ->
                        assoc_get (isoOfDay (MakeDay 2024 0 4 + j)) W = None
          end.
Proof.
  intros W. split; [exact utc_keeps_civil_days|].
  split; [vm_compute; reflexivity|].
  refine (nearest_weather_is_nearest_calendar_day ReferenceHost.host
            (MakeDay 2024 0 4) W (ofZ 3) 4 utc_keeps_civil_days _ _ _ _ _).
  - vm_compute; intuition discriminate.
  - vm_compute; reflexivity.
  - vm_compute; reflexivity.
  - vm_compute; discriminate.
  - vm_compute; reflexivity.
Defined.

End NearestDays.


(** ** Counts and shapes of the metrics *)

Section MetricsShapes.
Import Js. Import Statements.
Import DataMerger MetricsCalculator.

Section MetricsShape.
Context {H : Host}.

Lemma getDay_cases (dt : jsdate) :
  match dt with
  | Some z =>
      fltb (getDay dt) zero || fltb (ofZ 6) (getDay dt) = false
      /\ exists i, (i < 7)%nat /\ bucketIndex (getDay dt) = Some i
  | None =>
      fltb (getDay dt) zero || fltb (ofZ 6) (getDay dt) = false
      /\ bucketIndex (getDay dt) = None
  end.
Proof.
  destruct dt as [z|]; [|split; reflexivity].
  cbn [getDay].
  set (wd := ((Day (LocalTime z) + 4) mod 7)%Z).
  assert (Hwd : (0 <= wd < 7)%Z) by (apply Z.mod_pos_bound; lia).
  destruct (weekday_bucket wd Hwd) as [Hrange Hidx].
  split; [exact Hrange|]. exists (Z.to_nat wd). split; [lia|exact Hidx].
Qed.

Lemma updateAt_length {A : Type} (i : nat) (f : A -> A) (l : list A) :
  List.length (updateAt i f l) = List.length l.
Proof.
  revert i. induction l as [|x l IH]; intros [|i]; cbn; auto.
Qed.

Lemma updateAt_counts (i : nat) (x : num) (l : list (nat * num)) :
  (i < List.length l)%nat ->
  list_sum (map fst (updateAt i (fun b => (S (fst b), fadd (snd b) x)) l))
  = S (list_sum (map fst l)).
Proof.
  revert i. induction l as [|b l IH]; intros [|i] Hi;
    cbn [updateAt map fst list_sum fold_right List.length] in *; try lia.
  fold (list_sum (map fst (updateAt i (fun b => (S (fst b), fadd (snd b) x)) l))).
  fold (list_sum (map fst l)).
  rewrite IH by lia. lia.
Qed.

(** The weekday loop: it throws exactly at a row with a finite total whose
    date is no date; otherwise every row with a finite total adds one to
    one bucket. *)
Lemma dowLoop_spec (enriched : list Enriched) :
  (forall e, In e enriched ->
     day_of_week e = getDay (parseIsoToDate (date_iso (row e)))) ->
  forall buckets,
    (List.length buckets = 7)%nat ->
    match dowLoop enriched buckets with
    | Some buckets' =>
        (List.length buckets' = 7)%nat
        /\ list_sum (map fst buckets')
           = (list_sum (map fst buckets)
              + List.length (finiteOrders (map row enriched)))%nat
        /\ forall e, In e enriched ->
             Number_isFinite (total_orders (row e)) = true ->
             parseIsoToDate (date_iso (row e)) <> None
    | None =>
        exists e, In e enriched
                  /\ Number_isFinite (total_orders (row e)) = true
                  /\ parseIsoToDate (date_iso (row e)) = None
    end.
Proof.
  induction enriched as [|e enriched IH]; intros Hall buckets Hlen.
  - cbn. repeat split; [assumption|lia|intros e []].
  - assert (Hall' : forall e', In e' enriched ->
              day_of_week e' = getDay (parseIsoToDate (date_iso (row e'))))
      by (intros e' He'; apply Hall; now right).
    cbn [dowLoop map]. unfold finiteOrders. cbn [filter].
    fold (finiteOrders (map row enriched)).
    rewrite (Hall e (or_introl eq_refl)).
    pose proof (getDay_cases (parseIsoToDate (date_iso (row e)))) as Hd.
    destruct (parseIsoToDate (date_iso (row e))) as [z|] eqn:Ez.
    + destruct Hd as [Hrange (i & Hi & Hidx)]. rewrite Hrange, Hidx.
      destruct (Number_isFinite (total_orders (row e))) eqn:Ef; cbn [negb].
      * specialize (IH Hall' (updateAt i
                                (fun b => (S (fst b),
                                           fadd (snd b) (ToNumber (total_orders (row e)))))
                                buckets)).
        rewrite updateAt_length in IH. specialize (IH Hlen).
        destruct (dowLoop enriched _) as [buckets'|].
        -- destruct IH as (Hl & Hs & Hv). split; [exact Hl|]. split.
           ++ rewrite Hs, updateAt_counts by lia. cbn [List.length]. lia.
           ++ intros e' [<-|He'] Hf; [congruence|now apply Hv].
        -- destruct IH as (e' & He' & Hf & Hn). exists e'.
           split; [now right|now split].
      * specialize (IH Hall' buckets Hlen).
        destruct (dowLoop enriched buckets) as [buckets'|].
        -- destruct IH as (Hl & Hs & Hv). split; [exact Hl|]. split; [exact Hs|].
           intros e' [<-|He'] Hf; [congruence|now apply Hv].
        -- destruct IH as (e' & He' & Hf & Hn). exists e'.
           split; [now right|now split].
    + destruct Hd as [Hrange Hidx]. rewrite Hrange, Hidx.
      destruct (Number_isFinite (total_orders (row e))) eqn:Ef; cbn [negb].
      * exists e. split; [now left|now split].
      * specialize (IH Hall' buckets Hlen).
        destruct (dowLoop enriched buckets) as [buckets'|].
        -- destruct IH as (Hl & Hs & Hv). split; [exact Hl|]. split; [exact Hs|].
           intros e' [<-|He'] Hf; [congruence|now apply Hv].
        -- destruct IH as (e' & He' & Hf & Hn). exists e'.
           split; [now right|now split].
Qed.

Lemma enriched_weekdays (mergedRows : list MergedRow) (opts : options) :
  forall e, In e (enrichedRows mergedRows opts) ->
    day_of_week e = getDay (parseIsoToDate (date_iso (row e))).
Proof. intros e He. now apply enrichedRows_In in He. Qed.

Lemma dowEntries_shape (buckets : list (nat * num)) :
  forall k,
    map dow (dowEntries buckets k) = seq k (List.length buckets)
    /\ map label (dowEntries buckets k)
       = map dayOfWeekLabel (seq k (List.length buckets))
    /\ map count (dowEntries buckets k) = map fst buckets.
Proof.
  induction buckets as [|b buckets IH]; intros k; [now repeat split|].
  cbn [dowEntries map List.length seq dow label count].
  destruct (IH (S k)) as (Hd & Hl & Hc). now rewrite Hd, Hl, Hc.
Qed.

Lemma rainy_split (enriched : list Enriched) :
  (List.length (rainyOrders enriched) + List.length (nonRainyOrders enriched)
   = List.length enriched)%nat.
Proof.
  unfold rainyOrders, nonRainyOrders. rewrite !length_map.
  induction enriched as [|e enriched IH]; [reflexivity|].
  cbn [filter]. destruct (is_rainy e); cbn [negb List.length]; lia.
Qed.

Lemma finiteOrders_sorted_length (rows : list MergedRow) :
  List.length (finiteOrders (sortedRows rows)) = List.length (finiteOrders rows).
Proof.
  unfold finiteOrders, sortedRows.
  apply Permutation_length.
  assert (Hp : Permutation (sortBy byDateIso rows) rows) by apply sortBy_perm.
  clear -Hp. induction Hp; cbn [filter].
  - constructor.
  - destruct (Number_isFinite (total_orders x)); [now constructor|assumption].
  - destruct (Number_isFinite (total_orders x));
      destruct (Number_isFinite (total_orders y)); try apply Permutation_refl.
    constructor.
  - eapply Permutation_trans; eassumption.
Qed.

(** What a successful run of the engine says about its series. *)
Lemma metrics_series (mergedRows : list MergedRow) (opts : options) (m : Metrics) :
  calculateMetricsAndCharts mergedRows opts = Some (Ok m) ->
  mergedRows <> []
  /\ map op_date_iso (ordersOverTime (chartData m))
     = map date_iso (sortedRows mergedRows)
  /\ map tp_date_iso (tempCorrelation (chartData m))
     = map date_iso (sortedRows mergedRows)
  /\ (rainyDays (kpis m) + nonRainyDays (kpis m) = List.length mergedRows)%nat.
Proof.
  intros Hm.
  destruct mergedRows as [|r0 rest] eqn:Erows; [discriminate|].
  rewrite <- Erows in *.
  split; [rewrite Erows; discriminate|].
  unfold calculateMetricsAndCharts in Hm. rewrite Erows in Hm.
  rewrite <- Erows in Hm.
  destruct (dowLoop (enrichedRows mergedRows opts) (repeat (0%nat, zero) 7))
    as [buckets|]; [|discriminate].
  injection Hm as <-.
  cbn [kpis chartData rainyDays nonRainyDays ordersOverTime tempCorrelation].
  split; [rewrite map_map; cbn [op_date_iso];
          rewrite <- (enrichedRows_rows mergedRows opts), map_map; reflexivity|].
  split; [rewrite map_map; cbn [tp_date_iso];
          rewrite <- (enrichedRows_rows mergedRows opts), map_map; reflexivity|].
  rewrite rainy_split. apply enrichedRows_length.
Qed.

End MetricsShape.

(** X19: Whenever the engine returns metrics: every row is counted once, as
    rainy or as non-rainy; both chart series hold one point per row, in
    ascending order of date; the weekday table holds Sunday to Saturday, and
    every row with a finite total is counted in exactly one weekday; the
    correlation needs three rows; and the short-dataset warning is there
    exactly below seven rows. *)
Theorem metrics_counts_and_shapes (H : Host) (mergedRows : list MergedRow)
    (opts : options) (m : Metrics) :
  calculateMetricsAndCharts mergedRows opts = Some (Ok m) ->
  let n := List.length mergedRows in
  (rainyDays (kpis m) + nonRainyDays (kpis m) = n)%nat
  /\ map op_date_iso (ordersOverTime (chartData m))
     = map date_iso (sortedRows mergedRows)
  /\ StronglySorted (fun a b => str_ltb b a = false)
       (map date_iso (sortedRows mergedRows))
  /\ Permutation (map date_iso (sortedRows mergedRows)) (map date_iso mergedRows)
  /\ map tp_date_iso (tempCorrelation (chartData m))
     = map date_iso (sortedRows mergedRows)
  /\ map dow (dayOfWeek (chartData m)) = [0; 1; 2; 3; 4; 5; 6]%nat
  /\ map label (dayOfWeek (chartData m))
     = [u "Sun"; u "Mon"; u "Tue"; u "Wed"; u "Thu"; u "Fri"; u "Sat"]
  /\ list_sum (map count (dayOfWeek (chartData m)))
     = List.length (finiteOrders mergedRows)
  /\ ((n < 3)%nat -> tempOrderCorr (kpis m) = JNull)
  /\ warnings m
     = if (n <? 7)%nat
       then [u "Dataset is shorter than 7 days; some metrics may be unstable."]
       else [].
Proof.
  intros Hm. cbv zeta.
  destruct mergedRows as [|r0 rest] eqn:Erows; [discriminate|].
  rewrite <- Erows in *.
  assert (Hne : mergedRows <> []) by (rewrite Erows; discriminate).
  pose proof (dowLoop_spec (enrichedRows mergedRows opts)
                (enriched_weekdays mergedRows opts)
                (repeat (0%nat, zero) 7) eq_refl) as Hdow.
  destruct (dowLoop (enrichedRows mergedRows opts) (repeat (0%nat, zero) 7))
    as [buckets|] eqn:Eb.
  2:{ unfold calculateMetricsAndCharts in Hm. rewrite Erows in Hm.
      rewrite <- Erows in Hm. rewrite Eb in Hm. discriminate. }
  destruct Hdow as (Hlen & Hsum & _).
  unfold calculateMetricsAndCharts in Hm. rewrite Erows in Hm.
  rewrite <- Erows in Hm. rewrite Eb in Hm.
  injection Hm as <-.
  cbn [kpis chartData warnings rainyDays nonRainyDays ordersOverTime
         tempCorrelation dayOfWeek tempOrderCorr].
  destruct (dowEntries_shape buckets 0) as (Hd & Hl & Hc).
  rewrite Hlen in Hd, Hl.
  split; [rewrite rainy_split; apply enrichedRows_length|].
  split; [rewrite map_map; cbn [op_date_iso];
          rewrite <- (enrichedRows_rows mergedRows opts), map_map; reflexivity|].
  split.
  { apply StronglySorted_map. unfold sortedRows.
    apply (sortBy_sorted byDateIso).
    - intros a b. apply str_ltb_asym.
    - intros a b c. apply str_leb_trans. }
  split; [apply Permutation_map; unfold sortedRows; apply sortBy_perm|].
  split; [rewrite map_map; cbn [tp_date_iso];
          rewrite <- (enrichedRows_rows mergedRows opts), map_map; reflexivity|].
  split; [exact Hd|]. split; [exact Hl|].
  split.
  { rewrite Hc, Hsum, enrichedRows_rows. cbn [list_sum repeat map fold_right fst].
    apply finiteOrders_sorted_length. }
  split.
  { intros Hn. unfold pearsonCorrelation.
    set (pairs := finitePairs _ _).
    assert (Hp : (List.length pairs <= List.length mergedRows)%nat).
    { subst pairs. rewrite <- (enrichedRows_length mergedRows opts).
      generalize (enrichedRows mergedRows opts). intros l.
      induction l as [|e l IH]; [cbn; lia|].
      cbn [map finitePairs].
      destruct (Number_isFinite (temperature_c (row e)));
        destruct (Number_isFinite (total_orders (row e)));
        cbn [Number_isFinite andb List.length] in *;
        try (destruct (isFiniteNum _)); try (destruct (isFiniteNum _));
        cbn [andb List.length]; lia. }
    replace (List.length pairs <? 3)%nat with true
      by (symmetry; apply Nat.ltb_lt; lia).
    reflexivity. }
  unfold sortedRows. now rewrite sortBy_length.
Qed.

Lemma metrics_counts_and_shapes_witness :
  exists m,
    calculateMetricsAndCharts (H := ReferenceHost.host) sampleMergedRows
      (MetricsCalculator.mkOptions JUndefined) = Some (Ok m)
    /\ (rainyDays (kpis m) + nonRainyDays (kpis m) = 3)%nat
    /\ map op_date_iso (ordersOverTime (chartData m))
       = [u "2024-01-01"; u "2024-01-02"; u "2024-01-03"].
Proof.
  eexists. split; [vm_compute; reflexivity|].
  refine ((fun Hs => conj (proj1 Hs) (proj1 (proj2 Hs)))
            (metrics_counts_and_shapes ReferenceHost.host sampleMergedRows
               (MetricsCalculator.mkOptions JUndefined) _ _)).
  vm_compute; reflexivity.
Defined.

(** X20: The engine throws exactly when a row with a finite total has a
    [date_iso] that is no date: on the other rows it returns. *)
Theorem metrics_throws_exactly_on_dateless_total (H : Host)
    (mergedRows : list MergedRow) (opts : options) :
  calculateMetricsAndCharts mergedRows opts = None
  <-> exists r, In r mergedRows
                /\ Number_isFinite (total_orders r) = true
                /\ parseIsoToDate (date_iso r) = None.
Proof.
  pose proof (dowLoop_spec (enrichedRows mergedRows opts)
                (enriched_weekdays mergedRows opts)
                (repeat (0%nat, zero) 7) eq_refl) as Hdow.
  destruct mergedRows as [|r0 rest] eqn:Erows.
  - split; [discriminate|]. intros (r & [] & _).
  - rewrite <- Erows in *.
    assert (Hcalc : calculateMetricsAndCharts mergedRows opts = None
                    <-> dowLoop (enrichedRows mergedRows opts)
                          (repeat (0%nat, zero) 7) = None).
    { unfold calculateMetricsAndCharts. rewrite Erows. rewrite <- Erows.
      destruct (dowLoop (enrichedRows mergedRows opts) (repeat (0%nat, zero) 7));
        split; (discriminate || reflexivity). }
    rewrite Hcalc.
    destruct (dowLoop (enrichedRows mergedRows opts) (repeat (0%nat, zero) 7))
      as [buckets|].
    + destruct Hdow as (_ & _ & Hv). split; [discriminate|].
      intros (r & Hin & Hf & Hn). exfalso.
      destruct (enrichedRows_covers mergedRows opts r Hin) as (e & He & <-).
      now apply (Hv e He Hf).
    + destruct Hdow as (e & He & Hf & Hn). split; [|reflexivity].
      intros _. exists (row e). split; [|now split].
      now apply enrichedRows_In in He.
Qed.

End MetricsShapes.


(** ** The moving average *)

Section MovingAverages.
Import Js.
Local Open Scope Z_scope.
Import MetricsCalculator.

Lemma sumZ_app (a b : list Z) : sumZ (a ++ b) = sumZ a + sumZ b.
Proof.
  unfold sumZ. induction a as [|x a IH]; cbn [app fold_right]; [reflexivity|].
  rewrite IH. lia.
Qed.

Lemma sumZ_abs (l : list Z) : Z.abs (sumZ l) <= sumAbs l.
Proof.
  unfold sumZ, sumAbs. induction l as [|x l IH]; cbn [fold_right]; lia.
Qed.

Lemma sumAbs_nonneg (l : list Z) : 0 <= sumAbs l.
Proof. unfold sumAbs. induction l as [|x l IH]; cbn [fold_right]; lia. Qed.

Lemma sumAbs_app (a b : list Z) : sumAbs (a ++ b) = sumAbs a + sumAbs b.
Proof.
  unfold sumAbs. induction a as [|x a IH]; cbn [app fold_right]; [reflexivity|].
  rewrite IH. lia.
Qed.

Lemma sumAbs_firstn (n : nat) (l : list Z) : sumAbs (firstn n l) <= sumAbs l.
Proof.
  rewrite <- (firstn_skipn n l) at 2. rewrite sumAbs_app.
  pose proof (sumAbs_nonneg (skipn n l)). lia.
Qed.

Lemma sumAbs_skipn (n : nat) (l : list Z) : sumAbs (skipn n l) <= sumAbs l.
Proof.
  rewrite <- (firstn_skipn n l) at 2. rewrite sumAbs_app.
  pose proof (sumAbs_nonneg (firstn n l)). lia.
Qed.

Lemma rangeSum_abs (zs : list Z) (lo hi : nat) : Z.abs (rangeSum zs lo hi) <= sumAbs zs.
Proof.
  unfold rangeSum. pose proof (sumZ_abs (firstn (hi - lo) (skipn lo zs))).
  pose proof (sumAbs_firstn (hi - lo) (skipn lo zs)).
  pose proof (sumAbs_skipn lo zs). lia.
Qed.

Lemma skipn_nth (zs : list Z) (i : nat) (z : Z) (rest : list Z) :
  skipn i zs = z :: rest ->
  nth i zs 0 = z /\ skipn (S i) zs = rest /\ (i < List.length zs)%nat.
Proof.
  revert zs. induction i as [|i IH]; intros zs E.
  - destruct zs; [discriminate|]. cbn in E. injection E as -> ->.
    repeat split. cbn. lia.
  - destruct zs as [|x zs]; [discriminate|]. cbn [skipn] in E.
    destruct (IH zs E) as (Hn & Hs & Hl). repeat split; try assumption. cbn. lia.
Qed.

Lemma rangeSum_push (zs : list Z) (lo hi : nat) :
  (lo <= hi < List.length zs)%nat ->
  rangeSum zs lo (S hi) = rangeSum zs lo hi + nth hi zs 0.
Proof.
  intros Hb. unfold rangeSum.
  replace (S hi - lo)%nat with ((hi - lo) + 1)%nat by lia.
  rewrite <- (firstn_skipn (hi - lo) (firstn (hi - lo + 1) (skipn lo zs))).
  rewrite sumZ_app, firstn_firstn. replace (Nat.min (hi - lo) (hi - lo + 1)) with (hi - lo)%nat by lia.
  f_equal. rewrite skipn_firstn_comm.
  replace (hi - lo + 1 - (hi - lo))%nat with 1%nat by lia.
  rewrite skipn_skipn. replace (hi - lo + lo)%nat with hi by lia.
  destruct (skipn hi zs) as [|z rest] eqn:E.
  - apply (f_equal (@List.length Z)) in E. rewrite length_skipn in E. cbn in E. lia.
  - apply skipn_nth in E as (-> & _ & _). cbn. lia.
Qed.

Lemma rangeSum_pop (zs : list Z) (lo hi : nat) :
  (lo < hi)%nat -> (lo < List.length zs)%nat ->
  rangeSum zs lo hi = nth lo zs 0 + rangeSum zs (S lo) hi.
Proof.
  intros Hb Hl. unfold rangeSum.
  destruct (skipn lo zs) as [|z rest] eqn:E.
  - apply (f_equal (@List.length Z)) in E. rewrite length_skipn in E. cbn in E. lia.
  - apply skipn_nth in E as (-> & -> & _).
    replace (hi - lo)%nat with (S (hi - S lo)) by lia. reflexivity.
Qed.

Section MovingAverage.

Lemma movingLoop_shape (values : list num) (w : nat) :
  forall rest i sum,
    List.length (movingLoop values rest w i sum) = List.length rest
    /\ forall j, (j < List.length rest)%nat ->
         (nth j (movingLoop values rest w i sum) JUndefined = JNull
          <-> (i + j + 1 < w)%nat).
Proof.
  induction rest as [|v rest IH]; intros i sum; cbn [movingLoop List.length].
  - split; [reflexivity|]. intros j Hj. lia.
  - cbv zeta. match goal with |- context [movingLoop values rest w (S i) ?s] =>
      destruct (IH (S i) s) as [Hl Hn] end.
    split; [now rewrite Hl|].
    intros [|j] Hj; cbn [nth].
    + destruct (Nat.leb_spec (w - 1) i); split; intros E; try discriminate; try lia.
      reflexivity.
    + rewrite Hn by lia. lia.
Qed.

Lemma movingLoop_whole (zs : list Z) (w : nat) :
  sumAbs zs < 2 ^ 53 ->
  forall rest i,
    skipn i zs = rest ->
    movingLoop (map ofZ zs) (map ofZ rest) w i (ofZ (rangeSum zs (i - w) i))
    = map (fun j => if (w - 1 <=? j)%nat
                    then JNum (fdiv (ofZ (windowSum zs w j)) (ofNat w)) else JNull)
        (seq i (List.length rest)).
Proof.
  intros Hsum. induction rest as [|z rest IH]; intros i Hrest; [reflexivity|].
  destruct (skipn_nth zs i z rest Hrest) as (Hz & Hrest' & Hi).
  assert (Hsafe : forall lo hi, safeInt (rangeSum zs lo hi)).
  { intros lo hi. unfold safeInt. pose proof (rangeSum_abs zs lo hi). lia. }
  assert (Hsafe1 : forall k, safeInt (nth k zs 0)).
  { intros k. destruct (Nat.lt_ge_cases k (List.length zs)) as [Hk|Hk].
    - pose proof (Hsafe k (S k)) as Hs. rewrite rangeSum_push in Hs by lia.
      unfold rangeSum in Hs. rewrite Nat.sub_diag in Hs. cbn in Hs.
      exact Hs.
    - rewrite nth_overflow by lia. unfold safeInt. cbn. lia. }
  cbn [map movingLoop List.length seq]. cbv zeta.
  assert (Hadd : fadd (ofZ (rangeSum zs (i - w) i)) (ofZ z)
                 = ofZ (rangeSum zs (i - w) (S i))).
  { rewrite rangeSum_push by lia. rewrite Hz.
    rewrite fadd_ofZ; [reflexivity|apply Hsafe|rewrite <- Hz; apply Hsafe1|].
    rewrite <- Hz, <- rangeSum_push by lia. apply Hsafe. }
  rewrite Hadd.
  assert (Hnew : (if (w <=? i)%nat
                  then fsub (ofZ (rangeSum zs (i - w) (S i)))
                         (nth (i - w) (map ofZ zs) S754_nan)
                  else ofZ (rangeSum zs (i - w) (S i)))
                 = ofZ (rangeSum zs (S i - w) (S i))).
  { destruct (Nat.leb_spec w i) as [Hw|Hw].
    - rewrite (nth_indep _ S754_nan (ofZ 0)) by (rewrite length_map; lia).
      rewrite map_nth.
      rewrite fsub_ofZ; [|apply Hsafe|apply Hsafe1|].
      + f_equal. rewrite (rangeSum_pop zs (i - w) (S i)) by lia.
        replace (S (i - w)) with (S i - w)%nat by lia. lia.
      + rewrite (rangeSum_pop zs (i - w) (S i)) by lia.
        replace (nth (i - w) zs 0 + rangeSum zs (S (i - w)) (S i) - nth (i - w) zs 0)
          with (rangeSum zs (S (i - w)) (S i)) by lia.
        apply Hsafe.
    - f_equal. f_equal. lia. }
  rewrite Hnew. f_equal.
  - unfold windowSum. replace (i + 1)%nat with (S i) by lia. reflexivity.
  - apply (IH (S i) Hrest').
Qed.

End MovingAverage.

(** X21: The moving average keeps the length of the series; an entry is null
    exactly before the first full window, or everywhere when the series is
    shorter than the window. *)
Theorem computeMovingAverage_shape (values : list num) (w : nat) :
  List.length (computeMovingAverage values w) = List.length values
  /\ forall i, (i < List.length values)%nat ->
       (nth i (computeMovingAverage values w) JUndefined = JNull
        <-> (List.length values < w \/ i + 1 < w)%nat).
Proof.
  unfold computeMovingAverage.
  destruct (Nat.ltb_spec (List.length values) w) as [Hlt|Hge].
  - split; [apply length_map|]. intros i Hi.
    rewrite (nth_indep _ JUndefined ((fun _ : num => JNull) S754_nan))
      by (now rewrite length_map).
    rewrite (map_nth (fun _ : num => JNull) values S754_nan).
    split; [now left|reflexivity].
  - destruct (movingLoop_shape values w values 0 zero) as [Hl Hn].
    split; [exact Hl|]. intros i Hi. rewrite (Hn i Hi). cbn [Nat.add]. lia.
Qed.

(** X22: On whole numbers whose absolute values sum to less than 2^53, every
    entry of the moving average from the first full window on is the exact
    sum of its window divided by the window size: the running sum does not
    drift. *)
Theorem moving_average_of_whole_numbers (zs : list Z) (w i : nat) :
  sumAbs zs < 2 ^ 53 ->
  (w <= List.length zs)%nat -> (w - 1 <= i < List.length zs)%nat ->
  nth i (computeMovingAverage (map ofZ zs) w) JUndefined
  = JNum (fdiv (ofZ (windowSum zs w i)) (ofNat w)).
Proof.
  intros Hsum Hw Hi. unfold computeMovingAverage. rewrite length_map.
  replace (List.length zs <? w)%nat with false by (symmetry; apply Nat.ltb_ge; lia).
  pose proof (movingLoop_whole zs w Hsum zs 0%nat eq_refl) as Hrun.
  change (ofZ (rangeSum zs (0 - w) 0)) with zero in Hrun.
  rewrite Hrun.
  rewrite (nth_indep _ JUndefined
             ((fun j => if (w - 1 <=? j)%nat
                        then JNum (fdiv (ofZ (windowSum zs w j)) (ofNat w))
                        else JNull) 0%nat))
    by (now rewrite length_map, length_seq).
  rewrite (map_nth (fun j => if (w - 1 <=? j)%nat
                        then JNum (fdiv (ofZ (windowSum zs w j)) (ofNat w))
                        else JNull)).
  rewrite seq_nth by lia. cbn [Nat.add].
  now replace (w - 1 <=? i)%nat with true by (symmetry; apply Nat.leb_le; lia).
Qed.

Lemma moving_average_of_whole_numbers_witness :
  nth 3 (computeMovingAverage (map ofZ [10; 20; 30; 40]) 2) JUndefined
  = JNum (fdiv (ofZ 70) (ofNat 2)).
Proof.
  refine (moving_average_of_whole_numbers [10; 20; 30; 40] 2 3 _ _ _).
  - vm_compute; reflexivity.
  - vm_compute; lia.
  - vm_compute; lia.
Defined.

End MovingAverages.


(** ** The KPIs on whole-number totals *)

Section WholeNumberKpis.
Import Js. Import Statements.
Local Open Scope Z_scope.
Import DataMerger MetricsCalculator.

Lemma Math_round_ofZ (z : Z) : safeInt z -> Math_round (ofZ z) = ofZ z.
Proof.
  intros Hz. destruct (ofZ_integer z Hz) as (_ & _ & Hi & _ & Hfl).
  unfold Math_round. destruct (ofZ z) as [s| | |s m [|p|p]] eqn:E; try reflexivity.
  cbn [isIntegral] in Hi. apply Z.eqb_eq in Hi. cbn [floorZ] in Hfl.
  assert (Hp : 0 < 2 ^ Zpos p) by (apply Z.pow_pos_nonneg; lia).
  assert (Hm : cond_Zopp s (Zpos m) = z * 2 ^ Zpos p).
  { rewrite <- Hfl.
    assert (Hmod : cond_Zopp s (Zpos m) mod 2 ^ Zpos p = 0).
    { destruct s; cbn [cond_Zopp]; [|exact Hi].
      change (Z.neg m) with (- Zpos m). apply Z.mod_opp_l_z; [lia|exact Hi]. }
    pose proof (Z.div_mod (cond_Zopp s (Zpos m)) (2 ^ Zpos p) ltac:(lia)). lia. }
  rewrite Hm.
  replace (2 * (z * 2 ^ Z.pos p) + 2 ^ Z.pos p)
    with ((2 * z + 1) * 2 ^ Zpos p) by lia.
  replace (2 ^ (Z.pos p + 1)) with (2 * 2 ^ Z.pos p)
    by (rewrite Z.pow_add_r by lia; change (2 ^ 1) with 2; lia).
  rewrite Z.div_mul_cancel_r by lia.
  replace ((2 * z + 1) / 2) with z by (apply Z.div_unique with 1; lia).
  destruct (Z.eqb_spec z 0) as [->|Hne]; [discriminate E|]. exact E.
Qed.

Lemma sumZ_perm (a b : list Z) : Permutation a b -> sumZ a = sumZ b.
Proof.
  unfold sumZ. induction 1; cbn [fold_right]; lia.
Qed.

Lemma sumAbs_perm (a b : list Z) : Permutation a b -> sumAbs a = sumAbs b.
Proof.
  unfold sumAbs. induction 1; cbn [fold_right]; lia.
Qed.

Section WholeTotals.
Context {H : Host}.
Variable t : MergedRow -> Z.

(** The running total over rows with whole totals. *)
Lemma total_loop_whole (l : list Enriched) :
  Forall (fun e => wholeTotal t (row e)) l ->
  forall acc,
    Z.abs acc + sumAbs (map (fun e => t (row e)) l) < 2 ^ 53 ->
    fold_left
      (fun sum r =>
         fadd sum (if Number_isFinite (total_orders (row r))
                   then ToNumber (total_orders (row r)) else zero))
      l (ofZ acc)
    = ofZ (acc + sumZ (map (fun e => t (row e)) l)).
Proof.
  induction 1 as [|e l He Hl IH]; intros acc Hb; cbn [fold_left map].
  - unfold sumZ. cbn. f_equal. lia.
  - unfold sumAbs, sumZ in *. cbn [map fold_right] in *.
    pose proof (sumAbs_nonneg (map (fun e => t (row e)) l)) as Hnn.
    unfold sumAbs in Hnn.
    unfold wholeTotal in He. rewrite He. cbn [Number_isFinite ToNumber].
    destruct (ofZ_integer (t (row e))) as (-> & _); [unfold safeInt; lia|].
    rewrite fadd_ofZ by (unfold safeInt; lia).
    rewrite IH by lia. f_equal. lia.
Qed.

(** The reducer of the day with the most orders, from a best row on:
    the row it ends with, the rows before it (all with fewer orders) and the
    rows after it (none with more). *)
Lemma pick_max_whole (l : list Enriched) :
  Forall (fun e => wholeTotal t (row e) /\ safeInt (t (row e))) l ->
  forall pre b mid,
    wholeTotal t (row b) -> safeInt (t (row b)) ->
    Forall (fun e => t (row e) < t (row b)) pre ->
    Forall (fun e => t (row e) <= t (row b)) mid ->
    exists pre' b' mid',
      fold_left (pickRow total_orders js_gt) l (Some b) = Some b'
      /\ pre ++ b :: mid ++ l = pre' ++ b' :: mid'
      /\ wholeTotal t (row b')
      /\ Forall (fun e => t (row e) < t (row b')) pre'
      /\ Forall (fun e => t (row e) <= t (row b')) mid'.
Proof.
  induction 1 as [|e l [He Hs] Hl IH]; intros pre b mid Hb Hsb Hpre Hmid.
  - exists pre, b, mid. rewrite app_nil_r. repeat split; assumption.
  - cbn [fold_left pickRow].
    unfold wholeTotal in He, Hb. rewrite He, Hb.
    cbn [Number_isFinite]. destruct (ofZ_integer _ Hs) as (-> & _).
    unfold js_gt, js_lt. cbn [ToNumber andb].
    destruct (compare_ofZ (t (row b)) (t (row e)) Hsb Hs) as (_ & -> & _).
    destruct (Z.ltb_spec (t (row b)) (t (row e))) as [Hlt|Hge].
    + destruct (IH (pre ++ b :: mid) e [] He Hs) as (pre' & b' & mid' & Hf & Happ & Hrest).
      * apply Forall_app. split.
        -- eapply Forall_impl; [|exact Hpre]. cbv beta. intros; lia.
        -- constructor; [exact Hlt|].
           eapply Forall_impl; [|exact Hmid]. cbv beta. intros; lia.
      * constructor.
      * exists pre', b', mid'. split; [exact Hf|]. split; [|exact Hrest].
        rewrite <- Happ, <- !app_assoc. reflexivity.
    + destruct (IH pre b (mid ++ [e]) Hb Hsb Hpre) as (pre' & b' & mid' & Hf & Happ & Hrest).
      * apply Forall_app. split; [exact Hmid|]. now constructor.
      * exists pre', b', mid'. split; [exact Hf|]. split; [|exact Hrest].
        rewrite <- Happ, <- !app_assoc. reflexivity.
Qed.

Lemma pick_min_whole (l : list Enriched) :
  Forall (fun e => wholeTotal t (row e) /\ safeInt (t (row e))) l ->
  forall pre b mid,
    wholeTotal t (row b) -> safeInt (t (row b)) ->
    Forall (fun e => t (row b) < t (row e)) pre ->
    Forall (fun e => t (row b) <= t (row e)) mid ->
    exists pre' b' mid',
      fold_left (pickRow total_orders js_lt) l (Some b) = Some b'
      /\ pre ++ b :: mid ++ l = pre' ++ b' :: mid'
      /\ wholeTotal t (row b')
      /\ Forall (fun e => t (row b') < t (row e)) pre'
      /\ Forall (fun e => t (row b') <= t (row e)) mid'.
Proof.
  induction 1 as [|e l [He Hs] Hl IH]; intros pre b mid Hb Hsb Hpre Hmid.
  - exists pre, b, mid. rewrite app_nil_r. repeat split; assumption.
  - cbn [fold_left pickRow].
    unfold wholeTotal in He, Hb. rewrite He, Hb.
    cbn [Number_isFinite]. destruct (ofZ_integer _ Hs) as (-> & _).
    unfold js_lt. cbn [ToNumber andb].
    destruct (compare_ofZ (t (row e)) (t (row b)) Hs Hsb) as (_ & -> & _).
    destruct (Z.ltb_spec (t (row e)) (t (row b))) as [Hlt|Hge].
    + destruct (IH (pre ++ b :: mid) e [] He Hs) as (pre' & b' & mid' & Hf & Happ & Hrest).
      * apply Forall_app. split.
        -- eapply Forall_impl; [|exact Hpre]. cbv beta. intros; lia.
        -- constructor; [exact Hlt|].
           eapply Forall_impl; [|exact Hmid]. cbv beta. intros; lia.
      * constructor.
      * exists pre', b', mid'. split; [exact Hf|]. split; [|exact Hrest].
        rewrite <- Happ, <- !app_assoc. reflexivity.
    + destruct (IH pre b (mid ++ [e]) Hb Hsb Hpre) as (pre' & b' & mid' & Hf & Happ & Hrest).
      * apply Forall_app. split; [exact Hmid|]. now constructor.
      * exists pre', b', mid'. split; [exact Hf|]. split; [|exact Hrest].
        rewrite <- Happ, <- !app_assoc. reflexivity.
Qed.

End WholeTotals.

Lemma StronglySorted_app_tail {A : Type} (R : A -> A -> Prop) (a b : list A) :
  StronglySorted R (a ++ b) -> StronglySorted R b.
Proof.
  induction a as [|x a IH]; [trivial|].
  cbn [app]. intros Hs. apply StronglySorted_inv in Hs as [Hs _]. now apply IH.
Qed.

Lemma sumAbs_In (l : list Z) (z : Z) : In z l -> Z.abs z <= sumAbs l.
Proof.
  unfold sumAbs. induction l as [|x l IH]; [contradiction|].
  cbn [fold_right]. intros [->|Hin].
  - pose proof (sumAbs_nonneg l) as Hn. unfold sumAbs in Hn. lia.
  - specialize (IH Hin). lia.
Qed.

(** X23: On rows whose totals are whole numbers (their absolute values adding up
    to less than 2^53), the total of the KPIs is their exact sum, and the days
    named as the ones with the most and with the fewest orders are rows with
    the largest and the smallest total, the earliest date first among equals,
    written as the date and the total. *)
Theorem kpis_on_whole_number_totals (H : Host) (mergedRows : list MergedRow)
    (opts : options) (m : Metrics) (t : MergedRow -> Z) :
  (forall r, In r mergedRows -> wholeTotal t r) ->
  sumAbs (map t mergedRows) < 2 ^ 53 ->
  calculateMetricsAndCharts mergedRows opts = Some (Ok m) ->
  totalOrders (kpis m) = ofZ (sumZ (map t mergedRows))
  /\ exists rmax rmin,
       In rmax mergedRows /\ In rmin mergedRows
       /\ maxOrdersDay (kpis m) = JStr (dayText rmax (t rmax))
       /\ minOrdersDay (kpis m) = JStr (dayText rmin (t rmin))
       /\ (forall r, In r mergedRows -> t rmin <= t r <= t rmax)
       /\ (forall r, In r mergedRows -> t r = t rmax ->
             str_ltb (date_iso r) (date_iso rmax) = false)
       /\ (forall r, In r mergedRows -> t r = t rmin ->
             str_ltb (date_iso r) (date_iso rmin) = false).
Proof.
  intros Hwhole Hsum Hm.
  destruct mergedRows as [|r0 rest] eqn:Erows; [discriminate|].
  rewrite <- Erows in *.
  unfold calculateMetricsAndCharts in Hm. rewrite Erows in Hm. rewrite <- Erows in Hm.
  destruct (dowLoop (enrichedRows mergedRows opts) (repeat (0%nat, zero) 7))
    as [buckets|]; [|discriminate].
  injection Hm as <-. cbn [kpis totalOrders maxOrdersDay minOrdersDay].
  pose proof (enrichedRows_rows mergedRows opts) as Hrows.
  pose proof (sortBy_perm byDateIso mergedRows) as Hperm.
  fold (sortedRows mergedRows) in Hperm.
  set (enriched := enrichedRows mergedRows opts) in *.
  assert (Hin : forall e, In e enriched -> In (row e) mergedRows).
  { intros e He. apply (Permutation_in _ Hperm). rewrite <- Hrows. now apply in_map. }
  assert (Hsafe : forall r, In r mergedRows -> safeInt (t r)).
  { intros r Hr. unfold safeInt.
    pose proof (sumAbs_In (map t mergedRows) (t r) (in_map t _ _ Hr)). lia. }
  assert (Hall : Forall (fun e => wholeTotal t (row e) /\ safeInt (t (row e))) enriched).
  { apply Forall_forall. intros e He. split; [apply Hwhole|apply Hsafe]; now apply Hin. }
  assert (Hmap : map (fun e => t (row e)) enriched = map t (sortedRows mergedRows))
    by (rewrite <- Hrows, map_map; reflexivity).
  split.
  - change zero with (ofZ 0). rewrite (total_loop_whole t enriched).
    + rewrite Hmap, (sumZ_perm _ _ (Permutation_map t Hperm)).
      cbn [Z.add]. apply Math_round_ofZ. unfold safeInt.
      pose proof (sumZ_abs (map t mergedRows)). lia.
    + eapply Forall_impl; [|exact Hall]. now intros e [He _].
    + rewrite Hmap, (sumAbs_perm _ _ (Permutation_map t Hperm)). cbn. lia.
  - destruct enriched as [|e0 erest] eqn:Een.
    { exfalso. apply (f_equal (@List.length _)) in Hrows. cbn in Hrows.
      unfold sortedRows in Hrows. rewrite sortBy_length, Erows in Hrows. discriminate. }
    pose proof (Forall_inv Hall) as [He0 Hs0].
    pose proof (Forall_inv_tail Hall) as Hrest.
    cbn [fold_left]. unfold pickRow at 2 4. cbn beta iota.
    destruct (pick_max_whole t erest Hrest [] e0 [] He0 Hs0 (Forall_nil _) (Forall_nil _))
      as (pre & b & mid & Hf & Happ & Hb & Hpre & Hmid).
    destruct (pick_min_whole t erest Hrest [] e0 [] He0 Hs0 (Forall_nil _) (Forall_nil _))
      as (pre' & b' & mid' & Hf' & Happ' & Hb' & Hpre' & Hmid').
    cbn [app] in Happ, Happ'.
    rewrite Hf, Hf'.
    assert (Hsorted : StronglySorted (fun a b => byDateIso b a = false)
                        (map row (e0 :: erest))).
    { rewrite Hrows. unfold sortedRows. apply (sortBy_sorted byDateIso).
      - intros x y. apply str_ltb_asym.
      - intros x y z. apply str_leb_trans. }
    assert (Hcover : forall r, In r mergedRows -> exists e, In e (e0 :: erest) /\ row e = r).
    { intros r Hr. apply Permutation_sym in Hperm.
      apply (Permutation_in _ Hperm) in Hr. rewrite <- Hrows in Hr.
      apply in_map_iff in Hr as (e & He & Hine). now exists e. }
    exists (row b), (row b').
    assert (Hbin : In b (e0 :: erest)) by (rewrite Happ; apply in_elt).
    assert (Hbin' : In b' (e0 :: erest)) by (rewrite Happ'; apply in_elt).
    split; [now apply Hin|]. split; [now apply Hin|].
    split.
    { unfold dayLabel, dayText. unfold wholeTotal in Hb. rewrite Hb. cbn [ToString].
      rewrite numToString_ofZ by (apply Hsafe; now apply Hin). reflexivity. }
    split.
    { unfold dayLabel, dayText. unfold wholeTotal in Hb'. rewrite Hb'. cbn [ToString].
      rewrite numToString_ofZ by (apply Hsafe; now apply Hin). reflexivity. }
    rewrite !Forall_forall in Hpre, Hmid, Hpre', Hmid'.
    split; [|split].
    + intros r Hr. destruct (Hcover r Hr) as (e & He & <-). split.
      * rewrite Happ' in He. apply in_app_or in He as [He|[<-|He]];
          [specialize (Hpre' e He)|  |specialize (Hmid' e He)]; lia.
      * rewrite Happ in He. apply in_app_or in He as [He|[<-|He]];
          [specialize (Hpre e He)|  |specialize (Hmid e He)]; lia.
    + intros r Hr Heq. destruct (Hcover r Hr) as (e & He & <-).
      rewrite Happ in He, Hsorted. apply in_app_or in He as [He|[<-|He]].
      * specialize (Hpre e He). lia.
      * apply str_ltb_irrefl.
      * rewrite map_app in Hsorted. cbn [map] in Hsorted.
        apply StronglySorted_app_tail in Hsorted as Hs2.
        apply StronglySorted_inv in Hs2 as [_ Hfa]. rewrite Forall_forall in Hfa.
        apply (Hfa (row e)). now apply in_map.
    + intros r Hr Heq. destruct (Hcover r Hr) as (e & He & <-).
      rewrite Happ' in He, Hsorted. apply in_app_or in He as [He|[<-|He]].
      * specialize (Hpre' e He). lia.
      * apply str_ltb_irrefl.
      * rewrite map_app in Hsorted. cbn [map] in Hsorted.
        apply StronglySorted_app_tail in Hsorted as Hs2.
        apply StronglySorted_inv in Hs2 as [_ Hfa]. rewrite Forall_forall in Hfa.
        apply (Hfa (row e)). now apply in_map.
Qed.

Lemma kpis_on_whole_number_totals_witness :
  exists m,
    calculateMetricsAndCharts (H := ReferenceHost.host) sampleMergedRows
      (MetricsCalculator.mkOptions JUndefined) = Some (Ok m)
    /\ totalOrders (kpis m) = ofZ 310.
Proof.
  eexists. split; [vm_compute; reflexivity|].
  refine (proj1 (kpis_on_whole_number_totals ReferenceHost.host sampleMergedRows
                   (MetricsCalculator.mkOptions JUndefined) _
                   (fun r => truncNum (ToNumber (total_orders r))) _ _ _)).
  - intros r [<-|[<-|[<-|[]]]]; vm_compute; reflexivity.
  - vm_compute; reflexivity.
  - vm_compute; reflexivity.
Defined.

End WholeNumberKpis.


(** ** What a finished run stores *)

Section PipelineRuns.
Import Js. Import Statements.
Import Pipeline.

Section PipelineOutputs.
Context {H : Host}.

(** The rows of a successful merge are in strictly ascending order of date
    as the loop pushes them: the final sort moves none. *)
Lemma merge_rows_ascending (fuel : nat) (orderRows : list DataMerger.OrderRow)
    (weatherRows : list DataMerger.WeatherRow) (opts : DataMerger.options)
    (rows : list DataMerger.MergedRow) (warnings : list jsstring) :
  DataMerger.mergeOrdersWithWeather fuel orderRows weatherRows opts
    = Some (Ok (rows, warnings)) ->
  rows <> []
  /\ StronglySorted (fun a b => str_ltb a b = true) (map DataMerger.date_iso rows)
  /\ sortBy DataMerger.byDateIso rows = rows.
Proof.
  intros Hmerge. rewrite merge_result in Hmerge. cbv zeta in Hmerge.
  set (W := DataMerger.aggregateWeatherDaily weatherRows) in *.
  set (g := DataMerger.effectiveMaxGap opts) in *.
  set (daily := DataMerger.aggregateOrdersDaily orderRows) in *.
  assert (Hstrict :
            StronglySorted (fun a b => str_ltb a b = true)
              (map DataMerger.date_iso (mergedOf fuel W g daily))).
  { rewrite mergedOf_dates. apply StronglySorted_filter, aggregate_dates_strict. }
  assert (Hid : sortBy DataMerger.byDateIso (mergedOf fuel W g daily)
                = mergedOf fuel W g daily).
  { apply sortBy_sorted_id. apply StronglySorted_map in Hstrict.
    eapply StronglySorted_impl; [|exact Hstrict].
    intros a b Hab. unfold DataMerger.byDateIso. now apply str_ltb_asym. }
  rewrite Hid in Hmerge.
  destruct (DataMerger.mergeLoop fuel W g daily ([], [])) as [st|];
    [|discriminate].
  destruct (mergedOf fuel W g daily) as [|r0 rest] eqn:Em; [discriminate|].
  injection Hmerge as <- _.
  split; [discriminate|]. split; [exact Hstrict|exact Hid].
Qed.

End PipelineOutputs.

(** X24: What a finished run stores: at least one merged row, the rows in
    strictly ascending order of date, so one row per date; both chart series
    follow the merged rows, date by date in the same order; and every merged
    row is counted once, as a rainy or as a non-rainy day. *)
Theorem pipeline_done_outputs (H : Host) (fuel : nat)
    (ordersText weatherText : jsstring)
    (mergeOpts : DataMerger.options) (metricsOpts : MetricsCalculator.options)
    (o : Outputs) :
  runPipeline fuel ordersText weatherText mergeOpts metricsOpts = Done o ->
  mergedData o <> []
  /\ StronglySorted (fun a b => str_ltb a b = true)
       (map DataMerger.date_iso (mergedData o))
  /\ map MetricsCalculator.op_date_iso (MetricsCalculator.ordersOverTime (chartData o))
     = map DataMerger.date_iso (mergedData o)
  /\ map MetricsCalculator.tp_date_iso (MetricsCalculator.tempCorrelation (chartData o))
     = map DataMerger.date_iso (mergedData o)
  /\ (MetricsCalculator.rainyDays (kpis o) + MetricsCalculator.nonRainyDays (kpis o)
      = List.length (mergedData o))%nat.
Proof.
  unfold runPipeline. intros Hrun.
  destruct (CsvParser.parseCsvText ordersText _) as [po|e]; [|discriminate].
  destruct (CsvParser.parseCsvText weatherText _) as [pw|e]; [|discriminate].
  destruct (DateNormalizer.normalizeDatesInRows fuel (CsvParser.rows po) _)
    as [[[orows ows]|e]|]; [|discriminate..].
  destruct (DateNormalizer.normalizeDatesInRows fuel (CsvParser.rows pw) _)
    as [[[wrows wws]|e]|]; [|discriminate..].
  destruct (DataMerger.mergeOrdersWithWeather fuel _ _ _) as [[[merged mws]|e]|] eqn:Em;
    [|discriminate..].
  destruct (MetricsCalculator.calculateMetricsAndCharts merged metricsOpts)
    as [[metrics|e]|] eqn:Ec; [|discriminate..].
  injection Hrun as <-. cbn [mergedData kpis chartData].
  destruct (merge_rows_ascending _ _ _ _ _ _ Em) as (Hne & Hsorted & Hid).
  destruct (metrics_series _ _ _ Ec) as (_ & Hop & Htp & Hcount).
  unfold MetricsCalculator.sortedRows in Hop, Htp.
  change MetricsCalculator.byDateIso with DataMerger.byDateIso in Hop, Htp.
  rewrite Hid in Hop, Htp.
  repeat split; assumption.
Qed.

Lemma pipeline_done_outputs_witness :
  exists o,
    onLoad (H := ReferenceHost.host) 100 sampleOrdersCsv sampleWeatherCsv = Done o
    /\ mergedData o <> []
    /\ map MetricsCalculator.op_date_iso
         (MetricsCalculator.ordersOverTime (chartData o))
       = map DataMerger.date_iso (mergedData o).
Proof.
  eexists. split; [vm_compute; reflexivity|].
  refine ((fun Hs => conj (proj1 Hs) (proj1 (proj2 (proj2 Hs))))
            (pipeline_done_outputs ReferenceHost.host 100 sampleOrdersCsv
               sampleWeatherCsv (DataMerger.mkOptions JUndefined)
               (MetricsCalculator.mkOptions JUndefined) _ _)).
  vm_compute; reflexivity.
Defined.

End PipelineRuns.


(** ** Helpers of the loader *)

Section Loader.
Import Js.

Import DataLoader.
Local Open Scope Z_scope.
Local Open Scope list_scope.

Section Chunks.
Context {A : Type}.

Lemma slice_ofZ (arr : list A) (i j : Z) :
  0 <= i <= j -> safeInt j ->
  slice arr (ofZ i) (ofZ j)
  = firstn (Z.to_nat (Z.min j (Z.of_nat (List.length arr)) - Z.min i (Z.of_nat (List.length arr))))
      (skipn (Z.to_nat (Z.min i (Z.of_nat (List.length arr)))) arr).
Proof.
  intros Hij Hj. assert (Hi : safeInt i) by (unfold safeInt in *; lia).
  unfold slice.
  assert (Hto : forall z, 0 <= z -> safeInt z ->
                  ToIntegerOrInfinity (ofZ z) = Integer z).
  { intros z Hz Hs. destruct (ofZ_integer z Hs) as (Hf & _ & _ & Ht & _).
    unfold ToIntegerOrInfinity. destruct (ofZ z); try discriminate; now rewrite <- Ht. }
  rewrite (Hto i), (Hto j) by (assumption || lia).
  cbn [relativeIndex].
  replace (i <? 0) with false by lia. replace (j <? 0) with false by lia.
  reflexivity.
Qed.

(** The chunks from the index [i] on. *)
Lemma chunkLoop_spec (arr : list A) (k : Z) :
  1 <= k -> k + Z.of_nat (List.length arr) < 2 ^ 53 ->
  forall fuel i out,
    0 <= i < Z.of_nat (List.length arr) + k ->
    (Z.to_nat (Z.of_nat (List.length arr) - i) < fuel)%nat ->
    exists rest,
      chunkLoop fuel arr (ofZ k) (ofZ i) out = Some (out ++ rest)%list
      /\ List.concat rest = skipn (Z.to_nat i) arr
      /\ Forall (fun c => (1 <= List.length c)%nat /\ Z.of_nat (List.length c) <= k) rest
      /\ Forall (fun c => Z.of_nat (List.length c) = k) (removelast rest).
Proof.
  intros Hk Hbig. set (len := Z.of_nat (List.length arr)) in *.
  induction fuel as [|fuel IH]; intros i out Hi Hfuel; [lia|].
  cbn [chunkLoop]. unfold ofNat. fold len.
  assert (Hsi : i < len -> safeInt i) by (unfold safeInt; lia).
  destruct (Z.ltb_spec i len) as [Hlt|Hge].
  - destruct (compare_ofZ i len) as (_ & Hltb & _);
      [apply Hsi; lia|unfold safeInt; lia|].
    rewrite Hltb. replace (i <? len) with true by lia.
    rewrite fadd_ofZ by (unfold safeInt; lia).
    rewrite slice_ofZ by (unfold safeInt; lia). fold len.
    destruct (IH (i + k) (out ++ [firstn (Z.to_nat (Z.min (i + k) len - Z.min i len))
                                    (skipn (Z.to_nat (Z.min i len)) arr)]))
      as (rest & Hrun & Hcat & Hall & Hfull); [lia|lia|].
    rewrite Hrun, <- app_assoc. eexists. split; [reflexivity|].
    replace (Z.min i len) with i in * by lia.
    set (c := firstn (Z.to_nat (Z.min (i + k) len - i)) (skipn (Z.to_nat i) arr)) in *.
    assert (Hskip : List.length (skipn (Z.to_nat i) arr) = Z.to_nat (len - i)).
    { rewrite length_skipn. unfold len. lia. }
    assert (Hc : List.length c = Z.to_nat (Z.min (i + k) len - i)).
    { unfold c. rewrite length_firstn, Hskip. lia. }
    cbn [app List.concat]. split; [|split].
    + rewrite Hcat. unfold c.
      destruct (Z.le_ge_cases (i + k) len) as [Hle|Hgt].
      * replace (Z.min (i + k) len) with (i + k) by lia.
        replace (Z.to_nat (i + k)) with (Z.to_nat (i + k - i) + Z.to_nat i)%nat by lia.
        rewrite <- skipn_skipn. apply firstn_skipn.
      * replace (Z.min (i + k) len) with len by lia.
        rewrite (skipn_all2 (n := Z.to_nat (i + k))) by (unfold len in *; lia).
        rewrite app_nil_r. apply firstn_all2. rewrite Hskip. lia.
    + constructor; [rewrite Hc; lia|exact Hall].
    + destruct rest as [|c' rest']; [constructor|].
      cbn [removelast]. constructor; [|exact Hfull].
      rewrite Hc.
      destruct (Z.le_ge_cases (i + k) len) as [Hle|Hgt]; [lia|].
      exfalso. rewrite (skipn_all2 (n := Z.to_nat (i + k))) in Hcat
        by (unfold len in *; lia).
      inversion Hall as [|? ? [Hne _] _]; subst. cbn in Hcat.
      destruct c'; [cbn in Hne; lia|discriminate].
  - assert (Hlenb : fltb (ofZ i) (ofZ len) = false).
    { destruct (Z_lt_le_dec i (2 ^ 53)) as [Hs|Hs].
      - destruct (compare_ofZ i len) as (_ & Hltb & _);
          [unfold safeInt; lia|unfold safeInt; lia|].
        rewrite Hltb. lia.
      - exfalso. unfold len in *. lia. }
    rewrite Hlenb. exists []. rewrite app_nil_r. split; [reflexivity|].
    split; [|split; constructor].
    cbn. symmetry. apply skipn_all2. unfold len in *. lia.
Qed.

End Chunks.

Lemma Math_floor_ofZ (n : Z) : safeInt n -> Math_floor (ofZ n) = ofZ n.
Proof.
  intros Hn. destruct (ofZ_integer n Hn) as (_ & _ & _ & _ & Hfl).
  unfold Math_floor. destruct (ofZ n) as [s| | |s m [|p|p]] eqn:E; try reflexivity.
  rewrite Hfl. destruct (Z.eqb_spec n 0) as [->|Hne]; [discriminate E|].
  exact E.
Qed.

Lemma ofZ_not_nan (n : Z) : safeInt n -> isNaN (ofZ n) = false.
Proof.
  intros Hn. destruct (ofZ_integer n Hn) as (Hf & _).
  now destruct (ofZ n).
Qed.

Lemma safeSizeOf_ofZ (n : Z) : safeInt n -> safeSizeOf (ofZ n) = ofZ (Z.max 1 n).
Proof.
  intros Hn. unfold safeSizeOf, Math_max. rewrite (Math_floor_ofZ n Hn).
  assert (H1 : safeInt 1) by (unfold safeInt; cbn; lia).
  rewrite (ofZ_not_nan n Hn). change (isNaN (ofZ 1)) with false. cbn [orb].
  destruct (compare_ofZ 1 n H1 Hn) as (_ & -> & _).
  destruct (compare_ofZ n 1 Hn H1) as (_ & -> & _).
  destruct (Z.ltb_spec 1 n); [now rewrite Z.max_r by lia|].
  destruct (Z.ltb_spec n 1); [now rewrite Z.max_l by lia|].
  replace n with 1 by lia. reflexivity.
Qed.

(** X25: With a whole number as the size, the loop of [chunkArray] ends within
    one test more than the array has elements, and the chunks it returns
    partition the array: put end to end they give it back, none is empty,
    and each holds the size (at least 1) of elements, the last one possibly
    fewer. *)
Theorem chunkArray_partitions {A : Type} (arr : list A) (n : Z) (fuel : nat) :
  safeInt n -> Z.max 1 n + Z.of_nat (List.length arr) < 2 ^ 53 ->
  (List.length arr < fuel)%nat ->
  exists chunks,
    chunkArray fuel arr (ofZ n) = Some chunks
    /\ List.concat chunks = arr
    /\ Forall (fun c => (1 <= List.length c)%nat
                        /\ Z.of_nat (List.length c) <= Z.max 1 n) chunks
    /\ Forall (fun c => Z.of_nat (List.length c) = Z.max 1 n) (removelast chunks).
Proof.
  intros Hn Hbig Hfuel. unfold chunkArray. rewrite (safeSizeOf_ofZ n Hn).
  destruct (chunkLoop_spec arr (Z.max 1 n) ltac:(lia) Hbig fuel 0 [])
    as (rest & Hrun & Hrest); [lia|lia|].
  exists rest. split; [exact Hrun|exact Hrest].
Qed.

Lemma chunkArray_partitions_witness :
  exists chunks,
    chunkArray 6 [1; 2; 3; 4; 5]%nat (ofZ 2) = Some chunks
    /\ List.concat chunks = [1; 2; 3; 4; 5]%nat
    /\ Forall (fun c => (1 <= List.length c)%nat
                        /\ Z.of_nat (List.length c) <= Z.max 1 2) chunks
    /\ Forall (fun c => Z.of_nat (List.length c) = Z.max 1 2) (removelast chunks).
Proof.
  refine (chunkArray_partitions [1; 2; 3; 4; 5]%nat 2 6 _ _ _).
  - vm_compute; reflexivity.
  - vm_compute; reflexivity.
  - vm_compute; lia.
Defined.

Section Location.
Context {H : Host}.

Lemma trim_idempotent (s : jsstring) : trim (trim s) = trim s.
Proof.
  destruct (trim s) as [|c r] eqn:E; [reflexivity|].
  destruct (trim_no_outer_space s c r E) as [Hc Hl].
  unfold trim, trimEnd.
  rewrite (trimStart_id (c :: r)) by (now left).
  rewrite trimStart_id; [apply rev_involutive|]. left.
  destruct (rev (c :: r)) as [|y t] eqn:Er.
  - apply (f_equal (@List.length N)) in Er. rewrite length_rev in Er. discriminate.
  - assert (Hlast : last (c :: r) c = y).
    { rewrite <- (rev_involutive (c :: r)), Er. cbn [rev]. apply last_last. }
    cbn [hd]. now rewrite <- Hlast.
Qed.

(** X26: The default location is a trimmed text, never the region alias in any
    letter case (the alias is replaced by its city), and unchanged by a
    second pass; it is empty exactly for a city that is absent or blank. *)
Theorem defaultLocationFromCity_normal_form (city : jsval) :
  let loc := defaultLocationFromCity city in
  trim loc = loc
  /\ str_eqb (toLowerCase loc) (u "delhi ncr") = false
  /\ defaultLocationFromCity (JStr loc) = loc
  /\ (loc = [] <-> trim (if isNullish city then [] else ToString city) = []).
Proof.
  cbv zeta. remember (defaultLocationFromCity city) as loc eqn:Eloc.
  unfold defaultLocationFromCity in Eloc. cbv zeta in Eloc.
  set (s := trim (if isNullish city then [] else ToString city)) in *.
  assert (Hs : trim s = s) by apply trim_idempotent.
  destruct s as [|c r] eqn:Es.
  { subst loc. repeat split; reflexivity. }
  rewrite <- Es in *.
  destruct (str_eqb (toLowerCase s) (u "delhi ncr")) eqn:El.
  - subst loc. split; [reflexivity|]. split; [reflexivity|]. split; [reflexivity|].
    split; [discriminate|]. rewrite Es. discriminate.
  - assert (Hloc : loc = s) by (now rewrite Eloc, Es). rewrite Hloc.
    split; [exact Hs|]. split; [exact El|]. split.
    + unfold defaultLocationFromCity. cbn [isNullish ToString]. rewrite Hs.
      rewrite El. now rewrite Es.
    + rewrite Es. split; discriminate.
Qed.

End Location.

End Loader.

(* ================================================================== *)
(** * C8: two runs of the pipeline *)
(* ================================================================== *)

Section TimeZones.
Import Js. Import Statements.
Local Open Scope Z_scope.
Import DateNormalizer.








(** ** Two hosts that differ in their time zone only *)

Section TwoZones.
Variables (n : num -> jsstring) (f : jsstring -> jsstring).
Variables (p1 p2 : jsstring -> option Z) (tz1 tz2 : Z -> bool -> Z).
Variable b1 : forall t isUTC, Z.abs (tz1 t isUTC) < 86400000.
Variable b2 : forall t isUTC, Z.abs (tz2 t isUTC) < 86400000.

Local Abbreviation h1 := (Build_Host n p1 tz1 b1 f).
Local Abbreviation h2 := (Build_Host n p2 tz2 b2 f).

Hypothesis HC1 : keepsCivilDays h1.
Hypothesis HC2 : keepsCivilDays h2.


Lemma dateText_zone (dk : jsstring) (r : obj) :
  dateText (H := h1) dk r = dateText (H := h2) dk r.
Proof. reflexivity. Qed.
















End TwoZones.




End TimeZones.
